(* ===== verification/_CoqProject ===== *)
-Q . S2P
Prelude.v
CString.v
Dll.v
EventLoop.v
Debug.v
Options.v
EventLoopProofs.v
WatchProofs.v
Agenda.v
AgendaProofs.v
Handler.v
HandlerProofs.v
Messages.v
TpProtocol.v
TpProofs.v
StateMachine.v
SendProofs.v
Contract.v
MachineProofs.v
TurnProofs.v
SmTest.v
SmTestProofs.v
HandlerTest.v
Race.v
RaceProofs.v
World.v
UpilApi.v
Receive.v
ReceiveProofs.v
HidTools.v
HidToolsProofs.v
Ril.v
Monitor.v
UpilSm.v
UpilSmProofs.v
Commands.v
Daemon.v
RunProofs.v
EffectProofs.v
DeviceProofs.v
Ctrl.v
CtrlProofs.v
AtTok.v
AtChannel.v
ReadlineProofs.v
ChannelProofs.v
AtTime.v
RilTelephone.v
ClccProofs.v
RilTelephoneProofs.v
Pcm.v
PcmIo.v
PcmProofs.v
Mixer.v
MixerProofs.v
MixerTool.v
Resampler.v
ResamplerProofs.v
EchoReference.v
EchoProofs.v
UsbAudio.v
UsbAudioProofs.v
Wav.v
WavProofs.v
HostAudio.v
HostAudioProofs.v
AudioThreads.v
AudioThreadsProofs.v
HostPrograms.v
HostTools.v
TinyTools.v
TinyToolsProofs.v
CallAudio.v
CallAudioProofs.v
Scenario.v
CallScenario.v
TestScenario.v
