(* ===== verification/Prelude.v ===== *)
(** * UPIL: the USB phone interface layer, verified

    UPIL is a daemon for Android and the libraries around it.  A telephone
    that hangs on USB as a HID device is driven by a state machine; clients
    and the telephony framework of Android see the telephone through sockets.
    This library models the C sources of the daemon, of its client library,
    of the radio interface layer (src/ril-telephone) and of the audio library
    (src/upil_audio), and proves what they do.

    ** The program and its model

    The components, from the device to the framework; each file is a model of
    the source it names, function by function and under the names of the
    source, and a file *Proofs has its properties.

    - Dll, EventLoop (src/upil_event/upil_event.c, upil_event_wrapper.c): an
      event loop on [select], with a watch table, a sorted ring of timers and
      a ring of pending events.  [upil_event_loop] is a sequence of
      [loop_turn]s, each with the answer of one [select].  Agenda says what a
      loop promises, without its rings and masks.
    - Debug, Options (src/upil_debug.c, src/include/upil_debug.h): the log,
      with the lines of bytes; and [getopt], as the programs use it.
    - Handler (src/state_machine/handler.c): queues of messages on a heap.
      Sending a message sets a timer in the loop of the handler, whose
      callback processes the message.  Race has the same functions as
      programs of single accesses to memory, for two threads at one queue.
    - StateMachine (src/state_machine/state_machine.c): a table of states
      with functions on entry and for each message; a change of state is a
      message itself, [UPIL_EVT_SM_TRANSITION].
    - Messages (src/include/upil_request.h, src/tp_protocol.h, src/upil_sm.h):
      the numbers of the messages, with their values.
    - TpProtocol, Receive (src/tp_protocol.c): commands to the device and its
      reports, PDUs that are cut into lines of eight bytes.
    - UpilSm, UpilApi (src/upil_sm.c): the machine of the telephone with its
      states offline, syncing, idle, dialing, incoming, conversation and
      memo, and the functions by which the rest of the daemon asks it.
    - HidTools (src/upil_tools/hidtool.c, hiddump.c): the tools that send
      lines to the device and show the ones it sends.
    - Commands, Monitor, Ril (src/upil_command.c, upil_monitor.c, upil_ril.c):
      the sockets for clients, for reports, and for AT commands.
    - World, Daemon (src/upil.c): the static variables of the whole daemon,
      its start with its options and its wait for the device, and the
      callbacks of its two loops: the loop of the machine delivers messages,
      the main loop watches the device and the sockets.
    - Ctrl (src/upil_ctrl.c, upil_client.c): the library of the clients.
    - AtTok, AtChannel, RilTelephone (src/ril-telephone/at_tok.c,
      atchannel.c, ril-telephone.c): the radio layer.  It sends AT commands
      to the daemon, reads the lines of its answers, and completes the
      requests of the framework.  AtTime has the absolute times of the
      channel, in the build that waits by [pthread_cond_timedwait].
    - Pcm, PcmIo (src/upil_audio/usb_audio_pcm.c, first half): a stream of
      the ALSA driver, by ioctl or through a ring buffer that is shared with
      the driver.
    - Mixer (src/upil_audio/mixer.c): the controls of a sound card; MixerTool
      (src/upil_tools/host_audio/tinymix.c): the program that shows and sets
      them.
    - Resampler, EchoReference (src/upil_audio/audio_utils/resampler.c,
      echo_reference.c): the wrapper of the speex resampler and the queue of
      what is played, aligned with what is captured.  The echo reference is
      the provider of the input of its resampler; ResamplerProofs states what
      a provider promises as the class [Provides].
    - UsbAudio (src/upil_audio/usb_audio_pcm.c, second half): stream, mixer
      and resampler together; Wav (src/upil_audio/uacap.c, uaplay.c): the
      programs that record and play a file with them.
    - HostAudio, AudioThreads (src/upil_audio/upil_audio.cpp): the sound of a
      call.  Four threads copy between the sound card, the host and files; a
      caller starts and stops them.  The classes of Android are arguments.
      HostPrograms (acap.cpp, aplay.cpp) and HostTools
      (src/upil_tools/host_audio/hplay.cpp, hcap.cpp): the programs over them.
    - TinyTools (src/upil_tools/host_audio/tinycap.c, tinyplay.c, mycap.c,
      myplay.c): the programs for libtinyalsa, whose functions are arguments.
    - CallAudio (src/upil_sm.c with src/upil_audio/upil_audio.cpp): the
      machine of the telephone and the threads of the sound together.  The
      machine's handlers begin calls of the sound, and a thread that ends
      calls [begin_record] or [end_record], which send the machine a message.
    - SmTest, HandlerTest (src/upil_test/sm_test.c, upil_test.c,
      handler_test.c): the test programs, of which the first has a machine of
      its own.
    - Scenario, CallScenario, TestScenario: the whole daemon at work on
      concrete inputs, a call with its sound, and the test programs.

    ** How C is modelled

    A C function is a function in the monad [M S] of this file: from a state
    to a result and a state, or to a [fault].  Faults are the undefined
    behaviour of C that the sources can run into (a NULL or dangling pointer,
    an access outside of an array, a failing assertion), and a thread that
    waits for ever.  So a theorem that an operation is [Ok] says that it
    terminates and touches nothing it must not.  A component is a part of the
    state of its client by a [Lens] with laws, and [zoom] runs it there; its
    lemmas are stated once and apply wherever it is embedded.

    Structs are records with the fields of the source.  Pointers that the
    code follows are addresses into finite maps, with an address that is
    never given out twice for an allocation: a use after the release is the
    fault [Dangling].  Linked lists are links in such a map, not sequences;
    [Dll.ring] says which sequence a ring holds.  Arrays of bytes are lists
    of their declared length, accessed by [read_at], [write_at] and [blit],
    which check the bounds.  Integers are [Z], with [wrapS] and [wrapU] where
    the source can leave its width.  C strings and the functions of the C
    library on them are in CString.

    What comes from outside is an argument or a part of the state: the clock
    ([now]), the results of [select], [read], [recv], [accept], [write] and
    [malloc], and the lines that arrive while a command waits ([sched]).
    Everything that goes out is recorded in order ([out], [written], [rout],
    [cl_out]).  The drivers of the audio devices and the library speex are
    functions that are arguments: a driver answers to the requests it has got
    so far, so it may do anything that depends on them.  Memory from malloc
    has cells that were never written, and their use is the fault [Uninit].

    ** What is proved

    - EventLoopProofs, WatchProofs: the rings stay well formed and sorted,
      exactly the expired timers become pending, in order, and the pending
      events are called in order; the watch table agrees with [readFds] and
      [nfds].
    - AgendaProofs: every operation of the loop, and a turn of it with what
      its callbacks do, is a step of the abstract agenda: timers by their
      deadlines, slots, and calls of what is due or readable.
    - Debug: a line of bytes is written when it fits its array, and overruns
      it when it does not; so does the nesting of the log.
    - HandlerProofs, SendProofs: the invariant of a handler, and what
      sending, refusing, cancelling and deferring of messages do to it.
    - RaceProofs: in every interleaving of the accesses a message is put on a
      queue and another is taken off as if one after the other, when they do
      not meet at its end, but for the count of the messages; and what the
      interleavings do in which the threads meet, or a count is lost.
    - Contract, MachineProofs, TurnProofs: the framework of machines, for any
      table of states that [Fulfils] a contract, which is the interface
      between it and its clients.  A machine at rest ([machine_rest]) processes
      its next message without a fault, releases it, and changes its state as
      the message asks; every reachable machine ([machine_run]) is at rest; and
      a turn of the real loop is a sequence of the steps of a run, which serves
      all that is due.  Its only faults are a message without a name, a next
      message that a callback cancels, and a device that does not confirm what
      it was sent ([turn_fault]; the class [Outside] says what confirming is).
    - UpilSmProofs, RunProofs: the telephone fulfils its contract [telephone];
      so every reachable telephone ([run]: its start, and any sequence of
      sends, clock changes, expirations, deliveries and turns) is well formed,
      processes its messages, serves what is due, and asks for states along
      [diagram] alone.  The specification of a message is the function
      [next_state].  SmTestProofs: the test program fulfils its own contract.
    - EffectProofs, DeviceProofs: what a message does outside of the machine
      follows from what the entries and the handlers of the states do, for
      any notion of [Effect]; for the device these are the commands of
      [message_commands], which [run_commands] runs one after the other.
    - TpProofs, ReceiveProofs: what is cut into lines is put together again,
      the requests become the lines of their PDUs, and the bounds outside of
      which a buffer is overrun.  HidToolsProofs: the tools send and show the
      same lines.
    - ReadlineProofs, ChannelProofs: the reader sees the lines of the stream
      however it is cut; a command gets its own response and leaves nothing
      pending; AtTime: when the wait of the handshake is one that ends.
    - ClccProofs, RilTelephoneProofs, CtrlProofs: the components together.
      A call of the daemon is the call the framework is told of, a number
      that is dialled is the one the machine gets, and every request of the
      framework is answered once, with an answer of the type of its request;
      the main loop opens the channel again after it was lost.
    - PcmProofs: against counters that do not wrap, what is written into the
      ring buffer is in the places of the next frames and nothing else
      changes, for any driver that plays ([driver_plays]); a transfer gives
      the data to the driver once; an opened stream has an empty ring.
    - MixerProofs: memory and descriptor are balanced whatever fails on the
      way, and values, percentages and names of items are read back as they
      were set, or how not.
    - ResamplerProofs, EchoProofs: no sample is lost, repeated or reordered
      between a provider and speex; the echo reference is a queue, and a
      reader gets what the reference function [aligned] makes of it.
    - HostAudioProofs, AudioThreadsProofs: what is written to the host arrives
      in order; in every interleaving of the threads what they use is open;
      a stop ends those past their start under every schedule; a file is played
      in order as far as the card takes it, and a recording is what was captured,
      however it ends; and the interleavings in which a
      request is lost or a stopped thread goes on.
    - CallAudioProofs: a run of machine and sound together is a run of the
      machine, whose theorems hold in it, and of the sound; which calls of the
      sound a message makes (the other [Effect]); and an idle machine has its sound stopped, or
      stops it with its next call, after which every thread ends.
    - MixerTool, HostTools: a control that is set from the command line has
      the value in all its channels, and a file is played from its beginning
      to its end.  TinyToolsProofs: what one program for tinyalsa records the
      other plays; mycap drops every second sample of one channel.
    - UsbAudioProofs, WavProofs: the audio components together, down to the
      bytes the driver gets, and up to a recording that can be played.
    - Scenario: calls from the start of the daemon to their end, and the
      places where the code does not do what it means to.

    ** Fuel

    Loops over a list in memory have a bound on their turns: one more than
    the number of links in the map ([EventLoop.walk_fuel],
    [Handler.queue_fuel]), enough because a ring has no node twice.  The
    loops of [readline] have the length of the stream and of the buffer,
    [wait_response] that of its schedule, the radio state
    [setRadioState_n] two turns.  A transfer into the ring has a turn for
    each frame, [write_frames] two turns, and the resampler one turn more
    than the samples of its provider; [grow_boundary] has 33, more than an
    [unsigned] can be doubled.  The loops that wait for a driver to make
    progress ([pcm_wait], [read_frames], [mmap_write_loop]) end when it does,
    and have the bound as an argument; the transfers to the host end after
    the 99 chances of the code.  [OutOfFuel] is a fault, so the
    theorems that an operation is [Ok] show that the bounds are enough.

    ** What is not modelled

    - The parallel run of threads of the daemon.  The operations of a loop
      hold its mutex and are single steps; a turn of one loop is not
      interleaved with a turn of the other, but for the accesses to a message
      queue, which has no lock (Race).  The threads of the AT channel
      are interleaved where the code waits on a condition variable, and only
      there; those of a call where they access [s_audio_running], not at
      [s_track_ready].
    - The arrays of the conversions of a USB card are shared by its streams in
      the code and are fields of each stream here: what two streams that convert
      at once do to each other is an example only (streams_share_arrays).  The
      step of a handler of the machine is taken whole before the calls of the
      sound it makes begin (CallAudio).
    - The calls of the log in the rest of the code, the texts of errors, and
      the functions that only dump a structure to the log.  The formats of
      printf are applied before [upil_printf] gets the text.
    - Signals, other than as the end of the turns of a program.
    - Release of memory that is not used again, except of messages, of the
      mixer and of the responses of the AT channel.
    - In the audio library the size of a buffer in bytes is taken to fit a
      [size_t], and the echo reference and the resampler do not fail to
      allocate (the code does not test it).  A copy between overlapping parts
      of the echo reference is the fault [Overlap].
    - src/upil_tools/host_audio: usb_audio_pcm.c, uacap.c and uaplay.c are
      older copies of files of src/upil_audio (mixer.c is the same file), which
      the build does not use: it does not read Android.mk.org. *)

From stdpp Require Export base tactics option list list_numbers numbers gmap.
From stdpp Require Import strings.
From Stdlib Require Export ZArith Lia.

#[global] Open Scope Z_scope.

(** ** Outcomes of a C computation *)

(** What stops a computation that has no defined result.  [OutOfFuel] is not
    a C fault: it is the bound on a loop running out, and the theorems that
    state a result also state that it does not happen. *)
Inductive fault : Type :=
  | NullDeref    (* a NULL pointer is dereferenced *)
  | Dangling     (* a pointer to released or never allocated memory is used *)
  | Overrun      (* an access outside the bounds of an array *)
  | Overlap      (* memcpy between places that overlap *)
  | Uninit       (* memory that was never written is used *)
  | DivByZero    (* an integer division by zero *)
  | Blocked      (* the thread waits for ever *)
  | Aborted      (* an assertion fails *)
  | OutOfFuel.   (* the bound of a loop is reached *)

Inductive res (A : Type) : Type :=
  | Ok (a : A)
  | Err (f : fault).
Arguments Ok {A} a.
Arguments Err {A} f.

#[export] Instance fault_eq_dec : EqDecision fault.
Proof. solve_decision. Defined.

#[export] Instance res_ret : MRet res := λ A a, Ok a.
#[export] Instance res_bind : MBind res := λ A B f m,
  match m with Ok a => f a | Err e => Err e end.

Definition is_ok {A} (r : res A) : bool := match r with Ok _ => true | Err _ => false end.

(** [deref o] is the use of a possibly NULL pointer. *)
Definition deref {A} (o : option A) : res A :=
  match o with Some a => Ok a | None => Err NullDeref end.

(** [live o] is the look-up of an address in a store. *)
Definition live {A} (o : option A) : res A :=
  match o with Some a => Ok a | None => Err Dangling end.

(** ** The state monad of C code *)

(** [M S A]: code that returns an [A], may change the state [S], and may hit
    undefined behaviour. *)
Definition M (S A : Type) : Type := S → res (A * S).

#[export] Instance M_ret S : MRet (M S) := λ A a s, Ok (a, s).
#[export] Instance M_bind S : MBind (M S) := λ A B f m s,
  match m s with Ok (a, s') => f a s' | Err e => Err e end.

Definition get {S} : M S S := λ s, Ok (s, s).
Definition gets {S A} (f : S → A) : M S A := λ s, Ok (f s, s).
Definition put {S} (s : S) : M S unit := λ _, Ok (tt, s).
Definition modify {S} (f : S → S) : M S unit := λ s, Ok (tt, f s).
Definition fail {S A} (e : fault) : M S A := λ _, Err e.
(** A result computed without the state. *)
Definition lift {S A} (r : res A) : M S A := λ s,
  match r with Ok a => Ok (a, s) | Err e => Err e end.
Definition skip {S} : M S unit := mret tt.
Definition when {S} (b : bool) (m : M S unit) : M S unit := if b then m else skip.

(** Running [m] on a part of a larger state. *)
Class Lens (W A : Type) := {
  lget : W → A;
  lset : A → W → W;
}.

Class LensLaws (W A : Type) `{Lens W A} : Prop := {
  lget_lset : ∀ a w, lget (lset a w) = a;
  lset_lget : ∀ w, lset (lget w) w = w;
  lset_lset : ∀ a b w, lset a (lset b w) = lset a w;
}.

Definition zoom {W A B} `{Lens W A} (m : M A B) : M W B := λ w,
  match m (lget w) with Ok (b, a) => Ok (b, lset a w) | Err e => Err e end.

(** *** Total correctness *)

(** [wp m s Q]: run from [s], [m] returns without a fault, in a state and
    with a result that satisfy [Q]. *)
Definition wp {S A} (m : M S A) (s : S) (Q : A → S → Prop) : Prop :=
  match m s with Ok (a, s') => Q a s' | Err _ => False end.

Section wp.
Context {S A B : Type}.
Implicit Types (s : S) (Q : A → S → Prop) (P : B → S → Prop).

Lemma wp_ret (a : A) s Q : Q a s → wp (mret a) s Q.
Proof. done. Qed.

Lemma wp_bind (m : M S A) (k : A → M S B) s P :
  wp m s (λ a s', wp (k a) s' P) → wp (m ≫= k) s P.
Proof. unfold wp, mbind, M_bind. by destruct (m s) as [[a s']|]. Qed.

Lemma wp_mono (m : M S A) s Q Q' :
  wp m s Q → (∀ a s', Q a s' → Q' a s') → wp m s Q'.
Proof. unfold wp. destruct (m s) as [[a s']|]; eauto. Qed.

Lemma wp_ok (m : M S A) s a s' Q : m s = Ok (a, s') → Q a s' → wp m s Q.
Proof. unfold wp. by intros ->. Qed.

Lemma wp_inv (m : M S A) s Q : wp m s Q → ∃ a s', m s = Ok (a, s') ∧ Q a s'.
Proof. unfold wp. destruct (m s) as [[a s']|]; [eauto|done]. Qed.

Lemma wp_gets (f : S → A) s Q : Q (f s) s → wp (gets f) s Q.
Proof. done. Qed.

Lemma wp_modify (f : S → S) s (P' : unit → S → Prop) : P' tt (f s) → wp (modify f) s P'.
Proof. done. Qed.

Lemma wp_skip s (P' : unit → S → Prop) : P' tt s → wp skip s P'.
Proof. done. Qed.

Lemma wp_lift (r : res A) a s Q : r = Ok a → Q a s → wp (lift r) s Q.
Proof. unfold wp, lift. by intros ->. Qed.

Lemma wp_when (b : bool) (m : M S unit) s (P' : unit → S → Prop) :
  (b = true → wp m s P') → (b = false → P' tt s) → wp (when b m) s P'.
Proof. intros H1 H2. destruct b; [by apply H1|by apply H2]. Qed.
End wp.

Lemma wp_get {S} (s : S) Q : Q s s → wp get s Q.
Proof. done. Qed.

Lemma wp_zoom {W A B} `{Lens W A} (m : M A B) (w : W) Q :
  wp m (lget w) (λ b a, Q b (lset a w)) → wp (zoom m) w Q.
Proof. unfold wp, zoom. by destruct (m (lget w)) as [[b a]|]. Qed.

Lemma zoom_ok {W A B} `{Lens W A} (m : M A B) (w : W) b a :
  m (lget w) = Ok (b, a) → zoom m w = Ok (b, lset a w).
Proof. unfold zoom. by intros ->. Qed.

(** Code that only reads its part. *)
Lemma zoom_read {W A B} `{LensLaws W A} (m : M A B) (w : W) b :
  m (lget w) = Ok (b, lget w) → zoom m w = Ok (b, w).
Proof. unfold zoom. intros ->. by rewrite lset_lget. Qed.

Lemma zoom_bind {W A B C} `{LensLaws W A} (m : M A B) (k : B → M A C) (w : W) :
  zoom (m ≫= k) w = (b ← zoom m; zoom (k b)) w.
Proof.
  unfold zoom, mbind, M_bind. destruct (m (lget w)) as [[b a]|e]; [|done].
  rewrite lget_lset. destruct (k b a) as [[c a']|e]; [|done]. by rewrite lset_lset.
Qed.

Lemma bind_ok {S A B} (m : M S A) (k : A → M S B) s a s' :
  m s = Ok (a, s') → (m ≫= k) s = k a s'.
Proof. unfold mbind, M_bind. by intros ->. Qed.

Lemma bind_err {S A B} (m : M S A) (k : A → M S B) s e : m s = Err e → (m ≫= k) s = Err e.
Proof. unfold mbind, M_bind. by intros ->. Qed.

(** The steps of straight-line code. *)
Lemma bind_get {S A} (k : S → M S A) s : (get ≫= k) s = k s s.
Proof. done. Qed.
Lemma bind_gets {S A B} (f : S → A) (k : A → M S B) s : (gets f ≫= k) s = k (f s) s.
Proof. done. Qed.
Lemma bind_ret {S A B} (a : A) (k : A → M S B) s : (mret a ≫= k) s = k a s.
Proof. done. Qed.
Lemma bind_modify {S A} (f : S → S) (k : unit → M S A) s : (modify f ≫= k) s = k tt (f s).
Proof. done. Qed.
Lemma bind_when {S A} (b : bool) (m : M S unit) (k : unit → M S A) s :
  (when b m ≫= k) s = if b then (m ≫= k) s else k tt s.
Proof. by destruct b. Qed.
Lemma bind_lift {S A B} (r : res A) (k : A → M S B) s a : r = Ok a → (lift r ≫= k) s = k a s.
Proof. by intros ->. Qed.

Lemma bind_inv {S A B} (m : M S A) (k : A → M S B) s b s'' :
  (m ≫= k) s = Ok (b, s'') → ∃ a s', m s = Ok (a, s') ∧ k a s' = Ok (b, s'').
Proof. unfold mbind, M_bind. destruct (m s) as [[a s']|]; [eauto|done]. Qed.

(** ** Machine integers *)

(** The value of [x] stored in an unsigned object of [w] bits, and in a
    two's complement one. *)
Definition wrapU (w x : Z) : Z := x mod 2 ^ w.
Definition wrapS (w x : Z) : Z := (x + 2 ^ (w - 1)) mod 2 ^ w - 2 ^ (w - 1).

Abbreviation u8 := (wrapU 8).
Abbreviation u32 := (wrapU 32).
Abbreviation s32 := (wrapS 32).

Definition INT_MAX : Z := 2147483647.
Definition INT_MIN : Z := -2147483648.

Lemma wrapU_range w x : 0 < w → 0 ≤ wrapU w x < 2 ^ w.
Proof. intros. apply Z.mod_pos_bound, Z.pow_pos_nonneg; lia. Qed.

Lemma u8_range x : 0 ≤ u8 x < 256.
Proof. apply (wrapU_range 8). lia. Qed.

Lemma u32_range x : 0 ≤ u32 x < 4294967296.
Proof. apply (wrapU_range 32). lia. Qed.

Lemma u8_small x : 0 ≤ x < 256 → u8 x = x.
Proof. intros. unfold wrapU. by rewrite Z.mod_small by lia. Qed.

Lemma u32_small x : 0 ≤ x < 4294967296 → u32 x = x.
Proof. intros. unfold wrapU. by rewrite Z.mod_small by lia. Qed.

Lemma s32_range x : INT_MIN ≤ s32 x ≤ INT_MAX.
Proof.
  unfold wrapS, INT_MIN, INT_MAX.
  pose proof (Z.mod_pos_bound (x + 2 ^ (32 - 1)) (2 ^ 32) ltac:(lia)). lia.
Qed.

Lemma s32_small x : INT_MIN ≤ x ≤ INT_MAX → s32 x = x.
Proof. unfold wrapS, INT_MIN, INT_MAX. intros. rewrite Z.mod_small; lia. Qed.

(** ** Arrays *)

Definition len {A} (l : list A) : Z := Z.of_nat (length l).

Lemma len_nil {A} : len (@nil A) = 0.
Proof. done. Qed.
Lemma len_cons {A} (x : A) l : len (x :: l) = 1 + len l.
Proof. unfold len. simpl length. lia. Qed.
Lemma len_app {A} (l k : list A) : len (l ++ k) = len l + len k.
Proof. unfold len. rewrite length_app. lia. Qed.
Lemma len_nonneg {A} (l : list A) : 0 ≤ len l.
Proof. unfold len. lia. Qed.
Lemma len_replicate {A} n (x : A) : len (replicate n x) = Z.of_nat n.
Proof. unfold len. by rewrite length_replicate. Qed.
Lemma len_fmap {A B} (f : A → B) l : len (f <$> l) = len l.
Proof. unfold len. by rewrite length_fmap. Qed.
Lemma len_take {A} n (l : list A) : len (take n l) = Z.min (Z.of_nat n) (len l).
Proof. unfold len. rewrite length_take. lia. Qed.
Lemma len_drop {A} n (l : list A) : len (drop n l) = Z.max 0 (len l - Z.of_nat n).
Proof. unfold len. rewrite length_drop. lia. Qed.

(** [buf[i]] *)
Definition read_at {A} (buf : list A) (i : Z) : res A :=
  if decide (0 ≤ i) then
    match buf !! Z.to_nat i with Some x => Ok x | None => Err Overrun end
  else Err Overrun.

(** The [n] elements of [buf] from [off] on (the source of a memcpy). *)
Definition slice {A} (buf : list A) (off n : Z) : res (list A) :=
  if decide (0 ≤ off ∧ 0 ≤ n ∧ off + n ≤ len buf)
  then Ok (take (Z.to_nat n) (drop (Z.to_nat off) buf)) else Err Overrun.

(** [buf] with [src] copied over it from [off] on (the target of a memcpy). *)
Definition blit {A} (buf : list A) (off : Z) (src : list A) : res (list A) :=
  if decide (0 ≤ off ∧ off + len src ≤ len buf)
  then Ok (take (Z.to_nat off) buf ++ src ++ drop (Z.to_nat (off + len src)) buf)
  else Err Overrun.

Definition write_at {A} (buf : list A) (i : Z) (x : A) : res (list A) := blit buf i [x].

Lemma blit_len {A} (buf : list A) off src buf' :
  blit buf off src = Ok buf' → len buf' = len buf.
Proof.
  unfold blit. case_decide; [|done]. intros [= <-].
  rewrite !len_app, len_take, len_drop. pose proof (len_nonneg src). lia.
Qed.

Lemma slice_len {A} (buf : list A) off n l : slice buf off n = Ok l → len l = n.
Proof.
  unfold slice. case_decide; [|done]. intros [= <-]. rewrite len_take, len_drop. lia.
Qed.

Lemma slice_ok {A} (buf : list A) off n :
  0 ≤ off → 0 ≤ n → off + n ≤ len buf →
  slice buf off n = Ok (take (Z.to_nat n) (drop (Z.to_nat off) buf)).
Proof. intros. unfold slice. by rewrite decide_True by lia. Qed.

Lemma blit_ok {A} (buf : list A) off src :
  0 ≤ off → off + len src ≤ len buf →
  blit buf off src =
    Ok (take (Z.to_nat off) buf ++ src ++ drop (Z.to_nat (off + len src)) buf).
Proof. intros. unfold blit. by rewrite decide_True by lia. Qed.

(** Copying over the end of what was written so far extends it. *)
Lemma blit_prefix {A} (l src rest : list A) :
  len src ≤ len rest →
  blit (l ++ rest) (len l) src = Ok ((l ++ src) ++ drop (length src) rest).
Proof.
  intros H. rewrite blit_ok; rewrite ?len_app; [|apply len_nonneg|lia].
  unfold len. rewrite Nat2Z.id. rewrite take_app_length.
  replace (Z.to_nat (Z.of_nat (length l) + Z.of_nat (length src)))
    with (length l + length src)%nat by lia.
  rewrite drop_app_add. by rewrite <-app_assoc.
Qed.

Lemma slice_prefix {A} (l rest : list A) : slice (l ++ rest) 0 (len l) = Ok l.
Proof.
  rewrite slice_ok; rewrite ?len_app; pose proof (len_nonneg l); pose proof (len_nonneg rest);
    [|lia..].
  unfold len. rewrite Nat2Z.id. simpl. by rewrite drop_0, take_app_length.
Qed.

Lemma slice_middle {A} (l m rest : list A) :
  slice (l ++ m ++ rest) (len l) (len m) = Ok m.
Proof.
  rewrite slice_ok; rewrite ?len_app; pose proof (len_nonneg l);
    pose proof (len_nonneg rest); pose proof (len_nonneg m); [|lia..].
  unfold len. rewrite !Nat2Z.id. by rewrite drop_app_length, take_app_length.
Qed.

(** Memory from malloc has cells that were never written; [defined] is the
    use of the values of some cells. *)
Fixpoint defined {A} (l : list (option A)) : res (list A) :=
  match l with
  | [] => Ok []
  | Some x :: l' => k ← defined l'; mret (x :: k)
  | None :: _ => Err Uninit
  end.

Lemma defined_some {A} (l : list A) : defined (Some <$> l) = Ok l.
Proof. induction l as [|x l IH]; [done|]. rewrite fmap_cons. cbn [defined]. by rewrite IH. Qed.

(** What is where after a copy, with positions in [Z]. *)
Lemma blit_lookup {A} (buf : list A) off src buf' i :
  blit buf off src = Ok buf' → 0 ≤ i →
  buf' !! Z.to_nat i = if decide (off ≤ i < off + len src)
                       then src !! Z.to_nat (i - off) else buf !! Z.to_nat i.
Proof.
  unfold blit. case_decide as H; [|done]. intros [= <-] Hi. pose proof (len_nonneg src).
  unfold len in *.
  assert (length (take (Z.to_nat off) buf) = Z.to_nat off) as Ht by (rewrite length_take; lia).
  case_decide as Hin.
  - rewrite lookup_app_r by lia. rewrite lookup_app_l by lia. f_equal. lia.
  - destruct (decide (i < off)).
    + rewrite lookup_app_l by lia. apply lookup_take_lt. lia.
    + rewrite lookup_app_r by lia. rewrite lookup_app_r by lia. rewrite lookup_drop. f_equal. lia.
Qed.

Lemma slice_lookup {A} (buf : list A) off n l i :
  slice buf off n = Ok l → 0 ≤ i < n → l !! Z.to_nat i = buf !! Z.to_nat (off + i).
Proof.
  unfold slice. case_decide as H; [|done]. intros [= <-] Hi.
  rewrite lookup_take_lt by lia. rewrite lookup_drop. f_equal. lia.
Qed.

Lemma read_at_lookup {A} (buf : list A) i x :
  0 ≤ i → buf !! Z.to_nat i = Some x → read_at buf i = Ok x.
Proof. intros ? H. unfold read_at. rewrite decide_True by done. by rewrite H. Qed.

Lemma read_at_app_r {A} (l : list A) x rest : read_at (l ++ x :: rest) (len l) = Ok x.
Proof.
  apply read_at_lookup; [apply len_nonneg|]. unfold len. rewrite Nat2Z.id.
  by apply list_lookup_middle.
Qed.

Lemma read_at_out {A} (buf : list A) i : len buf ≤ i → read_at buf i = Err Overrun.
Proof.
  intros. unfold read_at. pose proof (len_nonneg buf). rewrite decide_True by lia.
  rewrite lookup_ge_None_2; [done|]. unfold len in *. lia.
Qed.

(** ** Automation *)

Create HintDb upil.
Create Rewrite HintDb upil.
#[export] Hint Resolve wp_ret wp_gets wp_modify wp_skip wp_get : upil.
#[export] Hint Resolve len_nonneg : upil.
#[export] Hint Rewrite @len_nil @len_cons @len_app @len_replicate @len_fmap
  @len_take @len_drop : upil.

Ltac len_simpl := autorewrite with upil in *.

(** Opens one monadic step of a [wp] goal. *)
Ltac wp_step :=
  lazymatch goal with
  | |- wp (mbind _ _) _ _ => apply wp_bind
  | |- wp (mret _) _ _ => apply wp_ret
  | |- wp (gets _) _ _ => apply wp_gets
  | |- wp (modify _) _ _ => apply wp_modify
  | |- wp get _ _ => apply wp_get
  | |- wp skip _ _ => apply wp_skip
  | |- wp (zoom _) _ _ => apply wp_zoom
  | |- wp (when _ _) _ _ => apply wp_when; intros
  | |- wp (if ?b then _ else _) _ _ => let E := fresh "E" in destruct b eqn:E
  end.
Ltac wp_steps := repeat (wp_step; simpl).

(** Evaluates a closed boolean test, or splits on an open integer one. *)
Ltac case_eqb :=
  match goal with
  | |- context [Z.eqb ?a ?b] => destruct (Z.eqb_spec a b)
  | H : context [Z.eqb ?a ?b] |- _ => destruct (Z.eqb_spec a b)
  end.

(** ** What an operation leaves as it was, and where it ends *)

(** [m] does not change [f] of its state. *)
Definition leaves {S A B} (f : S → B) (m : M S A) : Prop := ∀ s a s', m s = Ok (a, s') → f s' = f s.

Section leaves.
Context {S B : Type} (f : S → B).

Lemma leaves_ret {A} (a : A) : leaves f (mret a : M S A).
Proof. by intros s b s' [= _ <-]. Qed.
Lemma leaves_bind {A C} (m : M S A) (k : A → M S C) : leaves f m → (∀ a, leaves f (k a)) → leaves f (m ≫= k).
Proof.
  intros Hm Hk s c s' (a & s1 & E1 & E2)%bind_inv. rewrite (Hk a _ _ _ E2). by apply (Hm _ _ _ E1).
Qed.
Lemma leaves_get : leaves f (get : M S S).
Proof. by intros s b s' [= _ <-]. Qed.
Lemma leaves_gets {A} (g : S → A) : leaves f (gets g).
Proof. by intros s b s' [= _ <-]. Qed.
Lemma leaves_modify g : (∀ s, f (g s) = f s) → leaves f (modify g).
Proof. intros H s b s' [= _ <-]. apply H. Qed.
Lemma leaves_lift {A} (r : res A) : leaves f (lift r).
Proof. intros s a s' E. unfold lift in E. destruct r; by simplify_eq. Qed.
Lemma leaves_fail {A} e : leaves f (fail e : M S A).
Proof. by intros s a s' E. Qed.
Lemma leaves_when b m : leaves f m → leaves f (when b m).
Proof. destruct b; [done|]. intros _. apply leaves_ret. Qed.
Lemma leaves_zoom {A C} `{Lens S A} (m : M A C) : (∀ a s, f (lset a s) = f s) → leaves f (zoom m).
Proof.
  intros H' s a s' E. unfold zoom in E. destruct (m (lget s)) as [[c x]|]; [|done]. injection E as _ <-. apply H'.
Qed.
End leaves.

(** A part of a part. *)
Lemma leaves_zoom_in {S A B C} `{LensLaws S A} (g : A → B) (m : M A C) :
  leaves g m → leaves (λ s, g (lget s)) (zoom m).
Proof.
  intros Hm s c s' E. unfold zoom in E. destruct (m (lget s)) as [[c' a]|] eqn:Em; [|done].
  injection E as _ <-. rewrite lget_lset. by eapply Hm.
Qed.

Create HintDb leaves.
#[export] Hint Resolve leaves_ret leaves_get leaves_gets leaves_lift leaves_fail : leaves.

(** Through the structure of an operation. *)
Ltac leaves :=
  repeat first
    [ progress eauto 2 with leaves nocore
    | apply leaves_bind; [|intros ?]
    | apply leaves_when
    | apply leaves_modify; intros ?; reflexivity
    | apply leaves_zoom; intros ? ?; reflexivity
    | match goal with |- leaves _ (let '(_, _) := ?x in _) => destruct x end
    | match goal with |- leaves _ (match ?x with _ => _ end) => destruct x end ].

(** [Q] holds wherever [m] ends. *)
Definition ends {S B} (m : M S B) (s : S) (Q : B → S → Prop) : Prop := ∀ b s', m s = Ok (b, s') → Q b s'.

Lemma ends_bind {S B C} (m : M S B) (k : B → M S C) s Q :
  ends m s (λ b s1, ends (k b) s1 Q) → ends (m ≫= k) s Q.
Proof. intros H c s2 (b & s1 & E1 & E2)%bind_inv. by eapply H. Qed.
Lemma ends_ret {S B} (b : B) (s : S) (Q : B → S → Prop) : Q b s → ends (mret b) s Q.
Proof. by intros H b' s' [= <- <-]. Qed.
Lemma ends_get {S} (s : S) (Q : S → S → Prop) : Q s s → ends get s Q.
Proof. by intros H b' s' [= <- <-]. Qed.
Lemma ends_modify {S} f (s : S) (Q : unit → S → Prop) : Q tt (f s) → ends (modify f) s Q.
Proof. by intros H b' s' [= <- <-]. Qed.
Lemma ends_lift {S B} (r : res B) (s : S) (Q : B → S → Prop) : (∀ b, r = Ok b → Q b s) → ends (lift r) s Q.
Proof. intros H b s' E. unfold lift in E. destruct r; simplify_eq. by apply H. Qed.
Lemma ends_fail {S B} e (s : S) (Q : B → S → Prop) : ends (fail e) s Q.
Proof. by intros b s' E. Qed.
Lemma ends_when {S} (b : bool) (m : M S unit) (s : S) (Q : unit → S → Prop) :
  (b = true → ends m s Q) → (b = false → Q tt s) → ends (when b m) s Q.
Proof. intros H1 H2. destruct b; [by apply H1|]. by apply ends_ret, H2. Qed.
Lemma ends_zoom {W A B} `{Lens W A} (m : M A B) (w : W) (Q : B → W → Prop) :
  (∀ b a, Q b (lset a w)) → ends (zoom m) w Q.
Proof.
  intros H' b w' E. unfold zoom in E. destruct (m (lget w)) as [[c a]|]; [|done]. injection E as <- <-. apply H'.
Qed.

Ltac ends :=
  repeat match goal with
  | |- ends (_ ≫= _) _ _ => apply ends_bind
  | |- ends (mret _) _ _ => apply ends_ret
  | |- ends get _ _ => apply ends_get
  | |- ends (modify _) _ _ => apply ends_modify
  | |- ends (lift _) _ _ => apply ends_lift; intros
  | |- ends (fail _) _ _ => apply ends_fail
  | |- ends skip _ _ => apply ends_ret
  | |- ends (when _ _) _ _ => apply ends_when; intros
  | |- ends (zoom _) _ _ => apply ends_zoom; intros
  | |- ends (let '(_, _) := ?x in _) _ _ => destruct x eqn:?
  | |- ends (match ?x with _ => _ end) _ _ => destruct x eqn:?
  end.
