(* ===== verification/CString.v ===== *)
(** * C strings

    A C string is the list of its characters before the terminating NUL,
    each the value of an unsigned char.  The file models the functions of
    <string.h>, <stdlib.h> and <stdio.h> the sources use on them, and
    [strStartsWith] of src/upil.c and src/ril-telephone/misc.c. *)

From stdpp Require Import strings.
From Stdlib Require Import Ascii.
From S2P Require Import Prelude.

(** A string literal of the source. *)
Definition lit (s : string) : list Z :=
  (λ a, Z.of_N (N_of_ascii a)) <$> String.list_ascii_of_string s.

(** ** <string.h> *)

(** The string held by a buffer: its elements before the first NUL. *)
Fixpoint cstr (buf : list Z) : res (list Z) :=
  match buf with
  | [] => Err Overrun
  | c :: buf' => if c =? 0 then Ok [] else s ← cstr buf'; mret (c :: s)
  end.

(** [0 == strncmp(a, b, n)] *)
Fixpoint strncmp_eq (a b : list Z) (n : nat) {struct n} : bool :=
  match n with
  | O => true
  | S n' =>
      match a, b with
      | [], [] => true
      | x :: a', y :: b' => (x =? y) && strncmp_eq a' b' n'
      | _, _ => false
      end
  end.

(** [0 == strcmp(a, b)] *)
Fixpoint strcmp_eq (a b : list Z) : bool :=
  match a, b with
  | [], [] => true
  | x :: a', y :: b' => (x =? y) && strcmp_eq a' b'
  | _, _ => false
  end.

(** [strchr(s, c)] for a character other than NUL. *)
Fixpoint strchr (s : list Z) (c : Z) : option (list Z) :=
  match s with
  | [] => None
  | x :: s' => if x =? c then Some s else strchr s' c
  end.

(** [strsep(&s, c)]: the token before the first [c], and the rest after it,
    NULL when there is no [c]. *)
Fixpoint strsep (s : list Z) (c : Z) : list Z * option (list Z) :=
  match s with
  | [] => ([], None)
  | x :: s' => if x =? c then ([], Some s') else let '(t, r) := strsep s' c in (x :: t, r)
  end.

(** [strspn(s, accept)] *)
Fixpoint strspn (s accept : list Z) : Z :=
  match s with
  | [] => 0
  | x :: s' => if existsb (Z.eqb x) accept then 1 + strspn s' accept else 0
  end.

(** ** <ctype.h>, <stdlib.h> *)

Definition isspace (c : Z) : bool := ((9 <=? c) && (c <=? 13)) || (c =? 32).
Definition isdigit (c : Z) : bool := (48 <=? c) && (c <=? 57).

(** The value of a digit of a number in some base up to 36. *)
Definition digit_of (c : Z) : option Z :=
  if isdigit c then Some (c - 48)
  else if (65 <=? c) && (c <=? 90) then Some (c - 55)
  else if (97 <=? c) && (c <=? 122) then Some (c - 87)
  else None.

(** The value of the leading digits of [s], after [acc], and how many. *)
Fixpoint scan_digits (base : Z) (s : list Z) (acc : Z) (n : nat) : Z * nat :=
  match s with
  | [] => (acc, n)
  | c :: s' =>
      match digit_of c with
      | Some d => if d <? base then scan_digits base s' (acc * base + d) (S n) else (acc, n)
      | None => (acc, n)
      end
  end.

Fixpoint skip_spaces (s : list Z) : list Z :=
  match s with
  | c :: s' => if isspace c then skip_spaces s' else s
  | [] => []
  end.

(** An optional sign: whether it is a minus, and the rest. *)
Definition scan_sign (s : list Z) : bool * list Z :=
  match s with
  | 45 :: s' => (true, s')
  | 43 :: s' => (false, s')
  | _ => (false, s)
  end.

(** The optional "0x" of base 16, taken only when a digit follows it. *)
Definition skip_0x (base : Z) (s : list Z) : list Z :=
  match s with
  | 48 :: x :: c :: s' =>
      if (base =? 16) && ((x =? 120) || (x =? 88)) &&
         match digit_of c with Some d => d <? 16 | None => false end
      then c :: s' else s
  | _ => s
  end.

(** [long] has 32 bits on the target: LONG_MIN and LONG_MAX. *)
Definition LONG_MAX : Z := 2147483647.
Definition LONG_MIN : Z := -2147483648.
Definition ULONG_MAX : Z := 4294967295.

(** [strtol(s, &end, base)]: the value, and whether [end != s]. *)
Definition strtol (s : list Z) (base : Z) : Z * bool :=
  let '(neg, s') := scan_sign (skip_spaces s) in
  let '(v, n) := scan_digits base (skip_0x base s') 0 0 in
  (Z.max LONG_MIN (Z.min LONG_MAX (if neg then - v else v)), negb (n =? 0)%nat).

(** [strtoul(s, &end, base)], converted to [long] by the caller. *)
Definition strtoul (s : list Z) (base : Z) : Z * bool :=
  let '(neg, s') := scan_sign (skip_spaces s) in
  let '(v, n) := scan_digits base (skip_0x base s') 0 0 in
  (if ULONG_MAX <? v then ULONG_MAX else wrapU 32 (if neg then - v else v), negb (n =? 0)%nat).

Definition atoi (s : list Z) : Z := s32 (strtol s 10).1.

(** ** <stdio.h>: the conversion "%d" *)

Fixpoint dec_digits (fuel : nat) (n : Z) (acc : list Z) : list Z :=
  match fuel with
  | O => acc
  | S f => if n <? 10 then (48 + n) :: acc
           else dec_digits f (n / 10) ((48 + n mod 10) :: acc)
  end.

(** Twenty digits hold every [int]. *)
Definition dec (n : Z) : list Z :=
  if n <? 0 then 45 :: dec_digits 20 (- n) [] else dec_digits 20 n [].

(** ** strStartsWith *)

(** A string stored, with its terminating NUL, into an array of [n] chars. *)
Definition store_string (n : Z) (s : list Z) : res (list Z) :=
  if len s + 1 <=? n then Ok s else Err Overrun.

Fixpoint strStartsWith (line prefix : list Z) : bool :=
  match line, prefix with
  | c :: line', p :: prefix' => if c =? p then strStartsWith line' prefix' else false
  | _, _ => match prefix with [] => true | _ => false end
  end.

(** ** Lemmas *)

Lemma store_ok n s : len s + 1 ≤ n → store_string n s = Ok s.
Proof. intros H. unfold store_string. by rewrite (proj2 (Z.leb_le _ _)). Qed.

Lemma strStartsWith_spec line prefix :
  strStartsWith line prefix = true ↔ ∃ rest, line = prefix ++ rest.
Proof.
  revert prefix. induction line as [|c line IH]; intros [|p prefix]; simpl.
  - split; [by exists []|done].
  - split; [done|by intros [? [=]]].
  - split; [by exists (c :: line)|done].
  - destruct (Z.eqb_spec c p) as [->|Hne].
    + rewrite IH. split; intros [rest Hr]; exists rest; [by rewrite Hr|by injection Hr].
    + split; [done|]. by intros [rest [=]].
Qed.

Lemma strStartsWith_app prefix rest : strStartsWith (prefix ++ rest) prefix = true.
Proof. apply strStartsWith_spec. eauto. Qed.

Lemma strncmp_eq_spec a b : strncmp_eq a b (length b) = true ↔ ∃ rest, a = b ++ rest.
Proof.
  revert a. induction b as [|y b IH]; intros a; simpl; [split; eauto|].
  destruct a as [|x a].
  { split; [done|]. by intros [? [=]]. }
  rewrite andb_true_iff, Z.eqb_eq, IH. split.
  - intros [-> [rest ->]]. by exists rest.
  - intros [rest [= -> ->]]. eauto.
Qed.

Lemma strncmp_eq_app b rest : strncmp_eq (b ++ rest) b (length b) = true.
Proof. apply strncmp_eq_spec. eauto. Qed.

Lemma strcmp_eq_spec a b : strcmp_eq a b = true ↔ a = b.
Proof.
  revert b. induction a as [|x a IH]; intros [|y b]; simpl; try done.
  rewrite andb_true_iff, Z.eqb_eq, IH. split; [by intros [-> ->]|by intros [= -> ->]].
Qed.

Lemma cstr_app s rest : Forall (λ c, c ≠ 0) s → cstr (s ++ 0 :: rest) = Ok s.
Proof.
  induction 1 as [|c s Hc _ IH]; [done|]. simpl. rewrite IH.
  by destruct (Z.eqb_spec c 0).
Qed.

Lemma strsep_app t c rest : c ∉ t → strsep (t ++ c :: rest) c = (t, Some rest).
Proof.
  induction t as [|x t IH]; simpl; intros Hc.
  - by rewrite Z.eqb_refl.
  - apply not_elem_of_cons in Hc as [Hx Hc]. rewrite IH by done.
    by destruct (Z.eqb_spec x c).
Qed.

Lemma strsep_last t c : c ∉ t → strsep t c = (t, None).
Proof.
  induction t as [|x t IH]; simpl; intros Hc; [done|].
  apply not_elem_of_cons in Hc as [Hx Hc]. rewrite IH by done.
  by destruct (Z.eqb_spec x c).
Qed.

Lemma strchr_app t c rest : c ∉ t → strchr (t ++ c :: rest) c = Some (c :: rest).
Proof.
  induction t as [|x t IH]; simpl; intros Hc.
  - by rewrite Z.eqb_refl.
  - apply not_elem_of_cons in Hc as [Hx Hc]. rewrite IH by done.
    by destruct (Z.eqb_spec x c).
Qed.

(** *** Decimal numbers *)

(** A decimal number ends where no digit follows. *)
Definition no_digit (s : list Z) : Prop :=
  match s with [] => True | c :: _ => digit_of c = None end.

Lemma digit_of_dec d : 0 ≤ d < 10 → digit_of (48 + d) = Some d.
Proof.
  intros H. unfold digit_of, isdigit.
  rewrite (proj2 (Z.leb_le 48 _)), (proj2 (Z.leb_le _ 57)) by lia. simpl. f_equal. lia.
Qed.

Lemma scan_digits_stop base s acc n : no_digit s → scan_digits base s acc n = (acc, n).
Proof. destruct s; simpl; [done|by intros ->]. Qed.

Lemma scan_dec_digits fuel n s k rest :
  0 ≤ n < 10 ^ Z.of_nat fuel → (0 < fuel)%nat →
  ∃ m, (0 < m)%nat ∧ ∀ acc,
    scan_digits 10 (dec_digits fuel n s ++ rest) acc k =
    scan_digits 10 (s ++ rest) (acc * 10 ^ Z.of_nat m + n) (m + k).
Proof.
  revert n s k. induction fuel as [|f IH]; intros n s k Hn Hf; [lia|].
  cbn [dec_digits]. destruct (Z.ltb_spec n 10).
  - exists 1%nat. split; [lia|]. intros acc. cbn [app scan_digits].
    rewrite digit_of_dec by lia. rewrite (proj2 (Z.ltb_lt n 10)) by lia.
    f_equal; lia.
  - assert (Hp : 10 ^ Z.of_nat (S f) = 10 * 10 ^ Z.of_nat f).
    { rewrite Nat2Z.inj_succ, Z.pow_succ_r by lia. done. }
    assert (Hq : 0 ≤ n / 10 < 10 ^ Z.of_nat f).
    { split; [apply Z.div_pos; lia|apply Z.div_lt_upper_bound; lia]. }
    destruct f as [|f'].
    { change (10 ^ Z.of_nat 0) with 1 in Hq. pose proof (Z.div_le_lower_bound n 10 1). lia. }
    destruct (IH (n / 10) ((48 + n mod 10) :: s) k Hq ltac:(lia)) as (m & Hm & IHm).
    pose proof (Z.mod_pos_bound n 10 ltac:(lia)).
    exists (S m). split; [lia|]. intros acc. rewrite IHm. cbn [app scan_digits].
    rewrite digit_of_dec by lia. rewrite (proj2 (Z.ltb_lt (n mod 10) 10)) by lia.
    cbn [Nat.add]. f_equal.
    rewrite (Nat2Z.inj_succ m), Z.pow_succ_r by lia.
    pose proof (Z.div_mod n 10 ltac:(lia)). lia.
Qed.

Lemma dec_digits_head fuel n s :
  0 ≤ n → (0 < fuel)%nat → ∃ d t, dec_digits fuel n s = (48 + d) :: t ∧ 0 ≤ d < 10.
Proof.
  revert n s. induction fuel as [|f IH]; intros n s Hn Hf; [lia|]. simpl.
  destruct (Z.ltb_spec n 10).
  - exists n, s. split; [done|lia].
  - destruct f as [|f].
    + simpl. exists (n mod 10), s. split; [done|]. apply Z.mod_pos_bound. lia.
    + apply IH; [apply Z.div_pos; lia|lia].
Qed.

Lemma digit_cases d : 0 ≤ d < 10 →
  48 + d = 48 ∨ 48 + d = 49 ∨ 48 + d = 50 ∨ 48 + d = 51 ∨ 48 + d = 52 ∨
  48 + d = 53 ∨ 48 + d = 54 ∨ 48 + d = 55 ∨ 48 + d = 56 ∨ 48 + d = 57.
Proof. lia. Qed.

Lemma scan_sign_digit d t :
  0 ≤ d < 10 → scan_sign ((48 + d) :: t) = (false, (48 + d) :: t).
Proof. intros H. destruct (digit_cases d H) as [E|E]; repeat destruct E as [E|E]; by rewrite ?E. Qed.

Lemma isspace_digit d : 0 ≤ d < 10 → isspace (48 + d) = false.
Proof. intros H. destruct (digit_cases d H) as [E|E]; repeat destruct E as [E|E]; by rewrite ?E. Qed.

Lemma skip_0x_10 s : skip_0x 10 s = s.
Proof.
  unfold skip_0x. destruct s as [|c [|x [|y s]]]; try done.
  - destruct c as [|p|p]; try done. do 6 (destruct p as [p|p|]; try done).
  - destruct c as [|p|p]; try done. do 6 (destruct p as [p|p|]; try done).
  - destruct c as [|p|p]; try done. do 6 (destruct p as [p|p|]; try done).
Qed.

(** The number "%d" prints is the one [strtol] reads back. *)
Lemma strtol_dec n rest :
  INT_MIN ≤ n ≤ INT_MAX → no_digit rest → strtol (dec n ++ rest) 10 = (n, true).
Proof.
  unfold INT_MIN, INT_MAX. intros Hn Hr. unfold strtol, dec.
  destruct (Z.ltb_spec n 0).
  - destruct (scan_dec_digits 20 (- n) [] 0 rest ltac:(lia) ltac:(lia)) as (m & Hm & Hs).
    assert (E : scan_sign (skip_spaces ((45 :: dec_digits 20 (- n) []) ++ rest)) =
      (true, dec_digits 20 (- n) [] ++ rest)) by reflexivity.
    rewrite E.
    rewrite skip_0x_10, Hs. rewrite scan_digits_stop by done.
    rewrite (proj2 (Nat.eqb_neq _ 0)) by lia.
    unfold LONG_MIN, LONG_MAX. f_equal; lia.
  - destruct (scan_dec_digits 20 n [] 0 rest ltac:(lia) ltac:(lia)) as (m & Hm & Hs).
    destruct (dec_digits_head 20 n [] ltac:(lia) ltac:(lia)) as (d & t & Hd & Hb).
    specialize (Hs 0). rewrite Hd in Hs |- *.
    assert (E : scan_sign (skip_spaces (((48 + d) :: t) ++ rest)) =
      (false, ((48 + d) :: t) ++ rest)).
    { cbn [app skip_spaces]. rewrite isspace_digit by done. by apply scan_sign_digit. }
    rewrite E, skip_0x_10, Hs.
    rewrite scan_digits_stop by done.
    rewrite (proj2 (Nat.eqb_neq _ 0)) by lia.
    unfold LONG_MIN, LONG_MAX. f_equal; lia.
Qed.

Lemma atoi_dec n rest :
  INT_MIN ≤ n ≤ INT_MAX → no_digit rest → atoi (dec n ++ rest) = n.
Proof. intros. unfold atoi. rewrite strtol_dec by done. by apply s32_small. Qed.

Definition digits_only (s : list Z) : Prop := Forall (λ c, 48 ≤ c ≤ 57) s.

Lemma dec_digits_chars fuel n s :
  0 ≤ n → (0 < fuel)%nat → digits_only s → digits_only (dec_digits fuel n s).
Proof.
  revert n s. induction fuel as [|f IH]; intros n s Hn Hf Hs; [done|]. simpl.
  destruct (Z.ltb_spec n 10).
  - constructor; [lia|done].
  - pose proof (Z.mod_pos_bound n 10 ltac:(lia)).
    destruct f as [|f]; [constructor; [lia|done]|].
    apply IH; [apply Z.div_pos; lia|lia|constructor; [lia|done]].
Qed.

Lemma dec_chars n : Forall (λ c, c = 45 ∨ 48 ≤ c ≤ 57) (dec n).
Proof.
  unfold dec. destruct (Z.ltb_spec n 0); [constructor; [by left|]|];
    (eapply Forall_impl; [apply dec_digits_chars; [lia|lia|constructor]|simpl; lia]).
Qed.

Lemma dec_not_elem c n : c ≠ 45 → ¬ (48 ≤ c ≤ 57) → c ∉ dec n.
Proof.
  intros H1 H2 Hin. pose proof (dec_chars n) as Hf. rewrite Forall_forall in Hf.
  apply Hf in Hin. lia.
Qed.

#[export] Hint Resolve dec_not_elem : upil.
