(* ===== verification/Dll.v ===== *)
(** * Intrusive circular doubly linked lists

    The message queues of src/state_machine/handler.c and the event lists of
    src/upil_event/upil_event.c are the same structure: every node embeds a
    [next] and a [prev] pointer, and the list is a ring through a head node
    that holds no element.  The operations below are the C statements on a
    store of link pairs (the [next] and [prev] fields of all the nodes of one
    struct type, the other fields being kept in stores of their own), aliasing
    included.  [ring] relates a store to the sequence a head stands for, and
    the lemmas show that insertion and removal implement insertion and
    removal in that sequence and touch no other node. *)

From S2P Require Import Prelude.

(** Addresses of nodes, and possibly NULL pointers to them. *)
Abbreviation loc := positive.
Abbreviation ptr := (option positive).

Record links := Links { next : ptr; prev : ptr }.
Abbreviation lheap := (gmap positive links).

#[export] Instance links_eq_dec : EqDecision links.
Proof. solve_decision. Defined.

(** [p->next], [p->prev] *)
Definition get_next (p : loc) : M lheap ptr := λ h,
  match h !! p with Some l => Ok (next l, h) | None => Err Dangling end.
Definition get_prev (p : loc) : M lheap ptr := λ h,
  match h !! p with Some l => Ok (prev l, h) | None => Err Dangling end.

(** [p->next = v], [p->prev = v] *)
Definition set_next (p : loc) (v : ptr) : M lheap unit := λ h,
  match h !! p with Some l => Ok (tt, <[p := Links v (prev l)]> h) | None => Err Dangling end.
Definition set_prev (p : loc) (v : ptr) : M lheap unit := λ h,
  match h !! p with Some l => Ok (tt, <[p := Links (next l) v]> h) | None => Err Dangling end.

(** The head of an empty list. *)
Definition ring_init (hd : loc) : M lheap unit :=
  modify (<[hd := Links (Some hd) (Some hd)]>).

(** Inserts [e] before [list]. *)
Definition ring_add (e list : loc) : M lheap unit :=
  set_next e (Some list);;
  p ← get_prev list;
  set_prev e p;;
  p ← get_prev e;
  p ← lift (deref p);
  set_next p (Some e);;
  set_prev list (Some e).

(** Unlinks [e] and clears its pointers. *)
Definition ring_remove (e : loc) : M lheap unit :=
  n ← get_next e;
  p ← get_prev e;
  n ← lift (deref n);
  set_prev n p;;
  p ← get_prev e;
  n ← get_next e;
  p ← lift (deref p);
  set_next p n;;
  set_next e None;;
  set_prev e None.

(** ** The sequence a ring stands for *)

Definition next_of (h : lheap) (p : loc) : ptr := h !! p ≫= next.
Definition prev_of (h : lheap) (p : loc) : ptr := h !! p ≫= prev.

(** [a] and [b] are neighbours. *)
Definition edge (h : lheap) (a b : loc) : Prop :=
  next_of h a = Some b ∧ prev_of h b = Some a.

Fixpoint path (h : lheap) (a : loc) (xs : list loc) : Prop :=
  match xs with [] => True | x :: xs' => edge h a x ∧ path h x xs' end.

(** The ring of head [hd] holds the elements [xs]. *)
Definition ring (h : lheap) (hd : loc) (xs : list loc) : Prop :=
  NoDup (hd :: xs) ∧ path h hd (xs ++ [hd]).

Fixpoint last_of (a : loc) (xs : list loc) : loc :=
  match xs with [] => a | x :: xs' => last_of x xs' end.
Fixpoint belast (a : loc) (xs : list loc) : list loc :=
  match xs with [] => [] | x :: xs' => a :: belast x xs' end.

(** The pointers of nodes outside of [D] are the same in both stores. *)
Definition same_but (D : list loc) (h h' : lheap) : Prop :=
  (∀ p, p ∉ D → h' !! p = h !! p) ∧ ∀ p, is_Some (h' !! p) ↔ is_Some (h !! p).

Section ring_lemmas.
Implicit Types (h : lheap) (xs l r : list loc) (a b e hd p : loc).

Lemma path_app h a xs ys : path h a (xs ++ ys) ↔ path h a xs ∧ path h (last_of a xs) ys.
Proof. revert a. induction xs as [|x xs IH]; intros a; simpl; [tauto|]. rewrite IH. tauto. Qed.

Lemma last_of_elem a xs : last_of a xs ∈ a :: xs.
Proof.
  revert a. induction xs as [|x xs IH]; intros a; simpl; [by left|].
  right. apply IH.
Qed.

Lemma last_of_snoc a xs x : last_of a (xs ++ [x]) = x.
Proof. revert a. induction xs as [|y xs IH]; intros a; simpl; [done|apply IH]. Qed.

Lemma belast_snoc a xs x : belast a (xs ++ [x]) = a :: xs.
Proof. revert a. induction xs as [|y xs IH]; intros a; simpl; [done|]. by rewrite IH. Qed.

Lemma belast_subset a xs p : p ∈ belast a xs → p ∈ a :: xs.
Proof.
  revert a. induction xs as [|x xs IH]; intros a; simpl; [set_solver|].
  rewrite elem_of_cons. intros [->|H]; [by left|]. right. by apply IH.
Qed.

Lemma belast_not_last a xs p : NoDup (a :: xs) → p ∈ belast a xs → p ≠ last_of a xs.
Proof.
  revert a. induction xs as [|x xs IH]; intros a Hnd; simpl; [set_solver|].
  apply NoDup_cons in Hnd as [Ha Hnd].
  rewrite elem_of_cons. intros [->|H].
  - intros ->. apply Ha, last_of_elem.
  - by apply IH.
Qed.

Lemma path_frame h h' a xs :
  (∀ p, p ∈ belast a xs → next_of h' p = next_of h p) →
  (∀ p, p ∈ xs → prev_of h' p = prev_of h p) →
  path h a xs → path h' a xs.
Proof.
  revert a. induction xs as [|x xs IH]; intros a Hn Hp; simpl; [done|].
  intros [[H1 H2] H3]. split.
  - split; [by rewrite Hn by (simpl; left)|by rewrite Hp by left].
  - apply IH; [..|done]; intros p Hin; [apply Hn|apply Hp]; by right.
Qed.

Lemma path_linked h a xs x : path h a xs → x ∈ xs → ∃ p, prev_of h x = Some p.
Proof.
  revert a. induction xs as [|y xs IH]; intros a; simpl; [set_solver|].
  intros [[_ H2] H3]. rewrite elem_of_cons. intros [->|Hin]; eauto.
Qed.

Lemma prev_of_live h p q : prev_of h p = Some q → is_Some (h !! p).
Proof. unfold prev_of. destruct (h !! p); [eauto|done]. Qed.

Lemma next_of_live h p q : next_of h p = Some q → is_Some (h !! p).
Proof. unfold next_of. destruct (h !! p); [eauto|done]. Qed.

(** The nodes of a ring are allocated and linked both ways. *)
Lemma ring_live h hd xs x : ring h hd xs → x ∈ hd :: xs → is_Some (h !! x).
Proof.
  intros [_ Hp] Hx. destruct (path_linked h hd (xs ++ [hd]) x) as [q Hq]; [done|..].
  { apply elem_of_app. apply elem_of_cons in Hx as [->|Hx]; [right; by left|by left]. }
  by eapply prev_of_live.
Qed.

Lemma ring_frame h h' hd xs :
  (∀ p, p ∈ hd :: xs → h' !! p = h !! p) → ring h hd xs → ring h' hd xs.
Proof.
  intros Hf [Hnd Hp]. split; [done|]. revert Hp. apply path_frame.
  - rewrite belast_snoc. intros p Hin. unfold next_of. by rewrite Hf.
  - intros p Hin. unfold prev_of. rewrite Hf; [done|].
    apply elem_of_app in Hin as [Hin|Hin]; [by right|].
    apply list_elem_of_singleton in Hin as ->. by left.
Qed.

Lemma ring_same_but h h' hd xs D :
  same_but D h h' → (∀ p, p ∈ hd :: xs → p ∉ D) → ring h hd xs → ring h' hd xs.
Proof. intros [Hs _] Hd. apply ring_frame. intros p Hp. apply Hs. by apply Hd. Qed.

Lemma ring_next_head h hd xs :
  ring h hd xs → next_of h hd = Some (List.hd hd xs).
Proof. intros [_ Hp]. destruct xs; simpl in *; by destruct Hp as [[Hn _] _]. Qed.

Lemma ring_next h hd l e r :
  ring h hd (l ++ e :: r) → next_of h e = Some (List.hd hd r).
Proof.
  intros [_ Hp]. rewrite <-app_assoc, path_app in Hp. destruct Hp as [_ Hp].
  simpl in Hp. destruct Hp as [_ Hp]. destruct r; simpl in *; by destruct Hp as [[Hn _] _].
Qed.

Lemma ring_init_ok h hd : ∃ h',
  ring_init hd h = Ok (tt, h') ∧ ring h' hd [] ∧ ∀ p, p ≠ hd → h' !! p = h !! p.
Proof.
  eexists. split; [done|]. split.
  - split; [apply NoDup_singleton|]. simpl. unfold edge, next_of, prev_of.
    by rewrite lookup_insert_eq.
  - intros p Hp. by rewrite lookup_insert_ne.
Qed.

(** *** One store to a link field *)

Lemma same_but_trans D h1 h2 h3 : same_but D h1 h2 → same_but D h2 h3 → same_but D h1 h3.
Proof.
  intros [A1 B1] [A2 B2]. split.
  - intros p Hp. by rewrite A2, A1.
  - intros p. by rewrite B2, B1.
Qed.

Lemma same_but_weaken D D' h1 h2 : D ⊆ D' → same_but D h1 h2 → same_but D' h1 h2.
Proof. intros HD [A B]. split; [|done]. intros p Hp. apply A. intros Hin. by apply Hp, HD. Qed.

Lemma same_but_insert h p (k : links) : is_Some (h !! p) → same_but [p] h (<[p := k]> h).
Proof.
  intros Hp. split; intros q.
  - intros Hq%not_elem_of_cons. by rewrite lookup_insert_ne by naive_solver.
  - destruct (decide (p = q)) as [->|]; [rewrite lookup_insert_eq|by rewrite lookup_insert_ne].
    split; eauto.
Qed.

Lemma set_next_ok h p v : is_Some (h !! p) → ∃ h',
  set_next p v h = Ok (tt, h') ∧ same_but [p] h h' ∧
  (∀ q, next_of h' q = if decide (q = p) then v else next_of h q) ∧
  (∀ q, prev_of h' q = prev_of h q).
Proof.
  intros Hp. pose proof Hp as [l Hl]. eexists. unfold set_next, next_of, prev_of. rewrite Hl.
  split_and!; [done|by apply same_but_insert|..]; intros q.
  - case_decide; subst; [by rewrite lookup_insert_eq|by rewrite lookup_insert_ne].
  - destruct (decide (p = q)) as [->|]; [by rewrite lookup_insert_eq, Hl|by rewrite lookup_insert_ne].
Qed.

Lemma set_prev_ok h p v : is_Some (h !! p) → ∃ h',
  set_prev p v h = Ok (tt, h') ∧ same_but [p] h h' ∧
  (∀ q, next_of h' q = next_of h q) ∧
  (∀ q, prev_of h' q = if decide (q = p) then v else prev_of h q).
Proof.
  intros Hp. pose proof Hp as [l Hl]. eexists. unfold set_prev, next_of, prev_of. rewrite Hl.
  split_and!; [done|by apply same_but_insert|..]; intros q.
  - destruct (decide (p = q)) as [->|]; [by rewrite lookup_insert_eq, Hl|by rewrite lookup_insert_ne].
  - case_decide; subst; [by rewrite lookup_insert_eq|by rewrite lookup_insert_ne].
Qed.

Lemma get_next_ok h p : is_Some (h !! p) → get_next p h = Ok (next_of h p, h).
Proof. intros [l Hl]. unfold get_next, next_of. by rewrite Hl. Qed.

Lemma get_prev_ok h p : is_Some (h !! p) → get_prev p h = Ok (prev_of h p, h).
Proof. intros [l Hl]. unfold get_prev, prev_of. by rewrite Hl. Qed.

Lemma same_but_live D h h' p : same_but D h h' → is_Some (h !! p) → is_Some (h' !! p).
Proof. intros [_ B]. apply B. Qed.

(** What the four stores of an insertion leave in memory. *)
Lemma ring_add_raw h e y q :
  e ≠ y → e ≠ q → is_Some (h !! e) → is_Some (h !! y) → is_Some (h !! q) →
  prev_of h y = Some q → ∃ h',
  ring_add e y h = Ok (tt, h') ∧ same_but [e; q; y] h h' ∧
  (∀ p, next_of h' p = if decide (p = q) then Some e
                       else if decide (p = e) then Some y else next_of h p) ∧
  (∀ p, prev_of h' p = if decide (p = y) then Some e
                       else if decide (p = e) then Some q else prev_of h p).
Proof.
  intros Hey Heq Le Ly Lq Hprev.
  destruct (set_next_ok h e (Some y) Le) as (h1 & E1 & S1 & N1 & P1).
  assert (prev_of h1 y = Some q) as Hq1 by (by rewrite P1).
  destruct (set_prev_ok h1 e (Some q)) as (h2 & E2 & S2 & N2 & P2);
    [by eapply same_but_live|].
  destruct (set_next_ok h2 q (Some e)) as (h3 & E3 & S3 & N3 & P3);
    [by eauto using same_but_live|].
  destruct (set_prev_ok h3 y (Some e)) as (h4 & E4 & S4 & N4 & P4);
    [by eauto using same_but_live|].
  exists h4. split_and!.
  - unfold ring_add. erewrite bind_ok by exact E1.
    erewrite bind_ok by (apply get_prev_ok; eauto using same_but_live). rewrite Hq1.
    erewrite bind_ok by exact E2.
    erewrite bind_ok by (apply get_prev_ok; eauto using same_but_live).
    rewrite P2, decide_True by done. erewrite bind_ok by done.
    by erewrite bind_ok by exact E3.
  - eapply same_but_trans; [eapply same_but_weaken; [|exact S1]; set_solver|].
    eapply same_but_trans; [eapply same_but_weaken; [|exact S2]; set_solver|].
    eapply same_but_trans; [eapply same_but_weaken; [|exact S3]; set_solver|].
    eapply same_but_weaken; [|exact S4]; set_solver.
  - intros p. by rewrite N4, N3, N2, N1.
  - intros p. by rewrite P4, P3, P2, P1.
Qed.

(** What the stores of a removal leave in memory. *)
Lemma ring_remove_raw h e n q :
  e ≠ n → e ≠ q → is_Some (h !! e) → is_Some (h !! n) → is_Some (h !! q) →
  next_of h e = Some n → prev_of h e = Some q → ∃ h',
  ring_remove e h = Ok (tt, h') ∧ same_but [e; q; n] h h' ∧
  (∀ p, next_of h' p = if decide (p = e) then None
                       else if decide (p = q) then Some n else next_of h p) ∧
  (∀ p, prev_of h' p = if decide (p = e) then None
                       else if decide (p = n) then Some q else prev_of h p).
Proof.
  intros Hen Heq Le Ln Lq Hn Hp.
  destruct (set_prev_ok h n (Some q) Ln) as (h1 & E1 & S1 & N1 & P1).
  assert (prev_of h1 e = Some q) as Hq1 by (by rewrite P1, decide_False).
  assert (next_of h1 e = Some n) as Hn1 by (by rewrite N1).
  destruct (set_next_ok h1 q (Some n)) as (h2 & E2 & S2 & N2 & P2);
    [by eauto using same_but_live|].
  destruct (set_next_ok h2 e None) as (h3 & E3 & S3 & N3 & P3);
    [by eauto using same_but_live|].
  destruct (set_prev_ok h3 e None) as (h4 & E4 & S4 & N4 & P4);
    [by eauto using same_but_live|].
  exists h4. split_and!.
  - unfold ring_remove.
    erewrite bind_ok by (by apply get_next_ok). rewrite Hn.
    erewrite bind_ok by (by apply get_prev_ok). rewrite Hp.
    erewrite bind_ok by done. erewrite bind_ok by exact E1.
    erewrite bind_ok by (apply get_prev_ok; eauto using same_but_live). rewrite Hq1.
    erewrite bind_ok by (apply get_next_ok; eauto using same_but_live). rewrite Hn1.
    erewrite bind_ok by done. erewrite bind_ok by exact E2.
    by erewrite bind_ok by exact E3.
  - eapply same_but_trans; [eapply same_but_weaken; [|exact S1]; set_solver|].
    eapply same_but_trans; [eapply same_but_weaken; [|exact S2]; set_solver|].
    eapply same_but_trans; [eapply same_but_weaken; [|exact S3]; set_solver|].
    eapply same_but_weaken; [|exact S4]; set_solver.
  - intros p. rewrite N4, N3, N2, N1. done.
  - intros p. rewrite P4, P3, P2, P1. done.
Qed.

(** *** Insertion and removal in the sequence *)

Lemma ring_split h hd l r :
  ring h hd (l ++ r) ↔
  NoDup (hd :: l ++ r) ∧ path h hd l ∧ edge h (last_of hd l) (List.hd hd r) ∧
  path h (List.hd hd r) (tail (r ++ [hd])).
Proof.
  unfold ring. rewrite <-app_assoc, path_app. destruct r as [|y r]; simpl; tauto.
Qed.

Lemma hd_in_ring hd r : List.hd hd r ∈ hd :: r.
Proof. destruct r; simpl; [by left|by right; left]. Qed.

Lemma tail_ring_elem hd r p :
  NoDup (hd :: r) → p ∈ tail (r ++ [hd]) → p ≠ List.hd hd r ∧ p ∈ hd :: r.
Proof.
  intros Hnd. destruct r as [|y r]; simpl; [set_solver|].
  apply NoDup_cons in Hnd as [Hh Hnd]. apply NoDup_cons in Hnd as [Hy _].
  rewrite elem_of_app, list_elem_of_singleton. intros [Hp| ->]; split.
  - by intros ->.
  - by right; right.
  - intros ->. apply Hh. by left.
  - by left.
Qed.

Lemma belast_tail_elem hd r p : p ∈ belast (List.hd hd r) (tail (r ++ [hd])) → p ∈ r.
Proof. destruct r as [|y r]; simpl; [set_solver|]. by rewrite belast_snoc. Qed.

Lemma ring_add_ok h hd l r e :
  ring h hd (l ++ r) → e ∉ hd :: l ++ r → is_Some (h !! e) → ∃ h',
  ring_add e (List.hd hd r) h = Ok (tt, h') ∧ ring h' hd (l ++ e :: r) ∧
  same_but (e :: hd :: l ++ r) h h'.
Proof.
  intros Hr He Le. pose proof Hr as Hr0.
  apply ring_split in Hr as (Hnd & Hl & [Hn Hp] & Ht).
  set (y := List.hd hd r) in *. set (q := last_of hd l) in *.
  assert (Hy : y ∈ hd :: r) by apply hd_in_ring.
  assert (Hq : q ∈ hd :: l) by apply last_of_elem.
  assert (Hy' : y ∈ hd :: l ++ r) by set_solver.
  assert (Hq' : q ∈ hd :: l ++ r) by set_solver.
  destruct (ring_add_raw h e y q) as (h' & E & S & N & P); [set_solver|set_solver|done|..].
  { by eapply ring_live. }
  { by eapply ring_live. }
  { done. }
  exists h'. split; [done|]. split; cycle 1.
  { eapply same_but_weaken; [|exact S]. set_solver. }
  assert (Hnd' : NoDup (hd :: l ++ e :: r)).
  { rewrite <-(Permutation_middle l r e). apply NoDup_cons in Hnd as [Hh Hnd].
    apply not_elem_of_cons in He as [He1 He2].
    constructor; [by apply not_elem_of_cons|by constructor]. }
  assert (Hlr : ∀ p, p ∈ l → p ∉ r).
  { apply NoDup_cons in Hnd as [_ Hnd]. apply NoDup_app in Hnd as (_ & ? & _). done. }
  assert (Hhr : hd ∉ l ++ r) by (by apply NoDup_cons in Hnd as [? _]).
  split; [done|]. rewrite <-app_assoc, path_app. split.
  - revert Hl. apply path_frame.
    + intros p Hp'. assert (p ≠ q).
      { apply belast_not_last; [|done]. apply NoDup_cons in Hnd as [? Hnd].
        apply NoDup_app in Hnd as [? _]. constructor; set_solver. }
      apply belast_subset in Hp'. rewrite N, !decide_False by set_solver. done.
    + intros p Hp'. rewrite P, !decide_False; [done|set_solver|].
      intros ->. apply elem_of_cons in Hy as [Hy|Hy]; [|by eapply Hlr].
      rewrite Hy in Hp'. set_solver.
  - simpl. fold q. destruct (decide (e = q)); [set_solver|]. destruct (decide (e = y)); [set_solver|].
    split; [split|].
    + by rewrite N, decide_True.
    + by rewrite P, decide_False, decide_True.
    + replace (r ++ [hd]) with (y :: tail (r ++ [hd])) by (by subst y; destruct r).
      simpl. split; [split|].
      * by rewrite N, decide_False, decide_True.
      * by rewrite P, decide_True.
      * revert Ht. apply path_frame.
        -- intros p Hp'. apply belast_tail_elem in Hp'.
           rewrite N, !decide_False; [done|set_solver|].
           intros ->. apply elem_of_cons in Hq as [Hq|Hq]; [|by eapply Hlr].
           rewrite Hq in Hp'. set_solver.
        -- intros p Hp'. apply tail_ring_elem in Hp' as [Hp1 Hp2].
           { rewrite P, !decide_False; [done|set_solver|done]. }
           apply NoDup_cons in Hnd as [? Hnd]. apply NoDup_app in Hnd as (_ & _ & ?).
           constructor; set_solver.
Qed.

Lemma ring_remove_ok h hd l r e :
  ring h hd (l ++ e :: r) → ∃ h',
  ring_remove e h = Ok (tt, h') ∧ ring h' hd (l ++ r) ∧
  same_but (e :: hd :: l ++ r) h h' ∧ h' !! e = Some (Links None None).
Proof.
  intros Hr. pose proof Hr as Hr0.
  apply ring_split in Hr as (Hnd & Hl & [Hn Hp] & Ht). simpl in Hp, Hn, Ht.
  set (n := List.hd hd r). set (q := last_of hd l) in *.
  assert (Hnd' : NoDup (hd :: e :: l ++ r)) by (by rewrite (Permutation_middle l r e)).
  apply NoDup_cons in Hnd' as [Hhd Hnd']. apply NoDup_cons in Hnd' as [He Hnd'].
  apply not_elem_of_cons in Hhd as [Hhe Hhr].
  assert (Hy : n ∈ hd :: r) by apply hd_in_ring.
  assert (Hq : q ∈ hd :: l) by apply last_of_elem.
  assert (Htl : r ++ [hd] = n :: tail (r ++ [hd])) by (by subst n; destruct r).
  rewrite Htl in Ht. destruct Ht as [[Hn2 Hp2] Ht].
  assert (Hlr : ∀ p, p ∈ l → p ∉ r) by (by apply NoDup_app in Hnd' as (_ & ? & _)).
  destruct (ring_remove_raw h e n q) as (h' & E & S & N & P);
    [set_solver|set_solver|eapply ring_live; [done|set_solver]..|done|done|].
  exists h'. split; [done|]. split; [|split].
  - apply ring_split. split; [by constructor|]. split; [|split].
    + revert Hl. apply path_frame.
      * intros p Hp'. assert (p ≠ q).
        { apply belast_not_last; [|done]. apply NoDup_app in Hnd' as [? _].
          constructor; set_solver. }
        apply belast_subset in Hp'. rewrite N, !decide_False by set_solver. done.
      * intros p Hp'. rewrite P, !decide_False; [done| |set_solver].
        intros ->. apply elem_of_cons in Hy as [Hy|Hy]; [|by eapply Hlr].
        rewrite Hy in Hp'. set_solver.
    + fold q n. split.
      * by rewrite N, decide_False, decide_True by set_solver.
      * by rewrite P, decide_False, decide_True by set_solver.
    + fold n. revert Ht. apply path_frame.
      * intros p Hp'. apply belast_tail_elem in Hp'.
        rewrite N, !decide_False; [done| |set_solver].
        intros ->. apply elem_of_cons in Hq as [Hq|Hq]; [|by eapply Hlr].
        rewrite Hq in Hp'. set_solver.
      * intros p Hp'. apply tail_ring_elem in Hp' as [Hp1 Hp3].
        { rewrite P, !decide_False; [done|done|set_solver]. }
        apply NoDup_app in Hnd' as (_ & _ & ?). constructor; set_solver.
  - eapply same_but_weaken; [|exact S]. set_solver.
  - assert (is_Some (h' !! e)) as [[x y] Hx].
    { eapply same_but_live; [done|]. eapply ring_live; [done|set_solver]. }
    specialize (N e). specialize (P e). rewrite decide_True in N, P by done.
    unfold next_of in N. unfold prev_of in P. rewrite Hx in N, P |- *. simpl in *. by subst.
Qed.
End ring_lemmas.

#[export] Hint Resolve same_but_live ring_live : upil.
