(* ===== verification/EventLoop.v ===== *)
(** * The event loop

    src/upil_event/upil_event.c: watched descriptors, timers and the dispatch
    of their callbacks; src/upil_event/upil_event_wrapper.c: the wake-up pipe
    and the start of a loop.  A [upile_context] carries the fields of the C
    struct together with the events it can reach: the link pairs of the
    events in [elinks], their other fields in [events].  The heads of the
    timer list and of the pending list are the events at the addresses
    [timer_list] and [pending_list].  The mutex serialises the operations and
    is not modelled; [now] is what the next call of [getNow] reads. *)

From S2P Require Import Prelude Dll.

Definition MAX_FD_EVENTS : nat := 16.
(** The descriptors an [fd_set] can hold. *)
Definition FD_SETSIZE : Z := 1024.

Record timeval := Timeval { tv_sec : Z; tv_usec : Z }.

(** The functions the programs install as callbacks; [my_process_message] is
    the one of the test of the handlers. *)
Inductive callback : Type :=
  | processWakeupCallback
  | sm_process_message_cb
  | tpp_recv_event_cb_cb
  | command_listenCallback
  | command_processCommandsCallback
  | ril_listenCallback
  | ril_processCommandsCallback
  | monitor_listenCallback
  | event_monitor_cb
  | my_process_message_cb
  | no_callback.

Record upil_event := UpilEvent {
  ev_fd : Z;
  ev_index : Z;
  ev_persist : Z;
  ev_timeout : timeval;
  ev_func : callback;
  ev_param : loc;
}.

Record upile_context := UpileContext {
  readFds : gset Z;
  nfds : Z;
  watch_table : list ptr;
  elinks : lheap;
  events : gmap positive upil_event;
  now : timeval;
}.

Definition timer_list : loc := 1%positive.
Definition pending_list : loc := 2%positive.

Definition zero_event : upil_event :=
  UpilEvent 0 0 0 (Timeval 0 0) no_callback timer_list.

(** ** Access to the fields *)

#[export] Instance context_elinks : Lens upile_context lheap := {|
  lget := elinks;
  lset h c := UpileContext (readFds c) (nfds c) (watch_table c) h (events c) (now c);
|}.
#[export] Instance context_elinks_laws : LensLaws upile_context lheap.
Proof. split; intros; repeat match goal with c : upile_context |- _ => destruct c end; done. Qed.

Definition set_watch (t : list ptr) (c : upile_context) : upile_context :=
  UpileContext (readFds c) (nfds c) t (elinks c) (events c) (now c).
Definition set_readFds (s : gset Z) (c : upile_context) : upile_context :=
  UpileContext s (nfds c) (watch_table c) (elinks c) (events c) (now c).
Definition set_nfds (n : Z) (c : upile_context) : upile_context :=
  UpileContext (readFds c) n (watch_table c) (elinks c) (events c) (now c).
Definition set_events (e : gmap positive upil_event) (c : upile_context) : upile_context :=
  UpileContext (readFds c) (nfds c) (watch_table c) (elinks c) e (now c).
Definition set_now (t : timeval) (c : upile_context) : upile_context :=
  UpileContext (readFds c) (nfds c) (watch_table c) (elinks c) (events c) t.

Definition with_fd (n : Z) (e : upil_event) : upil_event :=
  UpilEvent n (ev_index e) (ev_persist e) (ev_timeout e) (ev_func e) (ev_param e).
Definition with_index (n : Z) (e : upil_event) : upil_event :=
  UpilEvent (ev_fd e) n (ev_persist e) (ev_timeout e) (ev_func e) (ev_param e).
Definition with_timeout (t : timeval) (e : upil_event) : upil_event :=
  UpilEvent (ev_fd e) (ev_index e) (ev_persist e) t (ev_func e) (ev_param e).

(** Code on a context. *)
Abbreviation ML := (M upile_context).

(** [*ev], and an assignment to its fields. *)
Definition event_at (ev : loc) : ML upil_event := λ c,
  match events c !! ev with Some e => Ok (e, c) | None => Err Dangling end.
Definition event_update (ev : loc) (f : upil_event → upil_event) : ML unit :=
  e ← event_at ev; modify (λ c, set_events (<[ev := f e]> (events c)) c).

(** ** Time *)

Definition timeradd (a b : timeval) : timeval :=
  let s := tv_sec a + tv_sec b in
  let u := tv_usec a + tv_usec b in
  if 1000000 <=? u then Timeval (s + 1) (u - 1000000) else Timeval s u.

Definition timersub (a b : timeval) : timeval :=
  let s := tv_sec a - tv_sec b in
  let u := tv_usec a - tv_usec b in
  if u <? 0 then Timeval (s - 1) (u + 1000000) else Timeval s u.

Definition timercmp (a b : timeval) (op : Z → Z → bool) : bool :=
  if tv_sec a =? tv_sec b then op (tv_usec a) (tv_usec b) else op (tv_sec a) (tv_sec b).

Definition getNow : ML timeval := gets now.

(** ** Lists of events *)

Definition init_list (list : loc) : ML unit :=
  modify (λ c, set_events (<[list := with_fd (-1) zero_event]> (events c)) c);;
  zoom (ring_init list).

Definition addToList (ev list : loc) : ML unit := zoom (ring_add ev list).
Definition removeFromList (ev : loc) : ML unit := zoom (ring_remove ev).

(** ** Watched descriptors *)

Definition FD_SET (fd : Z) : ML unit :=
  if (0 <=? fd) && (fd <? FD_SETSIZE)
  then modify (λ c, set_readFds ({[fd]} ∪ readFds c) c) else fail Overrun.
Definition FD_CLR (fd : Z) : ML unit :=
  if (0 <=? fd) && (fd <? FD_SETSIZE)
  then modify (λ c, set_readFds (readFds c ∖ {[fd]}) c) else fail Overrun.

(** The largest watched descriptor, at least [n]. *)
Fixpoint max_watched_fd (table : list ptr) (n : Z) : ML Z :=
  match table with
  | [] => mret n
  | None :: table' => max_watched_fd table' n
  | Some rev :: table' =>
      e ← event_at rev;
      max_watched_fd table' (if n <? ev_fd e then ev_fd e else n)
  end.

Definition removeWatch (ev : loc) (index : nat) : ML unit :=
  modify (λ c, set_watch (<[index := None]> (watch_table c)) c);;
  event_update ev (with_index (-1));;
  e ← event_at ev;
  FD_CLR (ev_fd e);;
  n ← gets nfds;
  when (ev_fd e + 1 =? n)
    (table ← gets watch_table;
     m ← max_watched_fd table 0;
     modify (set_nfds (m + 1))).

(** The first empty slot of the watch table. *)
Fixpoint free_slot (table : list ptr) (i : nat) : option nat :=
  match table with
  | [] => None
  | None :: _ => Some i
  | Some _ :: table' => free_slot table' (S i)
  end.

(** Adds an event to the watch table; nothing happens when it is full. *)
Definition upil_event_add (ev : loc) : ML unit :=
  table ← gets watch_table;
  match free_slot table 0 with
  | None => skip
  | Some i =>
      modify (set_watch (<[i := Some ev]> table));;
      event_update ev (with_index (Z.of_nat i));;
      e ← event_at ev;
      FD_SET (ev_fd e);;
      n ← gets nfds;
      when (n <=? ev_fd e) (modify (set_nfds (ev_fd e + 1)))
  end.

Definition upil_event_del (ev : loc) : ML unit :=
  e ← event_at ev;
  if (ev_index e <? 0) || (Z.of_nat MAX_FD_EVENTS <=? ev_index e) then skip
  else removeWatch ev (Z.to_nat (ev_index e)).

(** ** Initialisation *)

(** [timer_list], [pending_list] and the table are part of the context;
    the events of the program around it are left as they are. *)
Definition upil_event_init : ML unit :=
  modify (set_readFds ∅);;
  init_list timer_list;;
  init_list pending_list;;
  modify (set_watch (replicate MAX_FD_EVENTS None));;
  modify (set_nfds 0).

(** [memset(ev, 0, sizeof *ev)] clears the links with the rest. *)
Definition upil_event_set (ev : loc) (fd persist : Z) (func : callback) (param : loc) : ML unit :=
  event_update ev (λ _, UpilEvent fd (-1) persist (Timeval 0 0) func param);;
  zoom (set_next ev None);;
  zoom (set_prev ev None).

(** ** Timers *)

(** [while (list->timeout < t && list != &timer_list) list = list->next] *)
Fixpoint timer_position (fuel : nat) (t : timeval) (list : loc) : ML loc :=
  match fuel with
  | O => fail OutOfFuel
  | S f =>
      e ← event_at list;
      if timercmp (ev_timeout e) t Z.ltb && negb (bool_decide (list = timer_list)) then
        n ← zoom (get_next list);
        n ← lift (deref n);
        timer_position f t n
      else mret list
  end.

(** Every turn reaches another event, so that one turn per event, and one
    for the head, is enough. *)
Definition walk_fuel (c : upile_context) : nat := S (size (elinks c)).

Definition upil_timer_add (ev : loc) (tv : option timeval) : ML unit :=
  match tv with
  | None => skip
  | Some tv =>
      list ← zoom (get_next timer_list);
      list ← lift (deref list);
      event_update ev (with_fd (-1));;
      t ← getNow;
      let timeout := timeradd t tv in
      event_update ev (with_timeout timeout);;
      fuel ← gets walk_fuel;
      list ← timer_position fuel timeout list;
      addToList ev list
  end.

Definition upil_timer_del (ev : loc) : ML unit := removeFromList ev.

Fixpoint expire (fuel : nat) (t : timeval) (tev : loc) : ML unit :=
  match fuel with
  | O => fail OutOfFuel
  | S f =>
      if bool_decide (tev = timer_list) then skip else
      e ← event_at tev;
      if timercmp t (ev_timeout e) Z.gtb then
        n ← zoom (get_next tev);
        removeFromList tev;;
        addToList tev pending_list;;
        n ← lift (deref n);
        expire f t n
      else skip
  end.

Definition processTimeouts : ML unit :=
  tev ← zoom (get_next timer_list);
  t ← getNow;
  tev ← lift (deref tev);
  fuel ← gets walk_fuel;
  expire fuel t tev.

(** How long [select] may block: for ever without timers. *)
Definition calcNextTimeout : ML (option timeval) :=
  tev ← zoom (get_next timer_list);
  t ← getNow;
  tev ← lift (deref tev);
  if bool_decide (tev = timer_list) then mret None else
  e ← event_at tev;
  mret (Some (if timercmp (ev_timeout e) t Z.gtb
              then timersub (ev_timeout e) t else Timeval 0 0)).

(** ** Ready descriptors *)

Fixpoint read_readies (rfds : gset Z) (n : Z) (i : nat) (count : nat) : ML unit :=
  match count with
  | O => skip
  | S count' =>
      if 0 <? n then
        table ← gets watch_table;
        match table !! i with
        | None => fail Overrun
        | Some None => read_readies rfds n (S i) count'
        | Some (Some rev) =>
            e ← event_at rev;
            if bool_decide (ev_fd e ∈ rfds) then
              addToList rev pending_list;;
              when (ev_persist e =? 0) (removeWatch rev i);;
              read_readies rfds (n - 1) (S i) count'
            else read_readies rfds n (S i) count'
        end
      else skip
  end.

Definition processReadReadies (rfds : gset Z) (n : Z) : ML unit :=
  read_readies rfds n 0 MAX_FD_EVENTS.

(** ** Dispatch *)

Section dispatch.
(** The state of the program around the loop, and the call of a callback
    with its descriptor and its parameter. *)
Context {W : Type} `{Lens W upile_context}.
Variable call : callback → Z → loc → M W Z.

(** The next event is read before the callback runs. *)
Fixpoint fire (fuel : nat) (ev : loc) (ret : Z) : M W Z :=
  match fuel with
  | O => fail OutOfFuel
  | S f =>
      if bool_decide (ev = pending_list) then mret ret else
      n ← zoom (zoom (A := lheap) (get_next ev));
      zoom (removeFromList ev);;
      e ← zoom (event_at ev);
      ret ← call (ev_func e) (ev_fd e) (ev_param e);
      if ret <? 0 then mret ret else
      n ← lift (deref n);
      fire f n ret
  end.

Definition firePending : M W Z :=
  ev ← zoom (zoom (A := lheap) (get_next pending_list));
  ev ← lift (deref ev);
  fuel ← gets (λ w, walk_fuel (lget w));
  fire fuel ev 0.

(** What [select] reports: the number of ready descriptors and their set,
    or an error that is or is not an interruption. *)
Inductive select_result : Type :=
  | Selected (n : Z) (rfds : gset Z)
  | Interrupted
  | SelectError.

(** A call of [select]: from [nfds], the copy of [readFds] and the timeout,
    the time at which it returns and what it reports. *)
Definition select_call : Type := Z → gset Z → option timeval → timeval * select_result.

(** One turn of [upil_event_loop]: [None] when the loop goes on. *)
Definition loop_turn (sel : select_call) : M W (option Z) :=
  rfds ← zoom (gets readFds);
  tv ← zoom calcNextTimeout;
  nfds ← zoom (gets nfds);
  let (woken, r) := sel nfds rfds tv in
  zoom (modify (set_now woken));;
  match r with
  | Interrupted => mret None
  | SelectError => mret (Some (-1))
  | Selected n rfds =>
      zoom processTimeouts;;
      zoom (processReadReadies rfds n);;
      ret ← firePending;
      mret (if ret <? 0 then Some ret else None)
  end.

(** [upil_event_loop], for the given results of [select]. *)
Fixpoint upil_event_loop (sels : list select_call) : M W (option Z) :=
  match sels with
  | [] => mret None
  | sel :: sels' =>
      r ← loop_turn sel;
      match r with Some ret => mret (Some ret) | None => upil_event_loop sels' end
  end.
End dispatch.

(** ** The wake-up pipe: upil_event_wrapper.c *)

(** [wakeup_bytes] counts the bytes in the pipe; [on_dispatch] tells whether
    the running thread is the one of the loop. *)
Record uew_context := UewContext {
  upile : upile_context;
  fdWakeupRead : Z;
  fdWakeupWrite : Z;
  wakeup_bytes : Z;
  on_dispatch : bool;
}.

#[export] Instance uew_upile : Lens uew_context upile_context := {|
  lget := upile;
  lset c u := UewContext c (fdWakeupRead u) (fdWakeupWrite u) (wakeup_bytes u) (on_dispatch u);
|}.
#[export] Instance uew_upile_laws : LensLaws uew_context upile_context.
Proof. split; intros; repeat match goal with c : uew_context |- _ => destruct c end; done. Qed.

Abbreviation MU := (M uew_context).

Definition wakeupfd_event : loc := 3%positive.

(** The reads empty the pipe. *)
Definition processWakeup : MU Z :=
  modify (λ u, UewContext (upile u) (fdWakeupRead u) (fdWakeupWrite u) 0 (on_dispatch u));;
  mret 0.

Definition triggerEvLoop : MU unit :=
  b ← gets on_dispatch;
  when (negb b) (modify (λ u,
    UewContext (upile u) (fdWakeupRead u) (fdWakeupWrite u) (wakeup_bytes u + 1) (on_dispatch u))).

Definition uew_event_add_wakeup (ev : loc) : MU unit :=
  zoom (upil_event_add ev);; triggerEvLoop.

(** [msec/1000] and [(msec%1000)*1000] truncate towards zero. *)
Definition uew_timer_add_wakeup (ev : loc) (msec : Z) : MU unit :=
  let relativeTime := Timeval (Z.quot msec 1000) (Z.rem msec 1000 * 1000) in
  zoom (upil_timer_add ev (Some relativeTime));; triggerEvLoop.

Definition uew_event_del (ev : loc) (is_timer : bool) : MU unit :=
  zoom (if is_timer then upil_timer_del ev else upil_event_del ev).

Definition uew_event_set (ev : loc) (fd persist : Z) (func : callback) (param : loc) : MU unit :=
  zoom (upil_event_set ev fd persist func param).

(** The thread of a loop up to its first turn, for the descriptors of the
    new pipe. *)
Definition eventLoop (filedes : option (Z * Z)) : MU unit :=
  zoom upil_event_init;;
  match filedes with
  | None => skip
  | Some (r, w) =>
      modify (λ u, UewContext (upile u) r w 0 true);;
      uew_event_set wakeupfd_event r 1 processWakeupCallback timer_list;;
      uew_event_add_wakeup wakeupfd_event
  end.

(** [ret] is what [pthread_create] returns: the new thread runs when it is
    zero, and the caller waits until it has signalled its start. *)
Definition uew_startEventLoop (ret : Z) (filedes : option (Z * Z)) : MU Z :=
  if ret =? 0 then
    eventLoop filedes;;
    modify (λ u, UewContext (upile u) (fdWakeupRead u) (fdWakeupWrite u) (wakeup_bytes u) false);;
    mret (if ret <? 0 then -1 else 0)
  else fail Blocked.
