(* ===== verification/Debug.v ===== *)
(** * Debug output: src/upil_debug.c

    Messages of the daemon go to the log of Android when their level is high
    enough.  The formats of [printf] are applied before: a message is its
    text. *)

From stdpp Require Import strings.
From S2P Require Import Prelude CString EventLoop.

Definition MSG_EXCESSIVE : Z := 0.
Definition MSG_MSGDUMP : Z := 1.
Definition MSG_DEBUG : Z := 2.
Definition MSG_INFO : Z := 3.
Definition MSG_WARNING : Z := 4.
Definition MSG_ERROR : Z := 5.

Definition MAX_MSG_SIZE : Z := 1024.

(** The priorities of Android. *)
Definition ANDROID_LOG_DEBUG : Z := 3.
Definition ANDROID_LOG_INFO : Z := 4.
Definition ANDROID_LOG_WARN : Z := 5.
Definition ANDROID_LOG_ERROR : Z := 6.

Record debug := Debug {
  upil_debug_level : Z;
  upil_debug_ts : Z;
  g_dbg_count : Z;
  android_log : list (Z * list Z);
}.

Definition debug_start : debug := Debug MSG_INFO 0 0 [].

Definition log_priority (level : Z) : Z :=
  if level =? MSG_ERROR then ANDROID_LOG_ERROR
  else if level =? MSG_WARNING then ANDROID_LOG_WARN
  else if level =? MSG_INFO then ANDROID_LOG_INFO
  else ANDROID_LOG_DEBUG.

(** [%06u] *)
Definition six_digits (n : Z) : list Z :=
  let d := dec n in replicate (6 - length d) 48 ++ d.

Definition time_stamp (tv : timeval) : list Z :=
  lit "{" ++ dec (tv_sec tv) ++ lit "." ++ six_digits (tv_usec tv) ++ lit "} ".

(** With a time stamp the text is cut to the buffer. *)
Definition upil_printf (now : timeval) (level : Z) (text : list Z) : M debug unit :=
  d ← get;
  when (upil_debug_level d <=? level)
    (let line := if upil_debug_ts d =? 0 then text
                 else time_stamp now ++ take (Z.to_nat (MAX_MSG_SIZE - 1)) text in
     put (Debug (upil_debug_level d) (upil_debug_ts d) (g_dbg_count d)
            (android_log d ++ [(log_priority level, line)]))).

(** [%02X ] *)
Definition hex_digit (n : Z) : Z := if n <? 10 then 48 + n else 55 + n.
Definition hex_byte (b : Z) : list Z := [hex_digit (b / 16); hex_digit (b mod 16); 32].

(** [strcat] to the array [line]. *)
Definition line_cat (line s : list Z) : res (list Z) := store_string MAX_MSG_SIZE (line ++ s).

Fixpoint hex_loop (line data : list Z) : res (list Z) :=
  match data with
  | [] => Ok line
  | b :: data => line ← line_cat line (hex_byte b); hex_loop line data
  end.

Definition hex_line (title : list Z) (data : option (list Z)) : res (list Z) :=
  line ← line_cat [] (title ++ [32]);
  match data with
  | None | Some [] => line_cat line (lit " [NULL]" ++ [10])
  | Some data => line ← hex_loop line data; line_cat line [10]
  end.

(** The line is itself the format: a percent sign in the title has no
    argument. *)
Definition upil_hexdump (now : timeval) (level : Z) (title : list Z) (data : option (list Z)) : M debug unit :=
  line ← lift (hex_line title data);
  if decide (37 ∈ line) then fail Uninit else upil_printf now level line.

(** [ENTER_LEAVE_LOG]: [space_enter] has 64 characters. *)
Definition enter_leave_log (now : timeval) (is_enter : bool) (func : list Z) : M debug unit :=
  d ← get;
  let count := if is_enter then g_dbg_count d else g_dbg_count d - 1 in
  space ← lift (store_string 64 (replicate (2 * Z.to_nat count) 32));
  let after := if is_enter then count + 1 else count in
  put (Debug (upil_debug_level d) (upil_debug_ts d) after (android_log d));;
  upil_printf now MSG_MSGDUMP
    (space ++ lit "(" ++ dec count ++ lit ") [" ++ func ++ lit "] " ++ (if is_enter then lit "ENTER" else lit "LEAVE")).

(** ** Lines of bytes *)

Definition hex_text (title data : list Z) : list Z := title ++ [32] ++ concat (hex_byte <$> data) ++ [10].

Lemma line_cat_spec line s :
  line_cat line s = if len line + len s + 1 <=? 1024 then Ok (line ++ s) else Err Overrun.
Proof. unfold line_cat, store_string, MAX_MSG_SIZE. by rewrite len_app. Qed.

Lemma hex_loop_spec line data :
  len line + 1 ≤ MAX_MSG_SIZE →
  hex_loop line data = if len line + 3 * len data + 1 <=? MAX_MSG_SIZE
    then Ok (line ++ concat (hex_byte <$> data)) else Err Overrun.
Proof.
  unfold MAX_MSG_SIZE. revert line. induction data as [|b data IH]; intros line Hl; cbn [hex_loop].
  - change (len []) with 0. rewrite (proj2 (Z.leb_le _ _)) by lia. by rewrite app_nil_r.
  - rewrite line_cat_spec, len_cons.
    change (len (hex_byte b)) with 3. pose proof (len_nonneg data).
    destruct (Z.leb_spec (len line + 3 + 1) 1024) as [H1|H1]; cbn [mbind res_bind].
    + rewrite IH by (rewrite len_app; change (len (hex_byte b)) with 3; lia).
      rewrite len_app. change (len (hex_byte b)) with 3.
      replace (len line + 3 + 3 * len data + 1) with (len line + 3 * (1 + len data) + 1) by lia.
      cbn [fmap list_fmap concat]. by rewrite <-app_assoc.
    + by rewrite (proj2 (Z.leb_gt _ _)) by lia.
Qed.

Lemma hex_concat_len l : len (concat (hex_byte <$> l)) = 3 * len l.
Proof.
  induction l as [|c l IH]; [done|]. rewrite fmap_cons, concat_cons, len_app, len_cons, IH.
  change (len (hex_byte c)) with 3. lia.
Qed.

(** C38: A line of bytes is written when the title and three characters for
    each byte fit into the array of 1024 characters, and the array is overrun
    when they do not. *)
Theorem hexdump_bounds title data :
  data ≠ [] → (hex_line title (Some data) = Ok (hex_text title data) ∧ len title + 3 * len data + 3 ≤ 1024) ∨
  (hex_line title (Some data) = Err Overrun ∧ 1024 < len title + 3 * len data + 3).
Proof.
  intros Hd. unfold hex_line. rewrite line_cat_spec, len_app. change (len []) with 0. change (len [32]) with 1. pose proof (len_nonneg data). pose proof (len_nonneg title).
  destruct (Z.leb_spec (0 + (len title + 1) + 1) 1024) as [H1|H1]; cbn [mbind res_bind app]; [|right; split; [done|lia]].
  destruct data as [|b data]; [done|]. rewrite hex_loop_spec by (rewrite len_app; unfold MAX_MSG_SIZE; change (len [32]) with 1; lia).
  rewrite len_app. change (len [32]) with 1. unfold MAX_MSG_SIZE.
  destruct (Z.leb_spec (len title + 1 + 3 * len (b :: data) + 1) 1024) as [H2|H2]; cbn [mbind res_bind].
  - rewrite line_cat_spec, !len_app. change (len [32]) with 1. change (len [10]) with 1.
    rewrite hex_concat_len.
    destruct (Z.leb_spec (len title + 1 + 3 * len (b :: data) + 1 + 1) 1024); [left|right]; (split; [|lia]); [|done].
    unfold hex_text. by rewrite <-!app_assoc.
  - right. split; [done|lia].
Qed.

Definition hex_value (c : Z) : Z := if c <? 65 then c - 48 else c - 55.
Fixpoint unhex (l : list Z) : list Z :=
  match l with
  | h :: k :: 32 :: l => 16 * hex_value h + hex_value k :: unhex l
  | _ => []
  end.

(** The bytes of a line are in its text. *)
Theorem hexdump_readable title data :
  Forall (λ b, 0 ≤ b < 256) data → unhex (drop (S (length title)) (hex_text title data)) = data.
Proof.
  intros H. unfold hex_text. rewrite app_assoc. replace (S (length title)) with (length (title ++ [32]))
    by (rewrite length_app; simpl; lia).
  rewrite drop_app_length. assert (∀ n, 0 ≤ n < 16 → hex_value (hex_digit n) = n) as Hv.
  { intros n Hn. unfold hex_digit, hex_value. destruct (Z.ltb_spec n 10);
      [rewrite (proj2 (Z.ltb_lt _ _)) by lia|rewrite (proj2 (Z.ltb_ge _ _)) by lia]; lia. }
  induction H as [|b data Hb _ IH]; [done|]. rewrite fmap_cons, concat_cons, <-app_assoc. cbn [app unhex hex_byte].
  rewrite !Hv, IH; [|apply Z.mod_pos_bound; lia|]. { f_equal. pose proof (Z.div_mod b 16). lia. }
  split; [apply Z.div_pos; lia|apply Z.div_lt_upper_bound; lia].
Qed.

(** ** The log *)

(** Messages with their times. *)
Fixpoint print_all (xs : list (timeval * Z * list Z)) : M debug unit :=
  match xs with
  | [] => skip
  | (now, level, text) :: xs => upil_printf now level text;; print_all xs
  end.

Definition log_line (ts : Z) (x : timeval * Z * list Z) : Z * list Z :=
  (log_priority x.1.2, if ts =? 0 then x.2 else time_stamp x.1.1 ++ take (Z.to_nat (MAX_MSG_SIZE - 1)) x.2).

(** The log has the messages whose level is high enough, in their order. *)
Theorem log_filters xs d :
  print_all xs d = Ok (tt, Debug (upil_debug_level d) (upil_debug_ts d) (g_dbg_count d)
    (android_log d ++ (log_line (upil_debug_ts d) <$> filter (λ x, upil_debug_level d ≤ x.1.2) xs))).
Proof.
  revert d. induction xs as [|[[now level] text] xs IH]; intros d; cbn [print_all].
  { simpl. rewrite app_nil_r. by destruct d. }
  unfold upil_printf. rewrite filter_cons. cbn [fst snd].
  destruct (Z.leb_spec (upil_debug_level d) level) as [Hl|Hl].
  - rewrite decide_True by done. rewrite bind_ok with (a := tt) (s' := Debug (upil_debug_level d) (upil_debug_ts d)
      (g_dbg_count d) (android_log d ++ [log_line (upil_debug_ts d) (now, level, text)])).
    + rewrite IH. cbn [upil_debug_level upil_debug_ts g_dbg_count android_log]. by rewrite <-app_assoc.
    + rewrite bind_get. by rewrite (proj2 (Z.leb_le _ _)).
  - rewrite decide_False by lia. rewrite bind_ok with (a := tt) (s' := d); [by rewrite IH|].
    rewrite bind_get. by rewrite (proj2 (Z.leb_gt _ _)).
Qed.

(** ** Nesting *)

(** The calls of a run, as a tree of calls. *)
Inductive calls := Calls (func : list Z) (inner : list calls).

Section all.
Context {A S : Type} (f : A → M S unit).
Fixpoint do_all (l : list A) : M S unit :=
  match l with [] => skip | c :: l => f c;; do_all l end.
End all.

Fixpoint trace_calls (now : timeval) (c : calls) : M debug unit :=
  match c with
  | Calls func inner =>
      enter_leave_log now true func;; do_all (trace_calls now) inner;; enter_leave_log now false func
  end.

Fixpoint depth (c : calls) : Z :=
  match c with Calls _ inner => 1 + foldr (λ c n, depth c `max` n) 0 inner end.

Lemma calls_tree_ind (P : calls → Prop) (H : ∀ func inner, Forall P inner → P (Calls func inner)) : ∀ c, P c.
Proof.
  fix IH 1. intros [func inner]. apply H. induction inner as [|c inner IHl]; constructor; [apply IH|done].
Qed.

(** One entry of the log: it overruns the spaces at depth 32. *)
Lemma log_entry now b func d k :
  k = (if b : bool then g_dbg_count d else g_dbg_count d - 1) → 0 ≤ k →
  if k <? 32 then ∃ d', enter_leave_log now b func d = Ok (tt, d') ∧ g_dbg_count d' = if b then k + 1 else k
  else enter_leave_log now b func d = Err Overrun.
Proof.
  intros Hk Hpos. unfold enter_leave_log. rewrite bind_get, <-Hk.
  assert (len (replicate (2 * Z.to_nat k) 32) = 2 * k) as Hl by (rewrite len_replicate; lia).
  unfold store_string. rewrite Hl. destruct (Z.ltb_spec k 32).
  - rewrite (proj2 (Z.leb_le _ _)) by lia. rewrite bind_lift with (a := replicate (2 * Z.to_nat k) 32) by done.
    erewrite bind_ok by done. unfold upil_printf. rewrite bind_get. unfold when.
    destruct (_ <=? _); eexists; (split; [reflexivity|]); simpl; by destruct b.
  - rewrite (proj2 (Z.leb_gt _ _)) by lia. by apply bind_err.
Qed.

(** The log of calls returns to the depth it began with; it runs over its
    64 spaces when calls are nested more than 32 deep. *)
Theorem nesting_bounds now c : ∀ d, 0 ≤ g_dbg_count d →
  if g_dbg_count d + depth c <=? 32
  then ∃ d', trace_calls now c d = Ok (tt, d') ∧ g_dbg_count d' = g_dbg_count d
  else trace_calls now c d = Err Overrun.
Proof.
  induction c as [func inner IH] using calls_tree_ind. intros d Hd. cbn [trace_calls depth].
  set (n := foldr (λ c n, depth c `max` n) 0 inner).
  assert (0 ≤ n) as Hn by (unfold n; clear; induction inner as [|c' l IHl]; cbn [foldr]; [lia|]; etrans; [exact IHl|apply Z.le_max_r]).
  pose proof (log_entry now true func d (g_dbg_count d) eq_refl Hd) as He.
  destruct (Z.ltb_spec (g_dbg_count d) 32).
  2:{ rewrite (proj2 (Z.leb_gt _ _)) by lia. by apply bind_err. }
  destruct He as (d1 & E1 & H1). rewrite (bind_ok _ _ _ _ _ E1).
  assert (∀ d1, g_dbg_count d1 = g_dbg_count d + 1 →
    if g_dbg_count d + (1 + n) <=? 32 then ∃ d2, do_all (trace_calls now) inner d1 = Ok (tt, d2) ∧ g_dbg_count d2 = g_dbg_count d1
    else do_all (trace_calls now) inner d1 = Err Overrun) as Hall.
  { clear E1 H1 d1. unfold n. clear Hn n. induction IH as [|c inner Hc _ IHi]; intros d1 H1; cbn [foldr do_all].
    { rewrite (proj2 (Z.leb_le _ _)) by lia. by exists d1. }
    set (n := foldr (λ c n, depth c `max` n) 0 inner) in *. specialize (Hc d1 ltac:(lia)). rewrite H1 in Hc.
    destruct (Z.leb_spec (g_dbg_count d + 1 + depth c) 32).
    - destruct Hc as (d2 & E2 & H2). rewrite (bind_ok _ _ _ _ _ E2). specialize (IHi d2 ltac:(lia)).
      destruct (Z.leb_spec (g_dbg_count d + (1 + n)) 32);
        [rewrite (proj2 (Z.leb_le _ _)) by lia|rewrite (proj2 (Z.leb_gt _ _)) by lia]; [|done].
      destruct IHi as (d3 & E3 & Hd3). exists d3. split; [done|lia].
    - rewrite (proj2 (Z.leb_gt _ _)) by lia. by apply bind_err. }
  specialize (Hall d1 H1). destruct (_ <=? 32); [|by apply bind_err].
  destruct Hall as (d2 & E2 & H2). rewrite (bind_ok _ _ _ _ _ E2).
  pose proof (log_entry now false func d2 (g_dbg_count d) ltac:(cbv iota; lia) Hd) as Hl.
  rewrite (proj2 (Z.ltb_lt _ _)) in Hl by lia. done.
Qed.

(** ** Examples *)

Lemma hexdump_bounds_witness :
  (hex_line (lit "TP <<") (Some [3; 255]) = Ok (hex_text (lit "TP <<") [3; 255]) ∧ 5 + 3 * 2 + 3 ≤ 1024) ∨
  (hex_line (lit "TP <<") (Some [3; 255]) = Err Overrun ∧ 1024 < 5 + 3 * 2 + 3).
Proof. apply (hexdump_bounds (lit "TP <<") [3; 255]). discriminate. Defined.

Lemma nesting_bounds_witness :
  trace_calls (Timeval 0 0) (Calls (lit "f") [Calls (lit "g") []]) (Debug MSG_INFO 0 31 []) = Err Overrun.
Proof. apply (nesting_bounds (Timeval 0 0) (Calls (lit "f") [Calls (lit "g") []]) (Debug MSG_INFO 0 31 [])). done. Defined.
