(* ===== verification/Options.v ===== *)
(** * Options of the programs: getopt, and its uses in src/upil.c and
    src/ril-telephone/ril-telephone.c

    [getopt] is the one of the C library, for options of one character.
    [permute]: whether it goes on after an argument that is no option, as
    glibc does, or ends there.  A program that gets its results one by one
    stops at the first that it does not know. *)

From stdpp Require Import strings.
From S2P Require Import Prelude CString EventLoop Debug.

Definition colon : Z := 58.
Definition dash : Z := 45.
Definition question : Z := 63.

(** Whether the option [c] takes an argument; [None] when it is none. *)
Fixpoint opt_takes (optstring : list Z) (c : Z) : option bool :=
  match optstring with
  | [] => None
  | x :: rest =>
      if (x =? c) && negb (c =? colon)
      then Some (match rest with y :: _ => y =? colon | [] => false end)
      else opt_takes rest c
  end.

(** A result of [getopt] with its [optarg]. *)
Definition opt_result : Type := Z * option (list Z).

Section getopt.
Variables (permute : bool) (optstring : list Z).

(** The options in one argument, and the arguments that are left. *)
Fixpoint opt_cluster (cs : list Z) (rest : list (list Z)) : list opt_result * list (list Z) :=
  match cs with
  | [] => ([], rest)
  | c :: cs =>
      match opt_takes optstring c with
      | None => let '(r, rest) := opt_cluster cs rest in ((question, None) :: r, rest)
      | Some false => let '(r, rest) := opt_cluster cs rest in ((c, None) :: r, rest)
      | Some true =>
          match cs, rest with
          | _ :: _, _ => ([(c, Some cs)], rest)
          | [], a :: rest => ([(c, Some a)], rest)
          | [], [] => ([(question, None)], [])
          end
      end
  end.

(** The results up to the -1.  Every turn takes an argument off. *)
Fixpoint getopt_loop (fuel : nat) (args : list (list Z)) : list opt_result :=
  match fuel, args with
  | O, _ | _, [] => []
  | S f, a :: rest =>
      if strcmp_eq a [dash; dash] then [] else
      match a with
      | 45 :: c :: cs => let '(r, rest) := opt_cluster (c :: cs) rest in r ++ getopt_loop f rest
      | _ => if permute then getopt_loop f rest else []
      end
  end.

(** The arguments after the name of the program. *)
Definition getopt (argv : list (list Z)) : list opt_result := getopt_loop (length argv) argv.
End getopt.

(** ** The options of the daemon *)

(** [None]: the usage is printed and the process exits with -1. *)
Fixpoint main_options (opts : list opt_result) (d : debug) : option debug :=
  match opts with
  | [] => Some d
  | (c, _) :: opts =>
      if c =? 100 then        (* 'd' *)
        main_options opts (Debug (upil_debug_level d - 1) (upil_debug_ts d) (g_dbg_count d) (android_log d))
      else if c =? 116 then   (* 't' *)
        main_options opts (Debug (upil_debug_level d) 1 (g_dbg_count d) (android_log d))
      else None
  end.

Definition upil_options (permute : bool) (argv : list (list Z)) : option debug :=
  main_options (getopt permute (lit "dt") argv) debug_start.

(** ** The options of the radio interface layer *)

(** [RIL_Init] from the results of [getopt]: whether it returns the
    callbacks; an option that is not known, or without its argument, prints
    the usage. *)
Fixpoint init_options (opts : list opt_result) (s_port : Z) (s_device_path : option (list Z))
    : option (Z * option (list Z)) :=
  match opts with
  | [] => Some (s_port, s_device_path)
  | (opt, Some optarg) :: opts' =>
      if opt =? 112 then                     (* 'p' *)
        if atoi optarg =? 0 then None else init_options opts' (atoi optarg) s_device_path
      else if (opt =? 100) || (opt =? 115) then   (* 'd', 's' *)
        init_options opts' s_port (Some optarg)
      else None
  | (_, None) :: _ => None
  end.

Definition RIL_Init (permute : bool) (argv : list (list Z)) : bool :=
  match init_options (getopt permute (lit "p:d:s:") argv) (-1) None with
  | None => false
  | Some (port, path) => negb ((port <? 0) && bool_decide (path = None))
  end.

(** ** Enough turns *)

Lemma cluster_rest optstring cs rest : (length (opt_cluster optstring cs rest).2 ≤ length rest)%nat.
Proof.
  revert rest. induction cs as [|c cs IH]; intros rest; simpl; [done|].
  specialize (IH rest). destruct (opt_cluster optstring cs rest) as [r rest'].
  destruct (opt_takes optstring c) as [[]|]; [|done..].
  destruct cs; [|done]. destruct rest; simpl; lia.
Qed.

Lemma getopt_fuel permute optstring n args :
  (length args ≤ n)%nat → getopt_loop permute optstring n args = getopt permute optstring args.
Proof.
  unfold getopt. assert (∀ n m args, (length args ≤ n)%nat → (length args ≤ m)%nat →
    getopt_loop permute optstring n args = getopt_loop permute optstring m args) as H; [|by intros ?; apply H].
  clear n args. intros n. induction n as [|n IH]; intros m args Hn Hm.
  { destruct args; [by destruct m|simpl in Hn; lia]. }
  destruct m as [|m]; [destruct args; [done|simpl in Hm; lia]|].
  destruct args as [|a args]; [done|]. cbn [getopt_loop length] in *.
  destruct (strcmp_eq a [dash; dash]); [done|].
  assert (∀ cs, (let '(r, rest) := opt_cluster optstring cs args in r ++ getopt_loop permute optstring n rest) =
    (let '(r, rest) := opt_cluster optstring cs args in r ++ getopt_loop permute optstring m rest)) as Hc.
  { intros cs. pose proof (cluster_rest optstring cs args) as Hr. destruct (opt_cluster optstring cs args) as [r rest].
    simpl in Hr. f_equal. apply IH; lia. }
  assert (getopt_loop permute optstring n args = getopt_loop permute optstring m args) as Hs by (apply IH; lia).
  repeat case_match; simplify_eq; auto.
  match goal with E : opt_cluster _ ?cs _ = _ |- _ => specialize (Hc cs); by rewrite E in Hc end.
Qed.

(** ** What is written is read *)

(** An option as an argument, followed by its own argument. *)
Definition opt_args (o : opt_result) : list (list Z) :=
  match o with (c, None) => [[dash; c]] | (c, Some a) => [[dash; c]; a] end.

Definition opt_known (optstring : list Z) (o : opt_result) : Prop :=
  o.1 ≠ dash ∧ opt_takes optstring o.1 = Some (bool_decide (is_Some o.2)).

Lemma getopt_step permute optstring c args :
  c ≠ dash → getopt permute optstring ([dash; c] :: args) =
    (opt_cluster optstring [c] args).1 ++ getopt permute optstring (opt_cluster optstring [c] args).2.
Proof.
  intros Hd. unfold getopt at 1. cbn [length]. rewrite (eq_refl : getopt_loop permute optstring (S (length args))
    ([dash; c] :: args) = if strcmp_eq [dash; c] [dash; dash] then [] else
      let '(r, rest) := opt_cluster optstring [c] args in r ++ getopt_loop permute optstring (length args) rest).
  assert (strcmp_eq [dash; c] [dash; dash] = false) as ->.
  { unfold dash in *. simpl. by destruct (Z.eqb_spec c 45). }
  pose proof (cluster_rest optstring [c] args) as Hr.
  destruct (opt_cluster optstring [c] args) as [r rest]. cbn [fst snd] in *. by rewrite getopt_fuel.
Qed.

Lemma getopt_one permute optstring o rest :
  opt_known optstring o → getopt permute optstring (opt_args o ++ rest) = o :: getopt permute optstring rest.
Proof.
  intros [Hd Ho]. destruct o as [c [a|]]; cbn [fst snd opt_args app] in *; rewrite getopt_step by done;
    cbn [opt_cluster]; by rewrite Ho.
Qed.

(** Options that the program knows are got in their order, each with its
    argument, and then those of the arguments that follow. *)
Theorem getopt_reads permute optstring opts rest :
  Forall (opt_known optstring) opts →
  getopt permute optstring (concat (opt_args <$> opts) ++ rest) = opts ++ getopt permute optstring rest.
Proof.
  induction 1 as [|o opts Ho _ IH]; [done|]. rewrite fmap_cons, concat_cons, <-app_assoc, getopt_one by done.
  by rewrite IH.
Qed.

(** ** The daemon *)

Definition daemon_option (c : Z) : bool := (c =? 100) || (c =? 116).

(** A character as [getopt] returns it. *)
Definition daemon_result (c : Z) : opt_result := (if daemon_option c then c else question, None).

Lemma main_options_spec cs d :
  main_options (daemon_result <$> cs) d = if forallb daemon_option cs
    then Some (Debug (upil_debug_level d - len (filter (λ c, c = 100) cs))
      (if decide (116 ∈ cs) then 1 else upil_debug_ts d) (g_dbg_count d) (android_log d)) else None.
Proof.
  revert d. induction cs as [|c cs IH]; intros d.
  { simpl. change (len []) with 0. rewrite Z.sub_0_r. by destruct d. }
  rewrite fmap_cons, filter_cons. cbn [forallb].
  destruct (decide (c = 100)) as [->|Hd]; [|destruct (decide (c = 116)) as [->|Ht]].
  - change (daemon_result 100) with (100, @None (list Z)). change (daemon_option 100) with true.
    cbn [main_options andb Z.eqb Pos.eqb]. rewrite IH. destruct (forallb _ cs); [|done].
    cbn [upil_debug_level upil_debug_ts g_dbg_count android_log]. rewrite len_cons.
    f_equal. f_equal; [lia|]. destruct (decide (116 ∈ cs)) as [H|H], (decide (116 ∈ 100 :: cs)) as [H'|H']; try done.
    + exfalso. apply H'. by right.
    + exfalso. apply elem_of_cons in H' as [?|?]; done.
  - change (daemon_result 116) with (116, @None (list Z)). change (daemon_option 116) with true.
    cbn [main_options andb Z.eqb Pos.eqb]. rewrite IH. destruct (forallb _ cs); [|done].
    cbn [upil_debug_level upil_debug_ts g_dbg_count android_log].
    rewrite (decide_True (P := 116 ∈ 116 :: cs)) by (by left). by case_decide.
  - assert (daemon_option c = false) as E.
    { unfold daemon_option. by rewrite !(proj2 (Z.eqb_neq _ _)). }
    unfold daemon_result. by rewrite E.
Qed.

(** The level of the log goes down by one with each -d, the time is printed
    with a -t, and any other option ends the program. *)
Theorem upil_options_ok permute cs :
  dash ∉ cs →
  upil_options permute ((λ c, [dash; c]) <$> cs) =
    if forallb daemon_option cs
    then Some (Debug (MSG_INFO - len (filter (λ c, c = 100) cs)) (if decide (116 ∈ cs) then 1 else 0) 0 [])
    else None.
Proof.
  intros Hcs. unfold upil_options.
  assert (getopt permute (lit "dt") ((λ c, [dash; c]) <$> cs) = daemon_result <$> cs) as ->; [|by rewrite main_options_spec].
  induction cs as [|c cs IH]; [done|]. rewrite not_elem_of_cons in Hcs. destruct Hcs as [Hc Hcs].
  rewrite !fmap_cons, getopt_step by done. cbn [opt_cluster]. unfold daemon_result at 1, daemon_option.
  assert (opt_takes (lit "dt") c = if (c =? 100) || (c =? 116) then Some false else None) as ->.
  { change (lit "dt") with [100; 116]. cbn [opt_takes]. rewrite (Z.eqb_sym 100 c), (Z.eqb_sym 116 c). unfold colon.
    destruct (Z.eqb_spec c 100) as [->|]; [done|]. destruct (Z.eqb_spec c 116) as [->|]; done. }
  destruct ((c =? 100) || (c =? 116)); cbn [fst snd app]; by rewrite (IH Hcs).
Qed.

(** ** The radio interface layer *)

(** With one of the three options [RIL_Init] gives its callbacks, with a port
    when that is positive. *)
Theorem RIL_Init_ok permute opt optarg :
  opt = 112 ∨ opt = 100 ∨ opt = 115 →
  RIL_Init permute [[dash; opt]; optarg] = if opt =? 112 then 0 <? atoi optarg else true.
Proof.
  intros Ho. unfold RIL_Init.
  assert (getopt permute (lit "p:d:s:") [[dash; opt]; optarg] = [(opt, Some optarg)]) as ->.
  { apply (getopt_reads permute (lit "p:d:s:") [(opt, Some optarg)] []). constructor; [|done].
    destruct Ho as [->|[->| ->]]; (split; [by compute|]); by rewrite bool_decide_true. }
  cbn [init_options]. destruct Ho as [->|[->| ->]]; [|done|done]. cbn [Z.eqb Pos.eqb orb].
  destruct (Z.eqb_spec (atoi optarg) 0) as [->|Hne]; [done|].
  destruct (Z.ltb_spec (atoi optarg) 0), (Z.ltb_spec 0 (atoi optarg)); cbn; try done; lia.
Qed.

(** ** Examples *)

Lemma getopt_reads_witness :
  getopt false (lit "p:d:s:") (concat (opt_args <$> [(112, Some (lit "80"))]) ++ [lit "-d"; lit "x"]) =
    [(112, Some (lit "80"))] ++ [(100, Some (lit "x"))].
Proof. apply (getopt_reads false (lit "p:d:s:") [(112, Some (lit "80"))]). by repeat constructor. Defined.

Lemma upil_options_ok_witness :
  upil_options true ((λ c, [dash; c]) <$> [100; 100; 116]) = Some (Debug 1 1 0 []).
Proof. apply (upil_options_ok true [100; 100; 116]). by apply (bool_decide_unpack _). Defined.

(** "-dd -t", as the comment before [main] has it. *)
Lemma upil_dd_t : upil_options true [lit "-dd"; lit "-t"] = Some (Debug MSG_MSGDUMP 1 0 []).
Proof. reflexivity. Qed.
