(* ===== verification/EventLoopProofs.v ===== *)
(** * Properties of the event loop

    The invariant of a loop ([loop_inv]): its timers and its pending events
    are two disjoint rings of allocated events, the timers in the order of
    their deadlines.  The theorems say what each operation of EventLoop.v does
    to these two sequences, and what the watch table, [readFds] and [nfds]
    have to do with each other ([watch_inv]). *)

From Stdlib Require Import Sorting.Sorted.
From S2P Require Import Prelude Dll EventLoop.

(** ** Order of times *)

Definition tv_lt (a b : timeval) : Prop :=
  tv_sec a < tv_sec b ∨ tv_sec a = tv_sec b ∧ tv_usec a < tv_usec b.
Definition tv_le (a b : timeval) : Prop := ¬ tv_lt b a.

Lemma timercmp_lt a b : timercmp a b Z.ltb = true ↔ tv_lt a b.
Proof.
  unfold timercmp, tv_lt. destruct (Z.eqb_spec (tv_sec a) (tv_sec b)); rewrite Z.ltb_lt; lia.
Qed.

Lemma timercmp_gt a b : timercmp a b Z.gtb = true ↔ tv_lt b a.
Proof.
  unfold timercmp, tv_lt. destruct (Z.eqb_spec (tv_sec a) (tv_sec b)); rewrite Z.gtb_lt; lia.
Qed.

Lemma timercmp_lt_false a b : timercmp a b Z.ltb = false ↔ tv_le b a.
Proof. unfold tv_le. rewrite <-timercmp_lt. by destruct timercmp. Qed.

Lemma timercmp_gt_false a b : timercmp a b Z.gtb = false ↔ tv_le a b.
Proof. unfold tv_le. rewrite <-timercmp_gt. by destruct timercmp. Qed.

Lemma tv_le_trans a b c : tv_le a b → tv_le b c → tv_le a c.
Proof. unfold tv_le, tv_lt. lia. Qed.

Lemma tv_lt_le a b : tv_lt a b → tv_le a b.
Proof. unfold tv_le, tv_lt. lia. Qed.

(** Microseconds of a normalised time. *)
Definition tv_ok (t : timeval) : Prop := 0 ≤ tv_usec t < 1000000.
Definition tv_us (t : timeval) : Z := tv_sec t * 1000000 + tv_usec t.

Lemma timeradd_us a b : tv_us (timeradd a b) = tv_us a + tv_us b.
Proof.
  unfold timeradd, tv_us. destruct (Z.leb_spec 1000000 (tv_usec a + tv_usec b)); simpl; lia.
Qed.

Lemma timeradd_ok a b : tv_ok a → tv_ok b → tv_ok (timeradd a b).
Proof.
  unfold timeradd, tv_ok. destruct (Z.leb_spec 1000000 (tv_usec a + tv_usec b)); simpl; lia.
Qed.

Lemma timersub_us a b : tv_us (timersub a b) = tv_us a - tv_us b.
Proof. unfold timersub, tv_us. destruct (Z.ltb_spec (tv_usec a - tv_usec b) 0); simpl; lia. Qed.

Lemma timersub_ok a b : tv_ok a → tv_ok b → tv_ok (timersub a b).
Proof. unfold timersub, tv_ok. destruct (Z.ltb_spec (tv_usec a - tv_usec b) 0); simpl; lia. Qed.

Lemma tv_lt_us a b : tv_ok a → tv_ok b → tv_lt a b ↔ tv_us a < tv_us b.
Proof. unfold tv_ok, tv_lt, tv_us. lia. Qed.

(** ** The invariant of a loop *)

(** [e] is due at [t]. *)
Definition due (evs : gmap positive upil_event) (e : loc) (t : timeval) : Prop :=
  ∃ x, evs !! e = Some x ∧ ev_timeout x = t.

Definition due_le (evs : gmap positive upil_event) (a b : loc) : Prop :=
  ∃ ta tb, due evs a ta ∧ due evs b tb ∧ tv_le ta tb.

(** The timers [ts], in the order of their deadlines, and the pending events
    [ps] are on two disjoint lists of allocated events. *)
Record loop_inv (c : upile_context) (ts ps : list loc) : Prop := {
  inv_timers : ring (elinks c) timer_list ts;
  inv_pending : ring (elinks c) pending_list ps;
  inv_disjoint : NoDup (timer_list :: pending_list :: ts ++ ps);
  inv_events : ∀ p, is_Some (elinks c !! p) ↔ is_Some (events c !! p);
  inv_sorted : StronglySorted (due_le (events c)) ts;
}.

Lemma ring_fuel h hd xs : ring h hd xs → (length xs < size h)%nat.
Proof.
  intros Hr. pose proof Hr as [Hnd _].
  assert (length (hd :: xs) = size (list_to_set (C := gset positive) (hd :: xs))) as Hl
    by (by rewrite size_list_to_set).
  assert (list_to_set (hd :: xs) ⊆ dom h) as Hs.
  { intros p Hp. apply elem_of_list_to_set in Hp. apply elem_of_dom. by eapply ring_live. }
  apply subseteq_size in Hs. rewrite size_dom in Hs. simpl length in Hl. lia.
Qed.

Lemma due_fun evs e t t' : due evs e t → due evs e t' → t = t'.
Proof. intros (x & Hx & <-) (y & Hy & <-). congruence. Qed.

(** *** Sorted sequences *)

Lemma sorted_insert {A} (R : A → A → Prop) l r e :
  StronglySorted R (l ++ r) → (∀ p, p ∈ l → R p e) → (∀ p, p ∈ r → R e p) →
  StronglySorted R (l ++ e :: r).
Proof.
  induction l as [|x l IH]; simpl; intros Hs Hl Hr.
  - constructor; [done|]. by apply Forall_forall.
  - apply StronglySorted_inv in Hs as [Hs Hx]. constructor.
    + apply IH; [done| |done]. intros p Hp. apply Hl. by right.
    + rewrite !Forall_app in Hx |- *. destruct Hx as [Hx1 Hx2].
      split; [done|]. constructor; [|done]. apply Hl. by left.
Qed.

Lemma sorted_mono {A} (R R' : A → A → Prop) l :
  (∀ a b, a ∈ l → b ∈ l → R a b → R' a b) → StronglySorted R l → StronglySorted R' l.
Proof.
  induction l as [|x l IH]; intros Hm Hs; constructor; apply StronglySorted_inv in Hs as [Hs Hx].
  - apply IH; [|done]. intros a b Ha Hb. apply Hm; by right.
  - rewrite Forall_forall in Hx |- *. intros b Hb. apply Hm; [by left|by right|by apply Hx].
Qed.

Lemma sorted_remove {A} (R : A → A → Prop) l e r :
  StronglySorted R (l ++ e :: r) → StronglySorted R (l ++ r).
Proof.
  induction l as [|x l IH]; simpl; intros Hs.
  - by apply StronglySorted_inv in Hs as [? _].
  - apply StronglySorted_inv in Hs as [Hs Hx]. constructor; [by apply IH|].
    rewrite !Forall_app, Forall_cons in Hx. rewrite Forall_app. tauto.
Qed.

Lemma sorted_app_r {A} (R : A → A → Prop) l r : StronglySorted R (l ++ r) → StronglySorted R r.
Proof. induction l as [|x l IH]; [done|]. simpl. intros [Hs _]%StronglySorted_inv. by apply IH. Qed.

Lemma sorted_head {A} (R : A → A → Prop) x r p :
  StronglySorted R (x :: r) → p ∈ r → R x p.
Proof. intros [_ Hx]%StronglySorted_inv. rewrite Forall_forall in Hx. apply Hx. Qed.

Section loop.
Implicit Types (c : upile_context) (ts ps l r : list loc) (e : loc).

Lemma loop_inv_heads c ts ps : loop_inv c ts ps →
  timer_list ∉ ts ∧ timer_list ∉ ps ∧ pending_list ∉ ts ∧ pending_list ∉ ps ∧
  (∀ p, p ∈ ts → p ∉ ps).
Proof.
  intros [_ _ Hnd _ _]. apply NoDup_cons in Hnd as [H1 Hnd]. apply NoDup_cons in Hnd as [H2 Hnd].
  apply NoDup_app in Hnd as (_ & Hd & _).
  rewrite not_elem_of_cons, not_elem_of_app in H1. rewrite not_elem_of_app in H2. naive_solver.
Qed.

Lemma elinks_event_live c ts ps p :
  loop_inv c ts ps → p ∈ timer_list :: pending_list :: ts ++ ps →
  is_Some (elinks c !! p) ∧ is_Some (events c !! p).
Proof.
  intros [Ht Hp _ He _] Hin. assert (is_Some (elinks c !! p)) as Hl.
  { rewrite !elem_of_cons, elem_of_app in Hin.
    destruct Hin as [->|[->|[Hin|Hin]]];
      [apply (ring_live _ _ _ _ Ht)|apply (ring_live _ _ _ _ Hp)|
       apply (ring_live _ _ _ _ Ht)|apply (ring_live _ _ _ _ Hp)]; rewrite elem_of_cons; eauto. }
  split; [done|]. by apply He.
Qed.

Lemma event_at_ok c e x : events c !! e = Some x → event_at e c = Ok (x, c).
Proof. unfold event_at. by intros ->. Qed.

Lemma event_update_ok c e f x :
  events c !! e = Some x →
  event_update e f c = Ok (tt, set_events (<[e := f x]> (events c)) c).
Proof. intros Hx. unfold event_update. by erewrite bind_ok by (by apply event_at_ok). Qed.

(** Where a new timer goes: after the timers that are due before it. *)
Lemma timer_position_ok c l r t fuel :
  ring (elinks c) timer_list (l ++ r) →
  (∀ p, p ∈ timer_list :: r → is_Some (events c !! p)) →
  (length r < fuel)%nat →
  ∃ r1 r2, r = r1 ++ r2 ∧ timer_position fuel t (List.hd timer_list r) c =
    Ok (List.hd timer_list r2, c) ∧
    (∀ p, p ∈ r1 → ∃ tp, due (events c) p tp ∧ tv_lt tp t) ∧
    (∀ p, head r2 = Some p → ∃ tp, due (events c) p tp ∧ tv_le t tp).
Proof.
  revert l fuel. induction r as [|x r IH]; intros l fuel Hr Hev Hf;
    (destruct fuel as [|f]; [simpl in Hf; lia|]).
  - exists [], []. destruct (Hev timer_list) as [y Hy]; [by left|].
    split_and!; [done| |set_solver|done].
    cbn [timer_position List.hd]. erewrite bind_ok by (unfold event_at; by rewrite Hy).
    rewrite bool_decide_true by done. by rewrite andb_false_r.
  - destruct (Hev x) as [y Hy]; [by right; left|].
    assert (x ≠ timer_list) as Hx.
    { destruct Hr as [Hnd _]. apply NoDup_cons in Hnd as [Hnd _]. set_solver. }
    cbn [timer_position List.hd]. erewrite bind_ok by (unfold event_at; by rewrite Hy).
    rewrite bool_decide_false by done. rewrite andb_true_r.
    destruct (timercmp (ev_timeout y) t Z.ltb) eqn:Ec.
    + destruct (IH (l ++ [x]) f) as (r1 & r2 & -> & E & H1 & H2).
      * by rewrite <-app_assoc.
      * intros p Hp. apply Hev. apply elem_of_cons in Hp as [->|Hp]; [by left|by right; right].
      * simpl in Hf. lia.
      * exists (x :: r1), r2. split; [done|]. split; [|split].
        -- erewrite bind_ok.
           2:{ apply zoom_read, get_next_ok. eapply ring_live; [done|].
               rewrite elem_of_cons, elem_of_app, elem_of_cons. tauto. }
           cbn [lget context_elinks]. erewrite ring_next by done.
           by erewrite bind_ok by done.
        -- intros p Hp. apply elem_of_cons in Hp as [->|Hp]; [|by apply H1].
           exists (ev_timeout y). split; [by exists y|]. by apply timercmp_lt.
        -- done.
    + exists [], (x :: r). split_and!; [done|done|set_solver|].
      intros p [= <-]. exists (ev_timeout y). split; [by exists y|]. by apply timercmp_lt_false.
Qed.

Lemma due_insert_ne evs e x p t : p ≠ e → due (<[e := x]> evs) p t ↔ due evs p t.
Proof. intros Hp. unfold due. by rewrite lookup_insert_ne. Qed.

Lemma due_insert evs e x t : ev_timeout x = t → due (<[e := x]> evs) e t.
Proof. intros Hx. exists x. by rewrite lookup_insert_eq. Qed.

Lemma sorted_insert_event evs e x ts :
  e ∉ ts → StronglySorted (due_le evs) ts → StronglySorted (due_le (<[e := x]> evs)) ts.
Proof.
  intros He. apply sorted_mono. intros a b Ha Hb (ta & tb & H1 & H2 & H3).
  exists ta, tb. rewrite !due_insert_ne by (intros ->; done). done.
Qed.

Lemma NoDup_lists_insert a b l r ps (e : loc) :
  NoDup (a :: b :: (l ++ r) ++ ps) → e ∉ a :: b :: (l ++ r) ++ ps →
  NoDup (a :: b :: (l ++ e :: r) ++ ps).
Proof.
  intros Hnd He.
  assert (a :: b :: (l ++ e :: r) ++ ps ≡ₚ e :: a :: b :: (l ++ r) ++ ps) as ->.
  { rewrite <-(Permutation_middle l r e). simpl. rewrite (Permutation_swap e b). 
    by rewrite (Permutation_swap e a). }
  by constructor.
Qed.

(** The timers behind one that is not due before [t]. *)
Lemma later_timers evs e x t l r :
  e ∉ l ++ r → StronglySorted (due_le evs) (l ++ r) →
  (∀ p, head r = Some p → ∃ tp, due (<[e := x]> evs) p tp ∧ tv_le t tp) →
  ∀ p, p ∈ r → ∃ tp, due (<[e := x]> evs) p tp ∧ tv_le t tp.
Proof.
  intros He Hsort Hr p Hp. destruct r as [|y r]; [by apply not_elem_of_nil in Hp|].
  destruct (Hr y) as (ty & Hy & Hty); [done|].
  apply elem_of_cons in Hp as [->|Hp]; [eauto|].
  assert (due_le (<[e := x]> evs) y p) as (a & b & Ha & Hb & Hab).
  { apply sorted_head with (r := r); [|done]. apply sorted_app_r with (l := l).
    by apply sorted_insert_event. }
  exists b. split; [done|]. rewrite (due_fun _ _ _ _ Ha Hy) in Hab. by eapply tv_le_trans.
Qed.

(** An event that is put between the timers before it and those behind. *)
Lemma timer_inserted_inv c l r ps e x t h' :
  loop_inv c (l ++ r) ps → is_Some (events c !! e) → e ∉ timer_list :: pending_list :: (l ++ r) ++ ps →
  let evs := <[e := with_timeout t x]> (events c) in
  ring h' timer_list (l ++ e :: r) → same_but (e :: timer_list :: l ++ r) (elinks c) h' →
  (∀ p, p ∈ l → ∃ tp, due evs p tp ∧ tv_lt tp t) → (∀ p, p ∈ r → ∃ tp, due evs p tp ∧ tv_le t tp) →
  loop_inv (UpileContext (readFds c) (nfds c) (watch_table c) h' evs (now c)) (l ++ e :: r) ps.
Proof.
  intros Hinv Hx He evs Hring' Hsame Hl Hr.
  pose proof (loop_inv_heads _ _ _ Hinv) as (Ht1 & Ht2 & Hp1 & Hp2 & Hd).
  pose proof Hinv as [Hring Hpend Hnd Hev Hsort]. pose proof He as He'.
  rewrite !not_elem_of_cons, not_elem_of_app in He. destruct He as (He1 & He2 & He3 & He4).
  split; cbn [elinks events].
  - done.
  - eapply ring_same_but; [done| |done]. intros p Hp. rewrite !not_elem_of_cons, not_elem_of_app.
    apply elem_of_cons in Hp as [->|Hp]; [set_solver|].
    split_and!; [by intros ->|by intros ->|set_solver|set_solver].
  - by apply NoDup_lists_insert.
  - intros p. destruct Hsame as [_ ->]. unfold evs.
    destruct (decide (p = e)) as [->|]; [|by rewrite lookup_insert_ne].
    rewrite lookup_insert_eq, Hev. split; eauto.
  - apply sorted_insert; [by apply sorted_insert_event| |].
    + intros p Hp. destruct (Hl p Hp) as (tp & Htp & Hlt).
      exists tp, t. split_and!; [done|by apply due_insert|by apply tv_lt_le].
    + intros p Hp. destruct (Hr p Hp) as (tp & Htp & Hlt).
      exists t, tp. split_and!; [by apply due_insert|done|done].
Qed.

Lemma timer_add_inv c ts ps e tv x :
  loop_inv c ts ps → events c !! e = Some x → e ∉ timer_list :: pending_list :: ts ++ ps →
  ∃ l r h', let t := timeradd (now c) tv in
    let evs := <[e := with_timeout t (with_fd (-1) x)]> (events c) in
    let c' := UpileContext (readFds c) (nfds c) (watch_table c) h' evs (now c) in
    ts = l ++ r ∧ upil_timer_add e (Some tv) c = Ok (tt, c') ∧
    loop_inv c' (l ++ e :: r) ps ∧ same_but (e :: timer_list :: ts) (elinks c) h' ∧
    (∀ p, p ∈ l → ∃ tp, due evs p tp ∧ tv_lt tp t) ∧
    (∀ p, p ∈ r → ∃ tp, due evs p tp ∧ tv_le t tp).
Proof.
  intros Hinv Hx He. pose proof Hinv as [Hring Hpend Hnd Hev Hsort]. pose proof He as He'.
  set (t := timeradd (now c) tv). set (x' := with_timeout t (with_fd (-1) x)).
  set (evs := <[e := x']> (events c)).
  set (c1 := UpileContext (readFds c) (nfds c) (watch_table c) (elinks c) evs (now c)).
  rewrite !not_elem_of_cons, not_elem_of_app in He. destruct He as (He1 & He2 & He3 & He4).
  destruct (timer_position_ok c1 [] ts t (walk_fuel c1)) as (l & r & -> & Epos & Hl & Hr); [done|..].
  { intros p Hp. simpl. unfold evs. destruct (decide (p = e)) as [->|].
    - rewrite lookup_insert_eq. eauto.
    - rewrite lookup_insert_ne by done. apply Hev.
      eapply ring_live; [exact Hring|done]. }
  { unfold walk_fuel. pose proof (ring_fuel _ _ _ Hring). simpl. lia. }
  destruct (ring_add_ok (elinks c) timer_list l r e) as (h' & Eadd & Hring' & Hsame);
    [done|set_solver|apply Hev; eauto|].
  pose proof (later_timers (events c) e x' t l r He3 Hsort Hr) as Hle_r.
  exists l, r, h'. cbv zeta. fold t x' evs.
  split; [done|]. split; [|split; [|done]].
  2:{ apply (timer_inserted_inv c l r ps e (with_fd (-1) x) t h'); [done|by eexists|done..]. }
  unfold upil_timer_add. erewrite bind_ok.
  2:{ apply zoom_read, get_next_ok. eapply ring_live; [exact Hring|by left]. }
  cbn [lget context_elinks]. rewrite (ring_next_head _ _ _ Hring).
  erewrite bind_ok by done. erewrite bind_ok by (by apply event_update_ok).
  erewrite bind_ok by done. simpl now. fold t.
  erewrite bind_ok by (eapply event_update_ok; apply lookup_insert_eq).
  unfold set_events. cbn [readFds nfds watch_table elinks events now].
  rewrite insert_insert_eq. fold x' evs c1.
  erewrite bind_ok by done. erewrite bind_ok by exact Epos.
  unfold addToList. by erewrite (zoom_ok _ c1) by exact Eadd.
Qed.

(** Events taken off one of the two lists. *)
Lemma timer_remove_inv c l e r ps :
  loop_inv c (l ++ e :: r) ps → ∃ h',
  removeFromList e c = Ok (tt, lset h' c) ∧ loop_inv (lset h' c) (l ++ r) ps ∧
  h' !! e = Some (Links None None) ∧ same_but (e :: timer_list :: l ++ r) (elinks c) h'.
Proof.
  intros Hinv. pose proof (loop_inv_heads _ _ _ Hinv) as (Ht1 & Ht2 & Hp1 & Hp2 & Hd).
  pose proof Hinv as [Hring Hpend Hnd Hev Hsort].
  destruct (ring_remove_ok _ _ _ _ _ Hring) as (h' & E & Hring' & Hsame & He).
  exists h'. split; [by apply (zoom_ok _ c)|]. split; [|done]. split; simpl.
  - done.
  - eapply ring_same_but; [done| |done]. intros p Hp.
    rewrite !not_elem_of_cons, not_elem_of_app.
    apply elem_of_cons in Hp as [->|Hp]; [set_solver|].
    split_and!; [set_solver|by intros ->|set_solver|set_solver].
  - rewrite <-(Permutation_middle l r e) in Hnd. simpl in Hnd.
    rewrite (Permutation_swap e pending_list), (Permutation_swap e timer_list) in Hnd.
    by apply NoDup_cons in Hnd as [_ Hnd].
  - intros p. destruct Hsame as [_ ->]. done.
  - by eapply sorted_remove.
Qed.

Lemma pending_remove_inv c ts l e r :
  loop_inv c ts (l ++ e :: r) → ∃ h',
  removeFromList e c = Ok (tt, lset h' c) ∧ loop_inv (lset h' c) ts (l ++ r) ∧
  h' !! e = Some (Links None None) ∧ same_but (e :: pending_list :: l ++ r) (elinks c) h'.
Proof.
  intros Hinv. pose proof (loop_inv_heads _ _ _ Hinv) as (Ht1 & Ht2 & Hp1 & Hp2 & Hd).
  pose proof Hinv as [Hring Hpend Hnd Hev Hsort].
  destruct (ring_remove_ok _ _ _ _ _ Hpend) as (h' & E & Hring' & Hsame & He).
  exists h'. split; [by apply (zoom_ok _ c)|]. split; [|done]. split; simpl.
  - eapply ring_same_but; [done| |done]. intros p Hp.
    rewrite !not_elem_of_cons, not_elem_of_app.
    apply elem_of_cons in Hp as [->|Hp]; [set_solver|].
    split_and!; [set_solver|by intros ->|set_solver|set_solver].
  - done.
  - rewrite <-(Permutation_middle l r e) in Hnd. rewrite <-(Permutation_middle ts) in Hnd.
    rewrite (Permutation_swap e pending_list), (Permutation_swap e timer_list) in Hnd.
    by apply NoDup_cons in Hnd as [_ Hnd].
  - intros p. destruct Hsame as [_ ->]. done.
  - done.
Qed.

Lemma pending_add_inv c ts ps e :
  loop_inv c ts ps → is_Some (elinks c !! e) →
  e ∉ timer_list :: pending_list :: ts ++ ps → ∃ h',
  addToList e pending_list c = Ok (tt, lset h' c) ∧ loop_inv (lset h' c) ts (ps ++ [e]) ∧
  same_but (e :: pending_list :: ps) (elinks c) h'.
Proof.
  intros Hinv Hle He. pose proof (loop_inv_heads _ _ _ Hinv) as (Ht1 & Ht2 & Hp1 & Hp2 & Hd).
  pose proof Hinv as [Hring Hpend Hnd Hev Hsort].
  rewrite !not_elem_of_cons, not_elem_of_app in He. destruct He as (He1 & He2 & He3 & He4).
  destruct (ring_add_ok (elinks c) pending_list ps [] e) as (h' & E & Hring' & Hsame);
    [by rewrite app_nil_r|rewrite app_nil_r; set_solver|done|].
  rewrite app_nil_r in Hsame.
  exists h'. split; [by apply (zoom_ok _ c)|]. split; [|done]. split; simpl.
  - eapply ring_same_but; [done| |done]. intros p Hp.
    rewrite !not_elem_of_cons.
    apply elem_of_cons in Hp as [->|Hp]; [set_solver|].
    split_and!; [set_solver|by intros ->|set_solver].
  - done.
  - rewrite app_assoc. rewrite !app_comm_cons. rewrite <-Permutation_cons_append.
    constructor; [|done]. rewrite not_elem_of_app, !not_elem_of_cons. tauto.
  - intros p. destruct Hsame as [_ ->]. done.
  - done.
Qed.

Lemma lset_elinks c : lset (elinks c) c = c.
Proof. by destruct c. Qed.

Lemma expire_inv fuel t c ts ps :
  loop_inv c ts ps → (length ts < fuel)%nat →
  ∃ l r h', ts = l ++ r ∧ expire fuel t (List.hd timer_list ts) c = Ok (tt, lset h' c) ∧
    loop_inv (lset h' c) r (ps ++ l) ∧
    (∀ p, p ∈ l → ∃ tp, due (events c) p tp ∧ tv_lt tp t) ∧
    (∀ p, p ∈ r → ∃ tp, due (events c) p tp ∧ tv_le t tp) ∧
    same_but (timer_list :: pending_list :: ts ++ ps) (elinks c) h'.
Proof.
  revert fuel c ps. induction ts as [|x ts IH]; intros fuel c ps Hinv Hf;
    (destruct fuel as [|f]; [simpl in Hf; lia|]).
  { exists [], [], (elinks c). rewrite lset_elinks, (app_nil_r ps). cbn [expire List.hd].
    rewrite bool_decide_true by done. split_and!; [done|done|done|set_solver|set_solver|split; done]. }
  pose proof (loop_inv_heads _ _ _ Hinv) as (Ht1 & Ht2 & Hp1 & Hp2 & Hd).
  pose proof Hinv as [Hring Hpend Hnd Hev Hsort].
  destruct (elinks_event_live _ _ _ x Hinv) as [Hlx [y Hy]]; [set_solver|].
  cbn [expire List.hd]. rewrite bool_decide_false by set_solver.
  erewrite bind_ok by (by apply event_at_ok).
  destruct (timercmp t (ev_timeout y) Z.gtb) eqn:Ec; cycle 1.
  { exists [], (x :: ts), (elinks c). rewrite lset_elinks, (app_nil_r ps).
    split_and!; [done|done|done|set_solver| |split; done]. apply timercmp_gt_false in Ec.
    assert (due (events c) x (ev_timeout y)) as Hx by (by exists y).
    intros p Hp. apply elem_of_cons in Hp as [->|Hp]; [eauto|].
    destruct (sorted_head _ _ _ _ Hsort Hp) as (a & b & Ha & Hb & Hab).
    exists b. split; [done|]. rewrite (due_fun _ _ _ _ Ha Hx) in Hab.
    by eapply tv_le_trans. }
  erewrite bind_ok by (by apply zoom_read, get_next_ok).
  cbn [lget context_elinks]. rewrite (ring_next _ _ [] x ts Hring).
  destruct (timer_remove_inv c [] x ts ps Hinv) as (h1 & E1 & Hinv1 & Hx1 & Hs1).
  erewrite bind_ok by exact E1.
  destruct (pending_add_inv (lset h1 c) ts ps x) as (h2 & E2 & Hinv2 & Hs2);
    [done|simpl; rewrite Hx1; eauto| |].
  { apply NoDup_cons in Hnd as [Hn1 Hnd]. apply NoDup_cons in Hnd as [Hn2 Hnd].
    simpl in Hnd. apply NoDup_cons in Hnd as [Hn3 _]. set_solver. }
  erewrite bind_ok by exact E2. rewrite lset_lset in *.
  erewrite bind_ok by done.
  destruct (IH f (lset h2 c) (ps ++ [x])) as (l & r & h' & -> & E & Hinv' & Hl & Hr & Hs);
    [done|simpl in Hf; lia|].
  exists (x :: l), r, h'. rewrite E, lset_lset in *.
  split_and!; [done|done|by rewrite <-app_assoc in Hinv'| |done|].
  2:{ eapply same_but_trans; [|eapply same_but_trans];
        (eapply same_but_weaken; [|by first [exact Hs1|exact Hs2|exact Hs]]);
        intros p; cbn [lget context_elinks elinks app]; set_solver. }
  intros p Hp. apply elem_of_cons in Hp as [->|Hp]; [|by apply Hl].
  exists (ev_timeout y). split; [by exists y|]. by apply timercmp_gt.
Qed.
End loop.

(** ** Dispatch to callbacks that record their calls *)

(** The call of a callback: the function, the descriptor and the parameter. *)
Definition call_of (x : upil_event) : callback * Z * loc := (ev_func x, ev_fd x, ev_param x).

Definition recorder : Type := upile_context * list (callback * Z * loc).
#[export] Instance recorder_context : Lens recorder upile_context := {|
  lget := fst; lset c r := (c, r.2) |}.
#[export] Instance recorder_laws : LensLaws recorder upile_context.
Proof. split; intros; repeat match goal with r : recorder |- _ => destruct r end; done. Qed.

Definition record_call (answer : callback → Z → loc → Z) (f : callback) (fd : Z) (p : loc)
  : M recorder Z := λ r, Ok (answer f fd p, (r.1, r.2 ++ [(f, fd, p)])).
Definition answers (answer : callback → Z → loc → Z) (k : callback * Z * loc) : Z :=
  answer k.1.1 k.1.2 k.2.

(** Calls are made in order until one answers with a negative number: the
    calls, and the last answer. *)
Fixpoint fired (answer : callback → Z → loc → Z) (ks : list (callback * Z * loc)) (ret : Z)
  : list (callback * Z * loc) * Z :=
  match ks with
  | [] => ([], ret)
  | k :: ks' =>
      let a := answers answer k in
      if a <? 0 then ([k], a) else let '(t, r) := fired answer ks' a in (k :: t, r)
  end.

Lemma fire_ok answer fuel c ts ps xs log ret :
  loop_inv c ts ps → (length ps < fuel)%nat →
  Forall2 (λ e x, events c !! e = Some x) ps xs → ∃ h' : lheap,
  let '(ks, ret') := fired answer (call_of <$> xs) ret in
  fire (record_call answer) fuel (List.hd pending_list ps) ret (c, log) =
    Ok (ret', (lset h' c, log ++ ks)) ∧
  loop_inv (lset h' c) ts (drop (length ks) ps).
Proof.
  revert c xs log ret fuel. induction ps as [|e ps IH]; intros c xs log ret fuel Hi Hf Hxs;
    (destruct fuel as [|f]; [simpl in Hf; lia|]).
  { apply Forall2_nil_inv_l in Hxs as ->. exists (elinks c). cbn [fmap list_fmap fired fire List.hd].
    rewrite lset_elinks, app_nil_r, bool_decide_true by done. done. }
  apply Forall2_cons_inv_l in Hxs as (x & xs' & Hx & Hxs & ->).
  pose proof (loop_inv_heads _ _ _ Hi) as (_ & _ & _ & Hp & _).
  destruct (elinks_event_live _ _ _ e Hi) as [Hle _]; [set_solver|].
  destruct (pending_remove_inv c ts [] e ps Hi) as (h1 & E1 & Hi1 & _).
  assert (fire (record_call answer) (S f) e ret (c, log) =
    if answers answer (call_of x) <? 0
    then Ok (answers answer (call_of x), (lset h1 c, log ++ [call_of x]))
    else fire (record_call answer) f (List.hd pending_list ps) (answers answer (call_of x))
           (lset h1 c, log ++ [call_of x])) as Hstep.
  { cbn [fire]. rewrite bool_decide_false by set_solver.
    erewrite bind_ok.
    2:{ apply zoom_read. apply zoom_read. by apply get_next_ok. }
    cbn [lget recorder_context context_elinks fst].
    rewrite (ring_next _ _ [] e ps (inv_pending _ _ _ Hi)).
    erewrite bind_ok by (by apply (zoom_ok _ (c, log))).
    erewrite bind_ok by (apply zoom_read; by apply event_at_ok).
    erewrite bind_ok by done.
    change (answer (ev_func x) (ev_fd x) (ev_param x)) with (answers answer (call_of x)).
    cbn [lset recorder_context fst snd].
    destruct (answers answer (call_of x) <? 0); [done|]. by erewrite bind_ok by done. }
  cbn [List.hd fmap list_fmap fired]. rewrite Hstep.
  destruct (answers answer (call_of x) <? 0); [exists h1; split; [done|exact Hi1]|].
  destruct (IH (lset h1 c) xs' (log ++ [call_of x]) (answers answer (call_of x)) f Hi1
    ltac:(simpl in Hf; lia) Hxs) as (h' & IH').
  destruct (fired answer (call_of <$> xs') (answers answer (call_of x))) as [ks ret'].
  destruct IH' as [E Hi']. exists h'. rewrite E, <-app_assoc. done.
Qed.

(** ** The properties *)

Section properties.
Implicit Types (c : upile_context) (ts ps l r : list loc) (e : loc).

(** [upil_timer_add] returns, and puts the event on the timer list
    between the timers that are due before it and those that are not: the
    timer list stays a well-formed list in the order of the deadlines, the
    pending events stay as they were, and the deadline is the present time
    plus the delay. *)
Theorem timer_add_keeps_order c ts ps e tv x :
  loop_inv c ts ps → events c !! e = Some x → e ∉ timer_list :: pending_list :: ts ++ ps →
  ∃ l r c', ts = l ++ r ∧ upil_timer_add e (Some tv) c = Ok (tt, c') ∧
    loop_inv c' (l ++ e :: r) ps ∧ due (events c') e (timeradd (now c) tv) ∧
    (∀ p, p ∈ l → ∃ tp, due (events c') p tp ∧ tv_lt tp (timeradd (now c) tv)) ∧
    (∀ p, p ∈ r → ∃ tp, due (events c') p tp ∧ tv_le (timeradd (now c) tv) tp).
Proof.
  intros H1 H2 H3. destruct (timer_add_inv _ _ _ _ tv _ H1 H2 H3)
    as (l & r & h' & -> & E & Hinv & _ & Hl & Hr).
  eexists l, r, _. split_and!; [done|exact E|done|by apply due_insert|done|done].
Qed.

Lemma processTimeouts_ok c ts ps :
  loop_inv c ts ps → ∃ l r h', ts = l ++ r ∧ processTimeouts c = Ok (tt, lset h' c) ∧
    loop_inv (lset h' c) r (ps ++ l) ∧
    (∀ p, p ∈ l → ∃ tp, due (events c) p tp ∧ tv_lt tp (now c)) ∧
    (∀ p, p ∈ r → ∃ tp, due (events c) p tp ∧ tv_le (now c) tp) ∧
    same_but (timer_list :: pending_list :: ts ++ ps) (elinks c) h'.
Proof.
  intros Hinv. pose proof Hinv as [Hring _ _ _ _].
  destruct (expire_inv (walk_fuel c) (now c) c ts ps)
    as (l & r & h' & -> & E & Hinv' & Hl & Hr & Hs); [done| |].
  { unfold walk_fuel. pose proof (ring_fuel _ _ _ Hring). lia. }
  exists l, r, h'. split_and!; [done| |done|done|done|done].
  unfold processTimeouts.
  erewrite bind_ok.
  2:{ apply zoom_read, get_next_ok. eapply ring_live; [exact Hring|by left]. }
  cbn [lget context_elinks]. rewrite (ring_next_head _ _ _ Hring).
  erewrite bind_ok by done. erewrite bind_ok by done. by erewrite bind_ok by done.
Qed.

(** [processTimeouts] returns, and moves the timers whose deadline has
    passed, and only these, to the end of the pending list in the order of
    their deadlines. *)
Theorem processTimeouts_moves_expired c ts ps :
  loop_inv c ts ps → ∃ l r c', ts = l ++ r ∧ processTimeouts c = Ok (tt, c') ∧
    loop_inv c' r (ps ++ l) ∧ events c' = events c ∧
    (∀ p, p ∈ l → ∃ tp, due (events c) p tp ∧ tv_lt tp (now c)) ∧
    (∀ p, p ∈ r → ∃ tp, due (events c) p tp ∧ tv_le (now c) tp).
Proof.
  intros Hinv. destruct (processTimeouts_ok c ts ps Hinv) as (l & r & h' & H1 & H2 & H3 & H4 & H5 & _).
  by exists l, r, (lset h' c).
Qed.

(** [calcNextTimeout] reads the first timer. *)
Lemma calcNextTimeout_ok c ts ps :
  loop_inv c ts ps → ∃ o, calcNextTimeout c = Ok (o, c) ∧
    match o with
    | None => ts = []
    | Some d => ∃ e ts' x, ts = e :: ts' ∧ events c !! e = Some x ∧
        d = if timercmp (ev_timeout x) (now c) Z.gtb then timersub (ev_timeout x) (now c) else Timeval 0 0
    end.
Proof.
  intros Hi. pose proof (inv_timers _ _ _ Hi) as Hring.
  unfold calcNextTimeout. erewrite bind_ok.
  2:{ apply zoom_read, get_next_ok. eapply ring_live; [exact Hring|by left]. }
  cbn [lget context_elinks]. rewrite (ring_next_head _ _ _ Hring).
  erewrite bind_ok by done. erewrite bind_ok by done.
  destruct ts as [|e ts]; cbn [List.hd].
  { rewrite bool_decide_true by done. by exists None. }
  destruct (elinks_event_live _ _ _ e Hi) as [_ [x Hx]]; [set_solver|].
  pose proof (loop_inv_heads _ _ _ Hi) as (Ht & _).
  rewrite bool_decide_false by set_solver. erewrite bind_ok by (by apply event_at_ok).
  eexists. split; [done|]. by exists e, ts, x.
Qed.

(** [calcNextTimeout] returns and changes nothing.  Without timers
    [select] may block for ever; else it gets a normalised time, the one
    that is left until the first timer is due, or zero when it is overdue. *)
Theorem calcNextTimeout_first_deadline c ts ps :
  loop_inv c ts ps → tv_ok (now c) → (∀ p t, due (events c) p t → tv_ok t) →
  ∃ o, calcNextTimeout c = Ok (o, c) ∧
    match o with
    | None => ts = []
    | Some d => ∃ e ts' t, ts = e :: ts' ∧ due (events c) e t ∧ tv_ok d ∧
        tv_us d = Z.max 0 (tv_us t - tv_us (now c))
    end.
Proof.
  intros Hi Hnow Hdue. destruct (calcNextTimeout_ok _ _ _ Hi) as (o & E & Ho).
  exists o. split; [done|]. destruct o as [d|]; [|done].
  destruct Ho as (e & ts' & x & -> & Hx & ->).
  assert (due (events c) e (ev_timeout x)) as Hd by (by exists x). pose proof (Hdue _ _ Hd) as Hok.
  exists e, ts', (ev_timeout x). split; [done|]. split; [done|].
  destruct (timercmp (ev_timeout x) (now c) Z.gtb) eqn:Ec.
  - apply timercmp_gt, tv_lt_us in Ec; [|done..].
    split; [by apply timersub_ok|]. rewrite timersub_us. lia.
  - apply timercmp_gt_false in Ec. unfold tv_le in Ec. rewrite tv_lt_us in Ec by done.
    split; [unfold tv_ok; simpl; lia|]. unfold tv_us at 1. simpl. lia.
Qed.

(** [firePending] calls the callbacks of the pending events in the
    order in which they became pending, each with the descriptor and the
    parameter of its event, until one of them returns a negative number;
    the events that were not called stay pending, and its result is the
    answer of the last call, or 0. *)
Theorem firePending_calls_in_order answer c ts ps xs log :
  loop_inv c ts ps → Forall2 (λ e x, events c !! e = Some x) ps xs → ∃ h' : lheap,
  let '(ks, ret) := fired answer (call_of <$> xs) 0 in
  firePending (record_call answer) (c, log) = Ok (ret, (lset h' c, log ++ ks)) ∧
  loop_inv (lset h' c) ts (drop (length ks) ps).
Proof.
  intros Hi Hxs. pose proof (inv_pending _ _ _ Hi) as Hring.
  destruct (fire_ok answer (walk_fuel c) c ts ps xs log 0) as (h' & H'); [done| |done|].
  { unfold walk_fuel. pose proof (ring_fuel _ _ _ Hring). lia. }
  exists h'. destruct (fired answer (call_of <$> xs) 0) as [ks ret].
  destruct H' as [E Hi']. split; [|done]. unfold firePending.
  erewrite bind_ok.
  2:{ apply zoom_read, zoom_read, get_next_ok. eapply ring_live; [exact Hring|by left]. }
  cbn [lget context_elinks recorder_context fst]. rewrite (ring_next_head _ _ _ Hring).
  erewrite bind_ok by done. by erewrite bind_ok by done.
Qed.
End properties.

(** ** Witnesses *)

(** Two timers, due at 7 and 9 s, and one pending event, at 5 s. *)
Definition demo_event (t : Z) : upil_event :=
  UpilEvent 4 (-1) 0 (Timeval t 0) sm_process_message_cb 9%positive.
Definition demo_loop : upile_context :=
  let ev := list_to_map [(1%positive, zero_event); (2%positive, zero_event);
    (5%positive, demo_event 7); (6%positive, demo_event 9); (7%positive, demo_event 3);
    (8%positive, demo_event 0)] in
  let ln := list_to_map [(1%positive, Links (Some 5%positive) (Some 6%positive));
    (5%positive, Links (Some 6%positive) (Some 1%positive));
    (6%positive, Links (Some 1%positive) (Some 5%positive));
    (2%positive, Links (Some 7%positive) (Some 7%positive));
    (7%positive, Links (Some 2%positive) (Some 2%positive));
    (8%positive, Links None None)] in
  UpileContext ∅ 0 (replicate 16 None) ln ev (Timeval 8 0).

Lemma demo_inv : loop_inv demo_loop [5%positive; 6%positive] [7%positive].
Proof.
  split.
  - split; [by apply (bool_decide_unpack _)|by vm_compute].
  - split; [by apply (bool_decide_unpack _)|by vm_compute].
  - by apply (bool_decide_unpack _).
  - intros p. rewrite <-!elem_of_dom.
    assert (dom (elinks demo_loop) = dom (events demo_loop)) as -> by (by vm_compute). done.
  - repeat constructor. exists (Timeval 7 0), (Timeval 9 0).
    split_and!; [by eexists|by eexists|]. unfold tv_le, tv_lt. simpl. lia.
Qed.

Lemma timer_add_witness :
  ∃ l r c', [5%positive; 6%positive] = l ++ r ∧
    upil_timer_add 8%positive (Some (Timeval 0 500)) demo_loop = Ok (tt, c') ∧
    loop_inv c' (l ++ 8%positive :: r) [7%positive].
Proof.
  destruct (timer_add_keeps_order demo_loop [5%positive; 6%positive] [7%positive] 8%positive
    (Timeval 0 500) (demo_event 0) demo_inv eq_refl) as (l & r & c' & H1 & H2 & H3 & _).
  - by apply (bool_decide_unpack _).
  - by exists l, r, c'.
Defined.

Lemma processTimeouts_witness :
  ∃ l r c', [5%positive; 6%positive] = l ++ r ∧ processTimeouts demo_loop = Ok (tt, c') ∧
    loop_inv c' r ([7%positive] ++ l).
Proof.
  destruct (processTimeouts_moves_expired _ _ _ demo_inv) as (l & r & c' & H1 & H2 & H3 & _).
  by exists l, r, c'.
Defined.

Lemma calcNextTimeout_witness : ∃ r, calcNextTimeout demo_loop = Ok (r, demo_loop).
Proof.
  destruct (calcNextTimeout_first_deadline _ _ _ demo_inv) as (r & H & _).
  - unfold tv_ok. simpl. lia.
  - intros p t (x & Hx & <-). apply elem_of_list_to_map_2 in Hx.
    rewrite !elem_of_cons, elem_of_nil in Hx. unfold tv_ok.
    destruct_or!; simplify_eq/=; lia.
  - by exists r.
Defined.

Lemma firePending_witness :
  ∃ h' : lheap, firePending (record_call (λ _ _ _, 0)) (demo_loop, []) =
    Ok (0, (lset h' demo_loop, [(sm_process_message_cb, 4, 9%positive)])).
Proof.
  destruct (firePending_calls_in_order (λ _ _ _, 0) demo_loop _ _ [demo_event 3] [] demo_inv)
    as (h' & H & _); [by repeat constructor|]. by exists h'.
Defined.
