(* ===== verification/WatchProofs.v ===== *)
(** * Properties of the watched descriptors

    [watch_inv]: the watch table, the fields of its events, [readFds] and
    [nfds] agree with each other, and the watched descriptors are distinct. *)

From S2P Require Import Prelude Dll EventLoop EventLoopProofs.

(** [ev] is in slot [i] of the table, and is [e]. *)
Definition watched (c : upile_context) (i : nat) (ev : loc) (e : upil_event) : Prop :=
  watch_table c !! i = Some (Some ev) ∧ events c !! ev = Some e.

Record watch_inv (c : upile_context) : Prop := {
  wi_len : length (watch_table c) = MAX_FD_EVENTS;
  wi_slot : ∀ i ev, watch_table c !! i = Some (Some ev) →
    ∃ e, events c !! ev = Some e ∧ ev_index e = Z.of_nat i ∧ 0 ≤ ev_fd e < FD_SETSIZE;
  wi_fds : ∀ fd, fd ∈ readFds c ↔ ∃ i ev e, watched c i ev e ∧ ev_fd e = fd;
  wi_inj : ∀ i j ev ev' e e', watched c i ev e → watched c j ev' e' → ev_fd e = ev_fd e' → i = j;
  wi_nfds : ∀ fd, fd ∈ readFds c → fd < nfds c;
  wi_least : nfds c - 1 ∈ readFds c ∨ readFds c = ∅ ∧ 0 ≤ nfds c ≤ 1;
}.

Lemma free_slot_some table k i :
  free_slot table k = Some i →
  (k ≤ i)%nat ∧ table !! (i - k)%nat = Some None ∧
  ∀ j, (j < i - k)%nat → ∃ ev, table !! j = Some (Some ev).
Proof.
  revert k. induction table as [|[ev|] table IH]; intros k; simpl; [done| |].
  - intros H. destruct (IH (S k) H) as (H1 & H2 & H3).
    replace (i - k)%nat with (S (i - S k)) by lia. split; [lia|]. split; [done|].
    intros [|j] Hj; [by exists ev|]. apply H3. lia.
  - intros [= ->]. rewrite Nat.sub_diag. split; [lia|]. split; [done|]. intros j Hj. lia.
Qed.

Lemma free_slot_none table k :
  free_slot table k = None → ∀ j, (j < length table)%nat → ∃ ev, table !! j = Some (Some ev).
Proof.
  revert k. induction table as [|[ev|] table IH]; intros k; simpl; [lia| |done].
  intros H [|j] Hj; [by exists ev|]. apply (IH (S k) H). lia.
Qed.

Lemma FD_SET_ok fd c :
  0 ≤ fd < FD_SETSIZE → FD_SET fd c = Ok (tt, set_readFds ({[fd]} ∪ readFds c) c).
Proof.
  intros H. unfold FD_SET. by rewrite (proj2 (Z.leb_le _ _)), (proj2 (Z.ltb_lt _ _)) by lia.
Qed.

Lemma FD_CLR_ok fd c :
  0 ≤ fd < FD_SETSIZE → FD_CLR fd c = Ok (tt, set_readFds (readFds c ∖ {[fd]}) c).
Proof.
  intros H. unfold FD_CLR. by rewrite (proj2 (Z.leb_le _ _)), (proj2 (Z.ltb_lt _ _)) by lia.
Qed.

(** What an addition to a free slot leaves. *)
Definition added (ev : loc) (e : upil_event) (i : nat) (c : upile_context) : upile_context :=
  UpileContext ({[ev_fd e]} ∪ readFds c)
    (if nfds c <=? ev_fd e then ev_fd e + 1 else nfds c)
    (<[i := Some ev]> (watch_table c)) (elinks c)
    (<[ev := with_index (Z.of_nat i) e]> (events c)) (now c).

Lemma event_add_run c ev e i :
  free_slot (watch_table c) 0 = Some i → events c !! ev = Some e → 0 ≤ ev_fd e < FD_SETSIZE →
  upil_event_add ev c = Ok (tt, added ev e i c).
Proof.
  intros Hi He Hfd. unfold upil_event_add. erewrite bind_ok by done. rewrite Hi.
  erewrite bind_ok by done. erewrite bind_ok by (by apply event_update_ok).
  erewrite bind_ok by (apply event_at_ok; apply lookup_insert_eq).
  erewrite bind_ok by (by apply FD_SET_ok). erewrite bind_ok by done.
  unfold added. simpl. by destruct (nfds c <=? ev_fd e).
Qed.

Lemma watched_added c ev e i j ev' e' :
  watch_table c !! i = Some None → (∀ j, watch_table c !! j ≠ Some (Some ev)) →
  watched (added ev e i c) j ev' e' ↔
  (j = i ∧ ev' = ev ∧ e' = with_index (Z.of_nat i) e) ∨ (watched c j ev' e').
Proof.
  intros Hi Hev. unfold watched, added. simpl. destruct (decide (j = i)) as [->|Hj].
  - rewrite list_lookup_insert_eq by (by eapply lookup_lt_Some). split.
    + intros [[= <-] H2]. rewrite lookup_insert_eq in H2. left. naive_solver.
    + intros [(_ & -> & ->)|[H1 _]]; [by rewrite lookup_insert_eq|]. congruence.
  - rewrite list_lookup_insert_ne by done. split.
    + intros [H1 H2]. right. split; [done|]. rewrite lookup_insert_ne in H2; [done|].
      intros ->. by apply (Hev j).
    + intros [[? _]|[H1 H2]]; [done|]. split; [done|]. rewrite lookup_insert_ne; [done|].
      intros ->. by apply (Hev j).
Qed.

Lemma added_inv c ev e i :
  watch_inv c → free_slot (watch_table c) 0 = Some i → events c !! ev = Some e →
  0 ≤ ev_fd e < FD_SETSIZE → ev_fd e ∉ readFds c → watch_inv (added ev e i c).
Proof.
  intros [Hlen Hslot Hfds Hinj Hn Hl] Hi He Hfd Hnew.
  destruct (free_slot_some _ _ _ Hi) as (_ & Hfree & _). rewrite Nat.sub_0_r in Hfree.
  assert (∀ j, watch_table c !! j ≠ Some (Some ev)) as Hev.
  { intros j Hj. apply Hnew, Hfds. exists j, ev, e. done. }
  pose proof (watched_added c ev e i) as Hw.
  split.
  - simpl. by rewrite length_insert.
  - intros j ev' Hj. simpl in Hj. destruct (decide (j = i)) as [->|Hji].
    + rewrite list_lookup_insert_eq in Hj by (by eapply lookup_lt_Some). injection Hj as <-.
      simpl. exists (with_index (Z.of_nat i) e). by rewrite lookup_insert_eq.
    + rewrite list_lookup_insert_ne in Hj by done. simpl. rewrite lookup_insert_ne.
      * by apply Hslot.
      * intros ->. by apply (Hev j).
  - intros fd. simpl. rewrite elem_of_union, elem_of_singleton, Hfds. split.
    + intros [->|(j & ev' & e' & Hj & <-)].
      * exists i, ev, (with_index (Z.of_nat i) e). rewrite Hw by done. split; [by left|done].
      * exists j, ev', e'. rewrite Hw by done. split; [by right|done].
    + intros (j & ev' & e' & Hj & <-). rewrite Hw in Hj by done.
      destruct Hj as [(-> & -> & ->)|Hj]; [by left|]. right. by exists j, ev', e'.
  - intros j k ev1 ev2 e1 e2 Hj Hk Heq. rewrite Hw in Hj, Hk by done.
    destruct Hj as [(-> & -> & ->)|Hj], Hk as [(-> & -> & ->)|Hk]; [done| | |by eapply Hinj].
    + exfalso. apply Hnew, Hfds. exists k, ev2, e2. done.
    + exfalso. apply Hnew, Hfds. exists j, ev1, e1. done.
  - intros fd. simpl. rewrite elem_of_union, elem_of_singleton.
    destruct (Z.leb_spec (nfds c) (ev_fd e)); intros [->|Hin]; [lia| |lia|by apply Hn].
    specialize (Hn fd Hin). lia.
  - left. simpl. destruct (Z.leb_spec (nfds c) (ev_fd e)).
    + replace (ev_fd e + 1 - 1) with (ev_fd e) by lia. set_solver.
    + destruct Hl as [Hl|[Hl1 Hl2]]; [set_solver|].
      replace (nfds c - 1) with (ev_fd e) by lia. set_solver.
Qed.

(** ** Removal *)

Lemma max_watched_fd_ok c table n :
  (∀ i ev, table !! i = Some (Some ev) → is_Some (events c !! ev)) → ∃ m,
  max_watched_fd table n c = Ok (m, c) ∧ n ≤ m ∧
  (∀ i ev e, table !! i = Some (Some ev) → events c !! ev = Some e → ev_fd e ≤ m) ∧
  (m = n ∨ ∃ i ev e, table !! i = Some (Some ev) ∧ events c !! ev = Some e ∧ m = ev_fd e).
Proof.
  revert n. induction table as [|[ev|] table IH]; intros n Hev.
  - exists n. split_and!; [done|lia|done|by left].
  - destruct (Hev 0%nat ev eq_refl) as [e He].
    destruct (IH (if n <? ev_fd e then ev_fd e else n)) as (m & E & H1 & H2 & H3).
    { intros i. apply (Hev (S i)). }
    exists m. cbn [max_watched_fd]. erewrite bind_ok by (by apply event_at_ok).
    split_and!; [done| | |].
    + destruct (Z.ltb_spec n (ev_fd e)); lia.
    + intros [|i] ev' e' Hi He'; [|by apply (H2 i ev')]. injection Hi as <-.
      assert (e' = e) as -> by congruence. destruct (Z.ltb_spec n (ev_fd e)); lia.
    + destruct H3 as [->|(i & ev' & e' & Hi & He' & ->)].
      * destruct (Z.ltb_spec n (ev_fd e)); [right; by exists 0%nat, ev, e|by left].
      * right. by exists (S i), ev', e'.
  - destruct (IH n) as (m & E & H1 & H2 & H3).
    { intros i. apply (Hev (S i)). }
    exists m. split_and!; [done|done| |].
    + intros [|i] ev' e' Hi He'; [done|]. by apply (H2 i ev').
    + destruct H3 as [->|(i & ev' & e' & Hi & He' & ->)]; [by left|]. right. by exists (S i), ev', e'.
Qed.

(** What a removal leaves, [n] being the new [nfds]. *)
Definition dropped (ev : loc) (e : upil_event) (i : nat) (n : Z) (c : upile_context) : upile_context :=
  UpileContext (readFds c ∖ {[ev_fd e]}) n (<[i := None]> (watch_table c)) (elinks c)
    (<[ev := with_index (-1) e]> (events c)) (now c).

Lemma watched_dropped c ev e i n j ev' e' :
  watch_inv c → watched c i ev e →
  watched (dropped ev e i n c) j ev' e' ↔ j ≠ i ∧ watched c j ev' e'.
Proof.
  intros Hi Hw. unfold watched, dropped. simpl. destruct (decide (j = i)) as [->|Hj].
  - rewrite list_lookup_insert_eq by (eapply lookup_lt_Some; apply Hw). naive_solver.
  - rewrite list_lookup_insert_ne by done. split.
    + intros [H1 H2]. split; [done|]. split; [done|]. rewrite lookup_insert_ne in H2; [done|].
      intros ->. apply Hj. destruct Hw as [Hw1 Hw2].
      by eapply (wi_inj c Hi j i ev' ev' e e).
    + intros [_ [H1 H2]]. split; [done|]. rewrite lookup_insert_ne; [done|].
      intros ->. apply Hj. by eapply (wi_inj c Hi j i ev' ev' e' e'); [|destruct Hw; split|].
Qed.

Section removal.
Context (c : upile_context) (ev : loc) (e : upil_event) (i : nat).
Hypothesis (Hi : watch_inv c) (Hw : watched c i ev e).
Notation d n := (dropped ev e i n c).

Lemma dropped_fds n fd :
  fd ∈ readFds c ∖ {[ev_fd e]} ↔ ∃ j ev' e', watched (d n) j ev' e' ∧ ev_fd e' = fd.
Proof.
  rewrite elem_of_difference, elem_of_singleton, (wi_fds c Hi). split.
  - intros [(j & ev' & e' & Hj & <-) Hne]. exists j, ev', e'. split; [|done].
    apply watched_dropped; [done|done|]. split; [|done]. intros ->. destruct Hj as [Hj1 Hj2], Hw as [Hw1 Hw2].
    assert (ev' = ev) as -> by congruence. assert (e' = e) as -> by congruence. done.
  - intros (j & ev' & e' & Hj & <-). apply watched_dropped in Hj as [Hji Hj]; [|done|done].
    split; [by exists j, ev', e'|]. intros Heq. apply Hji. by eapply (wi_inj c Hi).
Qed.

Lemma readFds_range fd : fd ∈ readFds c → 0 ≤ fd.
Proof.
  intros (j & ev' & e' & [Hj1 Hj2] & <-)%(wi_fds c Hi).
  destruct (wi_slot c Hi j ev' Hj1) as (x & Hx & _ & Hr). assert (x = e') as -> by congruence. lia.
Qed.

(** The events that are left. *)
Lemma dropped_slot j ev' :
  <[i := None]> (watch_table c) !! j = Some (Some ev') → j ≠ i ∧ watch_table c !! j = Some (Some ev').
Proof.
  destruct Hw as [Hw1 _]. intros Hj. destruct (decide (j = i)) as [->|Hji].
  - by rewrite list_lookup_insert_eq in Hj by (by eapply lookup_lt_Some).
  - by rewrite list_lookup_insert_ne in Hj by done.
Qed.

Lemma dropped_largest n : ∃ m,
  max_watched_fd (<[i := None]> (watch_table c)) 0 (d n) = Ok (m, d n) ∧ 0 ≤ m ∧
  (∀ fd, fd ∈ readFds c ∖ {[ev_fd e]} → fd ≤ m) ∧
  (m = 0 ∨ m ∈ readFds c ∖ {[ev_fd e]}).
Proof.
  destruct (max_watched_fd_ok (d n) (<[i := None]> (watch_table c)) 0) as (m & Em & Hm0 & Hm1 & Hm2).
  { intros j ev' [_ Hj]%dropped_slot. simpl. destruct (decide (ev' = ev)) as [->|];
      [rewrite lookup_insert_eq; eauto|rewrite lookup_insert_ne by done].
    destruct (wi_slot c Hi j ev' Hj) as (x & Hx & _). eauto. }
  exists m. split_and!; [done|done| |].
  - intros fd (j & ev' & e' & [Hj1 Hj2] & <-)%(dropped_fds n). by apply (Hm1 j ev' e').
  - destruct Hm2 as [->|(j & ev' & e' & Hj1 & Hj2 & ->)]; [by left|right].
    apply (dropped_fds n). by exists j, ev', e'.
Qed.

Lemma removeWatch_ok : ∃ n,
  removeWatch ev i c = Ok (tt, dropped ev e i n c) ∧ watch_inv (dropped ev e i n c).
Proof.
  pose proof Hw as [Hw1 Hw2]. destruct (wi_slot c Hi i ev Hw1) as (e' & He' & Hidx & Hfd).
  assert (e' = e) as -> by congruence. clear He'.
  destruct (dropped_largest (nfds c)) as (m & Em & Hm0 & Hm1 & Hm2).
  exists (if ev_fd e + 1 =? nfds c then m + 1 else nfds c). split.
  - unfold removeWatch. erewrite bind_ok by done. erewrite bind_ok by (by apply event_update_ok).
    erewrite bind_ok by (apply event_at_ok; apply lookup_insert_eq).
    erewrite bind_ok by (by apply FD_CLR_ok). erewrite bind_ok by done.
    cbn [nfds set_readFds set_events set_watch ev_fd with_index].
    destruct (Z.eqb_spec (ev_fd e + 1) (nfds c)); [|done]. cbn [when].
    erewrite bind_ok by done. erewrite bind_ok by exact Em. done.
  - split; simpl.
    + rewrite length_insert. apply Hi.
    + intros j ev' [Hji Hj]%dropped_slot.
      destruct (wi_slot c Hi j ev' Hj) as (e' & He' & Hr). exists e'. rewrite lookup_insert_ne; [done|].
      intros ->. apply Hji. by eapply (wi_inj c Hi j i ev' ev' e' e); [| |congruence].
    + exact (dropped_fds _).
    + intros j k ev1 ev2 e1 e2 Hj Hk. apply watched_dropped in Hj as [_ Hj]; [|done|done].
      apply watched_dropped in Hk as [_ Hk]; [|done|done]. by eapply (wi_inj c Hi).
    + intros fd Hin. destruct (Z.eqb_spec (ev_fd e + 1) (nfds c)); [specialize (Hm1 fd Hin); lia|].
      apply (wi_nfds c Hi). set_solver.
    + destruct (Z.eqb_spec (ev_fd e + 1) (nfds c)) as [Heq|Hne].
      * replace (m + 1 - 1) with m by lia. destruct Hm2 as [->|?]; [|by left].
        destruct (decide (readFds c ∖ {[ev_fd e]} = ∅)) as [->|Hne]; [right; split; [done|lia]|left].
        apply set_choose_L in Hne as [fd Hin]. specialize (Hm1 fd Hin).
        assert (0 ≤ fd) by (apply (readFds_range fd); set_solver). by replace 0 with fd by lia.
      * left. destruct (wi_least c Hi) as [Hl|[Hl _]].
        -- apply elem_of_difference. split; [done|]. rewrite elem_of_singleton. lia.
        -- exfalso. assert (ev_fd e ∈ readFds c) as Hin; [|by rewrite Hl in Hin; set_solver].
           apply (wi_fds c Hi). by exists i, ev, e.
Qed.
End removal.

(** ** The properties *)

(** [upil_event_add] puts an event into the first empty slot of the watch
    table and watches its descriptor: the table, [readFds] and [nfds] keep
    agreeing with each other, and no other event is touched.  When the table
    is full it does nothing. *)
Theorem upil_event_add_watches c ev e :
  watch_inv c → events c !! ev = Some e → 0 ≤ ev_fd e < FD_SETSIZE → ev_fd e ∉ readFds c → ∃ c',
  upil_event_add ev c = Ok (tt, c') ∧ watch_inv c' ∧
  match free_slot (watch_table c) 0 with
  | None => c' = c ∧ ∀ i, (i < MAX_FD_EVENTS)%nat → ∃ ev', watch_table c !! i = Some (Some ev')
  | Some i =>
      readFds c' = {[ev_fd e]} ∪ readFds c ∧ watched c' i ev (with_index (Z.of_nat i) e) ∧
      (∀ j, (j < i)%nat → ∃ ev', watch_table c !! j = Some (Some ev')) ∧
      (∀ j, j ≠ i → watch_table c' !! j = watch_table c !! j) ∧
      (∀ p, p ≠ ev → events c' !! p = events c !! p)
  end.
Proof.
  intros Hi He Hfd Hnew. destruct (free_slot (watch_table c) 0) as [i|] eqn:Es.
  - exists (added ev e i c). split; [by apply event_add_run|]. split; [by apply added_inv|].
    split; [done|]. split; [|split; [|split]].
    + destruct (free_slot_some _ _ _ Es) as (_ & Hfree & _). rewrite Nat.sub_0_r in Hfree.
      split; simpl; [|apply lookup_insert_eq].
      apply list_lookup_insert_eq. by eapply lookup_lt_Some.
    + destruct (free_slot_some _ _ _ Es) as (_ & _ & Hj). intros j Hlt. apply Hj. lia.
    + intros j Hj. simpl. by rewrite list_lookup_insert_ne.
    + intros p Hp. simpl. by rewrite lookup_insert_ne.
  - exists c. split_and!; [|done|done|].
    + unfold upil_event_add. erewrite bind_ok by done. by rewrite Es.
    + intros i Hlt. apply (free_slot_none _ _ Es). by rewrite (wi_len c Hi).
Qed.

(** [upil_event_del] of a watched event empties its slot and stops
    watching its descriptor, and [nfds] shrinks to the largest descriptor
    that is left; of an event that is not watched it does nothing. *)
Theorem upil_event_del_unwatches c ev e :
  watch_inv c → events c !! ev = Some e →
  (0 ≤ ev_index e → ∃ i, ev_index e = Z.of_nat i ∧ watched c i ev e) → ∃ c',
  upil_event_del ev c = Ok (tt, c') ∧ watch_inv c' ∧
  if ev_index e <? 0 then c' = c
  else readFds c' = readFds c ∖ {[ev_fd e]} ∧
    watch_table c' = <[Z.to_nat (ev_index e) := None]> (watch_table c) ∧
    events c' !! ev = Some (with_index (-1) e) ∧
    (∀ p, p ≠ ev → events c' !! p = events c !! p).
Proof.
  intros Hi He Hw. unfold upil_event_del.
  destruct (Z.ltb_spec (ev_index e) 0) as [Hneg|Hpos].
  { exists c. erewrite bind_ok by (by apply event_at_ok).
    by rewrite (proj2 (Z.ltb_lt _ _)) by done. }
  destruct (Hw Hpos) as (i & Hidx & Hwi). pose proof Hwi as [Hw1 _].
  apply lookup_lt_Some in Hw1. rewrite (wi_len c Hi) in Hw1.
  destruct (removeWatch_ok c ev e i Hi Hwi) as (n & E & Hi').
  exists (dropped ev e i n c). split; [|split; [done|]].
  - erewrite bind_ok by (by apply event_at_ok). rewrite (proj2 (Z.ltb_ge _ _)) by done.
    rewrite (proj2 (Z.leb_gt _ _)) by lia. by rewrite Hidx, Nat2Z.id.
  - simpl. rewrite Hidx, Nat2Z.id, lookup_insert_eq. split_and!; [done..|].
    intros p Hp. by rewrite lookup_insert_ne.
Qed.

(** ** Witnesses *)

(** One watched descriptor, 4, and one event for the descriptor 9. *)
Definition demo_watch : upile_context :=
  let e fd i := UpilEvent fd i 1 (Timeval 0 0) no_callback 1%positive in
  UpileContext {[4]} 5 (Some 5%positive :: replicate 15 None) ∅
    (<[5%positive := e 4 0]> {[6%positive := e 9 (-1)]}) (Timeval 0 0).

Lemma demo_watched i ev :
  watch_table demo_watch !! i = Some (Some ev) → i = 0%nat ∧ ev = 5%positive.
Proof.
  destruct i as [|i]; simpl; [by intros [= <-]|].
  intros H. do 15 (destruct i as [|i]; [done|]). done.
Qed.

Lemma demo_watch_inv : watch_inv demo_watch.
Proof.
  split.
  - done.
  - intros i ev [-> ->]%demo_watched. eexists. split; [by vm_compute|].
    split; [done|]. unfold FD_SETSIZE. simpl. lia.
  - intros fd. simpl. rewrite elem_of_singleton. split.
    + intros ->. by exists 0%nat, 5%positive; eexists.
    + intros (i & ev & e & [[-> ->]%demo_watched He] & <-). by simplify_map_eq.
  - intros i j ev ev' e e' [[-> ->]%demo_watched _] [[-> ->]%demo_watched _]. done.
  - intros fd. simpl. rewrite elem_of_singleton. lia.
  - left. simpl. set_solver.
Qed.

Lemma upil_event_add_witness : ∃ c',
  upil_event_add 6%positive demo_watch = Ok (tt, c') ∧ watch_inv c'.
Proof.
  destruct (upil_event_add_watches demo_watch 6%positive
    (UpilEvent 9 (-1) 1 (Timeval 0 0) no_callback 1%positive) demo_watch_inv) as (c' & H1 & H2 & _).
  - reflexivity.
  - unfold FD_SETSIZE. simpl. lia.
  - simpl. set_solver.
  - by exists c'.
Defined.

Lemma upil_event_del_witness : ∃ c',
  upil_event_del 5%positive demo_watch = Ok (tt, c') ∧ watch_inv c'.
Proof.
  destruct (upil_event_del_unwatches demo_watch 5%positive
    (UpilEvent 4 0 1 (Timeval 0 0) no_callback 1%positive) demo_watch_inv) as (c' & H1 & H2 & _).
  - reflexivity.
  - intros _. by exists 0%nat.
  - by exists c'.
Defined.
