(* ===== verification/Agenda.v ===== *)
(** * What the event loop promises: an agenda

    The loop of src/upil_event/upil_event.c, seen from outside: the events the
    program knows, the timers with their deadlines in the order in which they
    are due, and the slots of the watch table.  The operations of an agenda
    say what the program may rely on; [loop_refines] shows that the loop, with
    its two rings of links, its table and its masks, keeps the promise. *)

From Stdlib Require Import Sorting.Sorted.
From S2P Require Import Prelude Dll EventLoop EventLoopProofs WatchProofs.

(** An event as the program has set it. *)
Record source := Source {
  src_fd : Z;
  src_persist : Z;
  src_func : callback;
  src_param : loc;
}.
Definition source_of (x : upil_event) : source :=
  Source (ev_fd x) (ev_persist x) (ev_func x) (ev_param x).
Definition src_call (x : source) : callback * Z * loc := (src_func x, src_fd x, src_param x).
Definition timer_source (x : source) : source := Source (-1) (src_persist x) (src_func x) (src_param x).

Record agenda := Agenda {
  ag_sources : gmap positive source;
  ag_timers : list (timeval * loc);
  ag_slots : list ptr;
  ag_now : timeval;
}.

#[export] Instance tv_lt_dec a b : Decision (tv_lt a b).
Proof. unfold tv_lt. apply _. Defined.

(** The descriptor of an event, and those of all slots. *)
Definition fd_of (ag : agenda) (e : loc) : option Z := src_fd <$> ag_sources ag !! e.
Definition ag_fds (ag : agenda) : gset Z := list_to_set (omap (fd_of ag) (omap id (ag_slots ag))).

(** ** Operations *)

Inductive loop_op :=
  | Add_timer (e : loc) (tv : timeval)
  | Del_timer (e : loc)
  | Add_watch (e : loc)
  | Del_watch (e : loc)
  | Clock (t : timeval)
  | Turn_loop (sel : select_call).

(** A new timer goes before the first one that is not due before it. *)
Fixpoint insert_timer (t : timeval) (e : loc) (ts : list (timeval * loc)) : list (timeval * loc) :=
  match ts with
  | [] => [(t, e)]
  | (t', e') :: ts' => if decide (tv_lt t' t) then (t', e') :: insert_timer t e ts' else (t, e) :: ts
  end.

Definition insert_slot (e : loc) (slots : list ptr) : list ptr :=
  match free_slot slots 0 with Some i => <[i := Some e]> slots | None => slots end.

(** How long the loop may sleep. *)
Definition ag_timeout (ag : agenda) : option timeval :=
  match ag_timers ag with
  | [] => None
  | (t, _) :: _ => Some (if decide (tv_lt (ag_now ag) t) then timersub t (ag_now ag) else Timeval 0 0)
  end.

(** The events to serve at the time [woken] with the descriptors [rfds]
    ready: first the timers by their deadlines, then the descriptors by their
    slots. *)
Definition is_ready (ag : agenda) (rfds : gset Z) (e : loc) : Prop :=
  match fd_of ag e with Some fd => fd ∈ rfds | None => False end.
#[export] Instance is_ready_dec ag rfds e : Decision (is_ready ag rfds e).
Proof. unfold is_ready. destruct (fd_of ag e); apply _. Defined.

Definition ag_expired (ag : agenda) (woken : timeval) : list loc :=
  (filter (λ x, tv_lt x.1 woken) (ag_timers ag)).*2.
Definition ag_ready (ag : agenda) (rfds : gset Z) : list loc :=
  filter (is_ready ag rfds) (omap id (ag_slots ag)).
Definition to_serve (ag : agenda) (woken : timeval) (rfds : gset Z) : list loc :=
  ag_expired ag woken ++ ag_ready ag rfds.

(** A served descriptor stays watched when its event is persistent. *)
Definition stays (ag : agenda) (rfds : gset Z) (s : ptr) : ptr :=
  match s with
  | Some e =>
      if decide (is_ready ag rfds e) then
        match ag_sources ag !! e with
        | Some x => if src_persist x =? 0 then None else s
        | None => s
        end
      else s
  | None => None
  end.

Definition after_turn (ag : agenda) (woken : timeval) (rfds : gset Z) : agenda :=
  Agenda (ag_sources ag) (filter (λ x, ¬ tv_lt x.1 woken) (ag_timers ag)) (stays ag rfds <$> ag_slots ag) woken.

Definition set_timers (ts : list (timeval * loc)) (ag : agenda) : agenda :=
  Agenda (ag_sources ag) ts (ag_slots ag) (ag_now ag).
Definition set_slots (l : list ptr) (ag : agenda) : agenda :=
  Agenda (ag_sources ag) (ag_timers ag) l (ag_now ag).
Definition set_time (t : timeval) (ag : agenda) : agenda :=
  Agenda (ag_sources ag) (ag_timers ag) (ag_slots ag) t.

Section agenda.
(** What the callbacks return. *)
Variable answer : callback → Z → loc → Z.

Definition serve (ag : agenda) (es : list loc) : list (callback * Z * loc) * Z :=
  fired answer (src_call <$> omap (λ e, ag_sources ag !! e) es) 0.

(** An operation with the calls it makes and its result, which is none when
    the loop goes on. *)
Inductive ag_step (ag : agenda) : loop_op → list (callback * Z * loc) → option Z → agenda → Prop :=
  | ag_add_timer e tv x :
      ag_sources ag !! e = Some x →
      ag_step ag (Add_timer e tv) [] None
        (Agenda (<[e := timer_source x]> (ag_sources ag)) (insert_timer (timeradd (ag_now ag) tv) e (ag_timers ag))
           (ag_slots ag) (ag_now ag))
  | ag_del_timer e :
      ag_step ag (Del_timer e) [] None (set_timers (filter (λ x, x.2 ≠ e) (ag_timers ag)) ag)
  | ag_add_watch e : ag_step ag (Add_watch e) [] None (set_slots (insert_slot e (ag_slots ag)) ag)
  | ag_del_watch e :
      ag_step ag (Del_watch e) [] None
        (set_slots ((λ s : ptr, if decide (s = Some e) then None else s) <$> ag_slots ag) ag)
  | ag_clock t : ag_step ag (Clock t) [] None (set_time t ag)
  | ag_turn sel nfds woken n rfds :
      (∀ fd, fd ∈ ag_fds ag → fd < nfds) →
      sel nfds (ag_fds ag) (ag_timeout ag) = (woken, Selected n rfds) →
      ag_step ag (Turn_loop sel) (serve ag (to_serve ag woken rfds)).1
        (let ret := (serve ag (to_serve ag woken rfds)).2 in if ret <? 0 then Some ret else None)
        (after_turn ag woken rfds)
  | ag_interrupted sel nfds woken :
      sel nfds (ag_fds ag) (ag_timeout ag) = (woken, Interrupted) →
      ag_step ag (Turn_loop sel) [] None (set_time woken ag)
  | ag_failed sel nfds woken :
      sel nfds (ag_fds ag) (ag_timeout ag) = (woken, SelectError) →
      ag_step ag (Turn_loop sel) [] (Some (-1)) (set_time woken ag).

(** What the program has to keep to: an event is in use once, and [select]
    reports descriptors it was asked for, with their number. *)
Definition in_use (ag : agenda) (e : loc) : Prop :=
  e = timer_list ∨ e = pending_list ∨ e ∈ (ag_timers ag).*2 ∨ Some e ∈ ag_slots ag.

Definition ag_may (ag : agenda) (op : loop_op) : Prop :=
  match op with
  | Add_timer e _ => is_Some (ag_sources ag !! e) ∧ ¬ in_use ag e
  | Del_timer e => e ∈ (ag_timers ag).*2
  | Add_watch e =>
      ¬ in_use ag e ∧ ∃ fd, fd_of ag e = Some fd ∧ 0 ≤ fd < FD_SETSIZE ∧ fd ∉ ag_fds ag
  | Del_watch e => Some e ∈ ag_slots ag
  | Clock _ => True
  | Turn_loop sel => ∀ nfds, match (sel nfds (ag_fds ag) (ag_timeout ag)).2 with
      | Selected n rfds => rfds ⊆ ag_fds ag ∧ n = Z.of_nat (size rfds)
      | _ => True
      end
  end.

(** A run of the program, up to the end of the loop. *)
Inductive ag_run : agenda → list loop_op → list (callback * Z * loc) → option Z → agenda → Prop :=
  | ag_run_nil ag : ag_run ag [] [] None ag
  | ag_run_end ag op ops js r ag' : ag_step ag op js (Some r) ag' → ag_run ag (op :: ops) js (Some r) ag'
  | ag_run_next ag op ops js js' r ag' ag'' :
      ag_step ag op js None ag' → ag_run ag' ops js' r ag'' → ag_run ag (op :: ops) (js ++ js') r ag''.

Fixpoint ag_legal (ag : agenda) (ops : list loop_op) : Prop :=
  match ops with
  | [] => True
  | op :: ops => ag_may ag op ∧ ∀ js ag', ag_step ag op js None ag' → ag_legal ag' ops
  end.

(** ** The loop *)

Definition do_op (op : loop_op) : M recorder (option Z) :=
  match op with
  | Add_timer e tv => zoom (upil_timer_add e (Some tv));; mret None
  | Del_timer e => zoom (upil_timer_del e);; mret None
  | Add_watch e => zoom (upil_event_add e);; mret None
  | Del_watch e => zoom (upil_event_del e);; mret None
  | Clock t => zoom (modify (set_now t));; mret None
  | Turn_loop sel => loop_turn (record_call answer) sel
  end.

Fixpoint do_ops (ops : list loop_op) : M recorder (option Z) :=
  match ops with
  | [] => mret None
  | op :: ops =>
      r ← do_op op;
      match r with Some ret => mret (Some ret) | None => do_ops ops end
  end.
End agenda.

(** The loop [c] has the agenda [ag], its timers being [ts]. *)
Record shows_agenda (c : upile_context) (ts : list loc) (ag : agenda) : Prop := {
  sa_loop : loop_inv c ts [];
  sa_watch : watch_inv c;
  sa_sources : ag_sources ag = source_of <$> events c;
  sa_timers : Forall2 (λ e x, x.2 = e ∧ due (events c) e x.1) ts (ag_timers ag);
  sa_slots : ag_slots ag = watch_table c;
  sa_apart : ∀ e, Some e ∈ watch_table c → e ∉ timer_list :: pending_list :: ts;
  sa_now : ag_now ag = now c;
}.
