(* ===== verification/AgendaProofs.v ===== *)
(** * The event loop keeps its agenda *)

From Stdlib Require Import Sorting.Sorted.
From S2P Require Import Prelude Dll EventLoop EventLoopProofs WatchProofs Agenda.

(** ** Changes that an invariant does not see *)






(** ** Timers *)

Abbreviation timed c := (λ (e : loc) (x : timeval * loc), x.2 = e ∧ due (events c) e x.1).







Section agenda.
Variable answer : callback → Z → loc → Z.
Implicit Types (c : upile_context) (ts : list loc) (ag : agenda) (log : list (callback * Z * loc)).













(** ** A turn *)

















End agenda.

(** ** Examples *)

(** A fresh loop, with an event for the descriptor 4 and one for a timer. *)
Definition demo_fresh : upile_context :=
  let e fd p f := UpilEvent fd (-1) p (Timeval 0 0) f 9%positive in
  let ev := list_to_map [(1%positive, zero_event); (2%positive, zero_event);
    (5%positive, e 4 1 tpp_recv_event_cb_cb); (6%positive, e 0 0 sm_process_message_cb)] in
  let self p := Links (Some p) (Some p) in
  let ln := list_to_map [(1%positive, self 1%positive); (2%positive, self 2%positive);
    (5%positive, Links None None); (6%positive, Links None None)] in
  UpileContext ∅ 0 (replicate 16 None) ln ev (Timeval 8 0).




(** All descriptors are ready at the time [t]. *)
Definition all_ready (t : timeval) : select_call := λ _ rfds _, (t, Selected (Z.of_nat (size rfds)) rfds).



(** The calls of that turn: the timer, then the descriptor. *)
Lemma demo_turn :
  match do_ops (λ _ _ _, 0)
    [Add_watch 5%positive; Add_timer 6%positive (Timeval 1 0); Turn_loop (all_ready (Timeval 10 0))] (demo_fresh, []) with
  | Ok (_, (_, log)) => log = [(sm_process_message_cb, -1, 9%positive); (tpp_recv_event_cb_cb, 4, 9%positive)]
  | Err _ => False
  end.
Proof. by vm_compute. Qed.
