(* ===== verification/Handler.v ===== *)
(** * Message handlers: src/state_machine/handler.c

    A [HANDLER] carries the fields of the C struct and the messages allocated
    for it: the [next] and [prev] fields of the messages and of the two queue
    heads in [qlinks], their other fields in [msgs].  The event [ev] embedded
    in the message at address [m] is the event at address [m] of the loop.
    Addresses grow ([brk] is the next one) and are never given out twice, so
    that every use of a released message is a use of an absent address.
    [malloc_ok n] tells whether an allocation of [n] bytes succeeds. *)

From S2P Require Import Prelude Dll EventLoop.

Definition MAX_MSG_QUEUE_SIZE : Z := 32.
(** [sizeof(MSG)] on the 32-bit target. *)
Definition sizeof_MSG : Z := 68.

Record MSG := mkMSG {
  what : Z;
  data_size : Z;
  data : option (list Z);
}.

Record HANDLER := mkHANDLER {
  qlinks : lheap;
  msgs : gmap positive MSG;
  brk : positive;
  msg_processor : callback;
  msg_count : Z;
  loop : uew_context;
  malloc_ok : Z → bool;
}.

Definition msg_queue : loc := 1%positive.
Definition defer_msg_queue : loc := 2%positive.

(** ** Access to the fields *)

#[export] Instance handler_qlinks : Lens HANDLER lheap := {|
  lget := qlinks;
  lset q h := mkHANDLER q (msgs h) (brk h) (msg_processor h) (msg_count h) (loop h) (malloc_ok h);
|}.
#[export] Instance handler_loop : Lens HANDLER uew_context := {|
  lget := loop;
  lset l h := mkHANDLER (qlinks h) (msgs h) (brk h) (msg_processor h) (msg_count h) l (malloc_ok h);
|}.
#[export] Instance handler_qlinks_laws : LensLaws HANDLER lheap.
Proof. split; intros; repeat match goal with h : HANDLER |- _ => destruct h end; done. Qed.
#[export] Instance handler_loop_laws : LensLaws HANDLER uew_context.
Proof. split; intros; repeat match goal with h : HANDLER |- _ => destruct h end; done. Qed.

Definition set_msgs (m : gmap positive MSG) (h : HANDLER) : HANDLER :=
  mkHANDLER (qlinks h) m (brk h) (msg_processor h) (msg_count h) (loop h) (malloc_ok h).
Definition set_brk (b : positive) (h : HANDLER) : HANDLER :=
  mkHANDLER (qlinks h) (msgs h) b (msg_processor h) (msg_count h) (loop h) (malloc_ok h).
Definition set_msg_count (n : Z) (h : HANDLER) : HANDLER :=
  mkHANDLER (qlinks h) (msgs h) (brk h) (msg_processor h) n (loop h) (malloc_ok h).
Definition set_msg_processor (f : callback) (h : HANDLER) : HANDLER :=
  mkHANDLER (qlinks h) (msgs h) (brk h) f (msg_count h) (loop h) (malloc_ok h).

Abbreviation MH := (M HANDLER).

Definition msg_at (m : loc) : MH MSG := λ h,
  match msgs h !! m with Some x => Ok (x, h) | None => Err Dangling end.
Definition msg_update (m : loc) (f : MSG → MSG) : MH unit :=
  x ← msg_at m; modify (λ h, set_msgs (<[m := f x]> (msgs h)) h).

(** The link fields of the event embedded in a message. *)
Definition on_elinks {A} (m : M lheap A) : MH A := zoom (zoom (zoom (A := lheap) m)).

(** [malloc(sizeof(MSG))], used without a test for NULL: the contents of the
    new struct are those the caller stores. *)
Definition new_msg : MH loc :=
  h ← get;
  if malloc_ok h sizeof_MSG then
    let m := brk h in
    let c := upile (loop h) in
    put (mkHANDLER
           (<[m := Links None None]> (qlinks h))
           (<[m := mkMSG (-1) 0 None]> (msgs h))
           (Pos.succ m) (msg_processor h) (msg_count h)
           (lset (UpileContext (readFds c) (nfds c) (watch_table c)
                    (<[m := Links None None]> (elinks c))
                    (<[m := zero_event]> (events c)) (now c)) (loop h))
           (malloc_ok h));;
    mret m
  else fail NullDeref.

(** [free(msg)] *)
Definition free_msg (m : loc) : MH unit :=
  msg_at m;;
  modify (λ h,
    let c := upile (loop h) in
    mkHANDLER (delete m (qlinks h)) (delete m (msgs h)) (brk h) (msg_processor h) (msg_count h)
      (lset (UpileContext (readFds c) (nfds c) (watch_table c)
               (delete m (elinks c)) (delete m (events c)) (now c)) (loop h))
      (malloc_ok h)).

(** ** Queues *)

Definition init_queue (queue : loc) : MH unit := zoom (ring_init queue).

Definition addToQueue (msg queue : loc) : MH unit := zoom (ring_add msg queue).

(** A message that is on no queue is left as it is (the code reports it). *)
Definition removeFromQueue (msg : ptr) : MH unit :=
  match msg with
  | None => skip
  | Some m =>
      n ← zoom (get_next m);
      p ← zoom (get_prev m);
      match n, p with
      | Some _, Some _ => zoom (ring_remove m)
      | _, _ => skip
      end
  end.

(** ** Messages *)

Definition obtain : MH ptr :=
  n ← gets msg_count;
  if n + 1 <? MAX_MSG_QUEUE_SIZE then
    m ← new_msg;
    addToQueue m msg_queue;;
    modify (λ h, set_msg_count (msg_count h + 1) h);;
    mret (Some m)
  else mret None.

(** Removes a message from the loop and from its queue. *)
Definition remove_from_list (msg : ptr) : MH unit :=
  match msg with
  | None => skip
  | Some m =>
      msg_at m;;
      n ← on_elinks (get_next m);
      p ← on_elinks (get_prev m);
      match n, p with
      | Some _, Some _ => zoom (uew_event_del m true)
      | _, _ => skip
      end;;
      removeFromQueue (Some m);;
      modify (λ h, set_msg_count (msg_count h - 1) h)
  end.

Definition remove_message (msg : ptr) : MH unit :=
  match msg with
  | None => skip
  | Some m => remove_from_list (Some m);; free_msg m
  end.

(** [memcpy] of [n] bytes from a pointer. *)
Definition copy_in (p : option (list Z)) (n : Z) : res (list Z) :=
  b ← deref p; slice b 0 n.

Definition obtain_message (what : Z) (dat : option (list Z)) (size : Z) : MH ptr :=
  msg ← obtain;
  match msg with
  | None => mret None
  | Some m =>
      msg_update m (λ x, mkMSG what (data_size x) (data x));;
      if 0 <? size then
        h ← get;
        if malloc_ok h (size + 2) then
          bytes ← lift (copy_in dat size);
          msg_update m (λ x, mkMSG (Handler.what x) size (Some (bytes ++ [0; 0])));;
          mret (Some m)
        else
          remove_message (Some m);;
          mret None
      else mret (Some m)
  end.

Definition send_message_delay (msg : ptr) (msec : Z) : MH unit :=
  match msg with
  | None => skip
  | Some m =>
      msg_at m;;
      f ← gets msg_processor;
      zoom (uew_event_set m (-1) 0 f m);;
      zoom (uew_timer_add_wakeup m (s32 msec))
  end.

Definition send_message (msg : ptr) : MH unit := send_message_delay msg 0.

Definition defer_message (msg : ptr) : MH unit :=
  match msg with
  | None => skip
  | Some m => removeFromQueue (Some m);; addToQueue m defer_msg_queue
  end.

(** ** Walks along a queue

    Every turn takes one message of the queue, so that one turn per link pair
    is enough. *)
Definition queue_fuel (h : HANDLER) : nat := S (size (qlinks h)).

Fixpoint process_defer_loop (fuel : nat) (queue msg : loc) : MH unit :=
  match fuel with
  | O => fail OutOfFuel
  | S f =>
      if bool_decide (msg = queue) then skip else
      n ← zoom (get_next msg);
      removeFromQueue (Some msg);;
      send_message (Some msg);;
      n ← lift (deref n);
      process_defer_loop f queue n
  end.

Definition process_defer_msg (queue : loc) : MH unit :=
  msg ← zoom (get_next queue);
  msg ← lift (deref msg);
  fuel ← gets queue_fuel;
  process_defer_loop fuel queue msg.

Fixpoint remove_id_loop (fuel : nat) (queue msg : loc) (id : Z) : MH unit :=
  match fuel with
  | O => fail OutOfFuel
  | S f =>
      if bool_decide (msg = queue) then skip else
      n ← zoom (get_next msg);
      x ← msg_at msg;
      when (what x =? id) (remove_message (Some msg));;
      n ← lift (deref n);
      remove_id_loop f queue n id
  end.

Definition remove_message_id (queue : loc) (id : Z) : MH unit :=
  msg ← zoom (get_next queue);
  msg ← lift (deref msg);
  fuel ← gets queue_fuel;
  remove_id_loop fuel queue msg id.

(** ** Start *)

(** [created] and [filedes] are what [pthread_create] and [pipe] return. *)
Definition start_handler (func : callback) (created : Z) (filedes : option (Z * Z)) : MH Z :=
  ret ← zoom (uew_startEventLoop created filedes);
  if ret =? 0 then
    init_queue msg_queue;;
    init_queue defer_msg_queue;;
    modify (set_msg_count 0);;
    modify (set_msg_processor func);;
    mret ret
  else mret ret.
