(* ===== verification/HandlerProofs.v ===== *)
(** * Properties of the message handlers

    [handler_inv h qs ds os ts ps]: the messages of [h] are those of the
    queue [qs], the deferred ones [ds] and those on no queue [os]; [ts] and
    [ps] are the timers and the pending events of its loop.  The theorems say
    how the operations of Handler.v change these sequences. *)

From Stdlib Require Import Sorting.Sorted.
From S2P Require Import Prelude Dll EventLoop EventLoopProofs Handler.

Record handler_inv (h : HANDLER) (qs ds os ts ps : list loc) : Prop := {
  hi_queue : ring (qlinks h) msg_queue qs;
  hi_defer : ring (qlinks h) defer_msg_queue ds;
  hi_nodup : NoDup (msg_queue :: defer_msg_queue :: wakeupfd_event :: qs ++ ds ++ os);
  hi_off : ∀ m, m ∈ os → qlinks h !! m = Some (Links None None);
  hi_loop : loop_inv (upile (loop h)) ts ps;
  hi_sent : ∀ m, m ∈ ts ++ ps → m = wakeupfd_event ∨ m ∈ qs ++ os;
  hi_unsent : ∀ m, m ∈ qs ++ ds ++ os → m ∉ ts ++ ps →
    elinks (upile (loop h)) !! m = Some (Links None None);
  hi_live : ∀ m, m ∈ qs ++ ds ++ os → is_Some (msgs h !! m);
  hi_fresh : ∀ p, (brk h ≤ p)%positive →
    msgs h !! p = None ∧ qlinks h !! p = None ∧ elinks (upile (loop h)) !! p = None;
  hi_count : msg_count h = len (qs ++ ds ++ os);
  hi_wakeup : is_Some (elinks (upile (loop h)) !! wakeupfd_event);
}.

(** ** The loop, when events outside of its lists change *)

Lemma loop_inv_frame c c' ts ps :
  loop_inv c ts ps →
  (∀ p, p ∈ timer_list :: pending_list :: ts ++ ps →
     elinks c' !! p = elinks c !! p ∧ events c' !! p = events c !! p) →
  (∀ p, is_Some (elinks c' !! p) ↔ is_Some (events c' !! p)) →
  loop_inv c' ts ps.
Proof.
  intros [Ht Hp Hnd He Hs] Hf Hd. split; [| |done|done|].
  - eapply ring_frame; [|exact Ht]. intros p Hin. apply Hf. set_solver.
  - eapply ring_frame; [|exact Hp]. intros p Hin. apply Hf. set_solver.
  - eapply sorted_mono; [|exact Hs]. intros a b Ha Hb (ta & tb & (x & Hx & Ex) & (y & Hy & Ey) & Hab).
    exists ta, tb. split_and!; [exists x|exists y|done]; (split; [|done]).
    + by rewrite (proj2 (Hf a ltac:(set_solver))).
    + by rewrite (proj2 (Hf b ltac:(set_solver))).
Qed.

Lemma lset_qlinks h : lset (qlinks h) h = h.
Proof. by destruct h. Qed.

Lemma lset_handler_loop h : lset (loop h) h = h.
Proof. by destruct h. Qed.

Lemma msg_at_ok h m x : msgs h !! m = Some x → msg_at m h = Ok (x, h).
Proof. unfold msg_at. by intros ->. Qed.

Lemma msg_update_ok h m f x :
  msgs h !! m = Some x → msg_update m f h = Ok (tt, set_msgs (<[m := f x]> (msgs h)) h).
Proof. intros Hx. unfold msg_update. by erewrite bind_ok by (by apply msg_at_ok). Qed.

(** ** Allocation *)

Definition alloc_loop (m : loc) (l : uew_context) : uew_context :=
  let c := upile l in
  lset (UpileContext (readFds c) (nfds c) (watch_table c)
          (<[m := Links None None]> (elinks c)) (<[m := zero_event]> (events c)) (now c)) l.

Definition alloc_msg (h : HANDLER) : HANDLER :=
  let m := brk h in
  mkHANDLER (<[m := Links None None]> (qlinks h)) (<[m := mkMSG (-1) 0 None]> (msgs h))
    (Pos.succ m) (msg_processor h) (msg_count h) (alloc_loop m (loop h)) (malloc_ok h).

Lemma new_msg_ok h : malloc_ok h sizeof_MSG = true → new_msg h = Ok (brk h, alloc_msg h).
Proof. intros H. unfold new_msg. erewrite bind_ok by done. by rewrite H. Qed.

(** The address of a new message is not in use. *)
Lemma fresh_not_in h qs ds os ts ps m :
  handler_inv h qs ds os ts ps → (brk h ≤ m)%positive →
  m ∉ msg_queue :: defer_msg_queue :: wakeupfd_event :: qs ++ ds ++ os ∧
  m ∉ timer_list :: pending_list :: ts ++ ps.
Proof.
  intros Hi Hm. destruct (hi_fresh _ _ _ _ _ _ Hi m Hm) as (Hn & Hq & He). split.
  - intros Hin.
    rewrite !elem_of_cons in Hin. destruct Hin as [->|[->|[->|Hin]]].
    + apply eq_None_not_Some in Hq. apply Hq.
      eapply ring_live; [apply (hi_queue _ _ _ _ _ _ Hi)|by left].
    + apply eq_None_not_Some in Hq. apply Hq.
      eapply ring_live; [apply (hi_defer _ _ _ _ _ _ Hi)|by left].
    + apply eq_None_not_Some in He. apply He, (hi_wakeup _ _ _ _ _ _ Hi).
    + apply eq_None_not_Some in Hn. by apply Hn, (hi_live _ _ _ _ _ _ Hi).
  - intros Hin. destruct (elinks_event_live _ _ _ m (hi_loop _ _ _ _ _ _ Hi) Hin) as [Hs _].
    rewrite He in Hs. by destruct Hs.
Qed.

Lemma alloc_inv h qs ds os ts ps :
  handler_inv h qs ds os ts ps → handler_inv (alloc_msg h) qs ds os ts ps.
Proof.
  intros Hi. destruct (fresh_not_in _ _ _ _ _ _ (brk h) Hi ltac:(lia)) as [Hn1 Hn2].
  pose proof Hi as [Hq Hd Hnd Hoff Hl Hs Hu Hlive Hfr Hc Hw]. split; simpl.
  - eapply ring_frame; [|exact Hq]. intros p Hp. rewrite lookup_insert_ne; [done|].
    intros <-. apply Hn1. set_solver.
  - eapply ring_frame; [|exact Hd]. intros p Hp. rewrite lookup_insert_ne; [done|].
    intros <-. apply Hn1. set_solver.
  - done.
  - intros m Hm. rewrite lookup_insert_ne; [by apply Hoff|]. intros <-. set_solver.
  - eapply loop_inv_frame; [exact Hl| |].
    + intros p Hp. simpl. by rewrite !lookup_insert_ne by (intros <-; done).
    + intros p. simpl. destruct (decide (p = brk h)) as [->|].
      * rewrite !lookup_insert_eq. split; eauto.
      * rewrite !lookup_insert_ne by done. apply Hl.
  - done.
  - intros m Hm Hm'. rewrite lookup_insert_ne; [by apply Hu|]. intros <-. set_solver.
  - intros m Hm. rewrite lookup_insert_ne; [by apply Hlive|]. intros <-. set_solver.
  - intros p Hp. rewrite !lookup_insert_ne by lia. apply Hfr. lia.
  - done.
  - rewrite lookup_insert_ne; [done|]. intros E. apply Hn1. rewrite E. by right; right; left.
Qed.

(** ** Queues *)

Lemma live_disjoint (qs ds os : list loc) :
  NoDup (msg_queue :: defer_msg_queue :: wakeupfd_event :: qs ++ ds ++ os) →
  (∀ m, m ∈ qs ++ ds ++ os → m ≠ msg_queue ∧ m ≠ defer_msg_queue ∧ m ≠ wakeupfd_event) ∧
  (∀ m, m ∈ qs → m ∉ ds ∧ m ∉ os) ∧ (∀ m, m ∈ ds → m ∉ os).
Proof.
  rewrite !NoDup_cons, !NoDup_app, !not_elem_of_cons. intros (H1 & H2 & H3 & _ & H4 & _ & H5 & _).
  split_and!.
  - intros m Hm. split_and!; intros ->; tauto.
  - intros m Hm. specialize (H4 m Hm). rewrite elem_of_app in H4. tauto.
  - done.
Qed.

(** Membership in lists put together from others. *)
Ltac mem_simpl := repeat (rewrite ?elem_of_app, ?elem_of_cons, ?not_elem_of_app, ?not_elem_of_cons,
  ?elem_of_nil in * ); repeat match goal with
  | H : _ ∧ _ |- _ => destruct H
  end.
Ltac mem_goal := repeat first
  [rewrite elem_of_app | rewrite elem_of_cons | rewrite not_elem_of_app
  | rewrite not_elem_of_cons | rewrite elem_of_nil]; tauto.

Lemma addToQueue_new h qs ds os ts ps m :
  handler_inv h qs ds os ts ps → is_Some (msgs h !! m) → is_Some (qlinks h !! m) →
  m ∉ msg_queue :: defer_msg_queue :: wakeupfd_event :: qs ++ ds ++ os →
  elinks (upile (loop h)) !! m = Some (Links None None) → ∃ q' : lheap,
  addToQueue m msg_queue h = Ok (tt, lset q' h) ∧
  handler_inv (set_msg_count (msg_count h + 1) (lset q' h)) (qs ++ [m]) ds os ts ps.
Proof.
  intros Hi Hm Hqm Hnin Hem. pose proof Hi as [Hq Hd Hnd Hoff Hl Hs Hu Hlive Hfr Hc Hw].
  rewrite !not_elem_of_cons, !not_elem_of_app in Hnin. destruct Hnin as (N1 & N2 & N3 & N4 & N5 & N6).
  destruct (ring_add_ok (qlinks h) msg_queue qs [] m) as (q' & E & Hq' & Hsame);
    [by rewrite app_nil_r|rewrite app_nil_r; set_solver|done|].
  rewrite app_nil_r in Hsame. pose proof Hsame as [Hs1 Hs2].
  exists q'. split; [by apply (zoom_ok _ h)|].
  assert (NoDup (msg_queue :: defer_msg_queue :: wakeupfd_event :: (qs ++ [m]) ++ ds ++ os)) as Hnd'.
  { rewrite <-app_assoc. simpl. rewrite <-(Permutation_middle qs (ds ++ os) m).
    rewrite (Permutation_swap m wakeupfd_event), (Permutation_swap m defer_msg_queue),
      (Permutation_swap m msg_queue). constructor; [|done].
    rewrite !not_elem_of_cons, !not_elem_of_app. tauto. }
  destruct (live_disjoint _ _ _ Hnd) as (D1 & D2 & D3).
  assert (∀ p, p ∈ (qs ++ [m]) ++ ds ++ os ↔ p = m ∨ p ∈ qs ++ ds ++ os) as Hmem.
  { intros p. rewrite !elem_of_app, elem_of_cons, elem_of_nil. tauto. }
  split; simpl; [done| |done| |done| | | | | |].
  - eapply ring_same_but; [done| |done]. intros p Hp.
    rewrite !not_elem_of_cons. apply elem_of_cons in Hp as [->|Hp].
    + split_and!; [congruence|done|]. intros Hin.
      by destruct (D1 defer_msg_queue) as (_ & ? & _); [mem_goal|].
    + destruct (D1 p) as (P1 & _ & _); [mem_goal|].
      split_and!; [by intros ->|done|]. intros Hin. by destruct (D2 p Hin) as [? _].
  - intros p Hp. rewrite Hs1; [by apply Hoff|]. rewrite !not_elem_of_cons.
    destruct (D1 p) as (P1 & _ & _); [mem_goal|].
    split_and!; [by intros ->|done|]. intros Hin. by destruct (D2 p Hin) as [_ ?].
  - intros p Hp. destruct (Hs p Hp) as [?|?]; [by left|right]. mem_simpl. tauto.
  - intros p Hp Hp'. apply Hmem in Hp as [->|Hp]; [done|]. by apply Hu.
  - intros p Hp. apply Hmem in Hp as [->|Hp]; [done|]. by apply Hlive.
  - intros p Hp. destruct (Hfr p Hp) as (? & Hqp & ?). split_and!; [done| |done].
    destruct (q' !! p) eqn:Eq'; [|done].
    assert (is_Some (qlinks h !! p)) as [? Hx] by (apply Hs2; eauto). congruence.
  - rewrite Hc. rewrite !len_app, len_cons, len_nil. lia.
  - done.
Qed.

(** ** Contents of messages *)

Lemma set_msg_inv h qs ds os ts ps m x :
  handler_inv h qs ds os ts ps → is_Some (msgs h !! m) →
  handler_inv (set_msgs (<[m := x]> (msgs h)) h) qs ds os ts ps.
Proof.
  intros [Hq Hd Hnd Hoff Hl Hs Hu Hlive Hfr Hc Hw] Hm. split; simpl; try done.
  - intros p Hp. destruct (decide (p = m)) as [->|].
    + rewrite lookup_insert_eq. eauto.
    + rewrite lookup_insert_ne by done. by apply Hlive.
  - intros p Hp. rewrite lookup_insert_ne; [by apply Hfr|].
    intros <-. destruct (Hfr m Hp) as [Hn _]. rewrite Hn in Hm. by destruct Hm.
Qed.

(** ** Sending *)

Definition msec_tv (msec : Z) : timeval :=
  Timeval (Z.quot msec 1000) (Z.rem msec 1000 * 1000).

(** The loop after its context has changed and it was woken up. *)
Definition woken (c : upile_context) (l : uew_context) : uew_context :=
  UewContext c (fdWakeupRead l) (fdWakeupWrite l)
    (if on_dispatch l then wakeup_bytes l else wakeup_bytes l + 1) (on_dispatch l).

Lemma event_set_ok c ts ps m fd persist f p :
  loop_inv c ts ps → is_Some (elinks c !! m) → m ∉ timer_list :: pending_list :: ts ++ ps → ∃ c',
  upil_event_set m fd persist f p c = Ok (tt, c') ∧ loop_inv c' ts ps ∧
  events c' = <[m := UpilEvent fd (-1) persist (Timeval 0 0) f p]> (events c) ∧
  elinks c' = <[m := Links None None]> (elinks c) ∧ now c' = now c ∧
  readFds c' = readFds c ∧ nfds c' = nfds c ∧ watch_table c' = watch_table c.
Proof.
  intros Hi Hm Hn. pose proof Hi as [_ _ _ He _].
  destruct (proj1 (He m) Hm) as [x Hx]. destruct Hm as [k Hk].
  set (y := UpilEvent fd (-1) persist (Timeval 0 0) f p).
  set (c' := UpileContext (readFds c) (nfds c) (watch_table c)
    (<[m := Links None None]> (elinks c)) (<[m := y]> (events c)) (now c)).
  exists c'. split; [|split; [|done]].
  - unfold upil_event_set. erewrite bind_ok by (by apply event_update_ok).
    set (c1 := set_events _ c).
    erewrite bind_ok.
    2:{ apply (zoom_ok _ c1). unfold set_next. simpl. rewrite Hk. done. }
    set (c2 := lset _ c1).
    erewrite (zoom_ok _ c2).
    2:{ unfold set_prev. simpl. by rewrite lookup_insert_eq. }
    unfold c2, c1, c'. simpl. by rewrite insert_insert_eq.
  - eapply loop_inv_frame; [exact Hi| |].
    + intros q Hq. simpl. by rewrite !lookup_insert_ne by (intros <-; done).
    + intros q. simpl. destruct (decide (q = m)) as [->|].
      * rewrite !lookup_insert_eq. split; eauto.
      * rewrite !lookup_insert_ne by done. apply He.
Qed.

Lemma uew_timer_add_ok l ts ps m msec x :
  loop_inv (upile l) ts ps → events (upile l) !! m = Some x →
  m ∉ timer_list :: pending_list :: ts ++ ps → ∃ l1 l2 c',
  let t := timeradd (now (upile l)) (msec_tv msec) in
  ts = l1 ++ l2 ∧ uew_timer_add_wakeup m msec l = Ok (tt, woken c' l) ∧
  loop_inv c' (l1 ++ m :: l2) ps ∧ same_but (m :: timer_list :: ts) (elinks (upile l)) (elinks c') ∧
  now c' = now (upile l) ∧ events c' = <[m := with_timeout t (with_fd (-1) x)]> (events (upile l)) ∧
  (∀ p, p ∈ l1 → ∃ tp, due (events c') p tp ∧ tv_lt tp t) ∧
  (∀ p, p ∈ l2 → ∃ tp, due (events c') p tp ∧ tv_le t tp).
Proof.
  intros Hi Hx Hn.
  destruct (timer_add_inv _ _ _ _ (msec_tv msec) _ Hi Hx Hn)
    as (l1 & l2 & h' & -> & E & Hi' & Hs & Hl & Hr).
  eexists l1, l2, _. cbv zeta. split; [done|]. split; [|split; [exact Hi'|done]].
  unfold uew_timer_add_wakeup. erewrite bind_ok by (by apply (zoom_ok _ l)).
  unfold triggerEvLoop, woken. erewrite bind_ok by done. simpl. by destruct (on_dispatch l).
Qed.

Lemma send_inv h qs ds os ts ps m msec :
  handler_inv h qs ds os ts ps → m ∈ qs ++ os → m ∉ ts ++ ps → ∃ l r h',
  let t := timeradd (now (upile (loop h))) (msec_tv (s32 msec)) in
  let evs := events (upile (loop h')) in
  ts = l ++ r ∧ send_message_delay (Some m) msec h = Ok (tt, h') ∧
  handler_inv h' qs ds os (l ++ m :: r) ps ∧
  msgs h' = msgs h ∧ brk h' = brk h ∧ now (upile (loop h')) = now (upile (loop h)) ∧
  malloc_ok h' = malloc_ok h ∧ msg_processor h' = msg_processor h ∧
  (∃ x, evs = <[m := x]> (events (upile (loop h))) ∧ ev_func x = msg_processor h ∧ ev_param x = m ∧ ev_timeout x = t) ∧
  (∀ p, p ∈ l → ∃ tp, due evs p tp ∧ tv_lt tp t) ∧
  (∀ p, p ∈ r → ∃ tp, due evs p tp ∧ tv_le t tp).
Proof.
  intros Hi Hm Hn. pose proof Hi as [Hq Hd Hnd Hoff Hl Hs Hu Hlive Hfr Hc Hw].
  destruct (live_disjoint _ _ _ Hnd) as (D1 & D2 & D3).
  assert (m ∈ qs ++ ds ++ os) as Hm'. { apply elem_of_app in Hm. rewrite !elem_of_app. tauto. }
  destruct (D1 m Hm') as (N1 & N2 & N3).
  assert (m ∉ timer_list :: pending_list :: ts ++ ps) as Hn'.
  { rewrite !not_elem_of_cons. done. }
  assert (is_Some (elinks (upile (loop h)) !! m)) as Hel.
  { rewrite (Hu m Hm' Hn). eauto. }
  destruct (event_set_ok _ _ _ m (-1) 0 (msg_processor h) m Hl Hel Hn')
    as (c1 & E1 & Hl1 & Hev1 & Hel1 & Hnow1 & _).
  set (h1 := lset (A := uew_context) (lset c1 (loop h)) h).
  destruct (uew_timer_add_ok (lset c1 (loop h)) ts ps m (s32 msec)
    (UpilEvent (-1) (-1) 0 (Timeval 0 0) (msg_processor h) m))
    as (l & r & c2 & -> & E2 & Hl2 & Hs2 & Hnow2 & Hev2 & Hlt & Hle); [done| |done|].
  { simpl. rewrite Hev1. apply lookup_insert_eq. }
  simpl in Hnow2, Hlt, Hle, Hs2, Hev2. rewrite Hnow1 in Hnow2, Hlt, Hle, Hev2.
  set (h2 := lset (A := uew_context) (woken c2 (lset c1 (loop h))) h1).
  exists l, r, h2. cbv zeta. split; [done|]. split; [|split].
  - unfold send_message_delay. destruct (Hlive m Hm') as [x Hx].
    erewrite bind_ok by (by apply msg_at_ok). erewrite bind_ok by done.
    erewrite bind_ok.
    2:{ apply (zoom_ok _ h). apply (zoom_ok _ (loop h)). exact E1. }
    by apply (zoom_ok _ h1).
  - assert (∀ p, p ∈ (l ++ m :: r) ++ ps ↔ p = m ∨ p ∈ (l ++ r) ++ ps) as Hmem.
    { intros p. rewrite !elem_of_app, elem_of_cons. tauto. }
    destruct Hs2 as [Hs2 Hs2']. split; simpl; try done.
    + intros p Hp. apply Hmem in Hp as [->|Hp]; [by right|by apply Hs].
    + intros p Hp Hp'. rewrite Hmem in Hp'.
      destruct (D1 p Hp) as (P1 & _ & _).
      rewrite Hs2, Hel1, lookup_insert_ne by (rewrite ?not_elem_of_cons; mem_simpl; naive_solver).
      apply Hu; [done|]. tauto.
    + intros p Hp. destruct (Hfr p Hp) as (F1 & F2 & F3). split_and!; [done|done|].
      destruct (elinks c2 !! p) eqn:Ep; [|done].
      assert (is_Some (elinks c1 !! p)) as Hp2 by (apply Hs2'; eauto).
      rewrite Hel1, lookup_insert_ne, F3 in Hp2; [by destruct Hp2|].
      intros <-. rewrite F3 in Hel. by destruct Hel.
    + apply Hs2'. rewrite Hel1, lookup_insert_ne by done. done.
  - simpl. split_and!; try done. eexists. rewrite Hev2, Hev1, insert_insert_eq. by split_and!.
Qed.

(** The message [obtain] makes. *)
Lemma obtain_ok h qs ds os ts ps :
  handler_inv h qs ds os ts ps → len (qs ++ ds ++ os) + 1 < MAX_MSG_QUEUE_SIZE →
  malloc_ok h sizeof_MSG = true → ∃ h',
  obtain h = Ok (Some (brk h), h') ∧ handler_inv h' (qs ++ [brk h]) ds os ts ps ∧
  msgs h' = <[brk h := mkMSG (-1) 0 None]> (msgs h) ∧ brk h' = Pos.succ (brk h) ∧
  loop h' = alloc_loop (brk h) (loop h) ∧ malloc_ok h' = malloc_ok h ∧
  msg_processor h' = msg_processor h.
Proof.
  intros Hi Hlen Hm. set (m := brk h).
  destruct (fresh_not_in _ _ _ _ _ _ m Hi ltac:(lia)) as [Hn1 Hn2].
  pose proof (alloc_inv _ _ _ _ _ _ Hi) as Hi1.
  destruct (addToQueue_new (alloc_msg h) qs ds os ts ps m) as (q' & E & Hi2).
  - done.
  - simpl. rewrite lookup_insert_eq. eauto.
  - simpl. rewrite lookup_insert_eq. eauto.
  - done.
  - simpl. apply lookup_insert_eq.
  - eexists. split; [|split; [exact Hi2|done]].
    unfold obtain. erewrite bind_ok by done. rewrite (hi_count _ _ _ _ _ _ Hi).
    rewrite (proj2 (Z.ltb_lt _ _)) by done.
    erewrite bind_ok by (by apply new_msg_ok). by erewrite bind_ok by exact E.
Qed.

(** ** Removing *)

Definition rm (m : loc) (l : list loc) : list loc := filter (λ p, p ≠ m) l.

Lemma elem_of_rm m l p : p ∈ rm m l ↔ p ≠ m ∧ p ∈ l.
Proof. unfold rm. by rewrite list_elem_of_filter. Qed.

Lemma rm_app m l k : rm m (l ++ k) = rm m l ++ rm m k.
Proof. apply filter_app. Qed.

Lemma rm_le m l : len (rm m l) ≤ len l.
Proof. unfold len, rm. pose proof (length_filter (λ p, p ≠ m) l). lia. Qed.

Lemma rm_notin m l : m ∉ l → rm m l = l.
Proof.
  unfold rm. induction l as [|x l IH]; [done|]. rewrite not_elem_of_cons. intros [Hx Hl].
  rewrite filter_cons_True by congruence. by rewrite IH.
Qed.

Lemma rm_middle m l r : NoDup (l ++ m :: r) → rm m (l ++ m :: r) = l ++ r.
Proof.
  rewrite NoDup_app, NoDup_cons. intros (_ & Hd & Hr & _).
  rewrite rm_app.
  assert (rm m (m :: r) = rm m r) as -> by (apply filter_cons_False; intros []; done).
  rewrite (rm_notin m r), (rm_notin m l); [done| |done].
  intros Hin. apply (Hd m Hin). by left.
Qed.

Lemma NoDup_rm m l : NoDup l → NoDup (rm m l).
Proof. apply NoDup_filter. Qed.

Lemma rm_len m l : NoDup l → m ∈ l → len (rm m l) = len l - 1.
Proof.
  intros Hnd (l1 & l2 & ->)%list_elem_of_split. rewrite rm_middle by done.
  rewrite !len_app, len_cons. lia.
Qed.

Lemma ring_links h hd l m r :
  ring h hd (l ++ m :: r) → ∃ n p, h !! m = Some (Links (Some n) (Some p)).
Proof.
  intros Hr. pose proof (ring_next _ _ _ _ _ Hr) as Hn.
  destruct Hr as [_ Hp]. destruct (path_linked _ _ _ m Hp) as [q Hq].
  { rewrite !elem_of_app, elem_of_cons. tauto. }
  unfold next_of in Hn. unfold prev_of in Hq. destruct (h !! m) as [[n p]|]; [|done].
  simpl in *. subst. eauto.
Qed.

(** What a message on neither list of the loop is left with. *)
Definition del_from_loop (m : loc) : MH unit :=
  n ← on_elinks (get_next m);
  p ← on_elinks (get_prev m);
  match n, p with
  | Some _, Some _ => zoom (uew_event_del m true)
  | _, _ => skip
  end.

Lemma on_elinks_read {A} (m : M lheap A) h a :
  m (elinks (upile (loop h))) = Ok (a, elinks (upile (loop h))) → on_elinks m h = Ok (a, h).
Proof.
  intros E. unfold on_elinks. apply zoom_read. simpl. apply zoom_read. simpl. by apply zoom_read.
Qed.

Lemma del_from_loop_ok h ts ps m :
  loop_inv (upile (loop h)) ts ps → m ∉ [timer_list; pending_list] →
  (m ∉ ts ++ ps → elinks (upile (loop h)) !! m = Some (Links None None)) → ∃ e' : lheap,
  let l' := lset (lset e' (upile (loop h))) (loop h) in
  del_from_loop m h = Ok (tt, lset (A := uew_context) l' h) ∧
  loop_inv (upile l') (rm m ts) (rm m ps) ∧ e' !! m = Some (Links None None) ∧
  same_but (m :: timer_list :: pending_list :: ts ++ ps) (elinks (upile (loop h))) e'.
Proof.
  intros Hl Hh Hm. rewrite !not_elem_of_cons in Hh. destruct Hh as (N1 & N2 & _).
  pose proof (loop_inv_heads _ _ _ Hl) as (_ & _ & _ & _ & Hdis).
  pose proof (inv_disjoint _ _ _ Hl) as Hnd.
  apply NoDup_cons in Hnd as [_ Hnd]. apply NoDup_cons in Hnd as [_ Hnd].
  pose proof Hnd as (Hnt & _ & Hnp)%NoDup_app.
  assert (∀ l r hd e1, ring (elinks (upile (loop h))) hd (l ++ m :: r) →
    removeFromList m (upile (loop h)) = Ok (tt, lset (e1 : lheap) (upile (loop h))) →
    del_from_loop m h = Ok (tt, lset (A := uew_context)
      (lset (lset e1 (upile (loop h))) (loop h)) h)) as Hrun.
  { intros l r hd e1 Hr E. destruct (ring_links _ _ _ _ _ Hr) as (n & p & Hnp').
    unfold del_from_loop.
    erewrite bind_ok by (apply on_elinks_read; unfold get_next; by rewrite Hnp').
    erewrite bind_ok by (apply on_elinks_read; unfold get_prev; by rewrite Hnp').
    cbn [next prev]. apply (zoom_ok _ h). by apply (zoom_ok _ (loop h)). }
  destruct (decide (m ∈ ts)) as [Ht|Ht]; [|destruct (decide (m ∈ ps)) as [Hp|Hp]].
  - apply list_elem_of_split in Ht as (l & r & ->).
    destruct (timer_remove_inv _ _ _ _ _ Hl) as (e1 & E & Hl' & He & Hs).
    exists e1. cbv zeta. split_and!; [|  |done|].
    + eapply Hrun; [apply Hl|done].
    + rewrite rm_middle by done. rewrite rm_notin; [done|]. apply Hdis.
      rewrite elem_of_app, elem_of_cons. tauto.
    + eapply same_but_weaken; [|exact Hs]. intros p. mem_goal.
  - apply list_elem_of_split in Hp as (l & r & ->).
    destruct (pending_remove_inv _ _ _ _ _ Hl) as (e1 & E & Hl' & He & Hs).
    exists e1. cbv zeta. split_and!; [|  |done|].
    + eapply Hrun; [apply (inv_pending _ _ _ Hl)|done].
    + rewrite rm_middle by done. by rewrite rm_notin.
    + eapply same_but_weaken; [|exact Hs]. intros p. mem_goal.
  - assert (elinks (upile (loop h)) !! m = Some (Links None None)) as He.
    { apply Hm. rewrite not_elem_of_app. done. }
    exists (elinks (upile (loop h))). cbv zeta. rewrite lset_elinks.
    assert (lset (upile (loop h)) (loop h) = loop h) as El by (by destruct (loop h)).
    rewrite El, lset_handler_loop. split_and!; [| |done|split; done].
    + unfold del_from_loop.
      erewrite bind_ok by (apply on_elinks_read; unfold get_next; by rewrite He).
      by erewrite bind_ok by (apply on_elinks_read; unfold get_prev; by rewrite He).
    + rewrite !rm_notin by done. done.
Qed.

Lemma remove_queue_ok h qs ds os m :
  ring (qlinks h) msg_queue qs → ring (qlinks h) defer_msg_queue ds →
  NoDup (msg_queue :: defer_msg_queue :: wakeupfd_event :: qs ++ ds ++ os) →
  (∀ p, p ∈ os → qlinks h !! p = Some (Links None None)) →
  m ∈ qs ++ ds ++ os → ∃ q' : lheap,
  removeFromQueue (Some m) h = Ok (tt, lset q' h) ∧
  ring q' msg_queue (rm m qs) ∧ ring q' defer_msg_queue (rm m ds) ∧
  q' !! m = Some (Links None None) ∧
  same_but (m :: msg_queue :: defer_msg_queue :: qs ++ ds) (qlinks h) q'.
Proof.
  intros Hq Hd Hnd Hoff Hm. destruct (live_disjoint _ _ _ Hnd) as (D1 & D2 & D3).
  assert (∀ hd l r (q' : lheap), ring (qlinks h) hd (l ++ m :: r) →
    ring_remove m (qlinks h) = Ok (tt, q') →
    removeFromQueue (Some m) h = Ok (tt, lset q' h)) as Hrun.
  { intros hd l r q' Hr E. destruct (ring_links _ _ _ _ _ Hr) as (n & p & Hnp).
    unfold removeFromQueue.
    erewrite bind_ok by (apply zoom_read; unfold get_next; simpl; by rewrite Hnp).
    erewrite bind_ok by (apply zoom_read; unfold get_prev; simpl; by rewrite Hnp).
    cbn [next prev]. by apply (zoom_ok _ h). }
  destruct (D1 m Hm) as (N1 & N2 & _).
  destruct (decide (m ∈ qs)) as [Hin|Hnq]; [|destruct (decide (m ∈ ds)) as [Hin|Hnd']].
  - pose proof (D2 m Hin) as [Hnds _].
    apply list_elem_of_split in Hin as (l & r & ->).
    destruct (ring_remove_ok _ _ _ _ _ Hq) as (q' & E & Hr & Hs & He).
    exists q'. split_and!; [by eapply Hrun| | |done|].
    + rewrite rm_middle; [done|]. by destruct Hq as [[_ ?]%NoDup_cons _].
    + rewrite rm_notin by done. eapply ring_same_but; [exact Hs| |exact Hd].
      intros p Hp Hin. rewrite !elem_of_cons, elem_of_app in Hin.
      apply elem_of_cons in Hp as [->|Hp].
      * destruct Hin as [E'|[E'|Hin]]; [congruence|done|].
        destruct (D1 defer_msg_queue) as (_ & ? & _); [mem_goal|done].
      * destruct (D1 p) as (P1 & P2 & _); [mem_goal|].
        assert (p ∈ l ++ m :: r) as Hp'; [|by destruct (D2 p Hp')].
        rewrite elem_of_app, elem_of_cons. naive_solver.
    + eapply same_but_weaken; [|exact Hs]. intros p. mem_goal.
  - pose proof Hin as Hin'. apply list_elem_of_split in Hin as (l & r & ->).
    destruct (ring_remove_ok _ _ _ _ _ Hd) as (q' & E & Hr & Hs & He).
    exists q'. split_and!; [by eapply Hrun| | |done|].
    + rewrite rm_notin by done. eapply ring_same_but; [exact Hs| |exact Hq].
      intros p Hp Hin. rewrite !elem_of_cons, elem_of_app in Hin.
      apply elem_of_cons in Hp as [->|Hp].
      * destruct Hin as [E'|[E'|Hin]]; [congruence|done|].
        destruct (D1 msg_queue) as (? & _ & _); [mem_goal|done].
      * destruct (D1 p) as (P1 & P2 & _); [mem_goal|].
        destruct (D2 p Hp) as [Hpd _]. apply Hpd.
        rewrite elem_of_app, elem_of_cons. naive_solver.
    + rewrite rm_middle; [done|]. by destruct Hd as [[_ ?]%NoDup_cons _].
    + eapply same_but_weaken; [|exact Hs]. intros p. mem_goal.
  - exists (qlinks h). rewrite lset_qlinks, !rm_notin by done.
    assert (qlinks h !! m = Some (Links None None)) as He.
    { apply Hoff. rewrite !elem_of_app in Hm. tauto. }
    split_and!; [|done|done|done|split; done].
    unfold removeFromQueue.
    erewrite bind_ok by (apply zoom_read; unfold get_next; simpl; by rewrite He).
    by erewrite bind_ok by (apply zoom_read; unfold get_prev; simpl; by rewrite He).
Qed.

(** [remove_from_list]: the message is off every list, and still allocated. *)
Lemma remove_from_list_ok h qs ds os ts ps m :
  handler_inv h qs ds os ts ps → m ∈ qs ++ ds ++ os → ∃ h',
  remove_from_list (Some m) h = Ok (tt, h') ∧
  handler_inv h' (rm m qs) (rm m ds) (rm m os) (rm m ts) (rm m ps) ∧
  msgs h' = msgs h ∧ brk h' = brk h ∧ malloc_ok h' = malloc_ok h ∧
  msg_processor h' = msg_processor h ∧
  events (upile (loop h')) = events (upile (loop h)) ∧
  now (upile (loop h')) = now (upile (loop h)).
Proof.
  intros Hi Hm. pose proof Hi as [Hq Hd Hnd Hoff Hl Hs Hu Hlive Hfr Hc Hw].
  destruct (live_disjoint _ _ _ Hnd) as (D1 & D2 & D3). destruct (D1 m Hm) as (N1 & N2 & N3).
  destruct (del_from_loop_ok h ts ps m Hl) as (e' & E1 & Hl1 & He1 & Hs1); [|by apply Hu|].
  { rewrite !not_elem_of_cons. split_and!; [done|done|by apply not_elem_of_nil]. }
  set (h1 := lset (A := uew_context) (lset (lset e' (upile (loop h))) (loop h)) h).
  fold h1 in E1.
  destruct (remove_queue_ok h1 qs ds os m) as (q' & E2 & Hq2 & Hd2 & Hm2 & Hs2); [done..|].
  set (h2 := lset q' h1). fold h2 in E2.
  assert (∀ p l, p ∈ rm m l → p ∈ l) as Hrm. { intros p l Hp. by apply elem_of_rm in Hp as [_ ?]. }
  assert (∀ p l k k', p ∈ rm m l ++ rm m k ++ rm m k' → p ≠ m ∧ p ∈ l ++ k ++ k') as Hrm3.
  { intros p l k k'. rewrite <-!rm_app, elem_of_rm. done. }
  exists (set_msg_count (msg_count h - 1) h2). split; [|split; [|done]].
  - unfold remove_from_list. destruct (Hlive m Hm) as [x Hx].
    erewrite bind_ok by (by apply msg_at_ok).
    assert (∀ k : MH unit, ((n ← on_elinks (get_next m); p ← on_elinks (get_prev m);
      match n, p with Some _, Some _ => zoom (uew_event_del m true) | _, _ => skip end;; k) h)
      = (del_from_loop m ≫= λ _, k) h) as ->.
    { intros k. unfold del_from_loop, mbind, M_bind.
      destruct (on_elinks (get_next m) h) as [[n h']|]; [|done].
      by destruct (on_elinks (get_prev m) h') as [[p h'']|]. }
    erewrite bind_ok by exact E1. by erewrite bind_ok by exact E2.
  - destruct Hs1 as [Hs1 Hs1']. destruct Hs2 as [Hs2 Hs2']. split; simpl; try done.
    + rewrite <-!rm_app. rewrite !NoDup_cons, !not_elem_of_cons in Hnd |- *.
      rewrite !elem_of_rm. destruct Hnd as ((?&?&?) & (?&?) & ? & Hnd).
      split_and!; try done; [tauto..|]. by apply NoDup_rm.
    + intros p Hp. apply elem_of_rm in Hp as [Hpm Hp].
      destruct (D1 p) as (P1 & P2 & _); [mem_goal|].
      rewrite Hs2; [by apply Hoff|]. rewrite !not_elem_of_cons, not_elem_of_app.
      split_and!; [done|done|done| |]; intros Hin; [by destruct (D2 p Hin)|by apply (D3 p)].
    + intros p. rewrite <-rm_app, elem_of_rm. intros [Hpm Hp].
      destruct (Hs p Hp) as [?|Hp']; [by left|right]. rewrite <-rm_app, elem_of_rm. done.
    + intros p Hp Hn. apply Hrm3 in Hp as [Hpm Hp].
      assert (p ∉ ts ++ ps) as Hn'. { intros Hin. apply Hn. by rewrite <-rm_app, elem_of_rm. }
      destruct (D1 p Hp) as (P1 & P2 & _).
      rewrite Hs1; [by apply Hu|]. by rewrite !not_elem_of_cons.
    + intros p Hp. apply Hrm3 in Hp as [_ Hp]. by apply Hlive.
    + intros p Hp. destruct (Hfr p Hp) as (F1 & F2 & F3). split_and!; [done| |].
      * destruct (q' !! p) eqn:Eq; [|done]. assert (is_Some (qlinks h !! p)) as Hx.
        { apply Hs2'. eauto. } rewrite F2 in Hx. by destruct Hx.
      * destruct (e' !! p) eqn:Eq; [|done]. assert (is_Some (elinks (upile (loop h)) !! p)) as Hx.
        { apply Hs1'. eauto. } rewrite F3 in Hx. by destruct Hx.
    + rewrite <-!rm_app, rm_len; [by rewrite Hc| |done].
      by rewrite !NoDup_cons in Hnd; destruct Hnd as (_ & _ & _ & ?).
    + by apply Hs1'.
Qed.

Definition freed (m : loc) (h : HANDLER) : HANDLER :=
  let c := upile (loop h) in
  mkHANDLER (delete m (qlinks h)) (delete m (msgs h)) (brk h) (msg_processor h) (msg_count h)
    (lset (UpileContext (readFds c) (nfds c) (watch_table c)
             (delete m (elinks c)) (delete m (events c)) (now c)) (loop h))
    (malloc_ok h).

(** [free] of a message that is on no list. *)
Lemma free_ok h qs ds os ts ps m :
  handler_inv h qs ds os ts ps → is_Some (msgs h !! m) →
  m ∉ msg_queue :: defer_msg_queue :: wakeupfd_event :: qs ++ ds ++ os →
  m ∉ timer_list :: pending_list :: ts ++ ps →
  free_msg m h = Ok (tt, freed m h) ∧ handler_inv (freed m h) qs ds os ts ps.
Proof.
  intros Hi [x Hx] Hn1 Hn2. split.
  { unfold free_msg. by erewrite bind_ok by (by apply msg_at_ok). }
  pose proof Hi as [Hq Hd Hnd Hoff Hl Hs Hu Hlive Hfr Hc Hw].
  assert (∀ p, p ∈ msg_queue :: defer_msg_queue :: wakeupfd_event :: qs ++ ds ++ os → m ≠ p) as Hne.
  { intros p Hp <-. done. }
  split; simpl; try done.
  - eapply ring_frame; [|exact Hq]. intros p Hp. rewrite lookup_delete_ne; [done|].
    apply Hne. apply elem_of_cons in Hp as [->|Hp]; mem_goal.
  - eapply ring_frame; [|exact Hd]. intros p Hp. rewrite lookup_delete_ne; [done|].
    apply Hne. apply elem_of_cons in Hp as [->|Hp]; mem_goal.
  - intros p Hp. rewrite lookup_delete_ne; [by apply Hoff|]. apply Hne. mem_goal.
  - eapply loop_inv_frame; [exact Hl| |].
    + intros p Hp. simpl. by rewrite !lookup_delete_ne by (intros <-; done).
    + intros p. simpl. destruct (decide (p = m)) as [->|].
      * by rewrite !lookup_delete_eq.
      * rewrite !lookup_delete_ne by done. apply Hl.
  - intros p Hp Hp'. rewrite lookup_delete_ne; [by apply Hu|]. apply Hne. by do 3 right.
  - intros p Hp. rewrite lookup_delete_ne; [by apply Hlive|]. apply Hne. by do 3 right.
  - intros p Hp. destruct (Hfr p Hp) as (F1 & F2 & F3).
    destruct (decide (p = m)) as [->|].
    + by rewrite !lookup_delete_eq.
    + by rewrite !lookup_delete_ne by done.
  - rewrite lookup_delete_ne; [done|]. apply Hne. by do 2 right; left.
Qed.

Lemma removed_not_in h qs ds os ts ps m :
  handler_inv h qs ds os ts ps → m ∈ qs ++ ds ++ os →
  m ∉ msg_queue :: defer_msg_queue :: wakeupfd_event :: rm m qs ++ rm m ds ++ rm m os ∧
  m ∉ timer_list :: pending_list :: rm m ts ++ rm m ps.
Proof.
  intros Hi Hm. destruct (live_disjoint _ _ _ (hi_nodup _ _ _ _ _ _ Hi)) as (D1 & _ & _).
  destruct (D1 m Hm) as (N1 & N2 & N3).
  rewrite <-!rm_app, !not_elem_of_cons, !elem_of_rm. tauto.
Qed.

Lemma remove_message_ok h qs ds os ts ps m :
  handler_inv h qs ds os ts ps → m ∈ qs ++ ds ++ os → ∃ h',
  remove_message (Some m) h = Ok (tt, h') ∧
  handler_inv h' (rm m qs) (rm m ds) (rm m os) (rm m ts) (rm m ps) ∧
  msgs h' = delete m (msgs h) ∧ brk h' = brk h ∧ malloc_ok h' = malloc_ok h ∧
  msg_processor h' = msg_processor h ∧
  events (upile (loop h')) = delete m (events (upile (loop h))) ∧
  now (upile (loop h')) = now (upile (loop h)).
Proof.
  intros Hi Hm.
  destruct (remove_from_list_ok _ _ _ _ _ _ _ Hi Hm)
    as (h1 & E1 & Hi1 & Em & Eb & Ea & Ep & Ee & En).
  destruct (removed_not_in _ _ _ _ _ _ _ Hi Hm) as [Hn1 Hn2].
  destruct (free_ok h1 _ _ _ _ _ m Hi1) as [E2 Hi2]; [|done|done|].
  { rewrite Em. by apply (hi_live _ _ _ _ _ _ Hi). }
  exists (freed m h1). split; [|split; [done|]].
  - unfold remove_message. by erewrite bind_ok by exact E1.
  - simpl. by rewrite Em, Ee.
Qed.

(** *** Removing the messages of an identifier from a queue *)

(** The messages of [l] with identifier [id]. *)
Definition with_id (h : HANDLER) (id : Z) (l : list loc) : list loc :=
  filter (λ p, what <$> msgs h !! p = Some id) l.
(** [l] without the elements of [D]. *)
Definition rms (D l : list loc) : list loc := filter (λ p, p ∉ D) l.

Lemma rms_nil l : rms [] l = l.
Proof.
  unfold rms. induction l as [|p l IH]; [done|].
  rewrite filter_cons_True by apply not_elem_of_nil. by rewrite IH.
Qed.

Lemma rms_len D l : len (rms D l) ≤ len l.
Proof. unfold len, rms. pose proof (length_filter (λ p, p ∉ D) l). lia. Qed.

Lemma rms_cons m D l : rms (m :: D) l = rms D (rm m l).
Proof.
  unfold rms, rm. induction l as [|p l IH]; [done|]. rewrite !filter_cons.
  destruct (decide (p ∉ m :: D)) as [H1|H1]; rewrite not_elem_of_cons in H1;
    destruct (decide (p ≠ m)) as [H2|H2].
  - rewrite filter_cons_True by tauto. by rewrite IH.
  - tauto.
  - rewrite filter_cons_False by tauto. done.
  - done.
Qed.

Lemma with_id_ext h h' id l :
  (∀ p, p ∈ l → msgs h' !! p = msgs h !! p) → with_id h' id l = with_id h id l.
Proof.
  intros He. unfold with_id. induction l as [|p l IH]; [done|].
  rewrite !filter_cons. rewrite (He p) by (by left).
  rewrite IH; [done|]. intros q Hq. apply He. by right.
Qed.

Lemma remove_id_ok fuel h l r ds os ts ps id :
  handler_inv h (l ++ r) ds os ts ps → (length r < fuel)%nat → ∃ h',
  let D := with_id h id r in
  remove_id_loop fuel msg_queue (List.hd msg_queue r) id h = Ok (tt, h') ∧
  handler_inv h' (rms D (l ++ r)) ds os (rms D ts) (rms D ps) ∧
  (∀ p, msgs h' !! p = if decide (p ∈ D) then None else msgs h !! p) ∧
  brk h' = brk h ∧ now (upile (loop h')) = now (upile (loop h)) ∧ malloc_ok h' = malloc_ok h ∧
  (∀ p, events (upile (loop h')) !! p = if decide (p ∈ D) then None else events (upile (loop h)) !! p).
Proof.
  revert h l ts ps fuel. induction r as [|m r IH]; intros h l ts ps fuel Hi Hf;
    (destruct fuel as [|f]; [simpl in Hf; lia|]); cbv zeta.
  { exists h. cbn [remove_id_loop List.hd with_id]. rewrite bool_decide_true by done.
    unfold with_id. rewrite filter_nil, !rms_nil. done. }
  pose proof (hi_nodup _ _ _ _ _ _ Hi) as Hnd.
  destruct (live_disjoint _ _ _ Hnd) as (D1 & D2 & _).
  assert (m ∈ l ++ m :: r) as Hml by mem_goal.
  assert (m ∈ (l ++ m :: r) ++ ds ++ os) as Hm by mem_goal.
  destruct (D1 m Hm) as (N1 & N2 & N3). destruct (D2 m Hml) as [N4 N5].
  destruct (hi_live _ _ _ _ _ _ Hi m Hm) as [x Hx].
  cbn [remove_id_loop List.hd]. rewrite bool_decide_false by done.
  erewrite bind_ok.
  2:{ apply zoom_read, get_next_ok. eapply ring_live; [apply (hi_queue _ _ _ _ _ _ Hi)|]. by right. }
  cbn [lget handler_qlinks]. rewrite (ring_next _ _ _ _ _ (hi_queue _ _ _ _ _ _ Hi)).
  erewrite bind_ok by (by apply msg_at_ok).
  destruct (Z.eqb_spec (what x) id) as [Hid|Hid].
  - destruct (remove_message_ok _ _ _ _ _ _ _ Hi Hm) as (h1 & E & Hi1 & Em & Eb & Ea & _ & Ee & En).
    cbn [when]. erewrite bind_ok by exact E. erewrite bind_ok by done.
    assert (NoDup (l ++ m :: r)) as Hndl by (by destruct (hi_queue _ _ _ _ _ _ Hi) as [[_ ?]%NoDup_cons _]).
    assert (m ∉ r) as Hmr. { apply NoDup_app in Hndl as (_ & _ & [? _]%NoDup_cons). done. }
    rewrite rm_middle in Hi1 by done. rewrite (rm_notin m ds), (rm_notin m os) in Hi1 by done.
    destruct (IH h1 l _ _ f Hi1 ltac:(simpl in Hf; lia)) as (h' & E' & Hi' & Em' & Eb' & En' & Ea' & Ee').
    exists h'. rewrite (with_id_ext h h1 id r) in Hi', Em', Ee'.
    2,3,4: intros p Hp; rewrite Em, lookup_delete_ne by (intros ->; done); done.
    assert (with_id h id (m :: r) = m :: with_id h id r) as ->.
    { apply filter_cons_True. rewrite Hx. simpl. by rewrite Hid. }
    assert (∀ {A} (k k1 k' : gmap positive A), k1 = delete m k →
      (∀ p, k' !! p = if decide (p ∈ with_id h id r) then None else k1 !! p) →
      ∀ p, k' !! p = if decide (p ∈ m :: with_id h id r) then None else k !! p) as Hdel.
    { intros A k k1 k' -> Hk p. rewrite Hk. destruct (decide (p ∈ with_id h id r)) as [Hin|Hin].
      + by rewrite decide_True by (by right).
      + destruct (decide (p = m)) as [->|Hp].
        * rewrite decide_True by (by left). by rewrite lookup_delete_eq.
        * rewrite decide_False by (rewrite not_elem_of_cons; done). by rewrite lookup_delete_ne. }
    rewrite !rms_cons, rm_middle by done.
    split_and!; [done|done|by eapply Hdel|congruence|congruence|congruence|by eapply Hdel].
  - cbn [when]. erewrite bind_ok by done. erewrite bind_ok by done.
    destruct (IH h (l ++ [m]) ts ps f) as (h' & E' & Hi' & Em' & Eb' & En' & Ea' & Ee').
    { by rewrite <-app_assoc. }
    { simpl in Hf. lia. }
    exists h'. rewrite <-app_assoc in Hi'. simpl in Hi'.
    assert (with_id h id (m :: r) = with_id h id r) as ->; [|done].
    apply filter_cons_False. rewrite Hx. simpl. congruence.
Qed.

Lemma remove_message_id_ok h qs ds os ts ps id :
  handler_inv h qs ds os ts ps → ∃ h',
  let D := with_id h id qs in
  remove_message_id msg_queue id h = Ok (tt, h') ∧
  handler_inv h' (rms D qs) ds os (rms D ts) (rms D ps) ∧
  (∀ p, msgs h' !! p = if decide (p ∈ D) then None else msgs h !! p) ∧
  brk h' = brk h ∧ now (upile (loop h')) = now (upile (loop h)) ∧ malloc_ok h' = malloc_ok h ∧
  (∀ p, events (upile (loop h')) !! p = if decide (p ∈ D) then None else events (upile (loop h)) !! p).
Proof.
  intros Hi. pose proof (hi_queue _ _ _ _ _ _ Hi) as Hq.
  destruct (remove_id_ok (queue_fuel h) h [] qs ds os ts ps id) as (h' & E & Hi'); [done| |].
  { unfold queue_fuel. pose proof (ring_fuel _ _ _ Hq). lia. }
  exists h'. split; [|done]. unfold remove_message_id.
  erewrite bind_ok.
  2:{ apply zoom_read, get_next_ok. eapply ring_live; [exact Hq|by left]. }
  cbn [lget handler_qlinks]. rewrite (ring_next_head _ _ _ Hq).
  erewrite bind_ok by done. by erewrite bind_ok by done.
Qed.

(** ** Deferred messages *)

(** The first deferred message is taken off its queue. *)
Lemma undefer_ok h qs m r os ts ps :
  handler_inv h qs (m :: r) os ts ps → ∃ q' : lheap,
  removeFromQueue (Some m) h = Ok (tt, lset q' h) ∧
  handler_inv (lset q' h) qs r (os ++ [m]) ts ps.
Proof.
  intros Hi. pose proof Hi as [Hq Hd Hnd Hoff Hl Hs Hu Hlive Hfr Hc Hw].
  destruct (live_disjoint _ _ _ Hnd) as (D1 & D2 & D3).
  assert (m ∈ qs ++ (m :: r) ++ os) as Hm by mem_goal.
  destruct (remove_queue_ok _ _ _ _ _ Hq Hd Hnd Hoff Hm) as (q' & E & Hq' & Hd' & Hm' & Hs').
  exists q'. split; [done|].
  assert (m ∉ qs) as Nq. { intros Hin. destruct (D2 m Hin) as [[]%not_elem_of_cons _]. done. }
  assert (NoDup (m :: r)) as Hndd by (by destruct Hd as [[_ ?]%NoDup_cons _]).
  rewrite rm_notin in Hq' by done.
  assert (rm m (m :: r) = r) as Er by (by apply (rm_middle m [] r)). rewrite Er in Hd'.
  assert (qs ++ r ++ os ++ [m] ≡ₚ qs ++ (m :: r) ++ os) as Hperm.
  { f_equiv. rewrite app_assoc, <-Permutation_cons_append. done. }
  destruct Hs' as [Hs1 Hs2]. split; simpl; try done.
  - by rewrite Hperm.
  - intros p Hp. apply elem_of_app in Hp as [Hp|Hp%list_elem_of_singleton]; [|by subst].
    destruct (D1 p) as (P1 & P2 & _); [mem_goal|].
    rewrite Hs1; [by apply Hoff|]. rewrite !not_elem_of_cons, not_elem_of_app.
    split_and!; [|done|done|intros Hin; by destruct (D2 p Hin)|intros Hin; by apply (D3 p Hin)].
    intros ->. apply (D3 m); [by left|done].
  - intros p Hp. destruct (Hs p Hp); [by left|right]. mem_simpl. tauto.
  - intros p Hp. rewrite Hperm in Hp. by apply Hu.
  - intros p Hp. rewrite Hperm in Hp. by apply Hlive.
  - intros p Hp. destruct (Hfr p Hp) as (F1 & F2 & F3). split_and!; [done| |done].
    destruct (q' !! p) eqn:Eq; [|done]. assert (is_Some (qlinks h !! p)) as Hx.
    { apply Hs2. eauto. } rewrite F2 in Hx. by destruct Hx.
  - rewrite Hc. unfold len. f_equal. by rewrite <-Hperm.
Qed.

(** A deferred message has no timer. *)
Lemma deferred_unsent h qs ds os ts ps m :
  handler_inv h qs ds os ts ps → m ∈ ds → m ∉ ts ++ ps.
Proof.
  intros Hi Hm Hin. destruct (live_disjoint _ _ _ (hi_nodup _ _ _ _ _ _ Hi)) as (D1 & D2 & D3).
  destruct (D1 m) as (_ & _ & N3); [mem_goal|].
  destruct (hi_sent _ _ _ _ _ _ Hi m Hin) as [?|[Hq|Ho]%elem_of_app]; [done| |].
  - by destruct (D2 m Hq).
  - by apply (D3 m).
Qed.

Lemma process_defer_loop_ok fuel h qs r os ts ps :
  handler_inv h qs r os ts ps → (length r < fuel)%nat → ∃ h' ts',
  process_defer_loop fuel defer_msg_queue (List.hd defer_msg_queue r) h = Ok (tt, h') ∧
  handler_inv h' qs [] (os ++ r) ts' ps ∧ ts' ≡ₚ r ++ ts ∧ msgs h' = msgs h ∧
  now (upile (loop h')) = now (upile (loop h)) ∧
  (∀ m, m ∉ r → events (upile (loop h')) !! m = events (upile (loop h)) !! m) ∧
  (∀ m, m ∈ r → due (events (upile (loop h'))) m (timeradd (now (upile (loop h))) (msec_tv 0))).
Proof.
  revert h os ts fuel. induction r as [|m r IH]; intros h os ts fuel Hi Hf;
    (destruct fuel as [|f]; [simpl in Hf; lia|]).
  { exists h, ts. cbn [process_defer_loop List.hd]. rewrite bool_decide_true by done.
    rewrite app_nil_r. split_and!; try done. by intros m []%not_elem_of_nil. }
  pose proof (hi_defer _ _ _ _ _ _ Hi) as Hd. pose proof Hd as [Hnd _].
  apply NoDup_cons in Hnd as [Nh Hnd]. pose proof Hnd as [Nm _]%NoDup_cons.
  cbn [process_defer_loop List.hd].
  rewrite bool_decide_false by (intros ->; apply Nh; by left).
  erewrite bind_ok.
  2:{ apply zoom_read, get_next_ok. eapply ring_live; [exact Hd|]. by right; left. }
  cbn [lget handler_qlinks]. rewrite (ring_next _ _ [] _ _ Hd).
  pose proof (deferred_unsent _ _ _ _ _ _ m Hi ltac:(by left)) as Hun.
  destruct (undefer_ok _ _ _ _ _ _ _ Hi) as (q' & E1 & Hi1).
  erewrite bind_ok by exact E1. set (h1 := lset q' h) in *.
  destruct (send_inv h1 qs r (os ++ [m]) ts ps m 0)
    as (l & k & h2 & -> & E2 & Hi2 & Em & _ & En & _ & _ & (x & Hx & _ & _ & Ht) & _);
    [done|mem_goal|done|].
  unfold send_message. erewrite bind_ok by exact E2. erewrite bind_ok by done.
  destruct (IH h2 (os ++ [m]) (l ++ m :: k) f Hi2 ltac:(simpl in Hf; lia))
    as (h' & ts' & E3 & Hi3 & Hp & Em3 & En3 & He3 & Hdue).
  exists h', ts'. rewrite <-app_assoc in Hi3.
  change (now (upile (loop h1))) with (now (upile (loop h))) in En, Ht.
  change (events (upile (loop h1))) with (events (upile (loop h))) in Hx.
  split_and!; [done|done| |by rewrite Em3, Em|by rewrite En3| |].
  - rewrite Hp, <-(Permutation_middle l k m), <-Permutation_middle. done.
  - intros p [Hpm Hpr]%not_elem_of_cons. rewrite He3 by done. by rewrite Hx, lookup_insert_ne.
  - intros p [->|Hpr]%elem_of_cons.
    + exists x. rewrite (He3 m Nm), Hx, lookup_insert_eq. split; [done|exact Ht].
    + rewrite <-En. by apply Hdue.
Qed.

Lemma process_defer_ok h qs ds os ts ps :
  handler_inv h qs ds os ts ps → ∃ h' ts',
  process_defer_msg defer_msg_queue h = Ok (tt, h') ∧
  handler_inv h' qs [] (os ++ ds) ts' ps ∧ ts' ≡ₚ ds ++ ts ∧ msgs h' = msgs h ∧
  now (upile (loop h')) = now (upile (loop h)) ∧
  (∀ m, m ∉ ds → events (upile (loop h')) !! m = events (upile (loop h)) !! m) ∧
  (∀ m, m ∈ ds → due (events (upile (loop h'))) m (timeradd (now (upile (loop h))) (msec_tv 0))).
Proof.
  intros Hi. pose proof (hi_defer _ _ _ _ _ _ Hi) as Hd.
  destruct (process_defer_loop_ok (queue_fuel h) h qs ds os ts ps) as (h' & ts' & E & Hi');
    [done| |].
  { unfold queue_fuel. pose proof (ring_fuel _ _ _ Hd). lia. }
  exists h', ts'. split; [|done]. unfold process_defer_msg.
  erewrite bind_ok.
  2:{ apply zoom_read, get_next_ok. eapply ring_live; [exact Hd|by left]. }
  cbn [lget handler_qlinks]. rewrite (ring_next_head _ _ _ Hd).
  erewrite bind_ok by done. by erewrite bind_ok by done.
Qed.

(** ** Messages with their data *)

(** What [obtain_message] stores: a copy of the bytes, with two zero bytes
    after them, when there are any. *)
Definition new_MSG (what : Z) (dat : option (list Z)) (size : Z) : MSG :=
  if 0 <? size
  then mkMSG what size ((λ b, take (Z.to_nat size) b ++ [0; 0]) <$> dat) else mkMSG what 0 None.

(** The bytes of the data are there. *)
Definition data_ok (dat : option (list Z)) (size : Z) : Prop :=
  0 < size → ∃ b, dat = Some b ∧ size ≤ len b.

Lemma copy_in_ok b size : 0 < size ≤ len b → copy_in (Some b) size = Ok (take (Z.to_nat size) b).
Proof. intros H. unfold copy_in. cbn. rewrite slice_ok by lia. done. Qed.

Lemma obtain_message_ok h qs ds os ts ps what dat size :
  handler_inv h qs ds os ts ps → len (qs ++ ds ++ os) + 1 < MAX_MSG_QUEUE_SIZE →
  malloc_ok h sizeof_MSG = true → (0 < size → malloc_ok h (size + 2) = true) →
  data_ok dat size → ∃ h',
  let m := brk h in
  obtain_message what dat size h = Ok (Some m, h') ∧ handler_inv h' (qs ++ [m]) ds os ts ps ∧
  msgs h' = <[m := new_MSG what dat size]> (msgs h) ∧
  loop h' = alloc_loop m (loop h) ∧ malloc_ok h' = malloc_ok h ∧ msg_processor h' = msg_processor h ∧
  brk h' = Pos.succ m.
Proof.
  intros Hi Hlen Hm Hd Hdat. destruct (obtain_ok _ _ _ _ _ _ Hi Hlen Hm)
    as (h1 & E1 & Hi1 & Em & Eb & El & Ea & Ep).
  set (m := brk h) in *. cbv zeta.
  assert (is_Some (msgs h1 !! m)) as Hlive. { rewrite Em, lookup_insert_eq. eauto. }
  set (h2 := set_msgs (<[m := mkMSG what 0 None]> (msgs h1)) h1).
  assert (obtain_message what dat size h =
    (if 0 <? size then
        h ← get;
        if malloc_ok h (size + 2) then
          bytes ← lift (copy_in dat size);
          msg_update m (λ x, mkMSG (Handler.what x) size (Some (bytes ++ [0; 0])));;
          mret (Some m)
        else remove_message (Some m);; mret None
      else mret (Some m)) h2) as ->.
  { unfold obtain_message. erewrite bind_ok by exact E1. cbv iota beta. erewrite bind_ok.
    2:{ apply msg_update_ok. rewrite Em. apply lookup_insert_eq. }
    done. }
  unfold new_MSG. destruct (Z.ltb_spec 0 size) as [Hs|Hs].
  - destruct (Hdat Hs) as (b & -> & Hb).
    eexists. split; [|split; [|split_and!]].
    + erewrite bind_ok by done. change (malloc_ok h2) with (malloc_ok h1). rewrite Ea, Hd by done.
      rewrite copy_in_ok by lia. erewrite bind_ok by done.
      erewrite bind_ok by (apply msg_update_ok; simpl; apply lookup_insert_eq). done.
    + apply set_msg_inv; [|simpl; rewrite lookup_insert_eq; eauto]. by apply set_msg_inv.
    + simpl. by rewrite Em, !insert_insert_eq.
    + done.
    + done.
    + done.
    + done.
  - exists h2. split_and!; [done|by apply set_msg_inv| |done|done|done|done].
    simpl. by rewrite Em, insert_insert_eq.
Qed.

(** The allocation of the data fails: the message is given back. *)
Lemma obtain_message_no_data h qs ds os ts ps what dat size :
  handler_inv h qs ds os ts ps → len (qs ++ ds ++ os) + 1 < MAX_MSG_QUEUE_SIZE →
  malloc_ok h sizeof_MSG = true → 0 < size → malloc_ok h (size + 2) = false → ∃ h',
  obtain_message what dat size h = Ok (None, h') ∧ handler_inv h' qs ds os ts ps ∧
  msgs h' = msgs h ∧ malloc_ok h' = malloc_ok h ∧ msg_processor h' = msg_processor h ∧
  now (upile (loop h')) = now (upile (loop h)) ∧
  events (upile (loop h')) = events (upile (loop h)) ∧ brk h' = Pos.succ (brk h).
Proof.
  intros Hi Hlen Hm Hs Hd. destruct (obtain_ok _ _ _ _ _ _ Hi Hlen Hm)
    as (h1 & E1 & Hi1 & Em & Eb & El & Ea & Ep).
  set (m := brk h) in *.
  destruct (fresh_not_in _ _ _ _ _ _ m Hi ltac:(lia)) as [Hn1 Hn2].
  rewrite !not_elem_of_cons, !not_elem_of_app in Hn1.
  rewrite !not_elem_of_cons, !not_elem_of_app in Hn2.
  destruct Hn1 as (_ & _ & _ & Nq & Nd & No). destruct Hn2 as (_ & _ & Nt & Np).
  assert (is_Some (msgs h1 !! m)) as Hlive. { rewrite Em, lookup_insert_eq. eauto. }
  set (h2 := set_msgs (<[m := mkMSG what 0 None]> (msgs h1)) h1).
  assert (handler_inv h2 (qs ++ [m]) ds os ts ps) as Hi2 by (by apply set_msg_inv).
  destruct (remove_message_ok h2 _ _ _ _ _ m Hi2) as (h' & E & Hi' & Em' & Eb' & Ea' & Ep' & Ee' & En');
    [mem_goal|].
  exists h'. split_and!.
  - unfold obtain_message. erewrite bind_ok by exact E1. cbv iota beta. erewrite bind_ok.
    2:{ apply msg_update_ok. rewrite Em. apply lookup_insert_eq. }
    rewrite (proj2 (Z.ltb_lt 0 size)) by done. erewrite bind_ok by done.
    match goal with |- context [malloc_ok ?x] => change x with h2 end.
    change (malloc_ok h2) with (malloc_ok h1). rewrite Ea, Hd. by erewrite bind_ok by exact E.
  - rewrite rm_app, (rm_notin m qs), (rm_notin m ds), (rm_notin m os), (rm_notin m ts),
      (rm_notin m ps) in Hi' by done.
    assert (rm m [m] = []) as Er.
    { apply (rm_middle m [] []). apply NoDup_singleton. }
    by rewrite Er, app_nil_r in Hi'.
  - rewrite Em'. simpl. rewrite Em, insert_insert_eq. apply delete_insert_id.
    by apply (hi_fresh _ _ _ _ _ _ Hi).
  - rewrite Ea'. done.
  - rewrite Ep'. done.
  - rewrite En'. simpl. by rewrite El.
  - rewrite Ee'. simpl. rewrite El. apply delete_insert_id.
    destruct (hi_fresh _ _ _ _ _ _ Hi m) as (_ & _ & He); [done|].
    rewrite eq_None_not_Some, <-(inv_events _ _ _ (hi_loop _ _ _ _ _ _ Hi)), He. by intros [? ?].
  - by rewrite Eb'.
Qed.

Lemma obtain_message_full h qs ds os ts ps what dat size :
  handler_inv h qs ds os ts ps → MAX_MSG_QUEUE_SIZE ≤ len (qs ++ ds ++ os) + 1 →
  obtain_message what dat size h = Ok (None, h).
Proof.
  intros Hi Hlen. unfold obtain_message, obtain.
  assert (msg_count h + 1 <? MAX_MSG_QUEUE_SIZE = false) as E.
  { rewrite (hi_count _ _ _ _ _ _ Hi). by apply Z.ltb_ge. }
  unfold gets, mbind, M_bind. by rewrite E.
Qed.
