(* ===== verification/Messages.v ===== *)
(** * Message and command numbers

    The enumerations of src/include/upil_request.h, src/tp_protocol.h and
    src/upil_sm.h, with their values, and the tables of names.  The messages
    of the state machine are [int]s that range over the requests, the events
    and the two events outside of the range, so that the program compares
    values: the enumerations are coerced to [Z]. *)

From stdpp Require Import strings.
From S2P Require Import Prelude CString.

(** Requests to the telephone (src/include/upil_request.h). *)
Inductive UPILReq : Type :=
  | UPIL_CTL_HANDFREE_ON
  | UPIL_CTL_HANDFREE_OFF
  | UPIL_CTL_RECORD_ON
  | UPIL_CTL_RECORD_OFF
  | UPIL_CTL_R_FUNC
  | UPIL_CTL_RECORD_PLAY_ON
  | UPIL_CTL_RECORD_PLAY_OFF
  | UPIL_CTL_RECORD_LINE_PLAY_ON
  | UPIL_CTL_RECORD_LINE_PLAY_OFF
  | UPIL_CTL_USB_ON
  | UPIL_CTL_RINGER_OFF
  | UPIL_CTL_USB_VOIP_ON
  | UPIL_CTL_USB_VOIP_OFF
  | UPIL_ASK_PHONE_STATE
  | UPIL_ASK_DTMF_TX
  | UPIL_ASK_RECORD_UP
  | UPIL_ASK_GET_VERSION
  | UPIL_ASK_AUTHORIZATION
  | UPIL_ASK_READ_MEMORY
  | UPIL_CTL_RINGER_ON
  | UPIL_CTL_SET_TIME
  | UPIL_CTL_SPEECH_RECORDING_ON
  | UPIL_CTL_SPEECH_RECORDING_OFF
  | UPIL_ASK_BUSY_TONE
  | UPIL_CTL_SET_FLASH_TIME
  | UPIL_CTL_SET_MEMORY_NUMBER
  | UPIL_ASK_READ_MANUFACTURER_INF
  | UPIL_RESERVED_CMD
  | UPIL_ASK_READ_SN
  | UPIL_CTL_WRITE_SN
  | UPIL_ASK_HARDWARE_INF
  | UPIL_CTL_VOIP_RINGER
  | UPIL_CTL_KEYBOARD_MAP
  | UPIL_CTL_DISP_ICON
  | UPIL_CTL_PHONE_VOLUME
  | UPIL_CTL_PHONE_UNMUTE
  | UPIL_CTL_EEPROM_INIT
  | UPIL_CTL_RECORD_LIGHT_ON
  | UPIL_CTL_RECORD_LIGHT_OFF
  | UPIL_CTL_INI_SET
  | UPIL_CTL_BBK_VOIP_ON
  | UPIL_CTL_BBK_VOIP_OFF
  | UPIL_CTL_RECORD_START
  | UPIL_CTL_RECORD_STOP.

Definition UPILReq_val (x : UPILReq) : Z :=
  match x with
  | UPIL_CTL_HANDFREE_ON => 0
  | UPIL_CTL_HANDFREE_OFF => 1
  | UPIL_CTL_RECORD_ON => 2
  | UPIL_CTL_RECORD_OFF => 3
  | UPIL_CTL_R_FUNC => 4
  | UPIL_CTL_RECORD_PLAY_ON => 5
  | UPIL_CTL_RECORD_PLAY_OFF => 6
  | UPIL_CTL_RECORD_LINE_PLAY_ON => 7
  | UPIL_CTL_RECORD_LINE_PLAY_OFF => 8
  | UPIL_CTL_USB_ON => 9
  | UPIL_CTL_RINGER_OFF => 10
  | UPIL_CTL_USB_VOIP_ON => 11
  | UPIL_CTL_USB_VOIP_OFF => 12
  | UPIL_ASK_PHONE_STATE => 13
  | UPIL_ASK_DTMF_TX => 14
  | UPIL_ASK_RECORD_UP => 15
  | UPIL_ASK_GET_VERSION => 16
  | UPIL_ASK_AUTHORIZATION => 17
  | UPIL_ASK_READ_MEMORY => 18
  | UPIL_CTL_RINGER_ON => 19
  | UPIL_CTL_SET_TIME => 20
  | UPIL_CTL_SPEECH_RECORDING_ON => 21
  | UPIL_CTL_SPEECH_RECORDING_OFF => 22
  | UPIL_ASK_BUSY_TONE => 23
  | UPIL_CTL_SET_FLASH_TIME => 24
  | UPIL_CTL_SET_MEMORY_NUMBER => 25
  | UPIL_ASK_READ_MANUFACTURER_INF => 26
  | UPIL_RESERVED_CMD => 27
  | UPIL_ASK_READ_SN => 28
  | UPIL_CTL_WRITE_SN => 29
  | UPIL_ASK_HARDWARE_INF => 30
  | UPIL_CTL_VOIP_RINGER => 31
  | UPIL_CTL_KEYBOARD_MAP => 32
  | UPIL_CTL_DISP_ICON => 33
  | UPIL_CTL_PHONE_VOLUME => 34
  | UPIL_CTL_PHONE_UNMUTE => 35
  | UPIL_CTL_EEPROM_INIT => 36
  | UPIL_CTL_RECORD_LIGHT_ON => 37
  | UPIL_CTL_RECORD_LIGHT_OFF => 38
  | UPIL_CTL_INI_SET => 39
  | UPIL_CTL_BBK_VOIP_ON => 40
  | UPIL_CTL_BBK_VOIP_OFF => 41
  | UPIL_CTL_RECORD_START => 42
  | UPIL_CTL_RECORD_STOP => 43
  end.
Coercion UPILReq_val : UPILReq >-> Z.

Definition UPIL_CTL_BEGIN : Z := 0.
Definition UPIL_CTL_MAX : Z := 44.

(** Events of the telephone and of the state machine. *)
Inductive UPILEvent : Type :=
  | UPIL_EVT_RESERVE
  | UPIL_EVT_USB_ATTACH
  | UPIL_EVT_USB_DETACH
  | UPIL_EVT_PC_HOOK_ON
  | UPIL_EVT_PC_HOOK_OFF
  | UPIL_EVT_HAND_HOOK_ON
  | UPIL_EVT_HAND_HOOK_OFF
  | UPIL_EVT_HFREE_HOOK_ON
  | UPIL_EVT_HFREE_HOOK_OFF
  | UPIL_EVT_PARALL_HOOK_ON
  | UPIL_EVT_PARALL_HOOK_OFF
  | UPIL_EVT_RING
  | UPIL_EVT_KEY_DOWN
  | UPIL_EVT_PHONE_STATE
  | UPIL_EVT_CALL_ID
  | UPIL_EVT_DIAL_END
  | UPIL_EVT_SEC_DTMF_RX
  | UPIL_EVT_RESERVED_1
  | UPIL_EVT_RESERVED_2
  | UPIL_EVT_RESERVED_3
  | UPIL_EVT_RESERVED_4
  | UPIL_EVT_RESERVED_5
  | UPIL_EVT_BUSY_ON
  | UPIL_EVT_RESERVED_6
  | UPIL_EVT_NEW_CID_TX
  | UPIL_EVT_OLD_CID_TX
  | UPIL_EVT_DIALED_TX
  | UPIL_EVT_HISTORY_FINISHED
  | UPIL_EVT_VERSION
  | UPIL_EVT_RESTART
  | UPIL_EVT_REDIAL
  | UPIL_EVT_BAT_CRITICAL
  | UPIL_EVT_VOIP_HOOK_OFF
  | UPIL_EVT_VOIP_HOOK_ON
  | UPIL_EVT_PARAL_DTMF
  | UPIL_MSG_VENDOR
  | UPIL_MSG_SERIAL
  | UPIL_MSG_HW_TYPE
  | UPIL_EVT_VOLUM_CHANGE
  | UPIL_EVT_ACK
  | UPIL_EVT_SYNC_TIMEOUT
  | UPIL_EVT_DIAL_END_CHECK
  | UPIL_EVT_RING_TIMEOUT
  | UPIL_EVT_RECORD_START
  | UPIL_EVT_RECORD_END
  | UPIL_EVT_SM_TRANSITION
  | UPIL_EVT_UNKOWN.

Definition UPILEvent_val (x : UPILEvent) : Z :=
  match x with
  | UPIL_EVT_RESERVE => 44
  | UPIL_EVT_USB_ATTACH => 45
  | UPIL_EVT_USB_DETACH => 46
  | UPIL_EVT_PC_HOOK_ON => 47
  | UPIL_EVT_PC_HOOK_OFF => 48
  | UPIL_EVT_HAND_HOOK_ON => 49
  | UPIL_EVT_HAND_HOOK_OFF => 50
  | UPIL_EVT_HFREE_HOOK_ON => 51
  | UPIL_EVT_HFREE_HOOK_OFF => 52
  | UPIL_EVT_PARALL_HOOK_ON => 53
  | UPIL_EVT_PARALL_HOOK_OFF => 54
  | UPIL_EVT_RING => 55
  | UPIL_EVT_KEY_DOWN => 56
  | UPIL_EVT_PHONE_STATE => 57
  | UPIL_EVT_CALL_ID => 58
  | UPIL_EVT_DIAL_END => 59
  | UPIL_EVT_SEC_DTMF_RX => 60
  | UPIL_EVT_RESERVED_1 => 61
  | UPIL_EVT_RESERVED_2 => 62
  | UPIL_EVT_RESERVED_3 => 63
  | UPIL_EVT_RESERVED_4 => 64
  | UPIL_EVT_RESERVED_5 => 65
  | UPIL_EVT_BUSY_ON => 66
  | UPIL_EVT_RESERVED_6 => 67
  | UPIL_EVT_NEW_CID_TX => 68
  | UPIL_EVT_OLD_CID_TX => 69
  | UPIL_EVT_DIALED_TX => 70
  | UPIL_EVT_HISTORY_FINISHED => 71
  | UPIL_EVT_VERSION => 72
  | UPIL_EVT_RESTART => 73
  | UPIL_EVT_REDIAL => 74
  | UPIL_EVT_BAT_CRITICAL => 75
  | UPIL_EVT_VOIP_HOOK_OFF => 76
  | UPIL_EVT_VOIP_HOOK_ON => 77
  | UPIL_EVT_PARAL_DTMF => 78
  | UPIL_MSG_VENDOR => 79
  | UPIL_MSG_SERIAL => 80
  | UPIL_MSG_HW_TYPE => 81
  | UPIL_EVT_VOLUM_CHANGE => 82
  | UPIL_EVT_ACK => 83
  | UPIL_EVT_SYNC_TIMEOUT => 84
  | UPIL_EVT_DIAL_END_CHECK => 85
  | UPIL_EVT_RING_TIMEOUT => 86
  | UPIL_EVT_RECORD_START => 87
  | UPIL_EVT_RECORD_END => 88
  | UPIL_EVT_SM_TRANSITION => 238
  | UPIL_EVT_UNKOWN => 255
  end.
Coercion UPILEvent_val : UPILEvent >-> Z.

Definition UPIL_EVT_BEGIN : Z := UPIL_CTL_MAX.
Definition UPIL_EVT_MAX : Z := 89.

(** [UPIL_CTL_STRING_TABLE] *)
Definition ctl_str : list (list Z) := lit <$> [
  "UPIL_CTL_HANDFREE_ON"%string;
  "UPIL_CTL_HANDFREE_OFF"%string;
  "UPIL_CTL_RECORD_ON"%string;
  "UPIL_CTL_RECORD_OFF"%string;
  "UPIL_CTL_R_FUNC"%string;
  "UPIL_CTL_RECORD_PLAY_ON"%string;
  "UPIL_CTL_RECORD_PLAY_OFF"%string;
  "UPIL_CTL_RECORD_LINE_PLAY_ON"%string;
  "UPIL_CTL_RECORD_LINE_PLAY_OFF"%string;
  "UPIL_CTL_USB_ON"%string;
  "UPIL_CTL_RINGER_OFF"%string;
  "UPIL_CTL_USB_VOIP_ON"%string;
  "UPIL_CTL_USB_VOIP_OFF"%string;
  "UPIL_ASK_PHONE_STATE"%string;
  "UPIL_ASK_DTMF_TX"%string;
  "UPIL_ASK_RECORD_UP"%string;
  "UPIL_ASK_GET_VERSION"%string;
  "UPIL_ASK_AUTHORIZATION"%string;
  "UPIL_ASK_READ_MEMORY"%string;
  "UPIL_CTL_RINGER_ON"%string;
  "UPIL_CTL_SET_TIME"%string;
  "UPIL_CTL_SPEECH_RECORDING_ON"%string;
  "UPIL_CTL_SPEECH_RECORDING_OFF"%string;
  "UPIL_ASK_BUSY_TONE"%string;
  "UPIL_CTL_SET_FLASH_TIME"%string;
  "UPIL_CTL_SET_MEMORY_NUMBER"%string;
  "UPIL_ASK_READ_MANUFACTURER_INF"%string;
  "UPIL_RESERVED_CMD"%string;
  "UPIL_ASK_READ_SN"%string;
  "UPIL_CTL_WRITE_SN"%string;
  "UPIL_ASK_HARDWARE_INF"%string;
  "UPIL_CTL_VOIP_RINGER"%string;
  "UPIL_CTL_KEYBOARD_MAP"%string;
  "UPIL_CTL_DISP_ICON"%string;
  "UPIL_CTL_PHONE_VOLUME"%string;
  "UPIL_CTL_PHONE_UNMUTE"%string;
  "UPIL_CTL_EEPROM_INIT"%string;
  "UPIL_CTL_RECORD_LIGHT_ON"%string;
  "UPIL_CTL_RECORD_LIGHT_OFF"%string;
  "UPIL_CTL_INI_SET"%string;
  "UPIL_CTL_BBK_VOIP_ON"%string;
  "UPIL_CTL_BBK_VOIP_OFF"%string].

(** [UPIL_EVENT_STRING_TABLE] *)
Definition event_str : list (list Z) := lit <$> [
  "UPIL_EVT_RESERVE"%string;
  "UPIL_EVT_USB_ATTACH"%string;
  "UPIL_EVT_USB_DETACH"%string;
  "UPIL_EVT_PC_HOOK_ON"%string;
  "UPIL_EVT_PC_HOOK_OFF"%string;
  "UPIL_EVT_HAND_HOOK_ON"%string;
  "UPIL_EVT_HAND_HOOK_OFF"%string;
  "UPIL_EVT_HFREE_HOOK_ON"%string;
  "UPIL_EVT_HFREE_HOOK_OFF"%string;
  "UPIL_EVT_PARALL_HOOK_ON"%string;
  "UPIL_EVT_PARALL_HOOK_OFF"%string;
  "UPIL_EVT_RING"%string;
  "UPIL_EVT_KEY_DOWN"%string;
  "UPIL_EVT_PHONE_STATE"%string;
  "UPIL_EVT_CALL_ID"%string;
  "UPIL_EVT_DIAL_END"%string;
  "UPIL_EVT_SEC_DTMF_RX"%string;
  "UPIL_EVT_RESERVED_1"%string;
  "UPIL_EVT_RESERVED_2"%string;
  "UPIL_EVT_RESERVED_3"%string;
  "UPIL_EVT_RESERVED_4"%string;
  "UPIL_EVT_RESERVED_5"%string;
  "UPIL_EVT_BUSY_ON"%string;
  "UPIL_EVT_RESERVED_6"%string;
  "UPIL_EVT_NEW_CID_TX"%string;
  "UPIL_EVT_OLD_CID_TX"%string;
  "UPIL_EVT_DIALED_TX"%string;
  "UPIL_EVT_HISTORY_FINISHED"%string;
  "UPIL_EVT_VERSION"%string;
  "UPIL_EVT_RESTART"%string;
  "UPIL_EVT_REDIAL"%string;
  "UPIL_EVT_BAT_CRITICAL"%string;
  "UPIL_EVT_VOIP_HOOK_OFF"%string;
  "UPIL_EVT_VOIP_HOOK_ON"%string;
  "UPIL_EVT_PARAL_DTMF"%string;
  "UPIL_MSG_VENDOR"%string;
  "UPIL_MSG_SERIAL"%string;
  "UPIL_MSG_HW_TYPE"%string;
  "UPIL_EVT_VOLUM_CHANGE"%string;
  "UPIL_EVT_ACK"%string;
  "UPIL_EVT_SYNC_TIMEOUT"%string;
  "UPIL_EVT_DIAL_END_CHECK"%string;
  "UPIL_EVT_RING_TIMEOUT"%string;
  "UPIL_EVT_START_MEMO"%string].

(** Messages to the monitor socket. *)
Definition UPIL_STATE_OFFLINE : Z := 0x160.
Definition UPIL_STATE_SYNCING : Z := 0x161.
Definition UPIL_STATE_IDLE : Z := 0x162.
Definition UPIL_STATE_DIALING : Z := 0x163.
Definition UPIL_STATE_INCOMING : Z := 0x164.
Definition UPIL_STATE_CONVERSATION : Z := 0x165.
Definition UPIL_STATE_MEMO : Z := 0x166.

(** States of the telephone (src/upil_sm.h). *)
Inductive UPIL_SM : Type :=
  | UPIL_SM_OFFLINE
  | UPIL_SM_SYNCING
  | UPIL_SM_IDLE
  | UPIL_SM_DIALING
  | UPIL_SM_INCOMING
  | UPIL_SM_CONVERSATION
  | UPIL_SM_MEMO.

Definition UPIL_SM_val (x : UPIL_SM) : Z :=
  match x with
  | UPIL_SM_OFFLINE => 0
  | UPIL_SM_SYNCING => 1
  | UPIL_SM_IDLE => 2
  | UPIL_SM_DIALING => 3
  | UPIL_SM_INCOMING => 4
  | UPIL_SM_CONVERSATION => 5
  | UPIL_SM_MEMO => 6
  end.
Coercion UPIL_SM_val : UPIL_SM >-> Z.

(** Commands the device sends (src/tp_protocol.h). *)
Inductive TPEvent : Type :=
  | TPP_EVT_VOLUM_CHANGE
  | TPP_MSG_VERSION
  | TPP_MSG_AUTHORIZATION
  | TPP_MSG_MANUFACTURER_INF
  | TPP_MSG_SN
  | TPP_MSG_HARDWARE_INF
  | TPP_MSG_EEPROM_INF
  | TPP_MSG_PHONE_STATE
  | TPP_EVT_FSK_RX
  | TPP_EVT_DTMF_RX
  | TPP_MSG_DTMF_TX_FINISHED
  | TPP_EVT_NEW_CID_TX
  | TPP_EVT_OLD_CID_TX
  | TPP_EVT_DIALED_TX
  | TPP_EVT_HISTORY_FINISHED
  | TPP_EVT_ICM_DTMF_RX
  | TPP_EVT_PARALLEL_DTMF_RX
  | TPP_EVT_KEY_DOWN
  | TPP_EVT_CODEC_READY
  | TPP_EVT_HOOK_ON
  | TPP_EVT_HOOK_OFF
  | TPP_EVT_RING
  | TPP_EVT_RESTART
  | TPP_EVT_HKS_ON
  | TPP_EVT_HKS_OFF
  | TPP_EVT_PARALLEL_ON
  | TPP_EVT_PARALLEL_OFF
  | TPP_EVT_BUSY_ON
  | TPP_EVT_REDIAL_ON
  | TPP_EVT_BATTERY_LOW
  | TPP_EVT_VOIP_PHONE_HOOK_ON
  | TPP_EVT_VOIP_PHONE_HOOK_OFF.

Definition TPEvent_val (x : TPEvent) : Z :=
  match x with
  | TPP_EVT_VOLUM_CHANGE => 92
  | TPP_MSG_VERSION => 129
  | TPP_MSG_AUTHORIZATION => 130
  | TPP_MSG_MANUFACTURER_INF => 131
  | TPP_MSG_SN => 132
  | TPP_MSG_HARDWARE_INF => 133
  | TPP_MSG_EEPROM_INF => 134
  | TPP_MSG_PHONE_STATE => 171
  | TPP_EVT_FSK_RX => 209
  | TPP_EVT_DTMF_RX => 210
  | TPP_MSG_DTMF_TX_FINISHED => 211
  | TPP_EVT_NEW_CID_TX => 212
  | TPP_EVT_OLD_CID_TX => 213
  | TPP_EVT_DIALED_TX => 214
  | TPP_EVT_HISTORY_FINISHED => 215
  | TPP_EVT_ICM_DTMF_RX => 216
  | TPP_EVT_PARALLEL_DTMF_RX => 217
  | TPP_EVT_KEY_DOWN => 225
  | TPP_EVT_CODEC_READY => 226
  | TPP_EVT_HOOK_ON => 227
  | TPP_EVT_HOOK_OFF => 228
  | TPP_EVT_RING => 229
  | TPP_EVT_RESTART => 230
  | TPP_EVT_HKS_ON => 231
  | TPP_EVT_HKS_OFF => 232
  | TPP_EVT_PARALLEL_ON => 233
  | TPP_EVT_PARALLEL_OFF => 234
  | TPP_EVT_BUSY_ON => 235
  | TPP_EVT_REDIAL_ON => 236
  | TPP_EVT_BATTERY_LOW => 237
  | TPP_EVT_VOIP_PHONE_HOOK_ON => 238
  | TPP_EVT_VOIP_PHONE_HOOK_OFF => 239
  end.
Coercion TPEvent_val : TPEvent >-> Z.

(** Commands the device understands (src/tp_protocol.h). *)
Inductive TPCmd : Type :=
  | TPP_ASK_GET_VERSION
  | TPP_ASK_DTMF_TX
  | TPP_ASK_RECORD
  | TPP_ASK_READ_MANUFACTURER_INF
  | TPP_CTL_WRITE_MANUFACTURER_INF
  | TPP_ASK_READ_SN
  | TPP_ASK_WRITE_SN
  | TPP_ASK_HARDWARE_INF
  | TPP_ASK_PHONE_STATE
  | TPP_CTL_SET_TIME
  | TPP_CTL_BUSY_TONE
  | TPP_CTL_MUTE
  | TPP_CTL_LIGHT_ON_LED_OF_OGM
  | TPP_CTL_LIGHT_OFF_LED_OF_OGM
  | TPP_CTL_PCHOOK_ON
  | TPP_CTL_PCHOOK_OFF
  | TPP_CTL_RECORD_ON
  | TPP_CTL_RECORD_OFF
  | TPP_CTL_R_FUNC
  | TPP_CTL_RECORD_PLAY_ON
  | TPP_CTL_RECORD_PLAY_OFF
  | TPP_CTL_RECORD_LINE_PLAY_ON
  | TPP_CTL_RECORD_LINE_PLAY_OFF
  | TPP_CTL_USB_RUN
  | TPP_CTL_RINGER_ON
  | TPP_CTL_RINGER_OFF.

Definition TPCmd_val (x : TPCmd) : Z :=
  match x with
  | TPP_ASK_GET_VERSION => 1
  | TPP_ASK_DTMF_TX => 17
  | TPP_ASK_RECORD => 18
  | TPP_ASK_READ_MANUFACTURER_INF => 20
  | TPP_CTL_WRITE_MANUFACTURER_INF => 21
  | TPP_ASK_READ_SN => 22
  | TPP_ASK_WRITE_SN => 23
  | TPP_ASK_HARDWARE_INF => 24
  | TPP_ASK_PHONE_STATE => 33
  | TPP_CTL_SET_TIME => 34
  | TPP_CTL_BUSY_TONE => 35
  | TPP_CTL_MUTE => 42
  | TPP_CTL_LIGHT_ON_LED_OF_OGM => 45
  | TPP_CTL_LIGHT_OFF_LED_OF_OGM => 46
  | TPP_CTL_PCHOOK_ON => 97
  | TPP_CTL_PCHOOK_OFF => 98
  | TPP_CTL_RECORD_ON => 99
  | TPP_CTL_RECORD_OFF => 100
  | TPP_CTL_R_FUNC => 101
  | TPP_CTL_RECORD_PLAY_ON => 102
  | TPP_CTL_RECORD_PLAY_OFF => 103
  | TPP_CTL_RECORD_LINE_PLAY_ON => 104
  | TPP_CTL_RECORD_LINE_PLAY_OFF => 105
  | TPP_CTL_USB_RUN => 106
  | TPP_CTL_RINGER_ON => 107
  | TPP_CTL_RINGER_OFF => 108
  end.
Coercion TPCmd_val : TPCmd >-> Z.

(** ** Names of messages (src/state_machine/state_machine.c) *)

Definition unknown_msg : list Z := lit "unknown".

(** The tables are indexed by the number of the message. *)
Definition msg2str (msg : Z) : res (list Z) :=
  if (UPIL_CTL_BEGIN <=? msg) && (msg <? UPIL_CTL_MAX) then read_at ctl_str (msg - UPIL_CTL_BEGIN)
  else if (UPIL_EVT_BEGIN <=? msg) && (msg <? UPIL_EVT_MAX) then
    read_at event_str (msg - UPIL_EVT_BEGIN)
  else Ok unknown_msg.
