(* ===== verification/TpProtocol.v ===== *)
(** * The telephone protocol: src/tp_protocol.c

    Commands and events travel as TP PDUs (flag, size, command, parameters)
    cut into HID lines of eight bytes, of which two are a header and six
    carry the PDU.  Buffers are lists of byte values of the length the code
    declares, and every access is checked against that length.  A [device]
    holds the static variables of the file, the lines written to the device
    and the answers the outside gives: the result of [write], whether a line
    is confirmed, and the local time.

    After each line [tpp_send_cmd] waits for [s_cmd_completed_cond], which
    the thread that reads the device signals when the confirmation comes.
    [dev_acks] says for a line whether the signal comes after the wait has
    begun; without it the wait does not end, which is the fault [Blocked].
    The code waits with NULL for the mutex, which POSIX leaves undefined: the
    model takes this as a wait without a mutex. *)

From S2P Require Import Prelude CString Messages.

Definition TP_FLAG : Z := 0xFF.
Definition HID_FLAG : Z := 0x03.
Definition HIDPDU_LINE_BYTES : Z := 8.
Definition TPPDU_LINE_BYTES : Z := 6.
Definition HIDPUD_LINE_MAX : Z := 10.
Definition MAX_EVENT_DATA : Z := 512.

(** [HIDPDU_LINE_BYTES*HIDPUD_LINE_MAX] zero bytes. *)
Definition zero_pdu : list Z := replicate 80 0.

(** The bytes of a [TPPDU_t]: offsets of its fields. *)
Definition TPPDU_flag : Z := 0.
Definition TPPDU_cmd_size : Z := 1.
Definition TPPDU_cmd : Z := 2.
Definition TPPDU_param : Z := 3.

(** A [TPPReq_t] or [TPPEvt_t]: the identifier and the size are bytes. *)
Record TPPReq_t := TPPReq {
  req_id : Z;
  req_data_size : Z;
  req_data : list Z;
}.

(** ** From the device *)

(** 1: a whole PDU; 0: the PDU is not complete; -1: it is not a PDU. *)
Definition check_tppdu (tp_pdu : list Z) (tp_size : Z) : res Z :=
  if tp_size <=? 0 then Ok 0 else
  flag ← read_at tp_pdu TPPDU_flag;
  if negb (flag =? TP_FLAG) then Ok (-1) else
  if tp_size <? 2 then Ok 0 else
  cmd_size ← read_at tp_pdu TPPDU_cmd_size;
  let remain_size := cmd_size + 2 - tp_size in
  Ok (if negb (remain_size =? 0) then (if 0 <? remain_size then 0 else -1) else 1).

(** The digits of a caller number: two per byte, up to a nibble above 9. *)
Fixpoint fsk_digits (cid : list Z) : res (list Z) :=
  match cid with
  | [] => Err Overrun
  | b :: cid' =>
      let n := Z.land (Z.shiftr b 4) 0x0F in
      if (n =? 0x0F) || (9 <? n) then Ok [] else
      let m := Z.land b 0x0F in
      if (m =? 0x0F) || (9 <? m) then Ok [48 + n] else
      rest ← fsk_digits cid';
      Ok (48 + n :: 48 + m :: rest)
  end.

(** Offset of [cid] in a [FSK_CID]. *)
Definition FSK_CID_cid : Z := 6.

(** The string written for the [FSK_CID] at offset [off] of a buffer. *)
Definition fsk_to_string (buf : list Z) (off : Z) : res (list Z) :=
  fsk_digits (drop (Z.to_nat (off + FSK_CID_cid)) buf).

Definition tppdu2event (tp_pdu : list Z) : res TPPReq_t :=
  (* an event with the first [n] parameter bytes *)
  let params (id : UPILEvent) (n : Z) :=
    d ← slice tp_pdu TPPDU_param n; Ok (TPPReq (u8 id) n d) in
  let plain (id : UPILEvent) := Ok (TPPReq (u8 id) 0 []) in
  cmd ← read_at tp_pdu TPPDU_cmd;
  if (cmd =? TPP_EVT_HOOK_ON) || (cmd =? TPP_EVT_HKS_ON) ||
     (cmd =? TPP_EVT_PARALLEL_ON) || (cmd =? TPP_EVT_VOIP_PHONE_HOOK_ON)
  then plain UPIL_EVT_HFREE_HOOK_ON
  else if (cmd =? TPP_EVT_HOOK_OFF) || (cmd =? TPP_EVT_HKS_OFF) ||
     (cmd =? TPP_EVT_PARALLEL_OFF) || (cmd =? TPP_EVT_VOIP_PHONE_HOOK_OFF)
  then plain UPIL_EVT_HFREE_HOOK_OFF
  else if cmd =? TPP_EVT_BUSY_ON then plain UPIL_EVT_BUSY_ON
  else if cmd =? TPP_EVT_HISTORY_FINISHED then plain UPIL_EVT_HISTORY_FINISHED
  else if cmd =? TPP_MSG_DTMF_TX_FINISHED then plain UPIL_EVT_DIAL_END
  else if cmd =? TPP_MSG_PHONE_STATE then params UPIL_EVT_PHONE_STATE 1
  else if cmd =? TPP_EVT_REDIAL_ON then params UPIL_EVT_REDIAL 1
  else if cmd =? TPP_EVT_KEY_DOWN then params UPIL_EVT_KEY_DOWN 1
  else if cmd =? TPP_EVT_PARALLEL_DTMF_RX then params UPIL_EVT_PARAL_DTMF 1
  else if (cmd =? TPP_EVT_ICM_DTMF_RX) || (cmd =? TPP_EVT_DTMF_RX) then
    cmd_size ← read_at tp_pdu TPPDU_cmd_size;
    params UPIL_EVT_SEC_DTMF_RX (u8 (cmd_size - 1))
  else if cmd =? TPP_EVT_DIALED_TX then params UPIL_EVT_DIALED_TX 1
  else if cmd =? TPP_MSG_HARDWARE_INF then params UPIL_MSG_HW_TYPE 1
  else if cmd =? TPP_MSG_SN then params UPIL_MSG_SERIAL 8
  else if cmd =? TPP_MSG_MANUFACTURER_INF then params UPIL_MSG_VENDOR 8
  else if cmd =? TPP_MSG_VERSION then params UPIL_MSG_VENDOR 1
  else if cmd =? TPP_EVT_RING then plain UPIL_EVT_RING
  else if cmd =? TPP_EVT_FSK_RX then
    s ← fsk_to_string tp_pdu TPPDU_param;
    Ok (TPPReq (u8 UPIL_EVT_CALL_ID) (u8 (len s)) s)
  else plain UPIL_EVT_UNKOWN.

(** ** To the device *)

(** [TPP_CMD_ONEBYTE]: one line with a PDU of one byte. *)
Definition TPP_CMD_ONEBYTE (reply : list Z) (id : Z) : res (list Z) :=
  r ← blit reply 0 [0x03; 0x03; 0xFF; 0x01; 0xCC; 0x05; 0x06; 0x07];
  write_at r 4 (u8 id).

(** [TPP_HIDPDU_INIT] *)
Definition hidpdu_init : list Z := [0x03; 0x01; 0x02; 0x03; 0x04; 0x05; 0x06; 0x07].

(** The loop of [make_cmd]: [data] is the offset of what is left of the PDU,
    [tppdu_size] its size.  A PDU has at most 257 bytes and a line takes six
    of them, so that 64 turns are enough. *)
Fixpoint make_lines (fuel : nat) (pdu : list Z) (data tppdu_size : Z) (reply : list Z)
    (line : Z) : res (Z * list Z) :=
  match fuel with
  | O => Err OutOfFuel
  | S f =>
      if 0 <? tppdu_size then
        let off := line * HIDPDU_LINE_BYTES in
        let n := if TPPDU_LINE_BYTES <? tppdu_size then TPPDU_LINE_BYTES else tppdu_size in
        r ← blit reply off hidpdu_init;
        r ← write_at r (off + 1) n;
        d ← slice pdu data n;
        r ← blit r (off + 2) d;
        make_lines f pdu (data + n) (tppdu_size - n) r (line + 1)
      else Ok (line, reply)
  end.

(** The number of lines, and the buffer with the lines. *)
Definition make_cmd (reply : list Z) (id : Z) (param : list Z) (param_s : Z) : res (Z * list Z) :=
  let pdu := zero_pdu in
  let cmd_size := u8 (1 + param_s) in
  pdu ← blit pdu TPPDU_flag [TP_FLAG; cmd_size; u8 id];
  p ← slice param 0 param_s;
  pdu ← blit pdu TPPDU_param p;
  make_lines 64 pdu 0 (cmd_size + 2) reply 0.

(** The code of a key of a telephone number. *)
Definition dial_code (c : Z) : option Z :=
  if c =? 42 then Some 0xA          (* '*' *)
  else if c =? 35 then Some 0xB     (* '#' *)
  else if c =? 80 then Some 0xC     (* 'P' *)
  else if c =? 66 then Some 0xD     (* 'B' *)
  else if c =? 67 then Some 0xE     (* 'C' *)
  else if (48 <=? c) && (c <=? 57) then Some (c - 48)
  else None.

Fixpoint dial_loop (number reply : list Z) (result : Z) : res (Z * list Z) :=
  match number with
  | [] => Ok (result, reply)
  | c :: number' =>
      match dial_code c with
      | Some d =>
          r ← write_at reply result d;
          dial_loop number' r (u8 (result + 1))
      | None => dial_loop number' reply result
      end
  end.

Definition make_dial_param (reply : list Z) (speed : Z) (number : list Z) : res (Z * list Z) :=
  r ← write_at reply 0 speed;
  dial_loop number r 1.

(** The fields of [struct tm] the code reads. *)
Record tm := mkTm {
  tm_year : Z; tm_mon : Z; tm_mday : Z; tm_hour : Z; tm_min : Z; tm_sec : Z;
}.

(** The year since 2000, the month from 1, and the rest of the date. *)
Definition time_bytes (p : tm) : list Z :=
  [u8 (1900 + tm_year p - 2000); u8 (1 + tm_mon p); u8 (tm_mday p);
   u8 (tm_hour p); u8 (tm_min p); u8 (tm_sec p)].

(** The lines of a request: their number, 0 for a request without a command. *)
Definition request2pdu (now : tm) (reply : list Z) (request : TPPReq_t) : res (Z * list Z) :=
  let id := req_id request in
  let one (cmd : TPCmd) := r ← TPP_CMD_ONEBYTE reply cmd; Ok (1, r) in
  if id =? UPIL_CTL_USB_ON then one TPP_CTL_USB_RUN
  else if id =? UPIL_CTL_HANDFREE_ON then one TPP_CTL_PCHOOK_ON
  else if id =? UPIL_CTL_HANDFREE_OFF then one TPP_CTL_PCHOOK_OFF
  else if id =? UPIL_ASK_HARDWARE_INF then one TPP_ASK_HARDWARE_INF
  else if id =? UPIL_ASK_PHONE_STATE then one TPP_ASK_PHONE_STATE
  else if id =? UPIL_ASK_READ_SN then one TPP_ASK_READ_SN
  else if id =? UPIL_ASK_GET_VERSION then one TPP_ASK_GET_VERSION
  else if id =? UPIL_ASK_RECORD_UP then one TPP_ASK_RECORD
  else if id =? UPIL_CTL_RINGER_OFF then one TPP_CTL_RINGER_OFF
  else if id =? UPIL_CTL_RECORD_LINE_PLAY_ON then one TPP_CTL_RECORD_LINE_PLAY_ON
  else if id =? UPIL_CTL_RECORD_LINE_PLAY_OFF then one TPP_CTL_RECORD_LINE_PLAY_OFF
  else if id =? UPIL_ASK_BUSY_TONE then one TPP_CTL_BUSY_TONE
  else if id =? UPIL_CTL_SET_TIME then
    if req_data_size request =? 0
    then make_cmd reply TPP_CTL_SET_TIME (time_bytes now) 6
    else make_cmd reply TPP_CTL_SET_TIME (req_data request) (req_data_size request)
  else if id =? UPIL_ASK_DTMF_TX then
    number ← cstr (req_data request);
    '(param_size, param) ← make_dial_param zero_pdu 0x64 number;
    if 0 <? param_size then make_cmd reply TPP_ASK_DTMF_TX param param_size
    else Ok (0, reply)
  else Ok (0, reply).

(** ** The static state and the device *)

Record device := Device {
  s_pdu_buf : list Z;
  s_pdu_offset : Z;
  broadcasts : Z;            (* signals of s_cmd_completed_cond *)
  dev_out : list (list Z);   (* lines written, the first one first *)
  dev_write : list Z → Z;    (* what write() returns for a line *)
  dev_acks : list Z → bool;  (* the signal after a line comes in its wait *)
  dev_time : tm;             (* what localtime() returns *)
}.

Abbreviation MD := (M device).

Definition set_pdu (buf : list Z) (off : Z) (d : device) : device :=
  Device buf off (broadcasts d) (dev_out d) (dev_write d) (dev_acks d)
    (dev_time d).
Definition dev_broadcast (d : device) : device :=
  Device (s_pdu_buf d) (s_pdu_offset d) (broadcasts d + 1) (dev_out d) (dev_write d) (dev_acks d)
    (dev_time d).
Definition dev_wrote (line : list Z) (d : device) : device :=
  Device (s_pdu_buf d) (s_pdu_offset d) (broadcasts d) (dev_out d ++ [line])
    (dev_write d) (dev_acks d) (dev_time d).

(** [memset(s_pdu_buf, 0, s_pdu_offset); s_pdu_offset = 0] *)
Definition reset_pdu : MD unit :=
  d ← get;
  b ← lift (blit (s_pdu_buf d) 0 (replicate (Z.to_nat (s_pdu_offset d)) 0));
  modify (set_pdu b 0).

(** Adds the HID line at offset [off] of [data] to the PDU: the result and,
    when it is 1, the event. *)
Definition hidpdu2event (data : list Z) (off : Z) : MD (Z * option TPPReq_t) :=
  flag ← lift (read_at data off);
  if flag =? HID_FLAG then
    tp_size ← lift (read_at data (off + 1));
    bytes ← lift (slice data (off + 2) tp_size);
    d ← get;
    buf ← lift (blit (s_pdu_buf d) (s_pdu_offset d) bytes);
    let index := s_pdu_offset d + tp_size in
    modify (set_pdu buf index);;
    if 0 <? tp_size then
      result ← lift (check_tppdu buf index);
      if 0 <? result then
        event ← lift (tppdu2event buf);
        mret (1, Some event)
      else if result <? 0 then mret (-1, None)
      else mret (0, None)
    else mret (0, None)
  else mret (-1, None).

(** The lines of a command, one [write] each, and a wait for its
    confirmation. *)
Fixpoint write_lines (reply : list Z) (i : Z) (count : nat) : MD Z :=
  match count with
  | O => mret 0
  | S count' =>
      line ← lift (slice reply (i * HIDPDU_LINE_BYTES) HIDPDU_LINE_BYTES);
      w ← gets dev_write;
      modify (dev_wrote line);;
      if negb (w line =? HIDPDU_LINE_BYTES) then mret (-1) else
      acked ← gets (λ d, dev_acks d line);
      if (acked : bool) then write_lines reply (i + 1) count' else fail Blocked
  end.

Definition tpp_send_cmd (req : Z) (data : option (list Z)) (data_size : Z) : MD Z :=
  bytes ← lift (if data_size =? 0 then Ok [] else b ← deref data; slice b 0 data_size);
  req_bytes ← lift (blit (replicate 512 0) 0 bytes);
  t ← gets dev_time;
  '(line, reply) ← lift (request2pdu t zero_pdu (TPPReq (u8 req) (u8 data_size) req_bytes));
  write_lines reply 0 (Z.to_nat line).
