(* ===== verification/TpProofs.v ===== *)
(** * Properties of the telephone protocol

    A PDU is cut into lines ([hid_lines]) that the receiving side puts
    together again; the parameters of a dial command are the codes of the
    keys; and the bounds within which no buffer is overrun. *)

From S2P Require Import Prelude CString Messages TpProtocol.

(** ** Lines *)

(** The line that carries the bytes [c], at most six of them. *)
Definition hid_line (c : list Z) : list Z :=
  HID_FLAG :: len c :: c ++ drop (length c) [2; 3; 4; 5; 6; 7].

Fixpoint hid_lines (fuel : nat) (b : list Z) : list (list Z) :=
  match fuel, b with
  | S f, _ :: _ => hid_line (take 6 b) :: hid_lines f (drop 6 b)
  | _, _ => []
  end.

Lemma hid_line_length c : (length c ≤ 6)%nat → length (hid_line c) = 8%nat.
Proof. intros H. unfold hid_line. simpl. rewrite length_app, length_drop. simpl. lia. Qed.

Lemma hid_lines_length fuel b : Forall (λ l, length l = 8%nat) (hid_lines fuel b).
Proof.
  revert b. induction fuel as [|f IH]; intros [|x b]; simpl; try constructor; [|apply IH].
  apply (hid_line_length (x :: take 5 b)). simpl. rewrite length_take. lia.
Qed.

Lemma concat_length8 (ls : list (list Z)) :
  Forall (λ l, length l = 8%nat) ls → len (concat ls) = 8 * len ls.
Proof.
  induction 1 as [|l ls Hl _ IH]; [done|]. simpl. rewrite len_app, len_cons, IH.
  unfold len at 1. rewrite Hl. lia.
Qed.

(** Bytes written over the start of the rest of a buffer. *)
Lemma blit_at {A} (pre src rest : list A) off :
  off = len pre → len src ≤ len rest →
  blit (pre ++ rest) off src = Ok (pre ++ src ++ drop (length src) rest).
Proof. intros -> H. rewrite blit_prefix by done. by rewrite <-app_assoc. Qed.

(** The four stores that make a line. *)
Lemma line_ok (pre rest c : list Z) off :
  off = len pre → (1 ≤ length c ≤ 6)%nat → 8 ≤ len rest →
  (r ← blit (pre ++ rest) off hidpdu_init;
   r ← write_at r (off + 1) (len c);
   blit r (off + 2) c) = Ok (pre ++ hid_line c ++ drop 8 rest).
Proof.
  intros -> Hc Hr. rewrite (blit_at pre hidpdu_init rest) by (done || (simpl; lia)).
  unfold write_at. cbn [mbind res_bind].
  assert (pre ++ hidpdu_init ++ drop (length hidpdu_init) rest =
    (pre ++ [3]) ++ 1 :: [2; 3; 4; 5; 6; 7] ++ drop 8 rest) as -> by (by rewrite <-app_assoc).
  rewrite blit_at; [|rewrite len_app; done|rewrite !len_cons, len_nil; pose proof
    (len_nonneg ([2; 3; 4; 5; 6; 7] ++ drop 8 rest)); lia].
  cbn [mbind res_bind length drop app].
  assert ((pre ++ [3]) ++ len c :: 2 :: 3 :: 4 :: 5 :: 6 :: 7 :: drop 8 rest =
    (pre ++ [3; len c]) ++ [2; 3; 4; 5; 6; 7] ++ drop 8 rest) as -> by (by rewrite <-!app_assoc).
  rewrite blit_at; [|rewrite len_app; done|].
  2:{ rewrite len_app, len_drop. unfold len in *. simpl. lia. }
  rewrite drop_app_le by (simpl; lia). unfold hid_line.
  rewrite <-app_assoc. cbn [app]. by rewrite <-app_assoc.
Qed.

Lemma make_lines_ok fuel pdu data b pre rest line :
  slice pdu data (len b) = Ok b → 0 ≤ data → len pre = 8 * line →
  8 * len (hid_lines fuel b) ≤ len rest → (length b < fuel)%nat →
  make_lines fuel pdu data (len b) (pre ++ rest) line =
    Ok (line + len (hid_lines fuel b),
        pre ++ concat (hid_lines fuel b) ++ drop (8 * length (hid_lines fuel b)) rest).
Proof.
  revert data b pre rest line. induction fuel as [|f IH]; intros data b pre rest line Hb Hd Hpre Hr Hf;
    [lia|].
  destruct b as [|x b].
  { unfold len. simpl. by rewrite Z.add_0_r. }
  cbn [make_lines]. set (c := take 6 (x :: b)). set (b' := drop 6 (x :: b)).
  assert (x :: b = c ++ b') as Eb by (unfold c, b'; by rewrite take_drop).
  assert (1 ≤ length c ≤ 6)%nat as Hc. { unfold c. rewrite length_take. cbn [length]. lia. }
  assert (len (x :: b) = len c + len b') as El by (by rewrite Eb, len_app).
  pose proof (len_nonneg b'). assert (1 ≤ len c ≤ 6) as Hcz by (unfold len; lia).
  rewrite (proj2 (Z.ltb_lt _ _)) by lia.
  assert ((if TPPDU_LINE_BYTES <? len (x :: b) then TPPDU_LINE_BYTES else len (x :: b)) = len c) as ->.
  { unfold TPPDU_LINE_BYTES, c. rewrite len_take.
    destruct (Z.ltb_spec 6 (len (x :: b))); lia. }
  assert (hid_lines (S f) (x :: b) = hid_line c :: hid_lines f b') as El' by done.
  rewrite El' in *. rewrite len_cons in Hr.
  assert (slice pdu data (len c) = Ok c ∧ slice pdu (data + len c) (len b') = Ok b') as [Hs1 Hs2].
  { unfold slice in *. case_decide as Hb1; [|done]. injection Hb as Hb. rewrite El in Hb1.
    rewrite !decide_True by lia. split; f_equal.
    - assert (take (length c) (take (Z.to_nat (len (x :: b))) (drop (Z.to_nat data) pdu)) = c) as Ht.
      { rewrite Hb, Eb. apply take_app_length. }
      rewrite take_take in Ht. unfold len in *. rewrite Nat2Z.id in *.
      rewrite Nat.min_l in Ht by lia. done.
    - assert (drop (length c) (take (Z.to_nat (len (x :: b))) (drop (Z.to_nat data) pdu)) = b') as Ht.
      { rewrite Hb, Eb. apply drop_app_length. }
      rewrite skipn_firstn_comm, drop_drop in Ht. rewrite <-Ht at 2. f_equal; [unfold len in *; lia|].
      f_equal. unfold len. lia. }
  pose proof (line_ok pre rest c (line * HIDPDU_LINE_BYTES)) as Hline.
  unfold HIDPDU_LINE_BYTES in *.
  assert (8 ≤ len rest) as Hr8. { pose proof (len_nonneg (hid_lines f b')). lia. }
  specialize (Hline ltac:(lia) Hc Hr8).
  assert (∀ k : list Z → res (Z * list Z),
    (r ← blit (pre ++ rest) (line * 8) hidpdu_init; r ← write_at r (line * 8 + 1) (len c);
     d ← slice pdu data (len c); r ← blit r (line * 8 + 2) d; k r) =
    k (pre ++ hid_line c ++ drop 8 rest)) as ->.
  { intros k. rewrite Hs1. revert Hline. unfold mbind, res_bind.
    destruct (blit (pre ++ rest) (line * 8) hidpdu_init); [|done].
    destruct (write_at a (line * 8 + 1) (len c)); [|done]. by intros ->. }
  rewrite app_assoc. replace (len (x :: b) - len c) with (len b') by lia.
  assert (len (hid_line c) = 8) as Hl8 by (unfold len; by rewrite hid_line_length by lia).
  rewrite IH; [|done|lia|rewrite len_app; lia|rewrite len_drop; lia|].
  2:{ assert (length (x :: b) = (length c + length b')%nat) by (by rewrite Eb, length_app).
      simpl in Hf. simpl in *. lia. }
  cbn [concat length]. rewrite len_cons, drop_drop. f_equal. f_equal; [lia|].
  rewrite <-!app_assoc. do 4 f_equal. lia.
Qed.

Lemma hid_lines_count fuel b : 6 * len (hid_lines fuel b) ≤ len b + 5.
Proof.
  revert b. induction fuel as [|f IH]; intros [|x b]; cbn [hid_lines];
    rewrite ?len_nil; try (pose proof (len_nonneg (x :: b)); lia); [unfold len; simpl; lia..|].
  rewrite len_cons. specialize (IH (drop 6 (x :: b))). rewrite len_drop in IH.
  destruct (decide (length (x :: b) ≤ 6)%nat).
  - rewrite drop_ge in * by done. assert (hid_lines f [] = []) as -> by (by destruct f).
    rewrite len_cons, len_nil. pose proof (len_nonneg b). lia.
  - unfold len in *. lia.
Qed.

(** The PDU of a command with [n] bytes of parameters. *)
Definition cmd_pdu (id : Z) (param : list Z) (n : Z) : list Z :=
  TP_FLAG :: u8 (1 + n) :: u8 id :: take (Z.to_nat n) param.

Lemma cmd_pdu_len id param n : 0 ≤ n ≤ len param → len (cmd_pdu id param n) = n + 3.
Proof. intros H. unfold cmd_pdu. rewrite !len_cons, len_take. lia. Qed.

(** Ten lines hold a PDU of sixty bytes. *)
Lemma make_cmd_ok id param n :
  0 ≤ n ≤ 57 → n ≤ len param →
  let ls := hid_lines 64 (cmd_pdu id param n) in
  make_cmd zero_pdu id param n =
    Ok (len ls, concat ls ++ drop (8 * length ls) zero_pdu).
Proof.
  intros Hn Hp ls. set (b := cmd_pdu id param n) in *.
  assert (len b = n + 3) as Hb by (by apply cmd_pdu_len; lia).
  assert (u8 (1 + n) + 2 = len b) as Eb by (rewrite u8_small by lia; lia).
  assert (∀ k : list Z → res (Z * list Z),
    (pdu ← blit zero_pdu TPPDU_flag [TP_FLAG; u8 (1 + n); u8 id];
     p ← slice param 0 n; pdu ← blit pdu TPPDU_param p; k pdu) =
    k (b ++ drop (length b) zero_pdu)) as Hk.
  { intros k.
    pose proof (blit_at [] [TP_FLAG; u8 (1 + n); u8 id] zero_pdu TPPDU_flag eq_refl) as E1.
    change ([] ++ zero_pdu) with zero_pdu in E1. rewrite E1 by (by vm_compute).
    cbn [mbind res_bind app]. rewrite slice_ok by lia. cbn [mbind res_bind]. rewrite drop_0.
    set (p := take (Z.to_nat n) param).
    assert (len p = n) as Hlp by (unfold p; rewrite len_take; lia).
    rewrite (blit_at [TP_FLAG; u8 (1 + n); u8 id] p (drop 3 zero_pdu)); [|done|].
    2:{ rewrite Hlp, len_drop. unfold zero_pdu. rewrite len_replicate. lia. }
    cbn [mbind res_bind]. done. }
  unfold make_cmd. cbv zeta. rewrite Hk, Eb.
  pose proof (hid_lines_count 64 b) as Hc. fold ls in Hc.
  assert (∀ l : list Z, make_lines 64 (b ++ drop (length b) zero_pdu) 0 (len b) l 0 =
    make_lines 64 (b ++ drop (length b) zero_pdu) 0 (len b) ([] ++ l) 0) as -> by done.
  rewrite make_lines_ok; [done| |lia|done| |].
  - apply slice_prefix.
  - fold ls. unfold zero_pdu. rewrite len_replicate. lia.
  - unfold len in Hb. lia.
Qed.

(** ** Receiving lines *)

(** Lines are given to [hidpdu2event] one after the other: the results. *)
Fixpoint feed (ls : list (list Z)) : MD (list (Z * option TPPReq_t)) :=
  match ls with
  | [] => mret []
  | l :: ls' => r ← hidpdu2event l 0; rs ← feed ls'; mret (r :: rs)
  end.

(** The state after the bytes [b] of a PDU have come in. *)
Definition received (b : list Z) (d : device) : device :=
  set_pdu (b ++ drop (length b) zero_pdu) (len b) d.

Lemma received_step b c d k :
  len b + len c ≤ 80 → (1 ≤ length c ≤ 6)%nat →
  check_tppdu ((b ++ c) ++ drop (length (b ++ c)) zero_pdu) (len (b ++ c)) = Ok k →
  hidpdu2event (hid_line c) 0 (received b d) =
    (if 0 <? k then
       match tppdu2event ((b ++ c) ++ drop (length (b ++ c)) zero_pdu) with
       | Ok e => Ok ((1, Some e), received (b ++ c) d)
       | Err f => Err f
       end
     else Ok ((if k <? 0 then -1 else 0, None), received (b ++ c) d)).
Proof.
  intros Hlen Hc Hk. unfold hidpdu2event.
  assert (read_at (hid_line c) 0 = Ok HID_FLAG) as E0 by done.
  assert (read_at (hid_line c) 1 = Ok (len c)) as E1 by done.
  assert (slice (hid_line c) 2 (len c) = Ok c) as E2.
  { pose proof (slice_middle [HID_FLAG; len c] c (drop (length c) [2; 3; 4; 5; 6; 7])) as E.
    exact E. }
  rewrite E0. erewrite bind_ok by done. cbn [Z.eqb]. change (0 + 1) with 1. change (0 + 2) with 2.
  rewrite (proj2 (Z.eqb_eq _ _)) by done. rewrite E1.
  erewrite bind_ok by done. rewrite E2. erewrite bind_ok by done. erewrite bind_ok by done.
  cbn [s_pdu_buf s_pdu_offset received set_pdu].
  rewrite (blit_at b c (drop (length b) zero_pdu)); [|done|].
  2:{ rewrite len_drop. unfold zero_pdu. rewrite len_replicate. fold (len b). unfold len in *. lia. }
  erewrite bind_ok by done. erewrite bind_ok by done.
  rewrite (proj2 (Z.ltb_lt 0 (len c))) by (unfold len; lia).
  assert (b ++ c ++ drop (length c) (drop (length b) zero_pdu) =
    (b ++ c) ++ drop (length (b ++ c)) zero_pdu) as ->.
  { rewrite drop_drop, length_app, <-app_assoc. done. }
  rewrite <-len_app, Hk. erewrite bind_ok by done.
  unfold received. destruct (0 <? k).
  - destruct (tppdu2event _); done.
  - by destruct (k <? 0).
Qed.

(** How far a PDU is complete. *)
Lemma check_prefix b size rest k :
  b = TP_FLAG :: size :: rest → len b ≤ size + 2 →
  check_tppdu (b ++ k) (len b) = Ok (if len b =? size + 2 then 1 else 0).
Proof.
  intros -> Hlen. unfold check_tppdu. pose proof (len_nonneg rest).
  rewrite !len_cons in *. rewrite (proj2 (Z.leb_gt _ _)) by lia.
  cbn [app]. assert (read_at (TP_FLAG :: size :: rest ++ k) TPPDU_flag = Ok TP_FLAG) as -> by done.
  cbn [mbind res_bind]. rewrite (proj2 (Z.eqb_eq TP_FLAG TP_FLAG)) by done. cbn [negb].
  rewrite (proj2 (Z.ltb_ge _ _)) by lia.
  assert (read_at (TP_FLAG :: size :: rest ++ k) TPPDU_cmd_size = Ok size) as -> by done.
  cbn [mbind res_bind].
  destruct (Z.eqb_spec (1 + (1 + len rest)) (size + 2)).
  - rewrite (proj2 (Z.eqb_eq (size + 2 - _) 0)) by lia. done.
  - rewrite (proj2 (Z.eqb_neq (size + 2 - _) 0)) by lia. cbn [negb].
    by rewrite (proj2 (Z.ltb_lt _ _)) by lia.
Qed.

Lemma feed_ok fuel b1 b2 size rest d e :
  b1 ++ b2 = TP_FLAG :: size :: rest → len rest = size → size ≤ 78 → b2 ≠ [] →
  (length b2 < fuel)%nat →
  tppdu2event ((b1 ++ b2) ++ drop (length (b1 ++ b2)) zero_pdu) = Ok e →
  feed (hid_lines fuel b2) (received b1 d) =
    Ok (replicate (length (hid_lines fuel b2) - 1) (0, None) ++ [(1, Some e)],
        received (b1 ++ b2) d).
Proof.
  revert b1 b2. induction fuel as [|f IH]; intros b1 b2 Hb Hs Hmax Hne Hf He; [lia|].
  destruct b2 as [|x b2]; [done|].
  set (c := take 6 (x :: b2)). set (b' := drop 6 (x :: b2)).
  assert (x :: b2 = c ++ b') as Eb by (unfold c, b'; by rewrite take_drop).
  assert (1 ≤ length c ≤ 6)%nat as Hc. { unfold c. rewrite length_take. cbn [length]. lia. }
  assert (len (b1 ++ c) + len b' = size + 2) as Hlen.
  { rewrite <-len_app, <-app_assoc, <-Eb, Hb, !len_cons. lia. }
  pose proof (len_nonneg b').
  assert (2 ≤ len (b1 ++ c)) as H2.
  { destruct (decide (length (x :: b2) ≤ 6)%nat).
    - assert (b' = []) as E' by (by apply drop_ge). rewrite E', len_nil in Hlen.
      pose proof (len_nonneg rest). lia.
    - assert (length c = 6%nat) by (unfold c; rewrite length_take; lia).
      rewrite len_app. unfold len. lia. }
  assert (∃ rest', b1 ++ c = TP_FLAG :: size :: rest') as [rest' Hr].
  { rewrite Eb, app_assoc in Hb. destruct (b1 ++ c) as [|u [|v w]] eqn:E.
    - rewrite len_nil in H2. lia.
    - unfold len in H2. simpl in H2. lia.
    - injection Hb as -> -> _. by exists w. }
  assert (hid_lines (S f) (x :: b2) = hid_line c :: hid_lines f b') as El by done.
  rewrite El. cbn [feed].
  pose proof (check_prefix (b1 ++ c) size rest' (drop (length (b1 ++ c)) zero_pdu) Hr ltac:(lia)) as Hk.
  pose proof (received_step b1 c d _ ltac:(rewrite <-len_app; lia) Hc Hk) as Hstep.
  destruct b' as [|y b''].
  - rewrite app_nil_r in Eb. rewrite Eb in *. rewrite len_nil in Hlen.
    rewrite (proj2 (Z.eqb_eq _ _)) in Hstep by lia. cbn [Z.ltb Z.compare] in Hstep.
    rewrite He in Hstep. erewrite bind_ok by exact Hstep.
    by destruct f.
  - assert (len (b1 ++ c) ≠ size + 2) as Hneq.
    { rewrite len_cons in Hlen. pose proof (len_nonneg b''). lia. }
    rewrite (proj2 (Z.eqb_neq _ _)) in Hstep by done. cbn [Z.ltb Z.compare] in Hstep.
    erewrite bind_ok by exact Hstep.
    assert (b1 ++ x :: b2 = (b1 ++ c) ++ y :: b'') as Eapp by (by rewrite <-app_assoc, <-Eb).
    rewrite Eapp in *.
    erewrite bind_ok.
    2:{ apply IH; [done|done|done|done| |done].
        assert (length (x :: b2) = length c + length (y :: b''))%nat as El2
          by (by rewrite Eb, length_app). cbn [length] in *. lia. }
    assert (∃ m, length (hid_lines f (y :: b'')) = S m) as [m Em].
    { destruct f; [|simpl; eauto].
      assert (length (x :: b2) = length c + length (y :: b''))%nat as El2
          by (by rewrite Eb, length_app). cbn [length] in *. lia. }
    cbn [length]. rewrite Em. simpl. by rewrite Nat.sub_0_r.
Qed.

(** ** Numbers *)

(** The key of a code. *)
Definition dial_key (d : Z) : option Z :=
  if d =? 0xA then Some 42 else if d =? 0xB then Some 35 else if d =? 0xC then Some 80
  else if d =? 0xD then Some 66 else if d =? 0xE then Some 67
  else if (0 <=? d) && (d <=? 9) then Some (d + 48) else None.

Definition dialable (c : Z) : Prop := is_Some (dial_code c).
#[export] Instance dialable_dec c : Decision (dialable c).
Proof. apply _. Defined.

Lemma dial_key_code c d : dial_code c = Some d → dial_key d = Some c ∧ 0 ≤ d < 16.
Proof.
  unfold dial_code. repeat case_eqb; try (intros [= <-]; subst; done).
  destruct (Z.leb_spec 48 c), (Z.leb_spec c 57); try done. intros [= <-]. split; [|lia].
  unfold dial_key. rewrite !(proj2 (Z.eqb_neq _ _)) by lia.
  rewrite (proj2 (Z.leb_le _ _)), (proj2 (Z.leb_le _ _)) by lia. simpl. f_equal. lia.
Qed.

Lemma omap_cons_eq {A B} (f : A → option B) (x : A) (l : list A) :
  omap f (x :: l) = match f x with Some y => y :: omap f l | None => omap f l end.
Proof. done. Qed.

Lemma dial_keys (number : list Z) : omap dial_key (omap dial_code number) = filter dialable number.
Proof.
  induction number as [|c number IH]; [done|]. rewrite filter_cons, (omap_cons_eq dial_code).
  destruct (dial_code c) as [d|] eqn:E.
  - rewrite decide_True by (by exists d). rewrite omap_cons_eq. destruct (dial_key_code _ _ E) as [-> _].
    by rewrite IH.
  - rewrite decide_False by (unfold dialable; rewrite E; by intros []). done.
Qed.

Lemma dial_loop_ok (number done : list Z) n :
  len done + len (omap dial_code number) ≤ 80 → (n = 80 - length done)%nat →
  dial_loop number (done ++ replicate n 0) (len done) =
    Ok (len done + len (omap dial_code number),
        done ++ omap dial_code number ++ replicate (n - length (omap dial_code number)) 0).
Proof.
  revert done n. induction number as [|c number IH]; intros done n Hlen Hn; cbn [dial_loop].
  { simpl. by rewrite Z.add_0_r, Nat.sub_0_r. }
  rewrite omap_cons_eq in *. destruct (dial_code c) as [d|]; [|by apply IH].
  rewrite len_cons in *. pose proof (len_nonneg (omap dial_code number)).
  pose proof (len_nonneg done) as Hnn.
  destruct n as [|n]; [unfold len in *; lia|].
  unfold write_at. cbn [replicate].
  rewrite (blit_at done [d] (0 :: replicate n 0)); [|done|].
  2:{ rewrite !len_cons, len_nil. pose proof (len_nonneg (replicate n 0)). lia. }
  cbn [mbind res_bind length drop app].
  rewrite drop_0, u8_small by lia.
  replace (done ++ d :: replicate n 0) with ((done ++ [d]) ++ replicate n 0)
    by (by rewrite <-app_assoc).
  replace (len done + 1) with (len (done ++ [d])) by (rewrite len_app; done).
  rewrite IH.
  - rewrite len_app, <-app_assoc. cbn [app length].
    f_equal. f_equal. change (len [d]) with 1. lia.
  - rewrite len_app. change (len [d]) with 1. lia.
  - rewrite length_app. simpl. lia.
Qed.

Lemma dial_loop_over (number done : list Z) n :
  80 < len done + len (omap dial_code number) → (n = 80 - length done)%nat → len done ≤ 80 →
  dial_loop number (done ++ replicate n 0) (len done) = Err Overrun.
Proof.
  revert done n. induction number as [|c number IH]; intros done n Hlen Hn Hd; cbn [dial_loop].
  { simpl in Hlen. rewrite len_nil in Hlen. lia. }
  rewrite omap_cons_eq in *. destruct (dial_code c) as [d|]; [|by apply IH].
  rewrite len_cons in *. unfold write_at. pose proof (len_nonneg done).
  destruct (decide (len done = 80)) as [E80|Hlt].
  - destruct n as [|n]; [|unfold len in *; lia]. unfold blit. rewrite decide_False; [done|].
    rewrite len_app. change (len [d]) with 1. unfold len in *. simpl. lia.
  - destruct n as [|n]; [unfold len in *; lia|]. cbn [replicate].
    rewrite (blit_at done [d] (0 :: replicate n 0)); [|done|].
    2:{ rewrite !len_cons, len_nil. pose proof (len_nonneg (replicate n 0)). lia. }
    cbn [mbind res_bind length drop app]. rewrite drop_0, u8_small by lia.
    replace (done ++ d :: replicate n 0) with ((done ++ [d]) ++ replicate n 0)
      by (by rewrite <-app_assoc).
    replace (len done + 1) with (len (done ++ [d])) by (rewrite len_app; done).
    apply IH.
    + rewrite len_app. change (len [d]) with 1. lia.
    + rewrite length_app. simpl. lia.
    + rewrite len_app. change (len [d]) with 1. lia.
Qed.

Lemma dial_param_ok speed (number : list Z) :
  len (omap dial_code number) ≤ 79 →
  make_dial_param zero_pdu speed number =
    Ok (1 + len (omap dial_code number),
        speed :: omap dial_code number ++ replicate (79 - length (omap dial_code number)) 0).
Proof.
  intros Hlen. unfold make_dial_param.
  assert (write_at zero_pdu 0 speed = Ok ([speed] ++ replicate 79 0)) as -> by done.
  cbn [mbind res_bind]. pose proof (dial_loop_ok number [speed] 79) as H.
  change (len [speed]) with 1 in H. rewrite H; [done|lia|done].
Qed.

(** ** Requests *)

(** The PDU of a request: the command, and its parameters if it has any. *)
Definition plain_commands : list (Z * TPCmd) :=
  [(UPILReq_val UPIL_CTL_USB_ON, TPP_CTL_USB_RUN);
   (UPILReq_val UPIL_CTL_HANDFREE_ON, TPP_CTL_PCHOOK_ON);
   (UPILReq_val UPIL_CTL_HANDFREE_OFF, TPP_CTL_PCHOOK_OFF);
   (UPILReq_val UPIL_ASK_HARDWARE_INF, TPP_ASK_HARDWARE_INF);
   (UPILReq_val UPIL_ASK_PHONE_STATE, TPP_ASK_PHONE_STATE);
   (UPILReq_val UPIL_ASK_READ_SN, TPP_ASK_READ_SN);
   (UPILReq_val UPIL_ASK_GET_VERSION, TPP_ASK_GET_VERSION);
   (UPILReq_val UPIL_ASK_RECORD_UP, TPP_ASK_RECORD);
   (UPILReq_val UPIL_CTL_RINGER_OFF, TPP_CTL_RINGER_OFF);
   (UPILReq_val UPIL_CTL_RECORD_LINE_PLAY_ON, TPP_CTL_RECORD_LINE_PLAY_ON);
   (UPILReq_val UPIL_CTL_RECORD_LINE_PLAY_OFF, TPP_CTL_RECORD_LINE_PLAY_OFF);
   (UPILReq_val UPIL_ASK_BUSY_TONE, TPP_CTL_BUSY_TONE)].

Fixpoint find_command (id : Z) (table : list (Z * TPCmd)) : option TPCmd :=
  match table with
  | [] => None
  | (k, c) :: table' => if id =? k then Some c else find_command id table'
  end.

(** [number] is the string in the data of a dial request. *)
Definition request_pdu (now : tm) (r : TPPReq_t) (number : list Z) : option (list Z) :=
  match find_command (req_id r) plain_commands with
  | Some c => Some [TP_FLAG; 1; u8 c]
  | None =>
      if req_id r =? UPIL_CTL_SET_TIME then
        Some (if req_data_size r =? 0 then cmd_pdu TPP_CTL_SET_TIME (time_bytes now) 6
              else cmd_pdu TPP_CTL_SET_TIME (req_data r) (req_data_size r))
      else if req_id r =? UPIL_ASK_DTMF_TX then
        let codes := omap dial_code number in
        Some (TP_FLAG :: u8 (2 + len codes) :: u8 TPP_ASK_DTMF_TX :: 0x64 :: codes)
      else None
  end.

Definition request_lines (now : tm) (r : TPPReq_t) (number : list Z) : list (list Z) :=
  match request_pdu now r number with Some b => hid_lines 64 b | None => [] end.

Lemma onebyte_ok id :
  TPP_CMD_ONEBYTE zero_pdu id =
    Ok (concat (hid_lines 64 [TP_FLAG; 1; u8 id]) ++
        drop (8 * length (hid_lines 64 [TP_FLAG; 1; u8 id])) zero_pdu).
Proof. done. Qed.

Lemma request2pdu_ok now r number :
  cstr (req_data r) = Ok number → len (omap dial_code number) ≤ 56 →
  0 ≤ req_data_size r ≤ 57 → req_data_size r ≤ len (req_data r) →
  let ls := request_lines now r number in
  request2pdu now zero_pdu r = Ok (len ls, concat ls ++ drop (8 * length ls) zero_pdu).
Proof.
  intros Hn Hc Hs Hl. cbv zeta. unfold request2pdu, request_lines, request_pdu. cbv zeta.
  unfold plain_commands. cbn [find_command].
  do 12 (match goal with |- context [req_id r =? ?k] => destruct (req_id r =? k) end;
    [by rewrite onebyte_ok|]).
  destruct (req_id r =? UPIL_CTL_SET_TIME).
  { destruct (req_data_size r =? 0); [|by apply make_cmd_ok; lia].
    apply (make_cmd_ok TPP_CTL_SET_TIME (time_bytes now) 6); [lia|by vm_compute]. }
  destruct (req_id r =? UPIL_ASK_DTMF_TX); [|done].
  rewrite Hn. cbn [mbind res_bind]. rewrite dial_param_ok by lia. cbn [mbind res_bind].
  set (codes := omap dial_code number) in *. pose proof (len_nonneg codes).
  rewrite (proj2 (Z.ltb_lt _ _)) by lia.
  rewrite make_cmd_ok; [|lia|].
  2:{ rewrite len_cons, len_app, len_replicate. unfold len in *. lia. }
  assert (cmd_pdu TPP_ASK_DTMF_TX (0x64 :: codes ++ replicate (79 - length codes) 0) (1 + len codes)
    = TP_FLAG :: u8 (2 + len codes) :: u8 TPP_ASK_DTMF_TX :: 0x64 :: codes) as ->; [|done].
  unfold cmd_pdu. replace (1 + (1 + len codes)) with (2 + len codes) by lia. do 3 f_equal.
  replace (Z.to_nat (1 + len codes)) with (S (length codes)) by (unfold len; lia).
  cbn [take]. f_equal. by rewrite take_app_length.
Qed.

(** ** Sending *)

(** The lines that are written until a write fails or a confirmation does not
    come, and what this gives. *)
Fixpoint written_lines (d : device) (ls : list (list Z)) : list (list Z) * res Z :=
  match ls with
  | [] => ([], Ok 0)
  | l :: ls' =>
      if negb (dev_write d l =? HIDPDU_LINE_BYTES) then ([l], Ok (-1))
      else if dev_acks d l then let '(k, r) := written_lines d ls' in (l :: k, r)
      else ([l], Err Blocked)
  end.

Definition wrote (ls : list (list Z)) (d : device) : device :=
  Device (s_pdu_buf d) (s_pdu_offset d) (broadcasts d) (dev_out d ++ ls) (dev_write d) (dev_acks d) (dev_time d).

(** The device confirms every line. *)
Definition answering (d : device) : Prop := ∀ l, dev_acks d l = true.

Lemma answering_returns d ls : answering d → is_ok (written_lines d ls).2 = true.
Proof.
  intros Ha. induction ls as [|l ls IH]; [done|]. cbn [written_lines]. rewrite Ha.
  destruct (negb _); [done|]. by destruct (written_lines d ls).
Qed.

Lemma written_lines_fault d ls k e : written_lines d ls = (k, Err e) → e = Blocked.
Proof.
  revert k. induction ls as [|l ls IH]; intros k; [done|]. cbn [written_lines].
  destruct (negb _); [done|]. destruct (dev_acks d l); [|by intros [= _ <-]].
  destruct (written_lines d ls) as [k' r]. intros [= _ ->]. by eapply IH.
Qed.

Lemma wrote_nil d : wrote [] d = d.
Proof. unfold wrote. rewrite app_nil_r. by destruct d. Qed.

Lemma write_lines_ok pre ls rest d :
  Forall (λ l, length l = 8%nat) (pre ++ ls) →
  write_lines (concat (pre ++ ls) ++ rest) (len pre) (length ls) d =
    let '(k, r) := written_lines d ls in r ← r; Ok (r, wrote k d).
Proof.
  revert pre d. induction ls as [|l ls IH]; intros pre d Hall; cbn [write_lines written_lines length].
  { by rewrite wrote_nil. }
  pose proof Hall as [Hp Hl]%Forall_app. apply Forall_cons in Hl as [Hl Hls].
  assert (slice (concat (pre ++ l :: ls) ++ rest) (len pre * HIDPDU_LINE_BYTES) HIDPDU_LINE_BYTES = Ok l) as E.
  { unfold HIDPDU_LINE_BYTES. replace (len pre * 8) with (len (concat pre))
      by (rewrite concat_length8 by done; lia).
    replace 8 with (len l) by (unfold len; by rewrite Hl).
    rewrite concat_app. cbn [concat]. rewrite <-!app_assoc. apply slice_middle. }
  rewrite E. erewrite bind_ok by done. erewrite bind_ok by done. erewrite bind_ok by done.
  destruct (negb (dev_write d l =? HIDPDU_LINE_BYTES)); [done|]. rewrite bind_gets. cbn [dev_acks dev_wrote].
  destruct (dev_acks d l); [|done].
  replace (pre ++ l :: ls) with ((pre ++ [l]) ++ ls) in * by (by rewrite <-app_assoc).
  replace (len pre + 1) with (len (pre ++ [l])) by (rewrite len_app; done).
  rewrite IH by done. assert (written_lines (dev_wrote l d) ls = written_lines d ls) as ->.
  { clear. induction ls as [|l' ls IH]; [done|]. cbn [written_lines]. by rewrite IH. }
  destruct (written_lines d ls) as [k [r|e]]; [|done]. unfold wrote, dev_wrote. simpl.
  by rewrite <-app_assoc.
Qed.

(** The request [tpp_send_cmd] makes of its arguments. *)
Definition request_of (req : Z) (data : option (list Z)) (size : Z) : TPPReq_t :=
  let bytes := if size =? 0 then [] else default [] (take (Z.to_nat size) <$> data) in
  TPPReq (u8 req) (u8 size) (bytes ++ replicate (512 - length bytes) 0).

(** The data of a request fits into the buffers. *)
Definition sendable (req : Z) (data : option (list Z)) (size : Z) (number : list Z) : Prop :=
  0 ≤ size ≤ 57 ∧ (size = 0 ∨ ∃ b, data = Some b ∧ size ≤ len b) ∧
  cstr (req_data (request_of req data size)) = Ok number ∧ len (omap dial_code number) ≤ 56.

Lemma tpp_send_ok req data size number d :
  sendable req data size number →
  tpp_send_cmd req data size d =
    let '(k, r) := written_lines d (request_lines (dev_time d) (request_of req data size) number) in
    r ← r; Ok (r, wrote k d).
Proof.
  intros (Hs & Hd & Hn & Hc).
  set (bytes := if size =? 0 then [] else default [] (take (Z.to_nat size) <$> data)).
  assert ((if size =? 0 then Ok [] else b ← deref data; slice b 0 size) = Ok bytes) as E1.
  { unfold bytes. destruct (Z.eqb_spec size 0); [done|].
    destruct Hd as [?|(b & -> & Hb)]; [done|]. cbn [deref mbind res_bind].
    rewrite slice_ok by lia. done. }
  assert (length bytes ≤ 57)%nat as Hlb.
  { unfold bytes. destruct (Z.eqb_spec size 0); [simpl; lia|].
    destruct Hd as [?|(b & -> & Hb)]; [done|]. simpl. rewrite length_take. lia. }
  assert (blit (replicate 512 0) 0 bytes = Ok (bytes ++ replicate (512 - length bytes) 0)) as E2.
  { pose proof (blit_at [] bytes (replicate 512 0) 0 eq_refl) as E.
    change ([] ++ replicate 512 0) with (replicate 512 0) in E. rewrite E.
    - by rewrite drop_replicate.
    - rewrite len_replicate. unfold len. lia. }
  set (ls := request_lines (dev_time d) (request_of req data size) number).
  unfold tpp_send_cmd. rewrite E1. erewrite bind_ok by done. rewrite E2. erewrite bind_ok by done.
  erewrite bind_ok by done.
  assert (request2pdu (dev_time d) zero_pdu (request_of req data size) =
    Ok (len ls, concat ls ++ drop (8 * length ls) zero_pdu)) as E3.
  { apply request2pdu_ok; [done|done| |]; cbn [request_of req_data_size req_data].
    - rewrite u8_small by lia. done.
    - rewrite u8_small by lia. rewrite len_app, len_replicate. unfold len. lia. }
  unfold request_of in E3. fold bytes in E3. rewrite E3. erewrite bind_ok by done. cbv iota beta.
  replace (Z.to_nat (len ls)) with (length ls) by (unfold len; lia).
  apply (write_lines_ok [] ls). simpl. unfold ls, request_lines.
  destruct (request_pdu _ _ _); [apply hid_lines_length|constructor].
Qed.

Lemma sendable_plain req : sendable req None 0 [].
Proof. split_and!; [lia|lia|by left|done|by vm_compute]. Qed.

(** ** The properties *)

(** C17: the lines [make_cmd] makes of a command with at most 57 bytes of
    parameters, the most for which they fit the array of ten lines, are whole
    lines, and the receiving side puts the same PDU together from them: every
    line but the last one is taken without an event, and the last one gives
    the event of the PDU. *)
Theorem make_cmd_roundtrip id param n d e :
  0 ≤ n ≤ 57 → n ≤ len param → s_pdu_buf d = zero_pdu → s_pdu_offset d = 0 →
  tppdu2event (cmd_pdu id param n ++ drop (length (cmd_pdu id param n)) zero_pdu) = Ok e → ∃ ls rest,
  make_cmd zero_pdu id param n = Ok (len ls, concat ls ++ rest) ∧
  Forall (λ l, len l = HIDPDU_LINE_BYTES) ls ∧
  feed ls d = Ok (replicate (length ls - 1) (0, None) ++ [(1, Some e)],
                  received (cmd_pdu id param n) d).
Proof.
  intros Hn Hp Hb Ho He.
  exists (hid_lines 64 (cmd_pdu id param n)). eexists. split; [by apply make_cmd_ok|]. split.
  - eapply Forall_impl; [apply hid_lines_length|]. intros l Hl. unfold len. by rewrite Hl.
  - assert (received [] d = d) as Ed.
    { unfold received, set_pdu. destruct d; simpl in *. by subst. }
    rewrite <-Ed at 1. pose proof (cmd_pdu_len id param n ltac:(lia)) as Hl.
    apply (feed_ok 64 [] _ (u8 (1 + n)) (u8 id :: take (Z.to_nat n) param)); try done.
    + rewrite len_cons, len_take, u8_small by lia. lia.
    + rewrite u8_small by lia. lia.
    + unfold len in Hl. lia.
Qed.

(** The parameters of a dial command are the speed and the codes of the
    keys of the number, in order; characters that are no keys are left out,
    and the codes give the keys back.  A number with more than 79 keys
    overruns the buffer. *)
Theorem make_dial_param_codes speed (number : list Z) :
  let codes := omap dial_code number in
  omap dial_key codes = filter dialable number ∧ Forall (λ d, 0 ≤ d < 16) codes ∧
  if len codes <=? 79
  then ∃ rest, make_dial_param zero_pdu speed number = Ok (1 + len codes, speed :: codes ++ rest)
  else make_dial_param zero_pdu speed number = Err Overrun.
Proof.
  cbv zeta. split; [apply dial_keys|]. split.
  { apply Forall_forall. intros d (c & _ & Hc)%list_elem_of_omap.
    by apply dial_key_code in Hc as [_ ?]. }
  destruct (Z.leb_spec (len (omap dial_code number)) 79).
  - eexists. by apply dial_param_ok.
  - unfold make_dial_param.
    assert (write_at zero_pdu 0 speed = Ok ([speed] ++ replicate 79 0)) as -> by done.
    cbn [mbind res_bind]. apply (dial_loop_over number [speed] 79); [|done|by vm_compute].
    change (len [speed]) with 1. lia.
Qed.

(** C29: [tpp_send_cmd] writes exactly the lines of the PDU of its request,
    one [write] each, and waits after each for its confirmation; it stops with
    -1 at the first line that the device does not take whole, and waits for
    ever at the first one that is not confirmed while it waits.  Nothing else
    of the protocol's state changes.  The data of the request has at most 57
    bytes, and a number to dial at most 56 keys, which is what the buffers of
    the code have room for. *)
Theorem tpp_send_cmd_writes_lines req data size number d :
  sendable req data size number →
  tpp_send_cmd req data size d =
    let '(k, r) := written_lines d (request_lines (dev_time d) (request_of req data size) number) in
    r ← r; Ok (r, wrote k d).
Proof. apply tpp_send_ok. Qed.

(** The size in the header of a line is not checked: a line whose bytes
    do not fit behind the ones of the lines before it overruns the buffer of
    80 bytes, and any other line of the protocol is copied without a fault. *)
Theorem hidpdu2event_bound n bytes d :
  0 < n ≤ len bytes → 0 ≤ s_pdu_offset d → len (s_pdu_buf d) = 80 →
  (is_ok (hidpdu2event (HID_FLAG :: n :: bytes) 0 d) = true → s_pdu_offset d + n ≤ 80) ∧
  (80 < s_pdu_offset d + n → hidpdu2event (HID_FLAG :: n :: bytes) 0 d = Err Overrun).
Proof.
  intros Hn Ho Hl.
  assert (80 < s_pdu_offset d + n → hidpdu2event (HID_FLAG :: n :: bytes) 0 d = Err Overrun) as H.
  { intros Hover. unfold hidpdu2event.
    assert (read_at (HID_FLAG :: n :: bytes) 0 = Ok HID_FLAG) as -> by done.
    erewrite bind_ok by done. rewrite (proj2 (Z.eqb_eq HID_FLAG HID_FLAG)) by done.
    change (0 + 1) with 1. change (0 + 2) with 2.
    assert (read_at (HID_FLAG :: n :: bytes) 1 = Ok n) as -> by done. erewrite bind_ok by done.
    rewrite slice_ok by (rewrite ?len_cons; lia). erewrite bind_ok by done.
    erewrite bind_ok by done. unfold blit. rewrite decide_False; [done|].
    rewrite len_take, Hl. change (drop (Z.to_nat 2) (HID_FLAG :: n :: bytes)) with bytes. lia. }
  split; [|done]. intros Hok. destruct (decide (80 < s_pdu_offset d + n)); [|lia].
  by rewrite H in Hok.
Qed.

(** The look-up of the name of a message reads outside of its tables
    for exactly three messages: the start and the stop of a recording, and
    its end. *)
Theorem msg2str_overrun msg :
  (msg2str msg = Err Overrun ↔
   msg = UPIL_CTL_RECORD_START ∨ msg = UPIL_CTL_RECORD_STOP ∨ msg = UPIL_EVT_RECORD_END) ∧
  (msg2str msg ≠ Err Overrun → is_ok (msg2str msg) = true).
Proof.
  unfold msg2str, UPIL_CTL_BEGIN, UPIL_EVT_BEGIN, UPIL_EVT_MAX, UPIL_CTL_MAX.
  assert (∀ {A} (l : list A) i, 0 ≤ i →
    (read_at l i = Err Overrun ↔ len l ≤ i) ∧ (read_at l i ≠ Err Overrun → is_ok (read_at l i) = true))
    as Hread.
  { intros A l i Hi. unfold read_at. rewrite decide_True by done.
    destruct (l !! Z.to_nat i) eqn:E.
    - apply lookup_lt_Some in E. unfold len. split; [split; [done|lia]|done].
    - apply lookup_ge_None in E. unfold len. split; [split; [lia|done]|done]. }
  change (UPILReq_val UPIL_CTL_RECORD_START) with 42.
  change (UPILReq_val UPIL_CTL_RECORD_STOP) with 43.
  change (UPILEvent_val UPIL_EVT_RECORD_END) with 88.
  destruct (Z.leb_spec 0 msg), (Z.ltb_spec msg 44); cbn [andb].
  - destruct (Hread _ ctl_str (msg - 0) ltac:(lia)) as [R1 R2].
    split; [|done]. rewrite R1. change (len ctl_str) with 42. lia.
  - rewrite (proj2 (Z.leb_le 44 msg)) by lia. destruct (Z.ltb_spec msg 89); cbn [andb].
    + destruct (Hread _ event_str (msg - 44) ltac:(lia)) as [R1 R2].
      split; [|done]. rewrite R1. change (len event_str) with 44. lia.
    + split; [split; [done|lia]|done].
  - rewrite (proj2 (Z.leb_gt 44 msg)) by lia. cbn [andb]. split; [split; [done|lia]|done].
  - rewrite (proj2 (Z.leb_gt 44 msg)) by lia. cbn [andb]. split; [split; [done|lia]|done].
Qed.

(** ** Witnesses *)

Definition demo_device : device :=
  Device zero_pdu 0 0 [] (λ _, 8) (λ _, true) (mkTm 112 0 1 2 3 4).

(** One byte more, as the numbers of the machine can have, overruns the array
    of ten lines. *)
Example make_cmd_overruns :
  is_ok (make_cmd zero_pdu TPP_EVT_RING (replicate 57 1) 57) = true ∧
  make_cmd zero_pdu TPP_EVT_RING (replicate 58 1) 58 = Err Overrun.
Proof. split; vm_compute; reflexivity. Qed.

Lemma make_cmd_roundtrip_witness : ∃ ls rest,
  make_cmd zero_pdu TPP_EVT_RING [1; 2; 3; 4; 5; 6; 7; 8] 8 = Ok (len ls, concat ls ++ rest) ∧
  feed ls demo_device =
    Ok (replicate (length ls - 1) (0, None) ++ [(1, Some (TPPReq (u8 UPIL_EVT_RING) 0 []))],
        received (cmd_pdu TPP_EVT_RING [1; 2; 3; 4; 5; 6; 7; 8] 8) demo_device).
Proof.
  destruct (make_cmd_roundtrip TPP_EVT_RING [1; 2; 3; 4; 5; 6; 7; 8] 8 demo_device
    (TPPReq (u8 UPIL_EVT_RING) 0 [])) as (ls & rest & H1 & _ & H2);
    [lia|by vm_compute|done|done|by vm_compute|]. by exists ls, rest.
Defined.

Lemma tpp_send_cmd_witness :
  tpp_send_cmd UPIL_ASK_DTMF_TX (Some [49; 50; 51]) 3 demo_device =
  Ok (0, wrote [hid_line [0xFF; 5; 17; 0x64; 1; 2]; hid_line [3]] demo_device).
Proof.
  rewrite (tpp_send_cmd_writes_lines UPIL_ASK_DTMF_TX (Some [49; 50; 51]) 3 [49; 50; 51]).
  - by vm_compute.
  - split_and!; [lia|lia|right|by vm_compute|by vm_compute]. exists [49; 50; 51]. done.
Defined.

Lemma hidpdu2event_bound_witness :
  hidpdu2event (HID_FLAG :: 128 :: replicate 200 0) 0 demo_device = Err Overrun.
Proof.
  apply (hidpdu2event_bound 128 (replicate 200 0) demo_device); by vm_compute.
Defined.
