(* ===== verification/StateMachine.v ===== *)
(** * State machines: src/state_machine/state_machine.c

    An [FSM] is the C struct.  The states of the table an FSM points to are
    the [tables] of the section: functions of the program, on a state [W] of
    which the FSM is a part.  A pointer to a state is its index in the table.
    [sm_process_message] is the callback of every message of a handler. *)

From S2P Require Import Prelude CString Dll EventLoop Handler Messages.

Definition HANDLED : Z := 1.
Definition NOT_HANDLED : Z := 0.
Definition MAX_STATE_MACHINE : nat := 64.

(** The two arrays of 128 characters hold strings, written with their
    length checked by [store_string]. *)
Record FSM := mkFSM {
  fsm_name : list Z;
  fsm_table : bool;             (* whether the pointer is not NULL *)
  fsm_size : Z;
  cur_state : option nat;
  handler : HANDLER;
  last_incoming_num : list Z;
  last_outgoing_num : list Z;
}.

#[export] Instance fsm_handler : Lens FSM HANDLER := {|
  lget := handler;
  lset h f := mkFSM (fsm_name f) (fsm_table f) (fsm_size f) (cur_state f) h
                    (last_incoming_num f) (last_outgoing_num f);
|}.
#[export] Instance fsm_handler_laws : LensLaws FSM HANDLER.
Proof. split; intros; repeat match goal with f : FSM |- _ => destruct f end; done. Qed.

Definition set_cur_state (s : option nat) (f : FSM) : FSM :=
  mkFSM (fsm_name f) (fsm_table f) (fsm_size f) s (handler f) (last_incoming_num f) (last_outgoing_num f).
Definition set_name (n : list Z) (f : FSM) : FSM :=
  mkFSM n (fsm_table f) (fsm_size f) (cur_state f) (handler f) (last_incoming_num f) (last_outgoing_num f).
Definition set_incoming (s : list Z) (f : FSM) : FSM :=
  mkFSM (fsm_name f) (fsm_table f) (fsm_size f) (cur_state f) (handler f) s (last_outgoing_num f).
Definition set_outgoing (s : list Z) (f : FSM) : FSM :=
  mkFSM (fsm_name f) (fsm_table f) (fsm_size f) (cur_state f) (handler f) (last_incoming_num f) s.

(** An [int] in memory: four bytes, the low one first. *)
Definition int_bytes (n : Z) : list Z :=
  [u8 n; u8 (Z.shiftr n 8); u8 (Z.shiftr n 16); u8 (Z.shiftr n 24)].
Definition bytes_int (l : list Z) : res Z :=
  match l with
  | a :: b :: c :: d :: _ => Ok (s32 (a + 256 * b + 65536 * c + 16777216 * d))
  | _ => Err Overrun
  end.

Record FSM_STATE (W : Type) := mkFSM_STATE {
  st_id : Z;
  state_name : list Z;
  enter_func : option (M W unit);
  exit_func : option (M W unit);
  process_func : option (loc → M W Z);
}.
Arguments mkFSM_STATE {W}.
Arguments st_id {W}.
Arguments state_name {W}.
Arguments enter_func {W}.
Arguments exit_func {W}.
Arguments process_func {W}.

(** ** Messages of a machine *)

(** 0 when the message was sent, -1 otherwise. *)
Definition sm_send_message_delay (what : Z) (dat : option (list Z)) (size msec : Z) : MH Z :=
  msg ← obtain_message what dat size;
  match msg with
  | Some m => send_message_delay (Some m) (u32 msec);; mret 0
  | None => mret (-1)
  end.

Definition sm_send_message (what : Z) (dat : option (list Z)) (size : Z) : MH Z :=
  sm_send_message_delay what dat size 0.

Definition sm_transition_to (id : Z) : MH Z :=
  sm_send_message_delay UPIL_EVT_SM_TRANSITION (Some (int_bytes id)) 4 0.

Definition sm_remove_message_id (id : Z) : MH unit :=
  remove_message_id msg_queue id;; remove_message_id defer_msg_queue id.

(** ** States *)

Section machine.
Context {W : Type} `{Lens W FSM}.
Variable tables : list (FSM_STATE W).

Definition on_handler {A} (m : MH A) : M W A := zoom (zoom (A := HANDLER) m).

(** The state the current state points to. *)
Definition current : M W (option (FSM_STATE W)) :=
  s ← gets (λ w, cur_state (lget w));
  match s with
  | None => mret None
  | Some i => st ← lift (read_at tables (Z.of_nat i)); mret (Some st)
  end.

Fixpoint get_state_loop (id : Z) (i : nat) (count : nat) : res (option nat) :=
  match count with
  | O => Ok None
  | S count' =>
      st ← read_at tables (Z.of_nat i);
      if st_id st =? id then Ok (Some i) else get_state_loop id (S i) count'
  end.

Definition get_state (id : Z) : M W (option nat) :=
  n ← gets (λ w, fsm_size (lget w));
  lift (get_state_loop id 0 (Z.to_nat n)).

Definition transition_to (id : Z) : M W Z :=
  cur ← current;
  if match cur with Some st => st_id st =? id | None => false end
  then mret HANDLED else
  new_state ← get_state id;
  match new_state with
  | None => mret NOT_HANDLED
  | Some s =>
      match cur with
      | Some st => match exit_func st with Some f => f | None => skip end
      | None => skip
      end;;
      zoom (modify (set_cur_state (Some s)));;
      st ← lift (read_at tables (Z.of_nat s));
      match enter_func st with Some f => f | None => skip end;;
      on_handler (process_defer_msg defer_msg_queue);;
      mret HANDLED
  end.

(** The name of the message is looked up for the log, whatever the level
    of the log. *)
Definition process_msg (msg : loc) : M W Z :=
  cur ← current;
  match cur with
  | Some st =>
      match process_func st with
      | Some f =>
          x ← on_handler (msg_at msg);
          lift (msg2str (what x));;
          f msg
      | None => mret HANDLED
      end
  | None => mret HANDLED
  end.

Definition sm_process_message (msg : loc) : M W Z :=
  on_handler (remove_from_list (Some msg));;
  x ← on_handler (msg_at msg);
  ret ← (if what x =? UPIL_EVT_SM_TRANSITION then
           b ← lift (deref (data x));
           n ← lift (bytes_int b);
           transition_to n
         else process_msg msg);
  on_handler (free_msg msg);;
  mret (if ret =? HANDLED then 0 else -1).

Definition sm_set_init_state (id : Z) : M W Z := transition_to id.
End machine.

(** ** The pool of machines *)

(** [init]: the machine at rest, as [sm_init_pool] leaves it. *)
Definition idle_fsm (f : FSM) : FSM :=
  mkFSM [] false 0 None (handler f) (last_incoming_num f) (last_outgoing_num f).

Definition sm_init_pool (pool : list FSM) : list FSM :=
  (idle_fsm <$> take MAX_STATE_MACHINE pool) ++ drop MAX_STATE_MACHINE pool.

Fixpoint get_idle_fsm (pool : list FSM) (i : nat) : option nat :=
  match pool with
  | [] => None
  | f :: pool' => if fsm_table f then get_idle_fsm pool' (S i) else Some i
  end.

(** Takes a machine from the pool for a table of [n] states; [created] and
    [filedes] are the answers of the system to [start_handler]. *)
Definition sm_obtain_fsm (n created : Z) (filedes : option (Z * Z)) : M (list FSM) (option nat) :=
  pool ← get;
  match get_idle_fsm pool 0 with
  | None => mret None
  | Some i =>
      f ← lift (live (pool !! i));
      '(ret, h) ← lift (start_handler sm_process_message_cb created filedes (handler f));
      let f1 := lset h f in
      modify (<[i := f1]>);;
      if negb (ret =? 0) then mret None else
      modify (<[i := mkFSM [] true n None h (last_incoming_num f) (last_outgoing_num f)]>);;
      mret (Some i)
  end.
