(* ===== verification/SendProofs.v ===== *)
(** * Properties of the messages of a machine

    What sending, cancelling and deferring do to the queues and the timers of
    a handler, from its start on. *)

From Stdlib Require Import Sorting.Sorted.
From S2P Require Import Prelude Dll EventLoop EventLoopProofs WatchProofs Handler HandlerProofs.
From S2P Require Import Messages StateMachine.

(** ** The start of a handler *)

(** A handler as it lies in the pool: nothing is allocated but the event of
    its wake-up pipe. *)
Record idle_handler (h : HANDLER) : Prop := {
  ih_msgs : msgs h = ∅;
  ih_links : qlinks h = ∅;
  ih_events : ∀ p, is_Some (elinks (upile (loop h)) !! p) ↔ p = wakeupfd_event;
  ih_dom : ∀ p, is_Some (events (upile (loop h)) !! p) ↔ p = wakeupfd_event;
  ih_brk : (wakeupfd_event < brk h)%positive;
}.

Lemma init_loop_ok c :
  (∀ p, is_Some (elinks c !! p) ↔ is_Some (events c !! p)) → ∃ c',
  upil_event_init c = Ok (tt, c') ∧ loop_inv c' [] [] ∧ watch_table c' = replicate MAX_FD_EVENTS None ∧
  readFds c' = ∅ ∧ nfds c' = 0 ∧ now c' = now c ∧
  (∀ p, p ≠ timer_list → p ≠ pending_list →
     elinks c' !! p = elinks c !! p ∧ events c' !! p = events c !! p).
Proof.
  intros Hdom. eexists. split; [reflexivity|]. split; [|split_and!; try done].
  2:{ intros p H1 H2. simpl. by rewrite !lookup_insert_ne. }
  split; simpl.
  - split; [apply NoDup_singleton|]. cbn [app path]. unfold edge, next_of, prev_of.
    rewrite lookup_insert_ne, lookup_insert_eq by done. done.
  - split; [apply NoDup_singleton|]. cbn [app path]. unfold edge, next_of, prev_of.
    rewrite lookup_insert_eq. done.
  - by apply (bool_decide_unpack _).
  - intros p. destruct (decide (p = pending_list)) as [->|]; [rewrite !lookup_insert_eq; split; eauto|].
    rewrite (lookup_insert_ne _ pending_list), (lookup_insert_ne _ pending_list) by done.
    destruct (decide (p = timer_list)) as [->|]; [rewrite !lookup_insert_eq; split; eauto|].
    rewrite !lookup_insert_ne by done. apply Hdom.
  - constructor.
Qed.

(** The loop of a handler before its first turn. *)
Lemma start_loop_ok u r w :
  (∀ p, is_Some (elinks (upile u) !! p) ↔ is_Some (events (upile u) !! p)) →
  is_Some (elinks (upile u) !! wakeupfd_event) → 0 ≤ r < FD_SETSIZE → ∃ u',
  uew_startEventLoop 0 (Some (r, w)) u = Ok (0, u') ∧ loop_inv (upile u') [] [] ∧
  readFds (upile u') = {[r]} ∧ now (upile u') = now (upile u) ∧
  (∀ p, p ≠ timer_list → p ≠ pending_list →
     is_Some (elinks (upile u') !! p) ↔ is_Some (elinks (upile u) !! p)) ∧
  watch_table (upile u') = <[0%nat := Some wakeupfd_event]> (replicate MAX_FD_EVENTS None) ∧
  (∃ x, events (upile u') !! wakeupfd_event = Some x ∧ ev_func x = processWakeupCallback ∧ ev_persist x = 1).
Proof.
  intros Hdom Hwk Hr.
  destruct (init_loop_ok (upile u) Hdom) as (c1 & E1 & Hl1 & Hw1 & Hf1 & Hn1 & Hnow1 & Hfr1).
  assert (is_Some (elinks c1 !! wakeupfd_event)) as Hwk1.
  { by destruct (Hfr1 wakeupfd_event) as [-> _]. }
  destruct (event_set_ok c1 [] [] wakeupfd_event r 1 processWakeupCallback timer_list Hl1 Hwk1)
    as (c2 & E2 & Hl2 & Hev2 & Hel2 & Hnow2 & Hf2 & Hn2 & Hw2).
  { by apply (bool_decide_unpack _). }
  set (e := UpilEvent r (-1) 1 (Timeval 0 0) processWakeupCallback timer_list) in *.
  assert (upil_event_add wakeupfd_event c2 = Ok (tt, added wakeupfd_event e 0 c2)) as E3.
  { apply event_add_run; [by rewrite Hw2, Hw1|by rewrite Hev2, lookup_insert_eq|done]. }
  exists (UewContext (added wakeupfd_event e 0 c2) r w 0 false). split_and!.
  - unfold uew_startEventLoop. cbn [Z.eqb]. erewrite bind_ok.
    2:{ unfold eventLoop. erewrite bind_ok by (apply (zoom_ok _ u); exact E1).
        cbv iota beta. erewrite bind_ok by reflexivity.
        erewrite bind_ok by (unfold uew_event_set; eapply zoom_ok; exact E2).
        unfold uew_event_add_wakeup. erewrite bind_ok by (eapply zoom_ok; exact E3).
        reflexivity. }
    reflexivity.
  - eapply loop_inv_frame; [exact Hl2| |].
    + intros p Hp. simpl. rewrite lookup_insert_ne; [done|]. intros <-.
      rewrite !elem_of_cons, elem_of_nil in Hp. by destruct Hp as [?|[?|?]].
    + intros p. simpl. pose proof (inv_events _ _ _ Hl2 p) as Hp.
      destruct (decide (p = wakeupfd_event)) as [->|]; [|by rewrite lookup_insert_ne].
      rewrite lookup_insert_eq, Hp, Hev2, lookup_insert_eq. split; eauto.
  - simpl. rewrite Hf2, Hf1. set_solver.
  - simpl. by rewrite Hnow2.
  - intros p P1 P2. simpl. rewrite Hel2. destruct (decide (p = wakeupfd_event)) as [->|].
    + rewrite lookup_insert_eq. split; eauto.
    + rewrite lookup_insert_ne by done. by destruct (Hfr1 p P1 P2) as [-> _].
  - simpl. by rewrite Hw2, Hw1.
  - simpl. rewrite lookup_insert_eq. by eexists.
Qed.

Lemma start_ok h func r w :
  idle_handler h → 0 ≤ r < FD_SETSIZE → ∃ h',
  start_handler func 0 (Some (r, w)) h = Ok (0, h') ∧ handler_inv h' [] [] [] [] [] ∧
  msg_processor h' = func ∧ readFds (upile (loop h')) = {[r]} ∧
  now (upile (loop h')) = now (upile (loop h)) ∧ malloc_ok h' = malloc_ok h ∧ msgs h' = msgs h ∧
  watch_table (upile (loop h')) = <[0%nat := Some wakeupfd_event]> (replicate MAX_FD_EVENTS None) ∧
  (∃ x, events (upile (loop h')) !! wakeupfd_event = Some x ∧
     ev_func x = processWakeupCallback ∧ ev_persist x = 1) ∧
  (∀ p, is_Some (events (upile (loop h')) !! p) → p ∈ [timer_list; pending_list; wakeupfd_event]).
Proof.
  intros [Hm Hq He Hd Hb] Hr.
  destruct (start_loop_ok (loop h) r w) as (u & E & Hl & Hf & Hnow & Hdom & Hwt & Hwe); [| |done|].
  { intros p. by rewrite He, Hd. }
  { by apply He. }
  set (q := <[defer_msg_queue := Links (Some defer_msg_queue) (Some defer_msg_queue)]>
      (<[msg_queue := Links (Some msg_queue) (Some msg_queue)]> (qlinks h))).
  exists (mkHANDLER q (msgs h) (brk h) func 0 u (malloc_ok h)). split; [|split].
  - unfold start_handler. erewrite bind_ok by (apply (zoom_ok _ h); exact E). reflexivity.
  - assert (∀ p, (brk h ≤ p)%positive → p ≠ msg_queue ∧ p ≠ defer_msg_queue ∧ p ≠ wakeupfd_event) as Hp.
    { unfold msg_queue, defer_msg_queue, wakeupfd_event in *. intros p Hp. split_and!; lia. }
    split; simpl; try done; try (by intros m []%not_elem_of_nil).
    + split; [apply NoDup_singleton|]. unfold q. cbn [app path]. unfold edge, next_of, prev_of.
      rewrite lookup_insert_ne, lookup_insert_eq by done. done.
    + split; [apply NoDup_singleton|]. unfold q. cbn [app path]. unfold edge, next_of, prev_of.
      rewrite lookup_insert_eq. done.
    + by apply (bool_decide_unpack _).
    + intros p Hbp. destruct (Hp p Hbp) as (P1 & P2 & P3). split_and!.
      * by rewrite Hm.
      * unfold q. by rewrite !lookup_insert_ne, Hq by done.
      * destruct (elinks (upile u) !! p) eqn:Ep; [|done].
        assert (is_Some (elinks (upile u) !! p)) as Hs by eauto.
        rewrite Hdom in Hs by (by destruct p). by apply He in Hs.
    + rewrite Hdom by done. by apply He.
  - split_and!; [done..|]. intros p Hp. rewrite !elem_of_cons. simpl in Hp.
    destruct (decide (p = timer_list)); [by left|]. destruct (decide (p = pending_list)); [by right; left|].
    right; right; left. by rewrite <-(inv_events _ _ _ Hl), Hdom, He in Hp.
Qed.

(** ** Identifiers of states in messages *)

Lemma int_bytes_sum n :
  u8 n + 256 * u8 (Z.shiftr n 8) + 65536 * u8 (Z.shiftr n 16) + 16777216 * u8 (Z.shiftr n 24)
  = n mod 4294967296.
Proof.
  unfold wrapU. rewrite !Z.shiftr_div_pow2 by lia. change (2 ^ 8) with 256.
  change (2 ^ 16) with 65536. change (2 ^ 24) with 16777216.
  assert (n / 65536 = n / 256 / 256) as E2 by (by rewrite Z.div_div).
  assert (n / 16777216 = n / 256 / 256 / 256) as E3 by (by rewrite !Z.div_div).
  assert (n / 4294967296 = n / 256 / 256 / 256 / 256) as E4 by (by rewrite !Z.div_div).
  pose proof (Z.div_mod n 4294967296 ltac:(lia)) as H4. rewrite E4 in H4. rewrite E2, E3.
  pose proof (Z.div_mod n 256 ltac:(lia)).
  pose proof (Z.div_mod (n / 256) 256 ltac:(lia)).
  pose proof (Z.div_mod (n / 256 / 256) 256 ltac:(lia)).
  pose proof (Z.div_mod (n / 256 / 256 / 256) 256 ltac:(lia)). lia.
Qed.

Lemma s32_mod n : s32 (n mod 4294967296) = s32 n.
Proof. unfold wrapS. change (2 ^ 32) with 4294967296. by rewrite Z.add_mod_idemp_l. Qed.

Lemma bytes_int_ok n rest : bytes_int (int_bytes n ++ rest) = Ok (s32 n).
Proof. unfold int_bytes. cbn [app bytes_int]. by rewrite int_bytes_sum, s32_mod. Qed.

Lemma int_bytes_len n : len (int_bytes n) = 4.
Proof. done. Qed.

(** ** The properties *)

Section properties.
Context (h : HANDLER) (qs ds os ts ps : list loc).
Hypothesis Hinv : handler_inv h qs ds os ts ps.

Lemma sm_send_ok what dat size msec :
  len (qs ++ ds ++ os) + 1 < MAX_MSG_QUEUE_SIZE → malloc_ok h sizeof_MSG = true →
  (0 < size → malloc_ok h (size + 2) = true) → data_ok dat size → 0 ≤ msec ≤ INT_MAX →
  ∃ l r h', let m := brk h in let t := timeradd (now (upile (loop h))) (msec_tv msec) in
  let evs := events (upile (loop h')) in
  ts = l ++ r ∧ sm_send_message_delay what dat size msec h = Ok (0, h') ∧
  handler_inv h' (qs ++ [m]) ds os (l ++ m :: r) ps ∧
  msgs h' = <[m := new_MSG what dat size]> (msgs h) ∧
  (∃ x, evs !! m = Some x ∧ ev_func x = msg_processor h ∧ ev_param x = m ∧ ev_timeout x = t) ∧
  (∀ p, p ∈ l → ∃ tp, due evs p tp ∧ tv_lt tp t) ∧
  (∀ p, p ∈ r → ∃ tp, due evs p tp ∧ tv_le t tp) ∧ malloc_ok h' = malloc_ok h ∧
  brk h' = Pos.succ m ∧
  (∃ x, evs = <[m := x]> (events (upile (loop h))) ∧ ev_func x = msg_processor h ∧ ev_param x = m).
Proof.
  intros Hlen Hm Hd Hdat Hmsec.
  destruct (obtain_message_ok _ _ _ _ _ _ what dat size Hinv Hlen Hm Hd Hdat)
    as (h1 & E1 & Hi1 & Em & El & Ea & Ep & Eb).
  destruct (fresh_not_in _ _ _ _ _ _ (brk h) Hinv ltac:(lia)) as [_ Hn].
  rewrite !not_elem_of_cons in Hn.
  destruct (send_inv h1 _ _ _ _ _ (brk h) (u32 msec) Hi1)
    as (l & r & h' & -> & E2 & Hi2 & Em2 & Eb2 & _ & Ea2 & _ & (x & Hx & Hf & Hp & Ht) & Hlt & Hle);
    [rewrite !elem_of_app, elem_of_cons; tauto|tauto|].
  assert (s32 (u32 msec) = msec) as Es.
  { unfold INT_MAX in Hmsec. rewrite u32_small by lia. apply s32_small.
    unfold INT_MIN, INT_MAX. lia. }
  rewrite Es, El in Hlt, Hle, Ht. simpl in Hlt, Hle, Ht.
  exists l, r, h'. cbv zeta. split_and!; [done| |done|by rewrite Em2, Em| |done|done|by rewrite Ea2|by rewrite Eb2|].
  - unfold sm_send_message_delay. erewrite bind_ok by exact E1. cbv iota beta.
    by erewrite bind_ok by exact E2.
  - exists x. rewrite Hx, lookup_insert_eq, Hf, Ep. done.
  - exists x. rewrite Hx, El, <-Ep. simpl. by rewrite insert_insert_eq.
Qed.

(** C18: a message that is sent while there is room for it is queued last,
    with a copy of its data, and becomes a timer of the handler's loop that
    calls the processing function with the message after the delay: behind
    the timers due earlier, before the others.  The handler stays well
    formed, and the result is 0. *)
Theorem sm_send_accepts what dat size msec :
  len (qs ++ ds ++ os) + 1 < MAX_MSG_QUEUE_SIZE → malloc_ok h sizeof_MSG = true →
  (0 < size → malloc_ok h (size + 2) = true) → data_ok dat size → 0 ≤ msec ≤ INT_MAX →
  ∃ l r h', let m := brk h in let t := timeradd (now (upile (loop h))) (msec_tv msec) in
  let evs := events (upile (loop h')) in
  ts = l ++ r ∧ sm_send_message_delay what dat size msec h = Ok (0, h') ∧
  handler_inv h' (qs ++ [m]) ds os (l ++ m :: r) ps ∧
  msgs h' = <[m := new_MSG what dat size]> (msgs h) ∧
  (∃ x, evs !! m = Some x ∧ ev_func x = msg_processor h ∧ ev_param x = m ∧ ev_timeout x = t) ∧
  (∀ p, p ∈ l → ∃ tp, due evs p tp ∧ tv_lt tp t) ∧
  (∀ p, p ∈ r → ∃ tp, due evs p tp ∧ tv_le t tp).
Proof.
  intros H1 H2 H3 H4 H5. destruct (sm_send_ok what dat size msec H1 H2 H3 H4 H5)
    as (l & r & h' & A & B & C & D & E & F & G & _). by exists l, r, h'.
Qed.

Lemma sm_refuse_ok what dat size msec :
  (MAX_MSG_QUEUE_SIZE ≤ len (qs ++ ds ++ os) + 1 ∨
   malloc_ok h sizeof_MSG = true ∧ 0 < size ∧ malloc_ok h (size + 2) = false) → ∃ h',
  sm_send_message_delay what dat size msec h = Ok (-1, h') ∧
  handler_inv h' qs ds os ts ps ∧ msgs h' = msgs h ∧ malloc_ok h' = malloc_ok h ∧
  (brk h ≤ brk h')%positive ∧ events (upile (loop h')) = events (upile (loop h)).
Proof.
  intros Hc.
  destruct (decide (MAX_MSG_QUEUE_SIZE ≤ len (qs ++ ds ++ os) + 1)) as [Hfull|Hroom].
  - exists h. split; [|split_and!; [done..|lia|done]]. unfold sm_send_message_delay.
    by erewrite bind_ok by (by eapply obtain_message_full).
  - destruct Hc as [?|(Hm & Hs & Hd)]; [done|].
    destruct (obtain_message_no_data _ _ _ _ _ _ what dat size Hinv ltac:(lia) Hm Hs Hd)
      as (h' & E & Hi' & Em & Ea & _ & _ & Ee & Eb).
    exists h'. split; [|split_and!; [done..|lia|done]]. unfold sm_send_message_delay. by erewrite bind_ok by exact E.
Qed.

(** Sent or refused. *)
Lemma sm_send_any what dat size msec :
  malloc_ok h sizeof_MSG = true → data_ok dat size → 0 ≤ msec ≤ INT_MAX →
  ∃ ret h', sm_send_message_delay what dat size msec h = Ok (ret, h') ∧
  malloc_ok h' = malloc_ok h ∧ (brk h ≤ brk h')%positive ∧
  ((ret = -1 ∧ handler_inv h' qs ds os ts ps ∧ msgs h' = msgs h ∧
    events (upile (loop h')) = events (upile (loop h))) ∨
   ∃ l r, ret = 0 ∧ ts = l ++ r ∧ handler_inv h' (qs ++ [brk h]) ds os (l ++ brk h :: r) ps ∧
     msgs h' = <[brk h := new_MSG what dat size]> (msgs h) ∧
     len (qs ++ ds ++ os) + 1 < MAX_MSG_QUEUE_SIZE ∧
     ∃ x, events (upile (loop h')) = <[brk h := x]> (events (upile (loop h))) ∧
       ev_func x = msg_processor h ∧ ev_param x = brk h).
Proof.
  intros Hm Hdat Hmsec.
  destruct (decide (MAX_MSG_QUEUE_SIZE ≤ len (qs ++ ds ++ os) + 1 ∨
    0 < size ∧ malloc_ok h (size + 2) = false)) as [Hc|Hc].
  - destruct (sm_refuse_ok what dat size msec) as (h' & E & Hi' & Em & Ea & Eb & Ee); [tauto|].
    exists (-1), h'. split; [done|]. split; [done|]. split; [done|]. by left.
  - destruct (sm_send_ok what dat size msec) as (l & r & h' & -> & E & Hi' & Em & _ & _ & _ & Ea & Eb & Hx);
      [lia|done| |done|done|].
    { intros Hs. destruct (malloc_ok h (size + 2)); [done|tauto]. }
    exists 0, h'. split; [done|]. split; [done|]. split; [lia|]. right. exists l, r.
    split_and!; [done..|lia|done].
Qed.

(** C28: when 31 messages are in use, or the data cannot be allocated, the
    message is refused with -1: no message is lost or added, the timers
    stay as they were, and nothing that was allocated is kept. *)
Theorem sm_send_refuses what dat size msec :
  (MAX_MSG_QUEUE_SIZE ≤ len (qs ++ ds ++ os) + 1 ∨
   malloc_ok h sizeof_MSG = true ∧ 0 < size ∧ malloc_ok h (size + 2) = false) → ∃ h',
  sm_send_message_delay what dat size msec h = Ok (-1, h') ∧
  handler_inv h' qs ds os ts ps ∧ msgs h' = msgs h.
Proof.
  intros Hc. destruct (sm_refuse_ok what dat size msec Hc) as (h' & A & B & C & _). by exists h'.
Qed.

(** [remove_message_id] returns, and takes exactly the queued messages
    of the identifier off the queue, the timers and the pending events and
    releases them; all other messages stay as they were. *)
Theorem remove_message_id_removes id : ∃ h',
  let D := with_id h id qs in
  remove_message_id msg_queue id h = Ok (tt, h') ∧
  handler_inv h' (rms D qs) ds os (rms D ts) (rms D ps) ∧
  (∀ p, msgs h' !! p = if decide (p ∈ D) then None else msgs h !! p) ∧
  (∀ p, p ∈ rms D qs → what <$> msgs h' !! p ≠ Some id).
Proof.
  destruct (remove_message_id_ok _ _ _ _ _ _ id Hinv) as (h' & E & Hi' & Em & _).
  exists h'. cbv zeta. split_and!; [done|done|done|].
  intros p. unfold rms. rewrite list_elem_of_filter. intros [Hn Hp].
  rewrite Em, decide_False by done. intros Hw. apply Hn. unfold with_id.
  rewrite list_elem_of_filter. done.
Qed.

(** [process_defer_msg] returns, and sends every deferred message
    again: each is due at once and on no queue any more, the queue and the
    pending events stay as they were and no message is lost. *)
Theorem process_defer_msg_sends : ∃ h' ts',
  process_defer_msg defer_msg_queue h = Ok (tt, h') ∧
  handler_inv h' qs [] (os ++ ds) ts' ps ∧ ts' ≡ₚ ds ++ ts ∧ msgs h' = msgs h ∧
  (∀ m, m ∈ ds → due (events (upile (loop h'))) m
                   (timeradd (now (upile (loop h))) (Timeval 0 0))).
Proof.
  destruct (process_defer_ok _ _ _ _ _ _ Hinv) as (h' & ts' & E & Hi' & Hp & Em & _ & _ & Hd).
  exists h', ts'. done.
Qed.

(** A request for a state arrives as it was sent: the message carries
    the number of the state, which its receiver reads back. *)
Theorem sm_transition_to_carries id :
  len (qs ++ ds ++ os) + 1 < MAX_MSG_QUEUE_SIZE → malloc_ok h sizeof_MSG = true →
  malloc_ok h 6 = true → INT_MIN ≤ id ≤ INT_MAX → ∃ l r h' x b,
  ts = l ++ r ∧ sm_transition_to id h = Ok (0, h') ∧
  handler_inv h' (qs ++ [brk h]) ds os (l ++ brk h :: r) ps ∧
  msgs h' !! brk h = Some x ∧ Handler.what x = UPIL_EVT_SM_TRANSITION ∧ data x = Some b ∧
  bytes_int b = Ok id.
Proof.
  intros Hlen Hm Hm6 Hid.
  destruct (obtain_message_ok _ _ _ _ _ _ UPIL_EVT_SM_TRANSITION (Some (int_bytes id)) 4
    Hinv Hlen Hm (λ _, Hm6)) as (h1 & E1 & Hi1 & Em & El & _ & Ep).
  { intros _. by exists (int_bytes id). }
  destruct (fresh_not_in _ _ _ _ _ _ (brk h) Hinv ltac:(lia)) as [_ Hn].
  rewrite !not_elem_of_cons in Hn.
  destruct (send_inv h1 _ _ _ _ _ (brk h) (u32 0) Hi1)
    as (l & r & h' & -> & E2 & Hi2 & Em2 & _);
    [rewrite !elem_of_app, elem_of_cons; tauto|tauto|].
  exists l, r, h', (new_MSG UPIL_EVT_SM_TRANSITION (Some (int_bytes id)) 4), (int_bytes id ++ [0; 0]).
  split_and!; [done| |done|by rewrite Em2, Em, lookup_insert_eq|done|done|].
  - unfold sm_transition_to, sm_send_message_delay. erewrite bind_ok by exact E1. cbv iota beta.
    by erewrite bind_ok by exact E2.
  - rewrite bytes_int_ok. f_equal. by apply s32_small.
Qed.
End properties.

(** The start of a handler makes it well formed and empty, and its loop
    watches the wake-up pipe alone. *)
Theorem start_handler_ready h func r w :
  idle_handler h → 0 ≤ r < FD_SETSIZE → ∃ h',
  start_handler func 0 (Some (r, w)) h = Ok (0, h') ∧ handler_inv h' [] [] [] [] [] ∧
  msg_processor h' = func ∧ readFds (upile (loop h')) = {[r]}.
Proof.
  intros Hi Hr. destruct (start_ok h func r w Hi Hr) as (h' & H1 & H2 & H3 & H4 & _). by exists h'.
Qed.

(** ** Witnesses *)

Definition demo_pool_handler : HANDLER :=
  mkHANDLER ∅ ∅ 16%positive no_callback 0
    (UewContext (UpileContext ∅ 0 [] {[wakeupfd_event := Links None None]}
       {[wakeupfd_event := zero_event]} (Timeval 100 0)) 0 0 0 false) (λ n, n <? 1000).

Lemma demo_idle : idle_handler demo_pool_handler.
Proof.
  assert (∀ {A} (x : A) p, is_Some (({[wakeupfd_event := x]} : gmap positive A) !! p) ↔
    p = wakeupfd_event) as Hs.
  { intros A x p. destruct (decide (p = wakeupfd_event)) as [->|].
    - rewrite lookup_singleton_eq. split; eauto.
    - rewrite lookup_singleton_ne by done. split; [intros []; done|done]. }
  by split; try done; apply Hs.
Qed.

Definition demo_handler : HANDLER :=
  match start_handler sm_process_message_cb 0 (Some (30, 31)) demo_pool_handler with
  | Ok (_, h) => h
  | Err _ => demo_pool_handler
  end.

Lemma demo_handler_inv : handler_inv demo_handler [] [] [] [] [].
Proof.
  destruct (start_ok demo_pool_handler sm_process_message_cb 30 31 demo_idle)
    as (h & E & Hi & _); [unfold FD_SETSIZE; lia|]. unfold demo_handler. by rewrite E.
Qed.

Lemma start_handler_witness : ∃ h',
  start_handler sm_process_message_cb 0 (Some (30, 31)) demo_pool_handler = Ok (0, h') ∧
  handler_inv h' [] [] [] [] [].
Proof.
  destruct (start_handler_ready demo_pool_handler sm_process_message_cb 30 31 demo_idle)
    as (h & E & Hi & _); [unfold FD_SETSIZE; lia|]. by exists h.
Defined.

Lemma sm_send_accepts_witness : ∃ l r h',
  [] = l ++ r ∧ sm_send_message_delay 5 (Some [1; 2; 3]) 2 100 demo_handler = Ok (0, h') ∧
  handler_inv h' [16%positive] [] [] (l ++ 16%positive :: r) [].
Proof.
  destruct (sm_send_accepts demo_handler [] [] [] [] [] demo_handler_inv 5 (Some [1; 2; 3]) 2 100)
    as (l & r & h' & H1 & H2 & H3 & _); [by vm_compute|by vm_compute|by vm_compute| | |].
  - intros _. exists [1; 2; 3]. by vm_compute.
  - by vm_compute.
  - by exists l, r, h'.
Defined.

Lemma sm_send_refuses_witness : ∃ h',
  sm_send_message_delay 5 (Some []) 2000 100 demo_handler = Ok (-1, h') ∧
  handler_inv h' [] [] [] [] [].
Proof.
  destruct (sm_send_refuses demo_handler [] [] [] [] [] demo_handler_inv 5 (Some []) 2000 100)
    as (h' & H1 & H2 & _); [by right; vm_compute|by exists h'].
Defined.

(** A handler with one message, 5, that is sent. *)
Lemma demo_queue : ∃ h, handler_inv h [16%positive] [] [] [16%positive] [] ∧
  with_id h 5 [16%positive] = [16%positive].
Proof.
  destruct (sm_send_ok demo_handler [] [] [] [] [] demo_handler_inv 5 None 0 100)
    as (l & r & h' & H1 & H2 & H3 & H4 & _); [by vm_compute|by vm_compute|by vm_compute| | |].
  - intros ?; lia.
  - by vm_compute.
  - symmetry in H1. apply app_eq_nil in H1 as [-> ->].
    assert (brk demo_handler = 16%positive) as Eb by (by vm_compute).
    rewrite Eb in *. exists h'. split; [done|]. unfold with_id.
    rewrite filter_cons_True; [done|]. rewrite H4, lookup_insert_eq. done.
Qed.

Lemma remove_message_id_witness : ∃ h h',
  remove_message_id msg_queue 5 h = Ok (tt, h') ∧ handler_inv h' [] [] [] [] [].
Proof.
  destruct demo_queue as (h & Hi & Hw).
  destruct (remove_message_id_removes h _ _ _ _ _ Hi 5) as (h' & H1 & H2 & _).
  rewrite Hw in H2. by exists h, h'.
Defined.

Lemma process_defer_witness : ∃ h h' ts',
  process_defer_msg defer_msg_queue h = Ok (tt, h') ∧
  handler_inv h' [16%positive] [] [] ts' [] ∧ ts' ≡ₚ [16%positive].
Proof.
  destruct demo_queue as (h & Hi & _).
  destruct (process_defer_msg_sends h _ _ _ _ _ Hi) as (h' & ts' & H1 & H2 & H3 & _).
  by exists h, h', ts'.
Defined.

Lemma sm_transition_to_witness : ∃ h' x b,
  sm_transition_to 3 demo_handler = Ok (0, h') ∧ msgs h' !! 16%positive = Some x ∧
  data x = Some b ∧ bytes_int b = Ok 3.
Proof.
  destruct (sm_transition_to_carries demo_handler [] [] [] [] [] demo_handler_inv 3)
    as (l & r & h' & x & b & _ & H1 & _ & H2 & _ & H3 & H4); [by vm_compute..|].
  assert (brk demo_handler = 16%positive) as Eb by (by vm_compute). rewrite Eb in H2.
  by exists h', x, b.
Defined.
