(* ===== verification/Contract.v ===== *)
(** * The contract of a machine

    A [contract] says what a machine is: how many states it has, which
    messages it understands, what it needs of its struct, and which states it
    may ask for.  A table of states [Fulfils] a contract when its functions
    keep the invariant of the machine ([keeps]) and ask for no other states.
    The operations a state may use keep the invariant, which is what a table
    needs to fulfil its contract.  What the framework promises to such a table
    is in MachineProofs; the telephone and the test program are the clients. *)

From S2P Require Import Prelude CString Dll EventLoop EventLoopProofs WatchProofs Handler.
From S2P Require Import HandlerProofs Messages TpProtocol TpProofs StateMachine SendProofs.

(** ** Contracts *)

Record contract := Contract {
  states : nat;
  accepts : MSG → Prop;
  owns : FSM → Prop;
  moves : nat → Z → Z → bool;    (* state, message, state it asks for *)
  cancels : Z → bool;            (* the messages it may take back *)
}.

(** A message whose name is in the tables. *)
Definition named (x : MSG) : Prop := is_ok (msg2str (what x)) = true.

(** The messages, timers and pending events there were, and the address of
    the next message. *)
Record before := Before {
  b_msgs : gmap positive MSG;
  b_ts : list loc;
  b_ps : list loc;
  b_brk : positive;
}.

(** What is known of the machine while it works: the message it processes
    with its fields, if any, the index of the current state, what there was
    before, and the states that may be asked for. *)
Record view := View {
  v_msg : option (loc * MSG);
  v_state : nat;
  v_old : before;
  v_req : Z → bool;
}.

Definition held (v : view) : list loc :=
  match v_msg v with Some (m, _) => [m] | None => [] end.

Definition in_state (i : nat) (v : view) : view := View (v_msg v) i (v_old v) (v_req v).

(** A message is one of [old], or asks for no state but those of [req]. *)
Definition asked (old : gmap positive MSG) (req : Z → bool) (p : loc) (y : MSG) : Prop :=
  old !! p = Some y ∨
  (what y = UPIL_EVT_SM_TRANSITION →
   ∃ b n, data y = Some b ∧ bytes_int b = Ok n ∧ req n = true).

(** An event that the loop of the handler calls is the one of its wake-up
    pipe, or the one of a message, and set to process it. *)
Definition armed (h : HANDLER) (p : loc) (x : upil_event) : Prop :=
  is_Some (msgs h !! p) ∧ ev_func x = sm_process_message_cb ∧ ev_param x = p.

Definition wake_table : list ptr := <[0%nat := Some wakeupfd_event]> (replicate MAX_FD_EVENTS None).

Record loop_ok (h : HANDLER) : Prop := {
  lo_func : msg_processor h = sm_process_message_cb;
  lo_table : watch_table (upile (loop h)) = wake_table;
  lo_wakeup : ∃ x, events (upile (loop h)) !! wakeupfd_event = Some x ∧
    ev_func x = processWakeupCallback ∧ ev_persist x = 1;
  lo_events : ∀ p x, events (upile (loop h)) !! p = Some x →
    p ∈ [timer_list; pending_list; wakeupfd_event] ∨ armed h p x;
}.

(** Every queued message waits for its time or is pending. *)
Record serving (h : HANDLER) (qs ts ps : list loc) : Prop := {
  se_loop : loop_ok h;
  se_sent : ∀ p, p ∈ qs → p ∈ ts ++ ps;
  se_wakeup : wakeupfd_event ∉ ts;
}.

(** The lists since [old]: timers are added for new messages alone, no event
    becomes pending, a pending message stays so, unless it is one that the
    machine may take back, and no message changes. *)
Record since (ct : contract) (old : before) (h : HANDLER) (ts ps : list loc) : Prop := {
  si_ts : ∀ p, p ∈ ts → p ∈ b_ts old ∨ (b_brk old ≤ p)%positive;
  si_ps : ps `sublist_of` b_ps old;
  si_wakeup : wakeupfd_event ∈ b_ps old → wakeupfd_event ∈ ps;
  si_brk : (b_brk old ≤ brk h)%positive;
  si_kept : ∀ p y, p ∈ b_ps old → b_msgs old !! p = Some y → cancels ct (what y) = false →
    p ∈ ps ∧ msgs h !! p = Some y;
  si_same : ∀ p y, msgs h !! p = Some y → b_msgs old !! p = Some y ∨ (b_brk old ≤ p)%positive;
}.

(** The machine in its state [i] with the queued messages [qs], no message
    being deferred. *)
Record machine_ok (ct : contract) (i : nat) (f : FSM) (qs ts ps : list loc) : Prop := {
  mo_handler : handler_inv (handler f) qs [] [] ts ps;
  mo_len : len qs < MAX_MSG_QUEUE_SIZE;
  mo_malloc : malloc_ok (handler f) sizeof_MSG = true;
  mo_msgs : ∀ p x, msgs (handler f) !! p = Some x → accepts ct x;
  mo_state : cur_state f = Some i ∧ (i < states ct)%nat;
  mo_size : fsm_size f = Z.of_nat (states ct);
  mo_owns : owns ct f;
  mo_serving : serving (handler f) qs ts ps;
}.

Definition machine_inv (ct : contract) (v : view) (f : FSM) : Prop := ∃ qs ts ps,
  machine_ok ct (v_state v) f qs ts ps ∧
  (∀ m x, v_msg v = Some (m, x) → msgs (handler f) !! m = Some x ∧
     m ∉ msg_queue :: defer_msg_queue :: wakeupfd_event :: qs ∧
     m ∉ timer_list :: pending_list :: ts ++ ps) ∧
  (∀ p y, msgs (handler f) !! p = Some y → asked (b_msgs (v_old v)) (v_req v) p y ∧ p ∈ held v ++ qs) ∧
  since ct (v_old v) (handler f) ts ps.

(** What is outside of the machine: a handler may wait for it, and waits for
    ever when it does not answer.  The machine does not change this. *)
Class Outside (W : Type) `{Lens W FSM} := {
  answers : W → Prop;
  answers_lset (f : FSM) (w : W) : answers w → answers (lset f w);
}.

(** Code that was started in [w] has the outcome [o]: it returned with [P], or
    it waits for ever for an outside that does not answer. *)
Definition returns `{Outside W} {A} (w : W) (o : res (A * W)) (P : A → W → Prop) : Prop :=
  (∃ a w', o = Ok (a, w') ∧ P a w' ∧ (answers w → answers w')) ∨ (o = Err Blocked ∧ ¬ answers w).

(** [op] has no fault of its own, returns a result in [Q], and keeps the
    invariant. *)
Definition keeps `{Outside W} (ct : contract) (v : view) {A} (Q : A → Prop) (op : M W A) : Prop :=
  ∀ w, machine_inv ct v (lget w) → returns w (op w) (λ a w', Q a ∧ machine_inv ct v (lget w')).

Definition fine (ct : contract) (v : view) (p : loc) (y : MSG) : Prop :=
  accepts ct y ∧ asked (b_msgs (v_old v)) (v_req v) p y.

(** Code that leaves the machine alone. *)
Definition quiet `{Outside W} {A} (op : M W A) : Prop :=
  ∀ w, returns w (op w) (λ _ w', lget w' = lget w).

(** What a contract promises itself: a request for a state is understood when
    it names a state, and the machine needs nothing of the handler or of the
    current state. *)
Class Lawful (ct : contract) : Prop := {
  ct_request x : what x = UPIL_EVT_SM_TRANSITION →
    (accepts ct x ↔ ∃ b n, data x = Some b ∧ bytes_int b = Ok n ∧ 0 ≤ n < Z.of_nat (states ct));
  ct_owns_handler f h : owns ct f → owns ct (lset (h : HANDLER) f);
  ct_owns_state f s : owns ct f → owns ct (set_cur_state s f);
}.

(** What the table of a machine promises to the framework. *)
Class Fulfils `{Outside W} (tables : list (FSM_STATE W)) (ct : contract) : Prop := {
  ct_lawful :: Lawful ct;
  ct_state i : (i < states ct)%nat → ∃ st,
    read_at tables (Z.of_nat i) = Ok st ∧ st_id st = Z.of_nat i ∧ is_Some (process_func st);
  ct_enter i st f v : (i < states ct)%nat → read_at tables (Z.of_nat i) = Ok st →
    enter_func st = Some f → v_state v = i → keeps ct v (λ _, True) f;
  ct_exit i st f v : (i < states ct)%nat → read_at tables (Z.of_nat i) = Ok st →
    exit_func st = Some f → v_state v = i → keeps ct v (λ _, True) f;
  ct_process i st g m x old : (i < states ct)%nat → read_at tables (Z.of_nat i) = Ok st →
    process_func st = Some g → accepts ct x → what x ≠ UPIL_EVT_SM_TRANSITION →
    keeps ct (View (Some (m, x)) i old (moves ct i (what x))) (λ r, r = HANDLED) (g m);
}.

(** ** Outcomes *)

Section returns.
Context `{Outside W}.

Lemma returns_ok {A} (w w' : W) (a : A) (P : A → W → Prop) :
  P a w' → (answers w → answers w') → returns w (Ok (a, w')) P.
Proof. left. by exists a, w'. Qed.

Lemma returns_mono {A} (w : W) (o : res (A * W)) (P Q : A → W → Prop) :
  returns w o P → (∀ a w', P a w' → Q a w') → returns w o Q.
Proof. intros [(a & w' & E & HP & Ha)|Hb] HPQ; [left|by right]. exists a, w'. auto. Qed.

(** Code that goes on in [w1] was started in [w]. *)
Lemma returns_from {A} (w w1 : W) (o : res (A * W)) P :
  (answers w → answers w1) → returns w1 o P → returns w o P.
Proof. intros Ha [(a & w' & ? & ? & ?)|[? ?]]; [left|right]; [exists a, w'|]; auto. Qed.

Lemma returns_bind {A B} (w : W) (op : M W A) (k : A → M W B) P Q :
  returns w (op w) P → (∀ a w1, P a w1 → returns w1 (k a w1) Q) → returns w ((op ≫= k) w) Q.
Proof.
  intros [(a & w1 & E & HP & Ha)|[E Hb]] Hk.
  - rewrite (bind_ok _ _ _ _ _ E). by eapply returns_from, Hk.
  - right. split; [by apply bind_err|done].
Qed.

(** An outside that answers, or an outcome that is known. *)
Lemma returns_answered {A} (w : W) (o : res (A * W)) P :
  returns w o P → answers w → ∃ a w', o = Ok (a, w') ∧ P a w'.
Proof. intros [(a & w' & E & HP & _)|[_ Hn]] Ha; [by exists a, w'|done]. Qed.

Lemma returns_known {A} (w w' : W) (a : A) o P : returns w o P → o = Ok (a, w') → P a w'.
Proof. intros [(b & w1 & -> & HP & _)|[-> _]]; [by intros [= <- <-]|done]. Qed.
(** Code on the machine alone. *)
Lemma answers_zoom {A} (op : M FSM A) (w w' : W) a :
  zoom op w = Ok (a, w') → answers w → answers w'.
Proof.
  unfold zoom. destruct (op _) as [[b f]|]; [|done]. intros [= _ <-]. apply answers_lset.
Qed.
End returns.

(** ** Code that leaves the machine alone *)

Section quiet.
Context `{Outside W}.

Lemma quiet_ret {A} (a : A) : quiet (mret a).
Proof. intros w. by apply (returns_ok w w a). Qed.
Lemma quiet_skip : quiet skip.
Proof. apply quiet_ret. Qed.
Lemma quiet_gets {A} (f : W → A) : quiet (gets f).
Proof. intros w. by apply returns_ok. Qed.
Lemma quiet_lift {A} (a : A) r : r = Ok a → quiet (lift r).
Proof. intros -> w. by apply returns_ok. Qed.
Lemma quiet_modify f : (∀ w, lget (f w) = lget w ∧ (answers w → answers (f w))) → quiet (modify f).
Proof. intros Hf w. destruct (Hf w). apply (returns_ok w (f w) tt); [done|done]. Qed.

Lemma quiet_bind {A B} (op : M W A) (k : A → M W B) : quiet op → (∀ a, quiet (k a)) → quiet (op ≫= k).
Proof.
  intros Hop Hk w. eapply returns_bind; [apply Hop|]. intros a w1 <-. apply Hk.
Qed.

Lemma quiet_when (b : bool) op : quiet op → quiet (when b op).
Proof. intros Hq. destruct b; [done|apply quiet_ret]. Qed.

Lemma quiet_zoom {P A} `{Lens W P} (op : M P A) :
  (∀ (p : P) (w : W), lget (A := FSM) (lset p w) = lget w) →
  (∀ w : W, ∃ a p', op (lget w) = Ok (a, p') ∧ (answers w → answers (lset p' w))) → quiet (zoom op).
Proof.
  intros Hf Hop w. destruct (Hop w) as (a & p' & E & Ha). rewrite (zoom_ok op w a p' E). by apply returns_ok.
Qed.
End quiet.

Create HintDb quiet.
#[export] Hint Resolve quiet_ret quiet_skip quiet_gets quiet_when quiet_bind : quiet.

(** ** What the operations on messages leave *)

(** The watch table and the processing function. *)
Definition fixed (h : HANDLER) : list ptr * callback := (watch_table (upile (loop h)), msg_processor h).

Lemma leaves_loop {A} (op : MU A) :
  leaves (λ u, watch_table (upile u)) op → leaves fixed (zoom op).
Proof.
  intros Hop h a h' E. pose proof (leaves_zoom_in (S := HANDLER) _ _ Hop _ _ _ E) as Et.
  assert (leaves msg_processor (zoom op : MH A)) as Hf by leaves.
  unfold fixed. rewrite (Hf _ _ _ E). by f_equal.
Qed.

Lemma leaves_upile {A} (op : ML A) :
  leaves watch_table op → leaves (λ u, watch_table (upile u)) (zoom op).
Proof. exact (leaves_zoom_in (S := uew_context) watch_table op). Qed.

Lemma leaves_event_at {B} (f : upile_context → B) ev : leaves f (event_at ev).
Proof. intros c x c' E. unfold event_at in E. by case_match; simplify_eq. Qed.
#[local] Hint Resolve leaves_event_at : leaves.

Lemma leaves_event_set ev fd persist f p : leaves watch_table (upil_event_set ev fd persist f p).
Proof. unfold upil_event_set, event_update. leaves. Qed.

Lemma leaves_timer_position fuel t list : leaves watch_table (timer_position fuel t list).
Proof. revert list. induction fuel as [|f IH]; intros list; cbn [timer_position]; leaves. Qed.
#[local] Hint Resolve leaves_timer_position : leaves.

Lemma leaves_timer_add ev tv : leaves watch_table (upil_timer_add ev tv).
Proof. unfold upil_timer_add, event_update, addToList. leaves. Qed.

Lemma leaves_msg_at {B} (f : HANDLER → B) m : leaves f (msg_at m).
Proof. intros h x h' E. unfold msg_at in E. by case_match; simplify_eq. Qed.
#[local] Hint Resolve leaves_msg_at : leaves.

Lemma leaves_send_delay m msec : leaves fixed (send_message_delay m msec).
Proof.
  unfold send_message_delay. leaves; apply leaves_loop.
  - apply leaves_upile, leaves_event_set.
  - unfold uew_timer_add_wakeup, triggerEvLoop. leaves. apply leaves_upile, leaves_timer_add.
Qed.

Lemma leaves_remove_from_list m : leaves fixed (remove_from_list m).
Proof.
  unfold remove_from_list, removeFromQueue, on_elinks, uew_event_del. leaves.
  all: repeat match goal with |- leaves _ ((match ?x with _ => _ end) _) => destruct x end; leaves.
  all: apply leaves_loop, leaves_upile; unfold upil_timer_del, removeFromList; leaves.
Qed.

Lemma leaves_free m : leaves fixed (free_msg m).
Proof. unfold free_msg. leaves. Qed.
#[local] Hint Resolve leaves_send_delay leaves_remove_from_list leaves_free : leaves.

Lemma leaves_new_msg : leaves fixed new_msg.
Proof.
  intros h m h' E. unfold new_msg in E. rewrite bind_get in E. case_match; [|done].
  apply bind_inv in E as ([] & h1 & [= <-] & [= _ <-]). done.
Qed.
#[local] Hint Resolve leaves_new_msg : leaves.

Lemma leaves_obtain_message what dat size : leaves fixed (obtain_message what dat size).
Proof.
  unfold obtain_message, obtain, addToQueue, msg_update, remove_message. leaves.
Qed.
#[local] Hint Resolve leaves_obtain_message : leaves.

Lemma leaves_sm_send what dat size msec : leaves fixed (sm_send_message_delay what dat size msec).
Proof. unfold sm_send_message_delay. leaves. Qed.

Lemma leaves_remove_loop fuel queue msg id : leaves fixed (remove_id_loop fuel queue msg id).
Proof.
  revert msg. induction fuel as [|f IH]; intros msg; cbn [remove_id_loop]; unfold remove_message; leaves.
Qed.

Lemma leaves_sm_remove id : leaves fixed (sm_remove_message_id id).
Proof. unfold sm_remove_message_id, remove_message_id. leaves; apply leaves_remove_loop. Qed.

(** ** The lists of a handler that changes *)

Lemma elem_of_rms D l p : p ∈ rms D l ↔ p ∉ D ∧ p ∈ l.
Proof. unfold rms. by rewrite list_elem_of_filter. Qed.

Definition before_of (h : HANDLER) (ts ps : list loc) : before := Before (msgs h) ts ps (brk h).

Section since.
Context (ct : contract).
Notation since := (since ct).

Lemma since_refl h ts ps : since (before_of h ts ps) h ts ps.
Proof. split; simpl; [by left|done|done|lia|done|by left]. Qed.

Lemma since_mono old h h' ts ps :
  since old h ts ps → (brk h ≤ brk h')%positive →
  (∀ p, p ∈ b_ps old → msgs h' !! p = msgs h !! p) →
  (∀ p y, msgs h' !! p = Some y → msgs h !! p = Some y) → since old h' ts ps.
Proof.
  intros [H1 H2 H3 H4 H5 H6] Hb Hm Hs. split; try done; [lia| |eauto]. intros p y Hp Hy Hc.
  rewrite Hm by done. by apply H5.
Qed.

Lemma since_sent old h h' l r ps y :
  since old h (l ++ r) ps → (brk h ≤ brk h')%positive → msgs h !! brk h = None →
  msgs h' = <[brk h := y]> (msgs h) → since old h' (l ++ brk h :: r) ps.
Proof.
  intros [H1 H2 H3 H4 H5 H6] Hb Hn Hm. split; [|done|done|lia| |].
  - intros p Hp. rewrite elem_of_app, elem_of_cons in Hp. destruct Hp as [Hp|[->|Hp]]; [|by right|];
      apply H1; rewrite elem_of_app; tauto.
  - intros p z Hp Hz Hc. destruct (H5 p z Hp Hz Hc) as [Hps Hmz]. split; [done|].
    rewrite Hm, lookup_insert_ne; [done|]. intros <-. by rewrite Hn in Hmz.
  - intros p z. rewrite Hm, lookup_insert_Some. intros [[<- _]|[_ Hz]]; [by right|by apply H6].
Qed.

Lemma since_removed old h h' D ts ps :
  since old h ts ps → brk h' = brk h → wakeupfd_event ∉ D →
  (∀ p y, p ∈ D → msgs h !! p = Some y → cancels ct (what y) = true) →
  (∀ p, msgs h' !! p = if decide (p ∈ D) then None else msgs h !! p) →
  since old h' (rms D ts) (rms D ps).
Proof.
  intros [H1 H2 H3 H4 H5 H6] Hb HD Hcan Hm. split; [| | |lia| |].
  - intros p [_ Hp]%elem_of_rms. by apply H1.
  - etrans; [apply sublist_filter|done].
  - intros Hw. rewrite elem_of_rms. auto.
  - intros p y Hp Hy Hc. destruct (H5 p y Hp Hy Hc) as [Hps Hmy].
    assert (p ∉ D) as HpD by (intros Hin; by rewrite (Hcan p y Hin Hmy) in Hc).
    by rewrite Hm, decide_False, elem_of_rms.
  - intros p y. rewrite Hm. case_decide; [done|]. apply H6.
Qed.
End since.

Lemma loop_same h h' :
  loop_ok h → fixed h' = fixed h → msgs h' = msgs h →
  events (upile (loop h')) = events (upile (loop h)) → loop_ok h'.
Proof.
  intros [L1 L2 L3 L4] [= Et Ef] Em Ee. split; [by rewrite Ef|by rewrite Et|by rewrite Ee|].
  intros p x. rewrite Ee. intros Hx. destruct (L4 p x Hx) as [|[? ?]]; [by left|right].
  split; [by rewrite Em|done].
Qed.

Lemma serving_same h h' qs ts ps :
  serving h qs ts ps → fixed h' = fixed h → msgs h' = msgs h →
  events (upile (loop h')) = events (upile (loop h)) → serving h' qs ts ps.
Proof. intros [L H2 H3] Hf Em Ee. split; [by apply (loop_same h)|done|done]. Qed.

Lemma serving_freed h qs ts ps m :
  serving h qs ts ps → m ≠ wakeupfd_event → serving (freed m h) qs ts ps.
Proof.
  intros [[L1 L2 L3 L4] H2 H3] Hm. split; [|done|done]. split; [done|done| |]; simpl.
  - by rewrite lookup_delete_ne.
  - intros p x [Hp Hx]%lookup_delete_Some. destruct (L4 p x Hx) as [|[Hs ?]]; [by left|right].
    split; [|done]. simpl. by rewrite lookup_delete_ne.
Qed.

Lemma serving_sent h h' qs l r ps m x y :
  serving h qs (l ++ r) ps → fixed h' = fixed h → msgs h' = <[m := y]> (msgs h) →
  events (upile (loop h')) = <[m := x]> (events (upile (loop h))) →
  ev_func x = msg_processor h → ev_param x = m → m ≠ wakeupfd_event →
  serving h' (qs ++ [m]) (l ++ m :: r) ps.
Proof.
  intros [[L1 L2 L3 L4] H2 H3] [= Et Ef] Em Ee Hf Hp Hw. split.
  - split; [by rewrite Ef|by rewrite Et|by rewrite Ee, lookup_insert_ne|].
    intros p z. rewrite Ee, lookup_insert_Some. intros [[<- <-]|[Hne Hz]].
    + right. split; [by rewrite Em, lookup_insert_eq|by rewrite Hf].
    + destruct (L4 p z Hz) as [|[Hs ?]]; [by left|right]. split; [|done].
      by rewrite Em, lookup_insert_ne.
  - intros p. rewrite !elem_of_app, !elem_of_cons. intros [Hq|[->|[]%elem_of_nil]]; [|tauto].
    specialize (H2 p Hq). rewrite !elem_of_app in H2. tauto.
  - rewrite not_elem_of_app, not_elem_of_cons in *. naive_solver.
Qed.

Lemma serving_removed h h' qs ts ps D :
  serving h qs ts ps → fixed h' = fixed h → wakeupfd_event ∉ D →
  (∀ p, msgs h' !! p = if decide (p ∈ D) then None else msgs h !! p) →
  (∀ p, events (upile (loop h')) !! p = if decide (p ∈ D) then None else events (upile (loop h)) !! p) →
  serving h' (rms D qs) (rms D ts) (rms D ps).
Proof.
  intros [[L1 L2 L3 L4] H2 H3] [= Et Ef] HD Em Ee. split.
  - split; [by rewrite Ef|by rewrite Et|by rewrite Ee, decide_False|].
    intros p z. rewrite Ee. destruct (decide (p ∈ D)) as [|Hp]; [done|]. intros Hz.
    destruct (L4 p z Hz) as [|[Hs ?]]; [by left|right]. split; [|done]. by rewrite Em, decide_False.
  - intros p. rewrite elem_of_app, !elem_of_rms. intros [Hp Hq]. specialize (H2 p Hq).
    rewrite elem_of_app in H2. tauto.
  - rewrite elem_of_rms. tauto.
Qed.

(** ** Code that keeps the invariant *)

Section keeps.
Context `{LensLaws W FSM} `{!Outside W} {ct : contract} `{!Lawful ct} (v : view).
Notation keeps := (keeps (W := W) ct v).

Lemma keeps_ret {A} (a : A) (Q : A → Prop) : Q a → keeps Q (mret a).
Proof. intros Ha w Hw. by apply returns_ok. Qed.

Lemma keeps_bind {A B} (P : A → Prop) (Q : B → Prop) (op : M W A) (k : A → M W B) :
  keeps P op → (∀ a, P a → keeps Q (k a)) → keeps Q (op ≫= k).
Proof.
  intros Hop Hk w Hw. eapply returns_bind; [by apply Hop|]. intros a w1 [Ha Hw1]. by apply Hk.
Qed.

Lemma keeps_mono {A} (P Q : A → Prop) (op : M W A) :
  keeps P op → (∀ a, P a → Q a) → keeps Q op.
Proof. intros Hop HPQ w Hw. eapply returns_mono; [by apply Hop|]. naive_solver. Qed.

Lemma keeps_skip : keeps (λ _, True) skip.
Proof. by apply keeps_ret. Qed.

Lemma keeps_drop {A} (P : A → Prop) (op : M W A) : keeps P op → keeps (λ _, True) (op;; skip).
Proof. intros Hop. eapply keeps_bind; [exact Hop|]. intros. apply keeps_skip. Qed.

Lemma keeps_when (b : bool) (op : M W unit) : keeps (λ _, True) op → keeps (λ _, True) (when b op).
Proof. intros Hop. destruct b; [done|apply keeps_skip]. Qed.

Lemma keeps_gets {A} (f : W → A) : keeps (λ _, True) (gets f).
Proof. intros w Hw. by apply returns_ok. Qed.

Lemma keeps_lift {A} (a : A) (r : res A) (Q : A → Prop) : r = Ok a → Q a → keeps Q (lift r).
Proof. intros -> Ha w Hw. by apply returns_ok. Qed.

Lemma keeps_quiet {A} (op : M W A) : quiet op → keeps (λ _, True) op.
Proof. intros Hop w Hw. eapply returns_mono; [apply Hop|]. intros a w' E. by rewrite E. Qed.

Lemma keeps_modify (f : W → W) :
  (∀ w, lget (f w) = lget w ∧ (answers w → answers (f w))) → keeps (λ _, True) (modify f).
Proof. intros Hf. by apply keeps_quiet, quiet_modify. Qed.

(** Reading the struct. *)
Lemma keeps_fsm_read : keeps (λ f, owns ct f ∧ cur_state f = Some (v_state v) ∧
  (v_state v < states ct)%nat) (gets lget).
Proof.
  intros w Hw. pose proof Hw as (qs & ts & ps & [_ _ _ _ [Hi Hlt] _ Ho] & _). by apply returns_ok.
Qed.

(** Code on the machine's own fields. *)
Lemma keeps_fsm f :
  (∀ g, handler (f g) = handler g ∧ cur_state (f g) = cur_state g ∧ fsm_size (f g) = fsm_size g) →
  (∀ g, owns ct g → owns ct (f g)) →
  keeps (λ _, True) (zoom (modify f)).
Proof.
  intros Hf Hn w (qs & ts & ps & [H1 Hlen H2 H3 H4 H5 H6] & Hm).
  apply returns_ok; [|apply answers_lset]. split; [done|]. rewrite lget_lset.
  destruct (Hf (lget w)) as (F1 & F2 & F3).
  exists qs, ts, ps. rewrite F1. split; [|done]. split; rewrite ?F1, ?F2, ?F3; auto.
Qed.

Lemma keeps_msg m x : v_msg v = Some (m, x) → keeps (λ y, y = x) (on_handler (msg_at m)).
Proof.
  intros Hv w Hw. pose proof Hw as (qs & ts & ps & _ & Hx & _). destruct (Hx m x Hv) as (Em & _).
  assert (on_handler (msg_at m) w = Ok (x, w)) as -> by (apply zoom_read, zoom_read; by apply msg_at_ok).
  by apply returns_ok.
Qed.

(** The part of the invariant that is about the messages of the handler. *)
Record messages_ok (qs ts ps : list loc) (h : HANDLER) : Prop := {
  ms_len : len qs < MAX_MSG_QUEUE_SIZE;
  ms_fine : ∀ p y, msgs h !! p = Some y → fine ct v p y ∧ p ∈ held v ++ qs;
  ms_held : ∀ m x, v_msg v = Some (m, x) → msgs h !! m = Some x ∧
     m ∉ msg_queue :: defer_msg_queue :: wakeupfd_event :: qs ∧
     m ∉ timer_list :: pending_list :: ts ++ ps;
  ms_serving : serving h qs ts ps;
  ms_since : since ct (v_old v) h ts ps;
}.

(** The invariant after an operation on the handler. *)
Lemma keeps_handler {A} (op : MH A) (Q : A → Prop) :
  (∀ h qs ts ps, handler_inv h qs [] [] ts ps → malloc_ok h sizeof_MSG = true →
     messages_ok qs ts ps h →
     ∃ a h' qs' ts' ps', op h = Ok (a, h') ∧ Q a ∧ handler_inv h' qs' [] [] ts' ps' ∧
       malloc_ok h' = malloc_ok h ∧ messages_ok qs' ts' ps' h') →
  keeps Q (on_handler op).
Proof.
  intros Hop w (qs & ts & ps & [H1 Hlen H2 H3 H4 H5 H6 H7] & Hx & Hn & Hsi).
  destruct (Hop (handler (lget w)) qs ts ps H1 H2)
    as (a & h' & qs' & ts' & ps' & E & Ha & Hi & Em & [Hl' Hm' Hx' Hse' Hsi']).
  { split; try done. intros p y Hy. destruct (Hn p y Hy). split; [split; [by eapply H3|done]|done]. }
  assert (on_handler op w = Ok (a, lset (A := FSM) (lset h' (lget w)) w)) as ->.
  { apply (zoom_ok _ w). by apply (zoom_ok _ (lget (A := FSM) w)). }
  apply returns_ok; [split; [exact Ha|]|apply answers_lset].
  - rewrite lget_lset. exists qs', ts', ps'. split; [|split; [done|split; [|done]]].
    + split; simpl; try done; [by rewrite Em| |by apply ct_owns_handler].
      intros p y Hy. by apply (Hm' p y Hy).
    + intros p y Hy. destruct (Hm' p y Hy) as [[_ ?] ?]. done.
Qed.

Lemma new_MSG_what what dat size : Handler.what (new_MSG what dat size) = what.
Proof. unfold new_MSG. by destruct (0 <? size). Qed.

(** Sending a message that the machine understands. *)
Lemma keeps_send what dat size msec :
  (∀ p, fine ct v p (new_MSG what dat size)) → data_ok dat size → 0 ≤ msec ≤ INT_MAX →
  keeps (λ _, True) (on_handler (sm_send_message_delay what dat size msec)).
Proof.
  intros Hok Hdat Hmsec. apply keeps_handler. intros h qs ts ps Hi Hma Hmo.
  destruct Hmo as [Hlen Hms Hx Hse Hsi].
  destruct (fresh_not_in _ _ _ _ _ _ (brk h) Hi ltac:(lia)) as [Hb _].
  destruct (hi_fresh _ _ _ _ _ _ Hi (brk h)) as [Hfr _]; [lia|].
  destruct (sm_send_any h _ _ _ _ _ Hi what dat size msec Hma Hdat Hmsec)
    as (ret & h' & E & Ea & Eb & Hc).
  pose proof (leaves_sm_send what dat size msec _ _ _ E) as Efix.
  destruct Hc as [(-> & Hi' & Em & Ee)|(l & r & -> & -> & Hi' & Em & Hl & x & Ee & Hxf & Hxp)].
  { exists (-1), h', qs, ts, ps. split_and!; [done..|]. split; rewrite ?Em; try done.
    - by apply (serving_same h).
    - by apply (since_mono _ _ h); rewrite ?Em. }
  exists 0, h', (qs ++ [brk h]), (l ++ brk h :: r), ps. split_and!; [done..|].
  split.
  - rewrite app_nil_r, len_app in *. by change (len [brk h]) with 1.
  - intros p y. rewrite Em. destruct (decide (p = brk h)) as [->|Hp].
    + rewrite lookup_insert_eq. intros [= <-]. split; [apply Hok|].
      rewrite !elem_of_app, elem_of_cons. tauto.
    + rewrite lookup_insert_ne by done. intros Hy. destruct (Hms p y Hy) as [? Hin].
      split; [done|]. rewrite !elem_of_app in *. tauto.
  - intros m y Hv. destruct (Hx m y Hv) as (Hm & N1 & N2).
    assert (m ≠ brk h) as Hmb by congruence. rewrite Em, lookup_insert_ne by done.
    rewrite !not_elem_of_cons, !not_elem_of_app, !not_elem_of_cons in *. split_and!; try tauto.
    apply not_elem_of_nil.
  - eapply serving_sent; [exact Hse|done|exact Em|exact Ee|done|done|].
    rewrite !not_elem_of_cons in Hb. tauto.
  - by eapply (since_sent _ _ h).
Qed.

(** A message that is no request for a state. *)
Lemma fine_message what dat size :
  accepts ct (new_MSG what dat size) → what ≠ UPIL_EVT_SM_TRANSITION →
  ∀ p, fine ct v p (new_MSG what dat size).
Proof. intros Ha Hw p. split; [done|right]. by rewrite new_MSG_what. Qed.

(** Asking for a state. *)
Lemma keeps_transition_to id :
  0 ≤ id < Z.of_nat (states ct) → id ≤ INT_MAX → v_req v id = true →
  keeps (λ _, True) (on_handler (sm_transition_to id)).
Proof.
  intros Hid Hmax Hr. apply keeps_send; [|intros _; by exists (int_bytes id)|by vm_compute].
  assert (s32 id = id) as Es.
  { apply s32_small. unfold INT_MIN, INT_MAX in *. lia. }
  intros p. split; [apply ct_request; [done|]|right; intros _];
    exists (int_bytes id ++ [0; 0]), id; by rewrite bytes_int_ok, Es.
Qed.

Lemma defer_empty h qs os ts ps id :
  handler_inv h qs [] os ts ps → remove_message_id defer_msg_queue id h = Ok (tt, h).
Proof.
  intros Hi. pose proof (hi_defer _ _ _ _ _ _ Hi) as Hd. unfold remove_message_id.
  erewrite bind_ok.
  2:{ apply zoom_read, get_next_ok. eapply ring_live; [exact Hd|by left]. }
  cbn [lget handler_qlinks]. rewrite (ring_next_head _ _ _ Hd).
  erewrite bind_ok by done. by erewrite bind_ok by done.
Qed.

Lemma sm_remove_ok h qs ts ps what :
  handler_inv h qs [] [] ts ps → ∃ h', let D := with_id h what qs in
  sm_remove_message_id what h = Ok (tt, h') ∧ handler_inv h' (rms D qs) [] [] (rms D ts) (rms D ps) ∧
  (∀ p, msgs h' !! p = if decide (p ∈ D) then None else msgs h !! p) ∧ malloc_ok h' = malloc_ok h ∧
  brk h' = brk h ∧
  (∀ p, events (upile (loop h')) !! p = if decide (p ∈ D) then None else events (upile (loop h)) !! p).
Proof.
  intros Hi. destruct (remove_message_id_ok _ _ _ _ _ _ what Hi) as (h' & E & Hi' & Em & Eb & _ & Ea & Ee).
  exists h'. cbv zeta. split_and!; [|done..]. unfold sm_remove_message_id.
  erewrite bind_ok by exact E. by eapply defer_empty.
Qed.

Lemma keeps_remove what :
  cancels ct what = true → keeps (λ _, True) (on_handler (sm_remove_message_id what)).
Proof.
  intros Hcan. apply keeps_handler. intros h qs ts ps Hi Hma [Hlen Hms Hx Hse Hsi].
  destruct (sm_remove_ok h qs ts ps what Hi) as (h' & E & Hi' & Em & Ea & Eb & Ee).
  pose proof (leaves_sm_remove what _ _ _ E) as Efix.
  set (D := with_id h what qs) in *.
  assert (∀ p, p ∈ D → p ∈ qs) as HD by (by intros p [_ ?]%list_elem_of_filter).
  assert (wakeupfd_event ∉ D) as HwD.
  { intros Hin%HD. destruct (live_disjoint _ _ _ (hi_nodup _ _ _ _ _ _ Hi)) as (D1 & _ & _).
    destruct (D1 wakeupfd_event) as (_ & _ & []); [rewrite elem_of_app; by left|done]. }
  exists tt, h', (rms D qs), (rms D ts), (rms D ps). split_and!; [done..|]. split.
  - pose proof (rms_len D qs). lia.
  - intros p y. rewrite Em. destruct (decide (p ∈ D)) as [|Hp]; [done|]. intros Hy.
    destruct (Hms p y Hy) as [? Hin]. split; [done|]. rewrite elem_of_app, elem_of_rms in *. tauto.
  - intros m x Hv. destruct (Hx m x Hv) as (Hm & N1 & N2).
    rewrite !not_elem_of_cons, !not_elem_of_app in *.
    assert (m ∉ D) as HmD by (intros Hin%HD; tauto).
    rewrite Em, decide_False, !elem_of_rms by done. tauto.
  - by apply (serving_removed h).
  - apply (since_removed _ _ h); try done. intros p y [Hp _]%list_elem_of_filter Hy.
    rewrite Hy in Hp. by injection Hp as ->.
Qed.

Lemma process_defer_empty h qs os ts ps :
  handler_inv h qs [] os ts ps → process_defer_msg defer_msg_queue h = Ok (tt, h).
Proof.
  intros Hi. pose proof (hi_defer _ _ _ _ _ _ Hi) as Hd. unfold process_defer_msg. erewrite bind_ok.
  2:{ apply zoom_read, get_next_ok. eapply ring_live; [exact Hd|by left]. }
  cbn [lget handler_qlinks]. rewrite (ring_next_head _ _ _ Hd).
  erewrite bind_ok by done. by erewrite bind_ok by done.
Qed.

Lemma keeps_deferred : keeps (λ _, True) (on_handler (process_defer_msg defer_msg_queue)).
Proof.
  apply keeps_handler. intros h qs ts ps Hi Hma Hms. exists tt, h, qs, ts, ps.
  split_and!; try done. by eapply process_defer_empty.
Qed.
End keeps.
