(* ===== verification/MachineProofs.v ===== *)
(** * What the framework of machines promises

    For every table that [Fulfils] its contract, the framework of
    state_machine.c starts the machine well formed, processes every message
    without a fault, and ends in the state that is asked for.  The runs of a
    machine are the turns of its loop and what the rest of its program does:
    every reachable machine is at rest in one of its states. *)

From S2P Require Import Prelude CString Dll EventLoop EventLoopProofs WatchProofs Handler.
From S2P Require Import HandlerProofs Messages TpProtocol TpProofs StateMachine SendProofs Contract.

(** ** The loop of a well-formed handler *)

(** An operation of the loop: it moves events between the lists, takes events
    off them, and may add the wake-up event. *)
Lemma loop_turn_inv h qs ds os ts ps ts' ps' (e' : lheap) :
  handler_inv h qs ds os ts ps →
  loop_inv (lset e' (upile (loop h))) ts' ps' →
  same_but (wakeupfd_event :: timer_list :: pending_list :: ts ++ ps) (elinks (upile (loop h))) e' →
  (∀ p, p ∈ ts' ++ ps' → p = wakeupfd_event ∨ p ∈ ts ++ ps) →
  (∀ p, p ∈ ts ++ ps → p ∉ ts' ++ ps' → e' !! p = Some (Links None None)) →
  handler_inv (lset (A := uew_context) (lset (lset e' (upile (loop h))) (loop h)) h) qs ds os ts' ps'.
Proof.
  intros [Hq Hd Hnd Hoff Hl Hs Hu Hlive Hfr Hc Hw] Hl' [Hsame Hdom] Hsub Hoff'.
  split; simpl; try done.
  - intros p Hp. destruct (Hsub p Hp) as [|Hin]; [by left|by apply Hs].
  - intros p Hp Hnp. destruct (decide (p ∈ ts ++ ps)) as [Hin|Hn]; [by apply Hoff'|].
    rewrite <-(Hu p Hp Hn). apply Hsame. rewrite !not_elem_of_cons.
    destruct (live_disjoint _ _ _ Hnd) as (D & _ & _). by destruct (D p Hp) as (? & ? & ?).
  - intros p Hp. destruct (Hfr p Hp) as (H1 & H2 & H3). split_and!; [done|done|].
    rewrite eq_None_not_Some, Hdom, <-eq_None_not_Some. done.
  - by rewrite Hdom.
Qed.

Lemma loop_step_inv h qs ds os ts ps ts' ps' (e' : lheap) :
  handler_inv h qs ds os ts ps →
  loop_inv (lset e' (upile (loop h))) ts' ps' →
  same_but (timer_list :: pending_list :: ts ++ ps) (elinks (upile (loop h))) e' →
  (∀ p, p ∈ ts' ++ ps' → p ∈ ts ++ ps) →
  (∀ p, p ∈ ts ++ ps → p ∉ ts' ++ ps' → e' !! p = Some (Links None None)) →
  handler_inv (lset (A := uew_context) (lset (lset e' (upile (loop h))) (loop h)) h) qs ds os ts' ps'.
Proof.
  intros Hh Hl Hs Hsub Hoff. eapply loop_turn_inv; [done|done| |by auto|done].
  eapply same_but_weaken; [|exact Hs]. intros p. mem_goal.
Qed.

Lemma clock_inv h qs ds os ts ps t :
  handler_inv h qs ds os ts ps →
  let c := upile (loop h) in
  handler_inv (lset (A := uew_context) (lset (UpileContext (readFds c) (nfds c) (watch_table c)
    (elinks c) (events c) t) (loop h)) h) qs ds os ts ps.
Proof. intros [Hq Hd Hnd Hoff [] Hs Hu Hlive Hfr Hc Hw]. split; done. Qed.

(** ** The steps of a machine

    The moves of a machine as the rest of its program sees it.  [outer_main]:
    another thread changes its own state.  [outer_send]: a message is sent.
    [outer_clock], [outer_timeouts]: the loop of the machine waits, and moves
    the timers that are due to the pending list.  [outer_collect]: a turn of
    the loop does so when nothing is pending, and looks at the descriptors.
    [outer_wakeup]: the loop takes the event of its wake-up pipe.
    [run_message]: the loop takes the first pending event, of the message [m],
    and calls its function. *)

(** What a turn of a loop does before it calls the pending events. *)
Definition collect (woken : timeval) (rfds : gset Z) (n : Z) : ML unit :=
  modify (set_now woken);;
  processTimeouts;;
  processReadReadies rfds n.

Section moves.
Context {W : Type} `{HL : Lens W FSM}.

Definition on_loop {A} (op : ML A) : M W A := on_handler (zoom (zoom (A := upile_context) op)).

(** The first pending event, as [firePending] and [fire] find it. *)
Definition first_pending (w : W) : option loc :=
  next_of (elinks (upile (loop (handler (lget w))))) pending_list.

Definition deliver (tables : list (FSM_STATE W)) (m : loc) : M W Z :=
  on_loop (removeFromList m);; sm_process_message tables m.

(** What happens between two messages. *)
Inductive outer_step (ct : contract) (w w' : W) : Prop :=
  | outer_main : lget w' = lget w → outer_step ct w w'
  | outer_send what dat size msec ret :
      accepts ct (new_MSG what dat size) → data_ok dat size → 0 ≤ msec ≤ INT_MAX →
      on_handler (sm_send_message_delay what dat size msec) w = Ok (ret, w') → outer_step ct w w'
  | outer_clock t : on_loop (modify (set_now t)) w = Ok (tt, w') → outer_step ct w w'
  | outer_timeouts : on_loop processTimeouts w = Ok (tt, w') → outer_step ct w w'
  | outer_collect woken rfds n :
      first_pending w = Some pending_list → on_loop (collect woken rfds n) w = Ok (tt, w') →
      outer_step ct w w'
  | outer_wakeup :
      first_pending w = Some wakeupfd_event →
      (on_loop (removeFromList wakeupfd_event);; on_handler (zoom processWakeup)) w = Ok (0, w') →
      outer_step ct w w'.

Inductive machine_run (tables : list (FSM_STATE W)) (ct : contract) (start : W → Prop) : W → Prop :=
  | run_start w : start w → machine_run tables ct start w
  | run_outer w w' :
      machine_run tables ct start w → outer_step ct w w' → machine_run tables ct start w'
  | run_message w w' m ret :
      machine_run tables ct start w → first_pending w = Some m →
      is_Some (msgs (handler (lget w)) !! m) → deliver tables m w = Ok (ret, w') →
      machine_run tables ct start w'.
(** The loop of the machine in its operations. *)
Lemma on_loop_ok {A} (op : ML A) (w : W) a c :
  op (upile (loop (handler (lget w)))) = Ok (a, c) →
  on_loop op w = Ok (a, lset (A := FSM) (lset (lset (A := uew_context) (lset c
    (loop (handler (lget w)))) (handler (lget w))) (lget w)) w).
Proof.
  intros E. apply (zoom_ok _ w), (zoom_ok _ (lget (A := FSM) w)), (zoom_ok _ (handler (lget w))).
  by apply (zoom_ok _ (loop (handler (lget w)))).
Qed.

End moves.

(** ** Changes of state *)

(** The state after a message: the one it asks for, or the same. *)
Definition next_state (i : nat) (x : MSG) : nat :=
  if what x =? UPIL_EVT_SM_TRANSITION then
    match data x with
    | Some b => match bytes_int b with Ok n => Z.to_nat n | Err _ => i end
    | None => i
    end
  else i.

(** The machine between two messages: all its messages are queued. *)
Definition machine_rest (ct : contract) (i : nat) (f : FSM) (qs ts ps : list loc) : Prop :=
  machine_ok ct i f qs ts ps ∧ ∀ p, is_Some (msgs (handler f) !! p) → p ∈ qs.

Lemma rest_state ct i f qs ts ps : machine_rest ct i f qs ts ps → cur_state f = Some i.
Proof. by intros [[_ _ _ _ [Hi _] _ _] _]. Qed.

Section steps.
Context `{LensLaws W FSM} `{!Outside W} {tables : list (FSM_STATE W)} {ct : contract} `{Hct : !Fulfils tables ct}.

Lemma next_state_lt i x : (i < states ct)%nat → accepts ct x → (next_state i x < states ct)%nat.
Proof.
  intros Hi Hx. unfold next_state. destruct (Z.eqb_spec (what x) UPIL_EVT_SM_TRANSITION) as [Ew|]; [|done].
  apply (ct_request x Ew) in Hx as (b & n & -> & -> & Hn). lia.
Qed.

(** The table is searched for the identifier, which is the index. *)
Lemma get_state_loop_ok k i n :
  (i + k = states ct)%nat → (i ≤ n < states ct)%nat →
  get_state_loop tables (Z.of_nat n) i k = Ok (Some n).
Proof.
  revert i. induction k as [|k IH]; intros i Hk Hn; [lia|]. simpl.
  destruct (ct_state (tables := tables) i) as (st & -> & Eid & _); [lia|].
  cbn [mbind res_bind]. rewrite Eid. destruct (Z.eqb_spec (Z.of_nat i) (Z.of_nat n)); [do 2 f_equal; lia|].
  apply IH; lia.
Qed.

Lemma get_state_ok n (w : W) :
  fsm_size (lget w) = Z.of_nat (states ct) → 0 ≤ n < Z.of_nat (states ct) →
  get_state tables n w = Ok (Some (Z.to_nat n), w).
Proof.
  intros Hs Hn. unfold get_state. erewrite bind_ok by done. rewrite Hs, Nat2Z.id.
  rewrite <-(Z2Nat.id n) at 1 by lia. unfold lift. rewrite get_state_loop_ok by lia. done.
Qed.

Lemma current_ok i st (w : W) :
  cur_state (lget w) = Some i → read_at tables (Z.of_nat i) = Ok st →
  current tables w = Ok (Some st, w).
Proof.
  intros Hi Est. unfold current. erewrite bind_ok by done. rewrite Hi. cbv iota beta.
  rewrite Est. by erewrite bind_ok by done.
Qed.

Lemma keeps_option v (f : option (M W unit)) :
  (∀ g, f = Some g → keeps ct v (λ _, True) g) →
  keeps ct v (λ _, True) (match f with Some g => g | None => skip end).
Proof. destruct f as [g|]; [intros Hg; by apply Hg|intros _; apply keeps_skip]. Qed.

(** The new state is entered. *)
Lemma enter_ok v (w : W) n st :
  v_state v = n → machine_inv ct v (set_cur_state (Some n) (lget w)) → (n < states ct)%nat →
  read_at tables (Z.of_nat n) = Ok st →
  returns w ((zoom (modify (set_cur_state (Some n)));;
   st ← lift (read_at tables (Z.of_nat n));
   match enter_func st with Some f => f | None => skip end;;
   on_handler (process_defer_msg defer_msg_queue);;
   mret HANDLED) w) (λ r w', r = HANDLED ∧ machine_inv ct v (lget w')).
Proof.
  intros Hv Hinv Hn Est.
  set (w1 := lset (set_cur_state (Some n) (lget w)) w).
  erewrite bind_ok by (by instantiate (1 := w1); instantiate (1 := tt)).
  rewrite Est. erewrite bind_ok by done. apply (returns_from w w1); [apply answers_lset|].
  eapply (keeps_bind v (λ _, True)).
  - apply keeps_option. intros g Hg. by eapply ct_enter.
  - intros _ _. eapply keeps_bind; [apply keeps_deferred|]. intros _ _. by apply keeps_ret.
  - unfold w1. by rewrite lget_lset.
Qed.

Lemma transition_ok v (w : W) n :
  machine_inv ct v (lget w) → 0 ≤ n < Z.of_nat (states ct) →
  returns w (transition_to tables n w) (λ r w', r = HANDLED ∧ machine_inv ct (in_state (Z.to_nat n) v) (lget w')).
Proof.
  intros Hinv Hn. pose proof Hinv as (qs & ts & ps & [_ _ _ _ [H4 Hlt] H5 _] & _).
  destruct (ct_state (tables := tables) _ Hlt) as (st & Est & Eid & _).
  destruct (ct_state (tables := tables) (Z.to_nat n)) as (st' & Est' & _); [lia|].
  unfold transition_to. erewrite bind_ok by (by eapply current_ok). cbv iota beta. rewrite Eid.
  destruct (Z.eqb_spec (Z.of_nat (v_state v)) n) as [<-|Hne].
  { apply returns_ok; [|done]. split; [done|]. unfold in_state. rewrite Nat2Z.id. by destruct v. }
  erewrite bind_ok by (by apply get_state_ok). cbv iota beta.
  eapply returns_bind.
  { apply (keeps_option v (exit_func st)); [intros g Hg; by eapply ct_exit|done]. }
  intros [] w1 [_ Hinv1]. apply (enter_ok (in_state (Z.to_nat n) v) w1 _ st'); [done| |lia|done].
  destruct Hinv1 as (qs1 & ts1 & ps1 & [G1 Glen G2 G3 G4 G5 G6] & Hm).
  exists qs1, ts1, ps1. split; [|done]. split; try done; [simpl; split; [done|lia]|].
  by apply ct_owns_state.
Qed.

(** The handler of a state, or the change of state. *)
Lemma dispatch_ok m x i old (w : W) :
  let v := View (Some (m, x)) i old (moves ct i (what x)) in
  machine_inv ct v (lget w) → accepts ct x → named x →
  returns w ((if what x =? UPIL_EVT_SM_TRANSITION then
     b ← lift (deref (data x));
     n ← lift (bytes_int b);
     transition_to tables n
   else process_msg tables m) w)
  (λ r w', r = HANDLED ∧ machine_inv ct (in_state (next_state i x) v) (lget w')).
Proof.
  intros v Hinv Hok Hstr. unfold next_state.
  destruct (Z.eqb_spec (what x) UPIL_EVT_SM_TRANSITION) as [Ew|Ew].
  - apply (ct_request x Ew) in Hok as (b & n & Eb & En & Hn). rewrite Eb, En.
    erewrite bind_ok by done. erewrite bind_ok by (by rewrite En). by apply transition_ok.
  - pose proof Hinv as (qs & ts & ps & [_ _ _ _ [H4 Hlt] _ _] & Hm & _).
    destruct (ct_state (tables := tables) _ Hlt) as (st & Est & _).
    unfold process_msg. erewrite bind_ok by (by eapply current_ok). cbv iota beta.
    destruct (process_func st) as [g|] eqn:Eg; [|by apply returns_ok].
    destruct (Hm m x eq_refl) as (Ex & _).
    erewrite bind_ok by (apply zoom_read, zoom_read; by apply msg_at_ok).
    unfold named in Hstr. destruct (msg2str (what x)) as [str|] eqn:Es; [|done].
    erewrite bind_ok by done.
    eapply returns_mono; [exact (ct_process (tables := tables) i st g m x old Hlt Est Eg Hok Ew w Hinv)|].
    by intros r w' [-> Hinv'].
Qed.

(** ** One message *)

(** The first pending message is taken off the loop and off its queue. *)
Lemma taken_ok i (w : W) qs ts ps m x req :
  machine_rest ct i (lget w) qs ts (m :: ps) → msgs (handler (lget w)) !! m = Some x → ∃ w1 h,
  on_loop (removeFromList m) w = Ok (tt, w1) ∧
  remove_from_list (Some m) (handler (lget w1)) = Ok (tt, h) ∧
  msgs (handler (lget w1)) = msgs (handler (lget w)) ∧ msgs h = msgs (handler (lget w)) ∧
  machine_inv ct (View (Some (m, x)) i (before_of (handler (lget w)) ts ps) req)
    (lget (lset (lset h (lget w1)) w1)).
Proof.
  intros [[H1 Hlen H2 H3 H4 H5 H6 H7] Hq] Hx. assert (m ∈ qs) as Hin by eauto.
  pose proof (hi_loop _ _ _ _ _ _ H1) as Hl.
  destruct (pending_remove_inv _ ts [] m ps Hl) as (e' & E & Hl' & Hm & Hs).
  set (l1 := lset (A := upile_context) (lset e' (upile (loop (handler (lget w))))) (loop (handler (lget w)))).
  set (h0 := lset (A := uew_context) l1 (handler (lget w))).
  assert (handler_inv h0 qs [] [] ts ps) as Hi0.
  { eapply loop_step_inv; [exact H1|exact Hl'|..].
    - eapply same_but_weaken; [|exact Hs]. intros p. mem_goal.
    - intros p. mem_goal.
    - intros p. rewrite !elem_of_app, elem_of_cons. intros [Hp|[->|Hp]] Hn; try done; tauto. }
  destruct (remove_from_list_ok _ _ _ _ _ _ m Hi0) as (h1 & E1 & Hi1 & Em1 & Eb1 & Ea1 & Ef1 & Ee1 & _).
  { rewrite elem_of_app. by left. }
  pose proof (leaves_remove_from_list _ _ _ _ E1) as Efix.
  destruct (removed_not_in _ _ _ _ _ _ m Hi0) as [Hn1 Hn2]; [rewrite elem_of_app; by left|].
  change (rm m []) with (@nil loc) in *. rewrite !app_nil_r in Hn1.
  assert (m ∉ ts ∧ m ∉ ps) as [Nt Np].
  { pose proof (inv_disjoint _ _ _ Hl) as Hnd. rewrite <-Permutation_middle, !NoDup_cons in Hnd.
    destruct Hnd as (_ & _ & Hnm & _). by apply not_elem_of_app. }
  rewrite (rm_notin m ts), (rm_notin m ps) in Hi1, Hn2 by done.
  exists (lset (A := FSM) (lset h0 (lget w)) w), h1. rewrite !lget_lset.
  split_and!; [by apply on_loop_ok|done..|].
  exists (rm m qs), ts, ps. simpl. rewrite Em1. split_and!.
  - split; simpl; rewrite ?Ea1, ?Em1; try done.
    + pose proof (rm_le m qs). lia.
    + exact (ct_owns_handler (lget w) h1 H6).
    + destruct H7 as [L1 L2 L3]. split; [|intros p [Hpm Hp]%elem_of_rm|done].
      * apply (loop_same (handler (lget w))); [done|done|by rewrite Em1|by rewrite Ee1].
      * specialize (L2 p Hp). rewrite elem_of_app, elem_of_cons in L2. rewrite elem_of_app. tauto.
  - by intros ?? [= <- <-].
  - intros p y Hy. split; [by left|].
    rewrite elem_of_cons, elem_of_rm. destruct (decide (p = m)) as [|Hp]; [by left|right].
    split; [done|]. apply Hq. by eexists.
  - apply (since_mono _ _ (handler (lget w))); [apply since_refl|rewrite Eb1; simpl; lia|by rewrite Em1..].
Qed.

Lemma pending_nodup i f qs ts n ps : machine_rest ct i f qs ts (n :: ps) → n ∉ ps.
Proof.
  intros [[Hh _ _ _ _ _ _ _] _]. pose proof (inv_pending _ _ _ (hi_loop _ _ _ _ _ _ Hh)) as [Hnd _].
  rewrite !NoDup_cons in Hnd. tauto.
Qed.

(** The first pending event is the one of a message: the message is
    processed and released, and a message that is pending stays so or is
    released as well. *)
Lemma deliver_ok i (w : W) qs ts ps m x :
  machine_rest ct i (lget w) qs ts (m :: ps) → msgs (handler (lget w)) !! m = Some x → named x →
  returns w (deliver tables m w) (λ r w', r = 0 ∧ ∃ qs' ts' ps',
  machine_rest ct (next_state i x) (lget w') qs' ts' ps' ∧
  msgs (handler (lget w')) !! m = None ∧
  (∀ p y, msgs (handler (lget w')) !! p = Some y →
    asked (msgs (handler (lget w))) (moves ct i (what x)) p y) ∧
  since ct (before_of (handler (lget w)) ts ps) (handler (lget w')) ts' ps').
Proof.
  intros Hr Hx Hstr. pose proof Hr as [[_ _ _ H3 _ _ _ _] _]. pose proof (H3 _ _ Hx) as Hok.
  destruct (taken_ok _ _ _ _ _ m x (moves ct i (what x)) Hr Hx)
    as (w0 & h1 & E0 & E1 & Em0 & Em1 & Hinv1).
  set (w1 := lset (lset h1 (lget (A := FSM) w0)) w0) in *.
  assert (answers w → answers w1) as Ha1 by (intros Ha; by eapply answers_lset, answers_zoom).
  apply (returns_from w w1); [done|].
  unfold deliver. erewrite bind_ok by exact E0. unfold sm_process_message, on_handler.
  erewrite bind_ok by (apply (zoom_ok _ w0); apply (zoom_ok _ (lget (A := FSM) w0)); exact E1). fold w1.
  erewrite bind_ok.
  2:{ apply zoom_read, zoom_read, msg_at_ok. unfold w1. rewrite lget_lset. simpl. by rewrite Em1. }
  eapply returns_bind; [exact (dispatch_ok m x i _ w1 Hinv1 Hok Hstr)|].
  intros r w2 [-> (qs' & ts' & ps' & T2 & Hm2 & Hf2 & Hs2)].
  cbn [v_msg v_state v_old v_req in_state held] in *.
  destruct (Hm2 m x eq_refl) as (Ex2 & N1 & N2).
  destruct (free_ok (handler (lget w2)) qs' [] [] ts' ps' m (mo_handler _ _ _ _ _ _ T2) ltac:(eauto))
    as [E3 Hi3]; [by rewrite !app_nil_r|done|].
  set (w3 := lset (lset (freed m (handler (lget w2))) (lget (A := FSM) w2)) w2).
  assert (lget w3 = lset (freed m (handler (lget w2))) (lget w2)) as Ew3 by apply lget_lset.
  erewrite bind_ok by (apply (zoom_ok _ w2); apply (zoom_ok _ (lget (A := FSM) w2)); exact E3).
  apply (returns_ok w2 w3); [|apply answers_lset]. split; [done|].
  exists qs', ts', ps'. rewrite Ew3.
  assert (∀ p y, msgs (freed m (handler (lget w2))) !! p = Some y →
    p ≠ m ∧ msgs (handler (lget w2)) !! p = Some y) as Hdel.
  { intros p y. simpl. by intros [? ?]%lookup_delete_Some. }
  rewrite !not_elem_of_cons in N1.
  split_and!.
  - split.
    + destruct T2 as [T1 Tlen T2 T3 T4 T5 T6 T7].
      split; try done; [|by apply ct_owns_handler|apply serving_freed; [done|tauto]].
      intros p y Hy. destruct (Hdel p y Hy) as [_ Hy']. by eapply T3.
    + intros p [y Hy]. destruct (Hdel p y Hy) as [Hp Hy']. destruct (Hf2 p y Hy') as [_ Hin'].
      by apply elem_of_cons in Hin' as [?|?].
  - simpl. by rewrite lookup_delete_eq.
  - intros p y Hy. destruct (Hdel p y Hy) as [_ Hy']. by apply (Hf2 p y Hy').
  - apply (since_mono _ _ (handler (lget w2))); [done|done| |]; simpl.
    + intros p Hp. rewrite lookup_delete_ne; [done|]. intros <-. by destruct (pending_nodup _ _ _ _ _ _ Hr).
    + by intros p y [_ ?]%lookup_delete_Some.
Qed.

(** A message without a name: the look-up of its name is outside of the
    table. *)
Lemma deliver_nameless i (w : W) qs ts ps m x :
  machine_rest ct i (lget w) qs ts (m :: ps) → msgs (handler (lget w)) !! m = Some x → ¬ named x →
  deliver tables m w = Err Overrun.
Proof.
  intros Hr Hx Hn.
  destruct (taken_ok _ _ _ _ _ m x (λ _, true) Hr Hx) as (w0 & h1 & E0 & E1 & Em0 & Em1 & Hinv1).
  unfold deliver. rewrite (bind_ok _ _ _ _ _ E0).
  set (w1 := lset (lset h1 (lget (A := FSM) w0)) w0) in *.
  pose proof Hinv1 as (qs1 & ts1 & ps1 & [_ _ _ _ [H4 _] _ _] & Hm & _).
  destruct (Hm m x eq_refl) as (Ex1 & _). pose proof Hr as [[_ _ _ _ [_ Hlt] _ _] _].
  destruct (ct_state (tables := tables) _ Hlt) as (st & Est & _ & [g Eg]).
  assert (on_handler (msg_at m) w1 = Ok (x, w1)) as Ex.
  { by apply zoom_read, zoom_read, msg_at_ok. }
  unfold sm_process_message.
  rewrite bind_ok with (a := tt) (s' := w1) by (apply (zoom_ok _ w0), (zoom_ok _ (lget (A := FSM) w0)); exact E1).
  rewrite (bind_ok _ _ _ _ _ Ex).
  assert (msg2str (what x) = Err Overrun) as Es.
  { destruct (msg2str_overrun (what x)) as [_ Ho]. unfold named in Hn.
    destruct (msg2str (what x)) as [|[]] eqn:E; try done; by exfalso; apply Hn, Ho. }
  rewrite (proj2 (Z.eqb_neq (what x) _)) by (intros Ew; rewrite Ew in Es; done).
  apply bind_err. unfold process_msg. rewrite (bind_ok _ _ _ _ _ (current_ok _ _ _ H4 Est)).
  rewrite Eg. rewrite (bind_ok _ _ _ _ _ Ex). by rewrite Es.
Qed.

(** ** The start *)

(** The first state of a machine that was taken from the pool. *)
Lemma init_state_ok (w : W) n :
  handler_inv (handler (lget w)) [] [] [] [] [] → loop_ok (handler (lget w)) →
  msgs (handler (lget w)) = ∅ →
  malloc_ok (handler (lget w)) sizeof_MSG = true → cur_state (lget w) = None →
  fsm_size (lget w) = Z.of_nat (states ct) → owns ct (lget w) → 0 ≤ n < Z.of_nat (states ct) →
  returns w (sm_set_init_state tables n w) (λ r w', r = HANDLED ∧ ∃ qs ts,
  machine_rest ct (Z.to_nat n) (lget w') qs ts []).
Proof.
  intros Hi Hl Hm Hma Hc Hs Ho Hn.
  destruct (ct_state (tables := tables) (Z.to_nat n)) as (st & Est & _); [lia|].
  set (v := View None (Z.to_nat n) (before_of (handler (lget w)) [] []) (λ _, true)).
  unfold sm_set_init_state, transition_to, current. erewrite bind_ok.
  2:{ erewrite bind_ok by done. by rewrite Hc. }
  cbv iota beta. erewrite bind_ok by (by apply get_state_ok). cbv iota beta.
  erewrite bind_ok by done. eapply returns_mono; [apply (enter_ok v w (Z.to_nat n) st); [done| |lia|done]|].
  { exists [], [], []. simpl. rewrite Hm. split; [split; simpl; try done|split; [done|split]].
    - intros p x. by rewrite Hm, lookup_empty.
    - split; [done|lia].
    - by apply ct_owns_state.
    - split; [done|by intros p ?%not_elem_of_nil|apply not_elem_of_nil].
    - intros p y. by rewrite lookup_empty.
    - apply since_refl. }
  intros r w' [-> (qs & ts & ps & Hok & _ & Hq & [_ Hps _ _])].
  apply sublist_nil_r in Hps as ->. split; [done|]. exists qs, ts. split; [done|].
  intros p [y Hy]. by apply (Hq p y Hy).
Qed.
End steps.

(** A machine is taken from the pool. *)
Lemma obtain_fsm_ok pool i f n r wr :
  get_idle_fsm pool 0 = Some i → pool !! i = Some f → idle_handler (handler f) → 0 ≤ r < FD_SETSIZE →
  ∃ h, let f1 := mkFSM [] true n None h (last_incoming_num f) (last_outgoing_num f) in
  sm_obtain_fsm n 0 (Some (r, wr)) pool = Ok (Some i, <[i := f1]> pool) ∧
  handler_inv h [] [] [] [] [] ∧ loop_ok h ∧ msgs h = ∅ ∧ malloc_ok h = malloc_ok (handler f).
Proof.
  intros Hi Hf Hih Hr.
  destruct (start_ok (handler f) sm_process_message_cb r wr Hih Hr)
    as (h & E & Hinv & Hfu & _ & _ & Ha & Em & Ht & Hw & Hd).
  exists h. cbv zeta. split_and!; [|done| |by rewrite Em, (ih_msgs _ Hih)|done].
  2:{ split; [done|done|done|]. intros p x Hx. left. apply Hd. by eexists. }
  unfold sm_obtain_fsm. erewrite bind_ok by done. rewrite Hi.
  erewrite bind_ok by (by rewrite Hf). rewrite E.
  erewrite bind_ok by done. cbv iota beta. erewrite bind_ok by done. cbn [negb Z.eqb].
  erewrite bind_ok by done. by rewrite list_insert_insert_eq.
Qed.

(** ** Runs *)

Section runs.
Context `{LensLaws W FSM} `{!Outside W} {tables : list (FSM_STATE W)} {ct : contract} `{Hct : !Fulfils tables ct}.

(** The head of the pending events. *)
Lemma first_pending_hd i (w : W) qs ts ps :
  machine_rest ct i (lget w) qs ts ps → first_pending w = Some (List.hd pending_list ps).
Proof.
  intros [[Hh _ _ _ _ _ _ _] _]. unfold first_pending.
  by rewrite (ring_next_head _ _ _ (inv_pending _ _ _ (hi_loop _ _ _ _ _ _ Hh))).
Qed.

(** The addresses of messages are not those of the loop's own events. *)
Lemma message_address i (w : W) qs ts ps m :
  machine_rest ct i (lget w) qs ts ps → is_Some (msgs (handler (lget w)) !! m) →
  m ≠ timer_list ∧ m ≠ pending_list ∧ m ≠ wakeupfd_event ∧ m ∈ qs.
Proof.
  intros [[Hh _ _ _ _ _ _ _] Hq] Hm. apply Hq in Hm as Hin.
  destruct (live_disjoint _ _ _ (hi_nodup _ _ _ _ _ _ Hh)) as (D & _ & _).
  destruct (D m) as (N1 & N2 & N3); [rewrite elem_of_app; by left|]. done.
Qed.

Lemma first_pending_head i (w : W) qs ts ps m :
  machine_rest ct i (lget w) qs ts ps → first_pending w = Some m →
  is_Some (msgs (handler (lget w)) !! m) → ∃ ps', ps = m :: ps'.
Proof.
  intros Hr Hf Hm. rewrite (first_pending_hd _ _ _ _ _ Hr) in Hf. injection Hf as Hf.
  destruct (message_address _ _ _ _ _ _ Hr Hm) as (_ & Hne & _).
  destruct ps as [|p ps]; simpl in Hf; subst; [done|by eexists].
Qed.

(** Nothing is pending when the list is its own next. *)
Lemma nothing_pending i (w : W) qs ts ps :
  machine_rest ct i (lget w) qs ts ps → first_pending w = Some pending_list → ps = [].
Proof.
  intros Hr Hf. rewrite (first_pending_hd _ _ _ _ _ Hr) in Hf.
  destruct ps as [|p ps]; [done|]. injection Hf as ->. destruct Hr as [[Hh _ _ _ _ _ _ _] _].
  pose proof (loop_inv_heads _ _ _ (hi_loop _ _ _ _ _ _ Hh)) as (_ & _ & _ & Hn & _).
  by destruct Hn; left.
Qed.

(** The lists of the loop change, and its events do not. *)
Lemma rest_loop i (w : W) qs ts ps (l : uew_context) ts' ps' :
  machine_rest ct i (lget w) qs ts ps →
  handler_inv (lset l (handler (lget w))) qs [] [] ts' ps' →
  watch_table (upile l) = watch_table (upile (loop (handler (lget w)))) →
  events (upile l) = events (upile (loop (handler (lget w)))) →
  (∀ p, p ∈ qs → p ∈ ts ++ ps → p ∈ ts' ++ ps') → wakeupfd_event ∉ ts' →
  machine_rest ct i (lget (lset (A := FSM) (lset (lset l (handler (lget w))) (lget w)) w)) qs ts' ps'.
Proof.
  intros [[H1 Hlen H2 H3 H4 H5 H6 [L S1 S2]] Hq] Hi Ht He Hs Hw. rewrite lget_lset. split; [|done].
  split; try done; [by apply ct_owns_handler|]. split; [|by eauto|done].
  apply (loop_same (handler (lget w))); [done| |done|done]. unfold fixed. simpl. by rewrite Ht.
Qed.

Lemma delivered_named i (w : W) qs ts ps m x r :
  machine_rest ct i (lget w) qs ts (m :: ps) → msgs (handler (lget w)) !! m = Some x →
  deliver tables m w = Ok r → named x.
Proof.
  intros Hr Hx E. apply dec_stable. intros Hn. by rewrite (deliver_nameless _ _ _ _ _ _ _ Hr Hx Hn) in E.
Qed.

Lemma timeouts_ok i (w : W) qs ts ps :
  machine_rest ct i (lget w) qs ts ps → ∃ w' ts' ps',
  on_loop processTimeouts w = Ok (tt, w') ∧ machine_rest ct i (lget w') qs ts' ps'.
Proof.
  intros Hr. pose proof Hr as [[Hh _ _ _ _ _ _ [_ _ Hw]] _].
  destruct (processTimeouts_ok _ _ _ (hi_loop _ _ _ _ _ _ Hh)) as (l & r & e' & -> & E & Hl' & _ & _ & Hs).
  eexists _, r, (ps ++ l). split; [by apply on_loop_ok|].
  rewrite not_elem_of_app in Hw. eapply rest_loop; [done| |done|done| |tauto].
  - eapply loop_step_inv; [done|done|done| |].
    + intros p. mem_goal.
    + intros p. rewrite !elem_of_app. tauto.
  - intros p _. rewrite !elem_of_app. tauto.
Qed.

Lemma read_readies_S rfds n i k :
  read_readies rfds n i (S k) =
    if 0 <? n then
      table ← gets watch_table;
      match table !! i with
      | None => fail Overrun
      | Some None => read_readies rfds n (S i) k
      | Some (Some rev) =>
          e ← event_at rev;
          if bool_decide (ev_fd e ∈ rfds) then
            addToList rev pending_list;;
            when (ev_persist e =? 0) (removeWatch rev i);;
            read_readies rfds (n - 1) (S i) k
          else read_readies rfds n (S i) k
      end
    else skip.
Proof. done. Qed.

(** The wake-up event is the only one in the table. *)
Lemma read_wakeup rfds n c ts ps x :
  loop_inv c ts ps → watch_table c = wake_table → events c !! wakeupfd_event = Some x →
  ev_persist x = 1 → wakeupfd_event ∉ timer_list :: pending_list :: ts ++ ps → ∃ (e : lheap) ps',
  processReadReadies rfds n c = Ok (tt, lset e c) ∧ loop_inv (lset e c) ts ps' ∧
  (ps' = ps ∨ ps' = ps ++ [wakeupfd_event]) ∧
  same_but (wakeupfd_event :: pending_list :: ps) (elinks c) e.
Proof.
  intros Hl Ht Hx Hp Hn.
  assert (∀ k i c' n, watch_table c' = wake_table → (0 < i)%nat → (i + k = MAX_FD_EVENTS)%nat →
    read_readies rfds n i k c' = Ok (tt, c')) as Hrest.
  { clear. induction k as [|k IH]; intros i c' n Ht Hi Hk; [done|]. rewrite read_readies_S.
    destruct (0 <? n); [|done]. rewrite bind_gets, Ht. unfold wake_table.
    rewrite list_lookup_insert_ne, lookup_replicate_2 by lia. apply IH; [done|lia|lia]. }
  unfold processReadReadies. change MAX_FD_EVENTS with (S 15). rewrite read_readies_S.
  assert (∃ (e : lheap) ps', Ok (tt, c) = Ok (tt, lset e c) ∧ loop_inv (lset e c) ts ps' ∧
    (ps' = ps ∨ ps' = ps ++ [wakeupfd_event]) ∧
    same_but (wakeupfd_event :: pending_list :: ps) (elinks c) e) as Hsame.
  { exists (elinks c), ps. rewrite lset_elinks. split_and!; [done|done|by left|]. by split. }
  destruct (0 <? n); [|done]. rewrite bind_gets, Ht.
  change (wake_table !! 0%nat) with (Some (Some wakeupfd_event)). cbv iota beta.
  erewrite bind_ok by (by apply event_at_ok). case_bool_decide; [|rewrite Hrest; [exact Hsame|done|lia|done]].
  destruct (pending_add_inv c ts ps wakeupfd_event Hl) as (e & E & Hl' & Hs);
    [apply (inv_events _ _ _ Hl); by eexists|done|].
  exists e, (ps ++ [wakeupfd_event]). split; [|split_and!; [done|by right|done]].
  erewrite bind_ok by exact E. rewrite Hp. erewrite bind_ok by done.
  by rewrite Hrest; [|simpl|lia|].
Qed.

(** A turn collects what is due and ready: the timers whose time has come,
    and the wake-up event behind them. *)
Lemma collect_ok i (w : W) qs ts woken rfds n :
  machine_rest ct i (lget w) qs ts [] → ∃ w' l r ps,
  on_loop (collect woken rfds n) w = Ok (tt, w') ∧ ts = l ++ r ∧ (ps = l ∨ ps = l ++ [wakeupfd_event]) ∧
  machine_rest ct i (lget w') qs r ps ∧ msgs (handler (lget w')) = msgs (handler (lget w)) ∧
  brk (handler (lget w')) = brk (handler (lget w)) ∧
  let due := due (events (upile (loop (handler (lget w))))) in
  (∀ p, p ∈ l → ∃ t, due p t ∧ tv_lt t woken) ∧ (∀ p, p ∈ r → ∃ t, due p t ∧ tv_le woken t).
Proof.
  intros Hr. pose proof Hr as [[Hh _ _ _ _ _ _ [Hlo Hsent Hw]] _].
  set (c := upile (loop (handler (lget w)))).
  pose proof (clock_inv _ _ _ _ _ _ woken Hh) as Hh1. pose proof (hi_loop _ _ _ _ _ _ Hh1) as Hl1.
  destruct (processTimeouts_ok _ _ _ Hl1) as (l & r & e1 & -> & E1 & Hl2 & Hdl & Hdr & Hs1).
  destruct Hlo as [_ Ht (x & Hx & _ & Hp) _]. rewrite not_elem_of_app in Hw.
  destruct (read_wakeup rfds n (lset e1 (set_now woken c)) r l x) as (e2 & ps & E2 & Hl3 & Hps & Hs2);
    [done|done|done|done|rewrite !not_elem_of_cons, not_elem_of_app; split_and!; [done|done|tauto|tauto]|].
  assert (same_but (wakeupfd_event :: timer_list :: pending_list :: l ++ r) (elinks c) e2) as Hs.
  { eapply same_but_trans; eapply same_but_weaken; [|exact Hs1| |exact Hs2]; intros p; mem_goal. }
  assert (∀ p, p ∈ wakeupfd_event :: timer_list :: pending_list :: l ++ r →
    p ∈ wakeupfd_event :: timer_list :: pending_list :: (l ++ r) ++ []) as Hweak by (by rewrite app_nil_r).
  assert (∀ p, p ∈ ps ↔ p ∈ l ∨ p = wakeupfd_event ∧ ps = l ++ [wakeupfd_event]) as Hin.
  { intros p. destruct Hps as [->| ->]; [|rewrite elem_of_app, list_elem_of_singleton]; [|tauto].
    split; [tauto|]. intros [?|[_ E%(f_equal length)]]; [done|]. rewrite length_app in E. simpl in E. lia. }
  exists (lset (A := FSM) (lset (lset (A := uew_context) (lset (lset e2 (set_now woken c))
    (loop (handler (lget w)))) (handler (lget w))) (lget w)) w), l, r, ps.
  split.
  { apply on_loop_ok. unfold collect. erewrite bind_ok by done. erewrite bind_ok by exact E1. exact E2. }
  split; [done|]. split; [done|]. split; [|by rewrite lget_lset].
  eapply rest_loop; [exact Hr| |done|done| |tauto].
  - refine (loop_turn_inv _ _ _ _ _ _ _ _ e2 Hh1 Hl3 _ _ _).
    + eapply same_but_weaken; [exact Hweak|exact Hs].
    + intros p. rewrite !elem_of_app, Hin. tauto.
    + intros p Hq Hn. destruct Hn. rewrite !elem_of_app, Hin in *.
      destruct Hq as [[?|?]|[]%elem_of_nil]; tauto.
  - intros p Hq _. specialize (Hsent p Hq). rewrite !elem_of_app, Hin in *.
    destruct Hsent as [[?|?]|[]%elem_of_nil]; tauto.
Qed.

Lemma wakeup_ok i (w : W) qs ts ps :
  machine_rest ct i (lget w) qs ts (wakeupfd_event :: ps) → ∃ w1 w',
  on_loop (removeFromList wakeupfd_event) w = Ok (tt, w1) ∧ on_handler (zoom processWakeup) w1 = Ok (0, w') ∧
  machine_rest ct i (lget w') qs ts ps ∧ msgs (handler (lget w')) = msgs (handler (lget w)) ∧
  brk (handler (lget w')) = brk (handler (lget w)).
Proof.
  intros Hr. pose proof Hr as [[Hh _ _ _ _ _ _ [Hlo Hsent Hw]] _].
  pose proof (hi_loop _ _ _ _ _ _ Hh) as Hl.
  destruct (pending_remove_inv _ ts [] wakeupfd_event ps Hl) as (e & E & Hl' & Hoff & Hs).
  set (l1 := lset (A := upile_context) (lset e (upile (loop (handler (lget w))))) (loop (handler (lget w)))).
  set (w1 := lset (A := FSM) (lset (lset l1 (handler (lget w))) (lget w)) w).
  set (l2 := UewContext (upile l1) (fdWakeupRead l1) (fdWakeupWrite l1) 0 (on_dispatch l1)).
  set (w2 := lset (A := FSM) (lset (lset l2 (handler (lget w1))) (lget w1)) w1).
  assert (lget w2 = lget (lset (A := FSM) (lset (lset l2 (handler (lget w))) (lget w)) w)) as Ew2.
  { unfold w2, w1. by rewrite !lget_lset. }
  assert (handler_inv (lset l1 (handler (lget w))) qs [] [] ts ps) as Hi1.
  { eapply loop_step_inv; [exact Hh|exact Hl'|..].
    - eapply same_but_weaken; [|exact Hs]. intros p. mem_goal.
    - intros p. mem_goal.
    - intros p. rewrite !elem_of_app, elem_of_cons. intros [Hp|[->|Hp]] Hn; try done; tauto. }
  exists w1, w2. split; [by apply on_loop_ok|]. rewrite Ew2.
  split; [|split; [|by rewrite lget_lset]].
  - apply (zoom_ok _ w1), (zoom_ok _ (lget (A := FSM) w1)), (zoom_ok _ (handler (lget w1))).
    unfold w1. by rewrite lget_lset.
  - eapply rest_loop; [exact Hr|destruct Hi1; by split|done|done| |done].
    intros p Hq. destruct (message_address _ _ _ _ _ p Hr) as (_ & _ & Hne & _).
    { apply (hi_live _ _ _ _ _ _ Hh). rewrite !elem_of_app. tauto. }
    rewrite !elem_of_app, elem_of_cons. tauto.
Qed.

(** A machine at rest, as one that processes no message. *)
Definition resting (i : nat) (f : FSM) (ts ps : list loc) : view :=
  View None i (before_of (handler f) ts ps) (λ _, true).

Lemma rest_inv i f qs ts ps :
  machine_rest ct i f qs ts ps → machine_inv ct (resting i f ts ps) f.
Proof.
  intros [Hm Hq]. exists qs, ts, ps. split; [done|]. split; [done|]. split; [|apply since_refl].
  intros p y Hy. split; [by left|]. apply Hq. by eexists.
Qed.

Lemma inv_rest v f :
  v_msg v = None → machine_inv ct v f → ∃ qs ts ps,
  machine_rest ct (v_state v) f qs ts ps ∧ since ct (v_old v) (handler f) ts ps.
Proof.
  intros Hv (qs & ts & ps & Hm & _ & Hq & Hs). exists qs, ts, ps. split; [|done]. split; [done|].
  intros p [y Hy]. destruct (Hq p y Hy) as [_ Hin]. unfold held in Hin. by rewrite Hv in Hin.
Qed.

Lemma send_rest i (w : W) qs ts ps what dat size msec ret w' :
  machine_rest ct i (lget w) qs ts ps → accepts ct (new_MSG what dat size) → data_ok dat size →
  0 ≤ msec ≤ INT_MAX → on_handler (sm_send_message_delay what dat size msec) w = Ok (ret, w') →
  ∃ qs' ts' ps', machine_rest ct i (lget w') qs' ts' ps' ∧
  since ct (before_of (handler (lget w)) ts ps) (handler (lget w')) ts' ps'.
Proof.
  intros Hr Hok Hdat Hmsec E.
  assert (keeps ct (resting i (lget w) ts ps) (λ _, True)
    (on_handler (sm_send_message_delay what dat size msec))) as Hk.
  { apply keeps_send; [|done|done]. intros p. split; [done|right]. intros Ew. rewrite new_MSG_what in Ew.
    apply (ct_request (new_MSG what dat size)) in Hok as (b & n & Hb & Hn & _); [|by rewrite new_MSG_what].
    by exists b, n. }
  destruct (returns_known _ w' ret _ _ (Hk w (rest_inv _ _ _ _ _ Hr)) E) as [_ Hinv].
  by apply (inv_rest (resting i (lget w) ts ps)).
Qed.

(** Between two messages the machine stays in its state. *)
Lemma outer_rest i (w w' : W) qs ts ps :
  outer_step ct w w' → machine_rest ct i (lget w) qs ts ps →
  ∃ qs' ts' ps', machine_rest ct i (lget w') qs' ts' ps'.
Proof.
  intros [E|what dat size msec ret H1 H2 H3 E|t E|E|woken rfds n Hf E|Hf E] Hr.
  - rewrite E. by eexists _, _, _.
  - destruct (send_rest _ _ _ _ _ _ _ _ _ _ _ Hr H1 H2 H3 E) as (qs' & ts' & ps' & Hr' & _).
    by eexists _, _, _.
  - exists qs, ts, ps. erewrite on_loop_ok in E by done. injection E as <-.
    eapply rest_loop; [done|apply clock_inv, Hr|done|done|done|apply Hr].
  - destruct (timeouts_ok _ _ _ _ _ Hr) as (w1 & ts' & ps' & E1 & Hr').
    rewrite E in E1. injection E1 as ->. by eexists _, _, _.
  - pose proof (nothing_pending _ _ _ _ _ Hr Hf) as ->.
    destruct (collect_ok _ _ _ _ woken rfds n Hr) as (w1 & l & r & ps' & E1 & _ & _ & Hr' & _).
    rewrite E in E1. injection E1 as ->. by eexists _, _, _.
  - rewrite (first_pending_hd _ _ _ _ _ Hr) in Hf. injection Hf as Hf.
    destruct ps as [|p ps]; [done|]. simpl in Hf. subst p.
    destruct (wakeup_ok _ _ _ _ _ Hr) as (w1 & w2 & E1 & E2 & Hr' & _).
    rewrite (bind_ok _ _ _ _ _ E1), E2 in E. injection E as <-. by eexists _, _, _.
Qed.

(** A message that is delivered changes the state as it asks. *)
Lemma message_rest i (w w' : W) qs ts ps m x ret :
  machine_rest ct i (lget w) qs ts ps → first_pending w = Some m →
  msgs (handler (lget w)) !! m = Some x → deliver tables m w = Ok (ret, w') →
  ∃ qs' ts' ps', machine_rest ct (next_state i x) (lget w') qs' ts' ps'.
Proof.
  intros Hr Hf Hx E. destruct (first_pending_head _ _ _ _ _ _ Hr Hf) as [ps' ->]; [by eexists|].
  destruct (returns_known _ _ _ _ _ (deliver_ok _ _ _ _ _ _ _ Hr Hx (delivered_named _ _ _ _ _ _ _ _ Hr Hx E)) E)
    as (_ & qs' & ts' & ps1 & Hr' & _). by eexists _, _, _.
Qed.

(** Every reachable machine is at rest in one of its states. *)
Lemma machine_run_rest (start : W → Prop) :
  (∀ w, start w → ∃ i qs ts ps, machine_rest ct i (lget w) qs ts ps) →
  ∀ w, machine_run tables ct start w → ∃ i qs ts ps, machine_rest ct i (lget w) qs ts ps.
Proof.
  intros Hs w. induction 1 as [w Hw%Hs|w w' _ IH Hstep|w w' m ret _ IH H1 [x Hx] E]; [done| |].
  - destruct IH as (i & qs & ts & ps & Hr). destruct (outer_rest _ _ _ _ _ _ Hstep Hr) as (?&?&?&?).
    by eexists _, _, _, _.
  - destruct IH as (i & qs & ts & ps & Hr).
    destruct (message_rest _ _ _ _ _ _ _ _ _ Hr H1 Hx E) as (?&?&?&?). by eexists _, _, _, _.
Qed.
End runs.
