(* ===== verification/TurnProofs.v ===== *)
(** * The turns of a machine's loop

    A turn of the loop of a handler ([loop_turn]), with the callbacks of the
    machine, is a sequence of the steps of its run: what is due and ready
    becomes pending, and the pending events are called in order.  [fire] reads
    the next event before it calls a callback; a callback may cancel the
    message of that event, and [turn_fault] says that this, a message without
    a name, and a wait for an outside that does not answer, are the only
    faults of a turn: a turn whose due messages are not [unsafe] has none when
    the outside answers. *)

From stdpp Require Import relations.
From S2P Require Import Prelude CString Dll EventLoop EventLoopProofs WatchProofs Handler.
From S2P Require Import HandlerProofs Messages StateMachine SendProofs Contract MachineProofs.

Lemma sublist_hd (l k : list loc) n : l `sublist_of` n :: k → n ∈ l → n ∉ k → ∃ l', l = n :: l'.
Proof.
  intros [Hl|(l' & -> & _)]%sublist_cons_r Hn Hk; [|by exists l'].
  destruct Hk. by eapply elem_of_sublist.
Qed.

Section turns.
Context `{LensLaws W FSM} `{!Outside W} {tables : list (FSM_STATE W)} {ct : contract} `{Hct : !Fulfils tables ct}.

(** The context of the loop inside the state of the program. *)
Definition machine_loop : Lens W upile_context := {|
  lget w := upile (loop (handler (lget w)));
  lset c w :=
    let h := handler (lget w) in
    lset (A := FSM) (lset (lset (lset c (loop h)) h) (lget w)) w;
|}.
#[local] Existing Instance machine_loop.
#[local] Instance machine_loop_laws : LensLaws W upile_context.
Proof.
  split; intros; cbn [lget lset machine_loop]; rewrite ?lget_lset, ?lset_lset; [done| |done].
  transitivity (lset (A := FSM) (lget w) w); [|apply lset_lget].
  f_equal. by destruct (lget w) as [? ? ? ? [? ? ? ? ? [[]]]].
Qed.

(** The callbacks of the program, of which the loop calls two. *)
Context (call : callback → Z → loc → M W Z).
Hypothesis call_message : ∀ fd p w, call sm_process_message_cb fd p w = sm_process_message tables p w.
Hypothesis call_wakeup : ∀ fd p w, call processWakeupCallback fd p w = on_handler (zoom processWakeup) w.

(** A step of a run, the messages that are delivered among them. *)
Definition machine_move (w w' : W) : Prop :=
  outer_step ct w w' ∨
  ∃ m, first_pending w = Some m ∧ is_Some (msgs (handler (lget w)) !! m) ∧ deliver tables m w = Ok (0, w').

(** What ends a turn with a fault. *)
Inductive turn_fault (w : W) : fault → Prop :=
  | fault_nameless p x :
      first_pending w = Some p → msgs (handler (lget w)) !! p = Some x → ¬ named x →
      turn_fault w Overrun
  | fault_cancelled p n y w' :
      first_pending w = Some p → is_Some (msgs (handler (lget w)) !! p) →
      next_of (elinks (upile (loop (handler (lget w))))) p = Some n →
      msgs (handler (lget w)) !! n = Some y → cancels ct (what y) = true →
      deliver tables p w = Ok (0, w') → msgs (handler (lget w')) !! n = None → turn_fault w Dangling
  | fault_unanswered p :
      first_pending w = Some p → is_Some (msgs (handler (lget w)) !! p) →
      deliver tables p w = Err Blocked → ¬ answers w → turn_fault w Blocked.

Lemma zoom_machine_loop {A} (op : ML A) (w : W) : zoom (A := upile_context) op w = on_loop op w.
Proof.
  unfold on_loop, on_handler, zoom. cbn [lget lset machine_loop uew_upile handler_loop fsm_handler].
  by destruct (op _) as [[a c]|].
Qed.

Lemma zoom_links {A} (op : M lheap A) (w : W) a :
  op (elinks (upile (loop (handler (lget w))))) = Ok (a, elinks (upile (loop (handler (lget w))))) →
  zoom (A := upile_context) (zoom (A := lheap) op) w = Ok (a, w).
Proof.
  intros E. rewrite zoom_machine_loop. unfold on_loop, on_handler.
  by apply zoom_read, zoom_read, zoom_read, zoom_read, zoom_read.
Qed.

Lemma zoom_loop_read {A} (op : ML A) (w : W) a :
  op (upile (loop (handler (lget w)))) = Ok (a, upile (loop (handler (lget w)))) →
  zoom (A := upile_context) op w = Ok (a, w).
Proof.
  intros E. rewrite zoom_machine_loop. unfold on_loop, on_handler.
  by apply zoom_read, zoom_read, zoom_read, zoom_read.
Qed.

(** One turn of [fire], for an event at the head of the pending ones. *)
Lemma fire_step f i (w w1 : W) qs ts p ps x ret :
  machine_rest ct i (lget w) qs ts (p :: ps) →
  on_loop (removeFromList p) w = Ok (tt, w1) →
  events (upile (loop (handler (lget w1)))) !! p = Some x →
  fire call (S f) p ret w = (r ← call (ev_func x) (ev_fd x) (ev_param x);
    if r <? 0 then mret r else fire call f (List.hd pending_list ps) r) w1.
Proof.
  intros [[Hh _ _ _ _ _ _ _] _] E1 Hx. pose proof (hi_loop _ _ _ _ _ _ Hh) as Hl.
  pose proof (loop_inv_heads _ _ _ Hl) as (_ & _ & _ & Hp & _). rewrite not_elem_of_cons in Hp.
  cbn [fire]. rewrite bool_decide_false by (intros ->; tauto).
  erewrite bind_ok.
  2:{ apply zoom_links, get_next_ok. eapply ring_live; [exact (inv_pending _ _ _ Hl)|by right; left]. }
  rewrite (ring_next _ _ [] p ps (inv_pending _ _ _ Hl)).
  erewrite bind_ok by (rewrite zoom_machine_loop; exact E1).
  erewrite bind_ok by (apply zoom_loop_read; by apply event_at_ok).
  unfold mbind, M_bind. by destruct (call _ _ _ w1) as [[r w2]|].
Qed.

Lemma removed_events (w w1 : W) p :
  on_loop (removeFromList p) w = Ok (tt, w1) →
  events (upile (loop (handler (lget w1)))) = events (upile (loop (handler (lget w)))).
Proof.
  intros E. unfold on_loop, on_handler, zoom in E. cbn [lget uew_upile handler_loop fsm_handler] in E.
  unfold removeFromList, zoom in E. destruct (ring_remove p _) as [[a e]|]; [|done].
  injection E as _ <-. by rewrite lget_lset.
Qed.

(** A pending event is the wake-up event, or the one of a message. *)
Lemma pending_event i (w : W) qs ts p ps :
  machine_rest ct i (lget w) qs ts ps → p ∈ ps → ∃ x,
  events (upile (loop (handler (lget w)))) !! p = Some x ∧
  (p = wakeupfd_event ∧ ev_func x = processWakeupCallback ∨ armed (handler (lget w)) p x).
Proof.
  intros [[Hh _ _ _ _ _ _ [[L1 L2 L3 L4] _ _]] _] Hp. pose proof (hi_loop _ _ _ _ _ _ Hh) as Hl.
  destruct (elinks_event_live _ _ _ p Hl) as [_ [x Hx]]; [rewrite !elem_of_cons, elem_of_app; tauto|].
  exists x. split; [done|]. pose proof (loop_inv_heads _ _ _ Hl) as (_ & N1 & _ & N2 & _).
  destruct (L4 p x Hx) as [Hin|]; [|by right]. left. rewrite !elem_of_cons, elem_of_nil in Hin.
  destruct Hin as [->|[->|[->|[]]]]; [done|done|]. destruct L3 as (y & Hy & Hf & _).
  split; [done|]. congruence.
Qed.

(** A pending event is not behind the allocated memory. *)
Lemma pending_old i (w : W) qs ts ps n :
  machine_rest ct i (lget w) qs ts ps → n ∈ ps → ¬ (brk (handler (lget w)) ≤ n)%positive.
Proof.
  intros [[Hh _ _ _ _ _ _ _] _] Hn Hb. pose proof (hi_loop _ _ _ _ _ _ Hh) as Hl.
  destruct (hi_fresh _ _ _ _ _ _ Hh n Hb) as (_ & _ & He).
  destruct (elinks_event_live _ _ _ n Hl) as [[? Hx] _]; [rewrite !elem_of_cons, elem_of_app; tauto|].
  congruence.
Qed.

(** What was pending, and is not any more, has been released. *)
Lemma released i j (w w' : W) qs ts n ps k qs' ts' ps' :
  machine_rest ct i (lget w) qs ts ps → machine_rest ct j (lget w') qs' ts' ps' →
  since ct (before_of (handler (lget w)) ts k) (handler (lget w')) ts' ps' →
  n ∈ ps → n ∉ ps' → msgs (handler (lget w')) !! n = None.
Proof.
  intros Hr Hr' Hsi Hn Hn'. apply eq_None_not_Some. intros Hs.
  destruct Hr' as [[_ _ _ _ _ _ _ [_ Hsent _]] Hq'].
  specialize (Hsent n (Hq' n Hs)). rewrite elem_of_app in Hsent. destruct Hsent as [Ht|?]; [|done].
  destruct (si_ts _ _ _ _ _ Hsi n Ht) as [Ht'|Hb]; [|by destruct (pending_old _ _ _ _ _ n Hr)].
  destruct Hr as [[Hh _ _ _ _ _ _ _] _].
  pose proof (loop_inv_heads _ _ _ (hi_loop _ _ _ _ _ _ Hh)) as (_ & _ & _ & _ & Hd). by destruct (Hd n).
Qed.

(** The event of a message that was released is not there. *)
Lemma unlinked i (w : W) qs ts ps n :
  machine_rest ct i (lget w) qs ts ps → msgs (handler (lget w)) !! n = None →
  n ∉ [timer_list; pending_list; wakeupfd_event] → elinks (upile (loop (handler (lget w)))) !! n = None.
Proof.
  intros [[Hh _ _ _ _ _ _ [[_ _ _ L4] _ _]] _] Hm Hn.
  apply eq_None_not_Some. rewrite (inv_events _ _ _ (hi_loop _ _ _ _ _ _ Hh)). intros [y Hy].
  destruct (L4 n y Hy) as [Hin|[Hs _]]; [done|]. rewrite Hm in Hs. by destruct Hs.
Qed.

(** The message [y] at [p] waits for a time before [woken]. *)
Definition message_due (w : W) (woken : timeval) (p : loc) (y : MSG) : Prop :=
  msgs (handler (lget w)) !! p = Some y ∧
  ∃ t, due (events (upile (loop (handler (lget w))))) p t ∧ tv_lt t woken.

(** A message that can end a turn with a fault. *)
Definition unsafe (y : MSG) : Prop := ¬ named y ∨ cancels ct (what y) = true.

Definition unsafe_pending (w : W) (ps : list loc) : Prop :=
  ∃ n y, n ∈ ps ∧ msgs (handler (lget w)) !! n = Some y ∧ unsafe y.

(** What a turn ends with, that started with the timers [ts] and the pending
    events [ps]: nothing is pending, or a fault, for which there was a reason. *)
Definition served (w : W) (ts ps : list loc) (out : res (Z * W)) : Prop :=
  match out with
  | Ok (r, w') => 0 ≤ r ∧ rtc machine_move w w' ∧ ∃ j qs' ts',
      machine_rest ct j (lget w') qs' ts' [] ∧
      since ct (before_of (handler (lget w)) ts []) (handler (lget w')) ts' []
  | Err e => (∃ w1, rtc machine_move w w1 ∧ turn_fault w1 e) ∧ (unsafe_pending w ps ∨ ¬ answers w)
  end.

Lemma served_step i (w w2 : W) qs ts p ps ts2 ps2 out :
  machine_rest ct i (lget w) qs ts (p :: ps) → machine_move w w2 → (answers w → answers w2) →
  since ct (before_of (handler (lget w)) ts ps) (handler (lget w2)) ts2 ps2 →
  served w2 ts2 ps2 out → served w ts (p :: ps) out.
Proof.
  intros Hr Hmv Ha [S1 S2 _ S4 _ S6]. cbn [before_of b_ts b_ps b_brk b_msgs] in *.
  destruct out as [[r w']|e]; simpl.
  - intros (H1 & H2 & j & qs' & ts' & H3 & [S1' _ _ S4' _ S6']). cbn [before_of b_ts b_brk b_msgs] in *.
    split; [done|]. split; [by eapply rtc_l|]. exists j, qs', ts'. split; [done|].
    split; simpl; [|done|done|lia|by intros ?? ?%not_elem_of_nil|].
    + intros q Hq. destruct (S1' q Hq) as [Hq'|Hq']; [destruct (S1 q Hq'); [by left|by right]|right; lia].
    + intros q y Hq. destruct (S6' q y Hq) as [Hq'|Hq']; [by apply S6|right; lia].
  - intros [(w1 & H1 & H2) [(n & y & Hn & Hy & Hu)|Hu]];
      (split; [exists w1; split; [by eapply rtc_l|done]|]); [left|by right; auto].
    assert (n ∈ p :: ps) as Hin by (right; by eapply elem_of_sublist).
    exists n, y. split; [done|]. split; [|done].
    destruct (S6 n y Hy) as [?|Hb]; [done|]. by destruct (pending_old _ _ _ _ _ n Hr).
Qed.

(** [fire] goes on at an event that was read before the callback ran: it is
    the next one still, or [fire] follows its links after its release. *)
Lemma fire_next f i j (w w2 : W) qs ts p ps qs2 ts2 ps2 :
  machine_rest ct i (lget w) qs ts (p :: ps) → is_Some (msgs (handler (lget w)) !! p) →
  deliver tables p w = Ok (0, w2) → machine_rest ct j (lget w2) qs2 ts2 ps2 →
  since ct (before_of (handler (lget w)) ts ps) (handler (lget w2)) ts2 ps2 →
  List.hd pending_list ps = List.hd pending_list ps2 ∨
  (turn_fault w Dangling ∧ unsafe_pending w ps) ∧
  fire call (S f) (List.hd pending_list ps) 0 w2 = Err Dangling.
Proof.
  intros Hr Hs E Hr2 Hsi. destruct ps as [|n ps].
  { pose proof (si_ps _ _ _ _ _ Hsi) as Hps. apply sublist_nil_r in Hps as ->. by left. }
  pose proof Hr as [[Hh _ _ _ _ _ _ _] _]. pose proof (inv_pending _ _ _ (hi_loop _ _ _ _ _ _ Hh)) as Hring.
  pose proof (loop_inv_heads _ _ _ (hi_loop _ _ _ _ _ _ Hh)) as (_ & N1 & _ & N2 & _).
  rewrite !not_elem_of_cons in N1, N2. cbn [List.hd].
  destruct (decide (n ∈ ps2)) as [Hin|Hout].
  - destruct (sublist_hd ps2 ps n (si_ps _ _ _ _ _ Hsi) Hin) as [k ->]; [|by left].
    destruct Hring as [Hnd _]. rewrite !NoDup_cons in Hnd. tauto.
  - right. destruct (pending_event _ _ _ _ n _ Hr) as (x & _ & Hcase); [by right; left|].
    assert (n ≠ wakeupfd_event) as Hw.
    { intros ->. destruct Hout. apply (si_wakeup _ _ _ _ _ Hsi). by left. }
    destruct Hcase as [[? _]|[[y Hy] _]]; [done|].
    assert (msgs (handler (lget w2)) !! n = None) as Hm.
    { eapply (released i j w w2); [done|done|done|by right; left|done]. }
    assert (cancels ct (what y) = true) as Hc.
    { apply not_false_iff_true. intros Hc. destruct Hout.
      by destruct (si_kept _ _ _ _ _ Hsi n y) as [? _]; [by left|..]. }
    split; [split|].
    + eapply (fault_cancelled w p n y w2); [by rewrite (first_pending_hd _ _ _ _ _ Hr)|done| |done..].
      exact (ring_next _ _ [] p (n :: ps) Hring).
    + exists n, y. split; [by left|]. split; [done|by right].
    + cbn [fire]. rewrite bool_decide_false by (by intros ->; tauto).
      apply bind_err. rewrite zoom_machine_loop. unfold on_loop, on_handler, zoom.
      cbn [lget uew_upile handler_loop fsm_handler context_elinks]. unfold get_next.
      by rewrite (unlinked _ _ _ _ _ n Hr2 Hm) by (rewrite !elem_of_cons, elem_of_nil; naive_solver).
Qed.

(** The pending events are called, and nothing is left. *)
Lemma fire_runs fuel : ∀ i (w : W) qs ts ps ret,
  machine_rest ct i (lget w) qs ts ps → (length ps < fuel)%nat → 0 ≤ ret →
  served w ts ps (fire call fuel (List.hd pending_list ps) ret w).
Proof.
  induction fuel as [|f IH]; intros i w qs ts ps ret Hr Hf Hret; [lia|]. destruct ps as [|p ps].
  { cbn [fire List.hd]. rewrite bool_decide_true by done. split; [done|]. split; [done|].
    exists i, qs, ts. split; [done|apply since_refl]. }
  simpl in Hf. destruct (pending_event _ _ _ _ p _ Hr) as (x & Hx & Hcase); [by left|].
  cbn [List.hd]. destruct Hcase as [[-> Hfu]|([y Hy] & Hfu & Hpa)].
  - destruct (wakeup_ok _ _ _ _ _ Hr) as (w1 & w2 & E1 & E2 & Hr2 & Em & Eb).
    rewrite (fire_step f _ _ _ _ _ _ _ x _ Hr E1) by (by rewrite (removed_events _ _ _ E1)).
    rewrite Hfu, (bind_ok _ _ _ 0 w2) by (by rewrite call_wakeup). cbn [Z.ltb Z.compare].
    eapply (served_step i w w2 qs ts _ ps ts ps); [exact Hr| | | |
      exact (IH i w2 qs ts ps 0 Hr2 ltac:(lia) (Z.le_refl 0))].
    2:{ intros Ha. eapply answers_zoom; [exact E2|]. by eapply answers_zoom. }
    2:{ apply (since_mono _ _ (handler (lget w))); [apply since_refl|by rewrite ?Eb, ?Em..]. }
    left. apply outer_wakeup; [by rewrite (first_pending_hd _ _ _ _ _ Hr)|].
    by rewrite (bind_ok _ _ _ _ _ E1).
  - assert (first_pending w = Some p) as Hfp by (by rewrite (first_pending_hd _ _ _ _ _ Hr)).
    destruct (taken_ok _ _ _ _ _ _ _ (λ _, true) Hr Hy) as (w1 & h1 & E1 & _).
    rewrite (fire_step f _ _ _ _ _ _ _ x _ Hr E1) by (by rewrite (removed_events _ _ _ E1)).
    rewrite Hfu, Hpa. destruct (decide (named y)) as [Hn|Hn].
    2:{ rewrite (bind_err _ _ _ Overrun).
        { split; [exists w; split; [done|by eapply fault_nameless]|].
          left. exists p, y. split; [by left|]. split; [done|by left]. }
        rewrite call_message. pose proof (deliver_nameless _ _ _ _ _ _ _ Hr Hy Hn) as E.
        unfold deliver in E. by rewrite (bind_ok _ _ _ _ _ E1) in E. }
    destruct (deliver_ok _ _ _ _ _ _ _ Hr Hy Hn)
      as [(r2 & w2 & E2 & [-> (qs2 & ts2 & ps2 & Hr2 & _ & _ & Hsi)] & Ha2)|[E2 Ha2]].
    2:{ pose proof E2 as E2'. unfold deliver in E2'. rewrite (bind_ok _ _ _ _ _ E1) in E2'.
        rewrite (bind_err _ _ _ Blocked) by (by rewrite call_message).
        split; [|by right]. exists w. split; [done|]. by eapply fault_unanswered. }
    pose proof E2 as E2'. unfold deliver in E2'. rewrite (bind_ok _ _ _ _ _ E1) in E2'.
    rewrite (bind_ok _ _ _ 0 w2) by (by rewrite call_message). cbn [Z.ltb Z.compare].
    pose proof (sublist_length _ _ (si_ps _ _ _ _ _ Hsi)) as Hle. simpl in Hle.
    destruct (fire_next (Nat.pred f) _ _ _ _ _ _ _ _ _ _ _ Hr ltac:(by eexists) E2 Hr2 Hsi) as [->|[[Ht Hu] Ef]].
    + eapply served_step; [exact Hr| |exact Ha2|exact Hsi|exact (IH _ w2 qs2 ts2 ps2 0 Hr2 ltac:(lia) (Z.le_refl 0))].
      right. exists p. by rewrite Hy.
    + destruct f as [|f]; [lia|]. simpl Nat.pred in Ef. rewrite Ef.
      split; [by exists w|]. left. destruct Hu as (n & z & Hin & ? & ?). exists n, z. split; [by right|done].
Qed.
Lemma firePending_runs i (w : W) qs ts ps :
  machine_rest ct i (lget w) qs ts ps → served w ts ps (firePending call w).
Proof.
  intros Hr. pose proof Hr as [[Hh _ _ _ _ _ _ _] _].
  pose proof (inv_pending _ _ _ (hi_loop _ _ _ _ _ _ Hh)) as Hring.
  unfold firePending. erewrite bind_ok.
  2:{ apply zoom_links, get_next_ok. eapply ring_live; [exact Hring|by left]. }
  rewrite (ring_next_head _ _ _ Hring). erewrite bind_ok by done. rewrite bind_gets.
  eapply fire_runs; [done| |done]. unfold walk_fuel. cbn [lget machine_loop].
  pose proof (ring_fuel _ _ _ Hring). lia.
Qed.

(** What is collected before the events are called, step by step. *)
Lemma collect_steps woken rfds n (w w1 : W) :
  on_loop (collect woken rfds n) w = Ok (tt, w1) → ∃ wa wb,
  zoom (A := upile_context) (modify (set_now woken)) w = Ok (tt, wa) ∧
  zoom (A := upile_context) processTimeouts wa = Ok (tt, wb) ∧
  zoom (A := upile_context) (processReadReadies rfds n) wb = Ok (tt, w1).
Proof.
  rewrite <-zoom_machine_loop. unfold collect. rewrite zoom_bind.
  intros ([] & wa & Ea & E)%bind_inv. rewrite zoom_bind in E.
  apply bind_inv in E as ([] & wb & Eb & Ec). by exists wa, wb.
Qed.

(** A turn of the loop, for what [select] answers. *)
Lemma loop_turn_eq (w : W) tv sel woken rep :
  calcNextTimeout (upile (loop (handler (lget w)))) = Ok (tv, upile (loop (handler (lget w)))) →
  sel (nfds (upile (loop (handler (lget w))))) (readFds (upile (loop (handler (lget w))))) tv = (woken, rep) →
  loop_turn call sel w =
    (zoom (A := upile_context) (modify (set_now woken));;
     match rep with
     | Interrupted => mret None
     | SelectError => mret (Some (-1))
     | Selected n rfds =>
         zoom (A := upile_context) processTimeouts;;
         zoom (A := upile_context) (processReadReadies rfds n);;
         ret ← firePending call;
         mret (if ret <? 0 then Some ret else None)
     end) w.
Proof.
  intros Et Es. unfold loop_turn. erewrite bind_ok by (by apply zoom_loop_read).
  erewrite bind_ok by (by apply zoom_loop_read). erewrite bind_ok by (by apply zoom_loop_read).
  cbv beta. by rewrite Es.
Qed.

Lemma turn_selected i (w : W) qs ts tv sel woken n rfds :
  machine_rest ct i (lget w) qs ts [] →
  calcNextTimeout (upile (loop (handler (lget w)))) = Ok (tv, upile (loop (handler (lget w)))) →
  sel (nfds (upile (loop (handler (lget w))))) (readFds (upile (loop (handler (lget w))))) tv =
    (woken, Selected n rfds) →
  (∃ w' j qs' ts', loop_turn call sel w = Ok (None, w') ∧ rtc machine_move w w' ∧
     machine_rest ct j (lget w') qs' ts' [] ∧
     ∀ p y, message_due w woken p y → msgs (handler (lget w')) !! p = None) ∨
  (∃ e w1, loop_turn call sel w = Err e ∧ rtc machine_move w w1 ∧ turn_fault w1 e ∧
     ((∃ p y, message_due w woken p y ∧ unsafe y) ∨ ¬ answers w)).
Proof.
  intros Hr Et Es. rewrite (loop_turn_eq _ _ _ _ _ Et Es).
  destruct (collect_ok _ _ _ _ woken rfds n Hr) as (w1 & l & r & ps & E & -> & Hps & Hr1 & Em & Eb & Hdl & Hdr).
  destruct (collect_steps _ _ _ _ _ E) as (wa & wb & Ea & E1 & E2).
  rewrite (bind_ok _ _ _ _ _ Ea), (bind_ok _ _ _ _ _ E1), (bind_ok _ _ _ _ _ E2).
  assert (machine_move w w1) as Hmv.
  { left. eapply outer_collect; [by rewrite (first_pending_hd _ _ _ _ _ Hr)|exact E]. }
  pose proof (firePending_runs _ _ _ _ _ Hr1) as Hs.
  destruct (firePending call w1) as [[ret w']|e] eqn:Ef.
  - left. destruct Hs as (Hret & Hmvs & j & qs' & ts' & Hr' & Hsi). exists w', j, qs', ts'.
    split_and!; [|by eapply rtc_l|done|].
    { rewrite (bind_ok _ _ _ _ _ Ef), (proj2 (Z.ltb_ge ret 0)) by done. done. }
    intros p y (Hy & t & Hd & Hlt).
    destruct (message_address _ _ _ _ _ p Hr) as (_ & _ & _ & Hin); [by eexists|].
    assert (p ∈ ps) as Hpp.
    { destruct Hr as [[_ _ _ _ _ _ _ [_ Hsent _]] _]. specialize (Hsent p Hin).
      rewrite app_nil_r, elem_of_app in Hsent. destruct Hsent as [Hl|Hr2].
      - destruct Hps as [->| ->]; [done|]. rewrite elem_of_app. by left.
      - destruct (Hdr p Hr2) as (t' & Hd' & Hle). by rewrite (due_fun _ _ _ _ Hd Hd') in Hlt. }
    eapply (released _ _ w1 w'); [exact Hr1|exact Hr'|exact Hsi|exact Hpp|apply not_elem_of_nil].
  - right. destruct Hs as [(w2 & Hmvs & Hf) Hu]. exists e, w2.
    split_and!; [by apply bind_err|by eapply rtc_l|done|].
    destruct Hu as [(p & y & Hp & Hy & Hu)|Hu]; [left|right; intros Ha; by eapply Hu, answers_zoom].
    exists p, y. split; [|done]. rewrite Em in Hy.
    split; [done|]. apply Hdl. destruct Hps as [->| ->]; [done|].
    rewrite elem_of_app, list_elem_of_singleton in Hp. destruct Hp as [Hp| ->]; [done|].
    by destruct (message_address _ _ _ _ _ wakeupfd_event Hr) as (_ & _ & [] & _); [by eexists|].
Qed.

(** The steps of a turn are steps of the run. *)
Lemma machine_moves_run (start : W → Prop) (w w' : W) :
  machine_run tables ct start w → rtc machine_move w w' → machine_run tables ct start w'.
Proof.
  intros Hw Hm. induction Hm as [w|w w1 w' [Hs|(m & Hf & Hm & E)] _ IH]; [done|..]; apply IH.
  - by eapply run_outer.
  - by eapply run_message.
Qed.

(** A turn in a run, from a machine with nothing pending. *)
Lemma turn_serves (start : W → Prop) (w : W) :
  (∀ w, start w → ∃ i qs ts ps, machine_rest ct i (lget w) qs ts ps) →
  machine_run tables ct start w → first_pending w = Some pending_list →
  let c := upile (loop (handler (lget w))) in ∃ tv, calcNextTimeout c = Ok (tv, c) ∧
  ∀ sel woken n rfds, sel (nfds c) (readFds c) tv = (woken, Selected n rfds) →
  (∃ w', loop_turn call sel w = Ok (None, w') ∧ rtc machine_move w w' ∧ machine_run tables ct start w' ∧
     first_pending w' = Some pending_list ∧
     ∀ p y, message_due w woken p y → msgs (handler (lget w')) !! p = None) ∨
  (∃ e w1, loop_turn call sel w = Err e ∧ rtc machine_move w w1 ∧ machine_run tables ct start w1 ∧
     turn_fault w1 e ∧ ((∃ p y, message_due w woken p y ∧ unsafe y) ∨ ¬ answers w)).
Proof.
  intros Hst Hrun Hf c. destruct (machine_run_rest start Hst w Hrun) as (i & qs & ts & ps & Hr).
  pose proof (nothing_pending _ _ _ _ _ Hr Hf) as ->.
  destruct (calcNextTimeout_ok _ _ _ (hi_loop _ _ _ _ _ _ (mo_handler _ _ _ _ _ _ (proj1 Hr)))) as (tv & Et & _).
  exists tv. split; [done|]. intros sel woken n rfds Es.
  destruct (turn_selected i w qs ts tv sel woken n rfds Hr Et Es)
    as [(w' & j & qs' & ts' & E & Hm & Hr' & Hd)|(e & w1 & E & Hm & Hft & Hu)]; [left|right].
  - exists w'. split_and!; [exact E|done|by eapply machine_moves_run| |done].
    by rewrite (first_pending_hd _ _ _ _ _ Hr').
  - exists e, w1. split_and!; [exact E|done|by eapply machine_moves_run|done..].
Qed.
End turns.
