(* ===== verification/SmTest.v ===== *)
(** * The tests of the state machines

    src/upil_test/sm_test.c: a machine of three states, in which a message 0, 1 or 2 asks for the
    state of its number; [main] sends such messages for ever.  [upil_dump_fsm],
    which [main] calls, is defined nowhere in the sources: it is an argument.
    The state of the program is its machine, the pointer to it (NULL until it
    was obtained), and the count of the loop of [main].

    src/upil_test/upil_test.c: an older one, of two states; its [main_t] is
    called by nothing. *)

From stdpp Require Import strings.
From S2P Require Import Prelude CString Dll EventLoop Handler Messages StateMachine.

Record sm_test := mkSmTest {
  machine : FSM;
  obtained : bool;               (* fsm is not NULL *)
  count : Z;
}.

#[export] Instance sm_test_fsm : Lens sm_test FSM := {|
  lget := machine;
  lset f t := mkSmTest f (obtained t) (count t);
|}.
#[export] Instance sm_test_fsm_laws : LensLaws sm_test FSM.
Proof. split; intros; repeat match goal with t : sm_test |- _ => destruct t end; done. Qed.

Abbreviation MT := (M sm_test).

(** [sm_send_message_delay(&fsm->handler, what, NULL, 0, msec)] *)
Definition test_send (what msec : Z) : MT unit := on_handler (sm_send_message_delay what None 0 msec);; skip.
Definition test_go_to (id : Z) : MT unit := on_handler (sm_transition_to id);; skip.

(** ** The states *)

Definition state0_enter : MT unit :=
  on_handler (sm_remove_message_id 1);;
  test_send 0 1000;;
  test_send 1 3000.

Definition state0_process (msg : loc) : MT Z :=
  x ← on_handler (msg_at msg);
  (if what x =? 0 then test_go_to 0
   else if what x =? 1 then test_go_to 1;; test_send 0 3000
   else if what x =? 2 then test_go_to 2
   else skip);;
  mret HANDLED.

Definition state1_enter : MT unit := skip.

Definition state1_process (msg : loc) : MT Z :=
  x ← on_handler (msg_at msg);
  (if what x =? 0 then test_go_to 0
   else if what x =? 1 then test_go_to 1
   else if what x =? 2 then test_go_to 2
   else skip);;
  mret HANDLED.

Definition state2_enter : MT unit := skip.

Definition state2_process (msg : loc) : MT Z :=
  x ← on_handler (msg_at msg);
  (if what x =? 0 then test_go_to 0
   else if what x =? 1 then test_go_to 1
   else if what x =? 2 then test_go_to 2
   else skip);;
  mret HANDLED.

Definition test_table : list (FSM_STATE sm_test) := [
  mkFSM_STATE 0 (lit "state_0") (Some state0_enter) None (Some state0_process);
  mkFSM_STATE 1 (lit "state_1") (Some state1_enter) None (Some state1_process);
  mkFSM_STATE 2 (lit "state_2") (Some state2_enter) None (Some state2_process)
].

(** ** The program *)

Section main.
(** [upil_dump_fsm(fsm)] *)
Variable upil_dump_fsm : MT unit.

(** Up to the loop; [created] and [filedes] are the answers of the system. *)
Definition sm_test_start (created : Z) (filedes : option (Z * Z)) (pool : list FSM) : MT unit :=
  '(i, pool') ← lift (sm_obtain_fsm (len test_table) created filedes pool);
  modify (λ t, mkSmTest (machine t) false 0);;
  match i with
  | Some i =>
      f ← lift (live (pool' !! i));
      modify (λ t, mkSmTest f true (count t));;
      sm_set_init_state test_table 0;;
      n ← lift (store_string 64 (lit "TEST_SM"));
      zoom (modify (set_name n));;
      upil_dump_fsm
  | None => skip
  end.
End main.

(** A turn of the loop of [main], which sleeps for a second after it.  It
    does not look at the pointer. *)
Definition sm_test_turn : MT unit :=
  t ← get;
  if obtained t then
    test_send (Z.rem (count t) 3) (Z.rem (count t) 8 * 400);;
    modify (λ t, mkSmTest (machine t) (obtained t) (s32 (count t + 1)))
  else fail NullDeref.

(** A turn of the loop of the machine's messages: its events are those of the
    wake-up pipe and of the messages. *)
Definition sm_test_callback (cb : callback) (fd : Z) (param : loc) : MT Z :=
  match cb with
  | processWakeupCallback => on_handler (zoom processWakeup)
  | sm_process_message_cb => sm_process_message test_table param
  | _ => fail NullDeref
  end.

Definition sm_test_upile : Lens sm_test upile_context := {|
  lget t := upile (loop (handler (machine t)));
  lset c t :=
    let h := handler (machine t) in
    lset (A := FSM) (lset (lset (lset c (loop h)) h) (machine t)) t;
|}.

Definition sm_test_loop_turn (sel : select_call) : MT (option Z) :=
  loop_turn (H := sm_test_upile) sm_test_callback sel.

(** ** upil_test.c *)

Definition test0_enter : MT unit := test_send 1 3000.

(** The result is not [HANDLED], whatever the message. *)
Definition test0_process (msg : loc) : MT Z :=
  test_send 123 3000;;
  test_go_to 1;;
  mret 0.

(** [sm_remove_message_id(&fsm->handler.msg_queue, 123)]: the head of a queue
    is taken for a machine. *)
Definition test1_enter : MT unit :=
  (fail Overrun : MT unit);;
  test_send 123 2000.

Definition test1_process (msg : loc) : MT Z := mret 0.

Definition upil_test_table : list (FSM_STATE sm_test) := [
  mkFSM_STATE 0 (lit "test0") (Some test0_enter) None (Some test0_process);
  mkFSM_STATE 1 (lit "test1") (Some test1_enter) None (Some test1_process)
].

(** Up to the loop that does nothing. *)
Definition main_t (created : Z) (filedes : option (Z * Z)) (pool : list FSM) : MT unit :=
  '(i, pool') ← lift (sm_obtain_fsm (len upil_test_table) created filedes (sm_init_pool pool));
  modify (λ t, mkSmTest (machine t) false 0);;
  match i with
  | Some i =>
      f ← lift (live (pool' !! i));
      modify (λ t, mkSmTest f true (count t));;
      sm_set_init_state upil_test_table 0;;
      n ← lift (store_string 64 (lit "test_fsm"));
      zoom (modify (set_name n))
  | None => skip
  end.

Definition upil_test_callback (cb : callback) (fd : Z) (param : loc) : MT Z :=
  match cb with
  | processWakeupCallback => on_handler (zoom processWakeup)
  | sm_process_message_cb => sm_process_message upil_test_table param
  | _ => fail NullDeref
  end.

Definition upil_test_loop_turn (sel : select_call) : MT (option Z) :=
  loop_turn (H := sm_test_upile) upil_test_callback sel.
