(* ===== verification/SmTestProofs.v ===== *)
(** * Properties of the test of the state machines

    The test program as a second client of the framework: its table fulfils a
    contract of three states, so that the machine runs for ever without a
    fault of its own.  Every name its messages have is in the tables, so that
    the only fault of a turn is the message that is cancelled when it is
    next. *)

From stdpp Require Import strings relations.
From S2P Require Import Prelude CString Dll EventLoop EventLoopProofs Handler HandlerProofs.
From S2P Require Import Messages TpProofs StateMachine SendProofs Contract MachineProofs TurnProofs SmTest.

(** ** The contract *)

(** Requests for a state name one of the three. *)
Definition test_ok (x : MSG) : Prop :=
  if what x =? UPIL_EVT_SM_TRANSITION
  then ∃ b n, data x = Some b ∧ bytes_int b = Ok n ∧ 0 ≤ n < 3
  else 0 ≤ what x < 3.

Definition test_machine : contract :=
  Contract 3 test_ok (λ _, True) (λ _ what n, what =? n) (λ what, what =? 1).

#[export] Instance test_lawful : Lawful test_machine.
Proof.
  split; [|done..]. intros x Ew. unfold test_machine. cbn [accepts states]. unfold test_ok. by rewrite Ew.
Qed.

Lemma test_message what : 0 ≤ what < 3 → test_ok (new_MSG what None 0).
Proof.
  intros Hw. unfold test_ok. rewrite new_MSG_what.
  destruct (Z.eqb_spec what UPIL_EVT_SM_TRANSITION) as [->|]; [by destruct Hw as [_ Hw]; vm_compute in Hw|done].
Qed.

Lemma test_named x : test_ok x → named x.
Proof.
  unfold test_ok, named. destruct (Z.eqb_spec (what x) UPIL_EVT_SM_TRANSITION) as [->|]; [done|].
  intros Hx. assert (what x = 0 ∨ what x = 1 ∨ what x = 2) as [->|[->| ->]] by lia; done.
Qed.

(** The handlers of the test wait for nothing. *)
#[export] Instance sm_test_outside : Outside sm_test := {| answers _ := True; answers_lset f w H := H |}.

(** ** The handlers *)

Section handlers.
Context (v : view).
Notation keeps := (keeps (W := sm_test) test_machine v).

Lemma keeps_test_send what msec :
  0 ≤ what < 3 → 0 ≤ msec ≤ INT_MAX → keeps (λ _, True) (test_send what msec).
Proof.
  intros Hw Hm. eapply keeps_drop, keeps_send; [|intros ?; lia|done].
  apply fine_message; [by apply test_message|]. intros ->. destruct Hw as [_ Hw]. by vm_compute in Hw.
Qed.

Lemma keeps_test_go id : 0 ≤ id < 3 → v_req v id = true → keeps (λ _, True) (test_go_to id).
Proof.
  intros Hid Hr. eapply keeps_drop, keeps_transition_to; [done| |done]. unfold INT_MAX. lia.
Qed.

Lemma keeps_state0_enter : keeps (λ _, True) state0_enter.
Proof.
  eapply keeps_bind; [by apply keeps_remove|intros _ _].
  eapply keeps_bind; [by apply keeps_test_send; vm_compute|intros _ _]. by apply keeps_test_send; vm_compute.
Qed.
End handlers.

(** A handler reads its message, and asks for the state of its number. *)
Section process.
Context (m : loc) (x : MSG) (i : nat) (old : before).
Notation v := (View (Some (m, x)) i old (λ n, what x =? n)).
Notation keeps := (keeps (W := sm_test) test_machine v).

Lemma keeps_test_handle (body : MSG → MT unit) :
  keeps (λ _, True) (body x) →
  keeps (λ r, r = HANDLED) (y ← on_handler (msg_at m); body y;; mret HANDLED).
Proof.
  intros Hb. eapply keeps_bind; [by apply (keeps_msg _ _ x)|intros y ->].
  eapply keeps_bind; [exact Hb|intros _ _]. by apply keeps_ret.
Qed.

Ltac asks := match goal with
  | |- Contract.keeps _ _ _ (if ?b then _ else _) => destruct b eqn:?; asks
  | |- Contract.keeps _ _ _ (test_go_to _) => by apply keeps_test_go
  | |- _ => apply keeps_skip
  end.

Lemma keeps_state0_process : keeps (λ r, r = HANDLED) (state0_process m).
Proof.
  apply keeps_test_handle. destruct (what x =? 0) eqn:?; [by apply keeps_test_go|].
  destruct (what x =? 1) eqn:?; [|asks].
  eapply keeps_bind; [by apply keeps_test_go|intros _ _]. by apply keeps_test_send; vm_compute.
Qed.

Lemma keeps_state1_process : keeps (λ r, r = HANDLED) (state1_process m).
Proof. apply keeps_test_handle. asks. Qed.

Lemma keeps_state2_process : keeps (λ r, r = HANDLED) (state2_process m).
Proof. apply keeps_test_handle. asks. Qed.
End process.

#[export] Instance test_fulfils : Fulfils test_table test_machine.
Proof.
  split; [apply _|..]; cbn [states test_machine]; intros i.
  - intros Hi. destruct i as [|[|[|i]]]; [by eexists..|lia].
  - intros st f v Hi. destruct i as [|[|[|i]]]; [..|lia]; intros [= <-] [= <-] _;
      [apply keeps_state0_enter|apply keeps_skip..].
  - intros st f v Hi. by destruct i as [|[|[|i]]]; [..|lia]; intros [= <-].
  - intros st g m x old Hi. destruct i as [|[|[|i]]]; [..|lia]; intros [= <-] [= <-] _ _;
      [apply keeps_state0_process|apply keeps_state1_process|apply keeps_state2_process].
Qed.

(** ** The start *)

Section run.
(** What [upil_dump_fsm] does: it leaves the machine alone. *)
Context (upil_dump_fsm : MT unit) (dump_quiet : quiet upil_dump_fsm).

(** A machine of the pool that can be started. *)
Definition test_startable (f : FSM) : Prop :=
  idle_handler (handler f) ∧ malloc_ok (handler f) sizeof_MSG = true.

Lemma sm_test_start_ok pool i f r wr t :
  get_idle_fsm pool 0 = Some i → pool !! i = Some f → test_startable f → 0 ≤ r < FD_SETSIZE → ∃ t' qs ts,
  sm_test_start upil_dump_fsm 0 (Some (r, wr)) pool t = Ok (tt, t') ∧
  machine_rest test_machine 0 (lget t') qs ts [].
Proof using dump_quiet.
  intros Hi Hf (Hih & Hma) Hr.
  destruct (obtain_fsm_ok pool i f 3 r wr Hi Hf Hih Hr) as (h & E & Hinv & Hlo & Hm & Ha).
  set (f1 := mkFSM [] true 3 None h (last_incoming_num f) (last_outgoing_num f)) in *.
  set (t1 := mkSmTest f1 true 0).
  assert (∃ t2 qs ts, sm_set_init_state test_table 0 t1 = Ok (HANDLED, t2) ∧
    machine_rest test_machine 0 (lget t2) qs ts []) as (t2 & qs & ts & E2 & Hr2).
  { assert (returns t1 (sm_set_init_state test_table 0 t1) (λ r w', r = HANDLED ∧ ∃ qs ts,
      machine_rest test_machine (Z.to_nat 0) (lget w') qs ts [])) as Hi0.
    { apply init_state_ok; [done|done|done|by rewrite <-Hma, <-Ha|done..]. }
    destruct (returns_answered _ _ _ Hi0 I) as (r2 & t2 & E2 & -> & qs & ts & Hr2). by exists t2, qs, ts. }
  set (t3 := lset (A := FSM) (set_name (lit "TEST_SM") (machine t2)) t2).
  destruct (returns_answered _ _ _ (dump_quiet t3) I) as ([] & t4 & E4 & Hq). exists t4, qs, ts. split.
  - unfold sm_test_start. erewrite bind_ok by (by change (len test_table) with 3; rewrite E).
    cbv iota beta. erewrite bind_ok by done. erewrite bind_ok.
    2:{ rewrite list_lookup_insert_eq by (by eapply lookup_lt_Some). done. }
    erewrite bind_ok by (by instantiate (1 := t1); instantiate (1 := tt)).
    erewrite bind_ok by exact E2.
    erewrite bind_ok by (by unfold lift; rewrite store_ok). by erewrite bind_ok by done.
  - rewrite Hq. destruct Hr2 as [[]]. by split; [split|].
Qed.

(** ** The runs *)

(** The program has obtained its machine from a pool. *)
Inductive test_started (t' : sm_test) : Prop :=
  | test_started_from r wr pool i f t :
      get_idle_fsm pool 0 = Some i → pool !! i = Some f → test_startable f → 0 ≤ r < FD_SETSIZE →
      sm_test_start upil_dump_fsm 0 (Some (r, wr)) pool t = Ok (tt, t') → test_started t'.

Abbreviation test_run := (machine_run test_table test_machine test_started).
Abbreviation test_move := (machine_move (W := sm_test) (tables := test_table) (ct := test_machine)).
Abbreviation test_fault := (turn_fault (tables := test_table) (ct := test_machine)).

Lemma test_starts_at_rest t :
  test_started t → ∃ i qs ts ps, machine_rest test_machine i (lget t) qs ts ps.
Proof using dump_quiet.
  intros [r wr pool i f u0 H1 H2 H3 H4 E].
  destruct (sm_test_start_ok pool i f r wr u0 H1 H2 H3 H4) as (u1 & qs & ts & E1 & Hr).
  rewrite E in E1. injection E1 as ->. by eexists _, _, _, _.
Qed.

Lemma test_run_rest t : test_run t → ∃ i qs ts ps, machine_rest test_machine i (lget t) qs ts ps.
Proof using dump_quiet. exact (machine_run_rest (ct := test_machine) test_started test_starts_at_rest t). Qed.

(** From [h] to [h'] a message [what] was put last on the queue and is due
    [msec] milliseconds from now; with 31 messages on it nothing happened. *)
Definition sent_to (h h' : HANDLER) (what msec : Z) : Prop := ∃ qs ts ps,
  handler_inv h qs [] [] ts ps ∧
  if len qs <? 31
  then (∃ ts', handler_inv h' (qs ++ [brk h]) [] [] ts' ps) ∧
    msgs h' = <[brk h := new_MSG what None 0]> (msgs h) ∧
    due (events (upile (loop h'))) (brk h) (timeradd (now (upile (loop h))) (msec_tv msec))
  else h' = h.

(** A message of [main] is sent, or the queue is full. *)
Lemma test_send_ok i t qs ts ps what msec :
  machine_rest test_machine i (lget t) qs ts ps → 0 ≤ what < 3 → 0 ≤ msec ≤ INT_MAX → ∃ t',
  test_send what msec t = Ok (tt, t') ∧ outer_step test_machine t t' ∧
  obtained t' = obtained t ∧ count t' = count t ∧ sent_to (handler (machine t)) (handler (machine t')) what msec.
Proof.
  intros [[Hi _ Hm _ _ _ _ _] _] Hw Hmsec. cbn [lget sm_test_fsm] in Hi, Hm.
  assert (∃ ret h', sm_send_message_delay what None 0 msec (handler (machine t)) = Ok (ret, h') ∧
    sent_to (handler (machine t)) h' what msec) as (ret & h' & E & Hs).
  { destruct (Z.ltb_spec (len qs) 31) as [Hlt|Hge].
    - destruct (sm_send_ok _ _ _ _ _ _ Hi what None 0 msec) as (l & r & h' & El & E & Hi' & Em & (x & Hx & _ & _ & Ht) & _);
        [rewrite !app_nil_r; unfold MAX_MSG_QUEUE_SIZE; lia|done|lia|intros ?; lia|done|].
      exists 0, h'. split; [done|]. exists qs, ts, ps. split; [done|]. rewrite (proj2 (Z.ltb_lt _ _) Hlt).
      split; [by exists (l ++ brk (handler (machine t)) :: r)|]. split; [done|]. by exists x.
    - exists (-1), (handler (machine t)). split.
      + unfold sm_send_message_delay.
        rewrite bind_ok with (a := None) (s' := handler (machine t)); [done|].
        eapply obtain_message_full; [done|]. rewrite !app_nil_r. unfold MAX_MSG_QUEUE_SIZE. lia.
      + exists qs, ts, ps. split; [done|]. by rewrite (proj2 (Z.ltb_ge _ _) Hge). }
  set (t' := lset (A := FSM) (lset h' (machine t)) t).
  assert (on_handler (sm_send_message_delay what None 0 msec) t = Ok (ret, t')) as E1
    by (by apply (zoom_ok _ t), (zoom_ok _ (machine t))).
  exists t'. split; [|split; [|done]].
  - unfold test_send. by rewrite (bind_ok _ _ _ _ _ E1).
  - eapply outer_send; [by apply test_message|intros ?; lia|done|exact E1].
Qed.

(** Every message that is allocated has a name. *)
Lemma test_fault_cancelled t e : test_run t → test_fault t e → e = Dangling.
Proof using dump_quiet.
  intros Hr [p x _ Hx Hn|p n t' ? ? ? ? ? ?|p ? ? ? Hn]; [|done|by destruct Hn].
  destruct (test_run_rest t Hr) as (i & qs & ts & ps & [[_ _ _ Hok _ _ _ _] _]).
  by destruct Hn; eapply test_named, Hok.
Qed.

(** C40: the test program runs.  Every turn of the loop of its [main], the
    count being below INT_MAX, is a step of a run that puts the next message
    (the count modulo 3) last on the queue, due after 400 milliseconds times
    the count modulo 8, unless 31 messages are there already.  And every turn
    of the loop of its messages, for every answer of [select], goes on with
    all due messages served, unless a message 1 is among them, and the entry
    of state 0 cancels it when [fire] has read it as the next one: that is a
    use of released memory. *)
Theorem test_program_runs t :
  test_run t →
  (obtained t = true → 0 ≤ count t < INT_MAX → ∃ t',
     sm_test_turn t = Ok (tt, t') ∧ test_run t' ∧ obtained t' = true ∧ count t' = count t + 1 ∧
     sent_to (handler (machine t)) (handler (machine t')) (count t mod 3) (count t mod 8 * 400)) ∧
  (first_pending t = Some pending_list → ∀ woken n rfds,
     let turn := sm_test_loop_turn (λ _ _ _, (woken, Selected n rfds)) t in
     (∃ t', turn = Ok (None, t') ∧ test_run t' ∧ first_pending t' = Some pending_list ∧
        ∀ p y, message_due t woken p y → msgs (handler (machine t')) !! p = None) ∨
     turn = Err Dangling ∧ (∃ t1, rtc test_move t t1 ∧ test_fault t1 Dangling) ∧
     ∃ p y, message_due t woken p y ∧ what y = 1).
Proof using dump_quiet.
  intros Hrun. destruct (test_run_rest t Hrun) as (i & qs & ts & ps & Hr). split.
  - intros Ho Hc. unfold sm_test_turn. rewrite bind_get, Ho.
    destruct (test_send_ok i t qs ts ps (Z.rem (count t) 3) (Z.rem (count t) 8 * 400) Hr)
      as (t1 & E & Hs & Ho1 & Hc1 & Hsent); [apply Z.rem_bound_pos; lia| |].
    { pose proof (Z.rem_bound_pos (count t) 8). unfold INT_MAX. lia. }
    rewrite (bind_ok _ _ _ _ _ E). eexists. split; [done|]. simpl.
    rewrite Ho1, Hc1, s32_small by (unfold INT_MIN, INT_MAX in *; lia).
    rewrite !Z.rem_mod_nonneg in Hsent by lia.
    split; [|done]. eapply run_outer; [by eapply run_outer|]. by apply outer_main.
  - intros Hf woken n rfds turn.
    destruct (turn_serves (ct := test_machine) sm_test_callback (λ _ _ _, eq_refl) (λ _ _ _, eq_refl)
      test_started t test_starts_at_rest Hrun Hf) as (tv & _ & Hs).
    destruct (Hs (λ _ _ _, (woken, Selected n rfds)) woken n rfds eq_refl) as [(t' & E & _ & Hd)|(e & t1 & E & Hm & Hr1 & Hft & [(p & y & Hdue & Hu)|[]])];
      [left|right|done].
    + exists t'. split; [exact E|exact Hd].
    + assert (e = Dangling) as -> by (by apply (test_fault_cancelled t1)).
      split; [exact E|]. split; [by exists t1|]. exists p, y. split; [done|].
      destruct Hu as [Hu|Hu]; [|by apply Z.eqb_eq]. destruct Hu, Hr as [[_ _ _ Hok _ _ _ _] _].
      by eapply test_named, Hok, Hdue.
Qed.
End run.
