(* ===== verification/HandlerTest.v ===== *)
(** * The test of the handlers: src/upil_test/handler_test.c

    A handler of its own function, and two messages with data, four and five
    seconds in the future.  [my_process_message] takes a message off its queue
    and releases it.  The state is the handler on the stack of [main].  The
    lemmas say that the function keeps a handler well formed. *)

From stdpp Require Import strings.
From S2P Require Import Prelude CString Dll EventLoop Handler HandlerProofs.

Definition my_process_message (param : loc) : MH Z :=
  msg_at param;;
  remove_from_list (Some param);;
  free_msg param;;
  mret 0.

(** [main] up to [sleep(3)]: it ends with [Some c], or goes on. *)
Definition handler_test_start (created : Z) (filedes : option (Z * Z)) : MH (option Z) :=
  ret ← start_handler my_process_message_cb created filedes;
  if negb (ret =? 0) then mret (Some (-1)) else mret None.

(** After it, until the loop that does nothing. *)
Definition handler_test_send : MH unit :=
  msg ← obtain_message 1 (Some (lit "TEST" ++ [0])) (len (lit "TEST"));
  send_message_delay msg (4 * 1000);;
  msg ← obtain_message 3 (Some (lit "TEST" ++ [0])) (len (lit "TEST"));
  send_message_delay msg (5 * 1000).

Definition handler_test_callback (cb : callback) (fd : Z) (param : loc) : MH Z :=
  match cb with
  | processWakeupCallback => zoom processWakeup
  | my_process_message_cb => my_process_message param
  | _ => fail NullDeref
  end.

Definition handler_upile : Lens HANDLER upile_context := {|
  lget h := upile (loop h);
  lset c h := lset (A := uew_context) (lset c (loop h)) h;
|}.

Definition handler_test_turn (sel : select_call) : MH (option Z) :=
  loop_turn (H := handler_upile) handler_test_callback sel.

(** A queued message is taken off and released, whatever else is there. *)
Lemma my_process_message_ok h qs ts ps m :
  handler_inv h qs [] [] ts ps → m ∈ qs → ∃ h',
  my_process_message m h = Ok (0, h') ∧ handler_inv h' (rm m qs) [] [] (rm m ts) (rm m ps) ∧
  msgs h' = delete m (msgs h).
Proof.
  intros Hi Hm. assert (is_Some (msgs h !! m)) as [x Hx].
  { apply (hi_live _ _ _ _ _ _ Hi). rewrite !elem_of_app. by left. }
  destruct (remove_from_list_ok _ _ _ _ _ _ m Hi) as (h1 & E1 & Hi1 & Em1 & _).
  { rewrite elem_of_app. by left. }
  destruct (removed_not_in _ _ _ _ _ _ m Hi) as [Hn1 Hn2]; [rewrite elem_of_app; by left|].
  destruct (free_ok _ _ _ _ _ _ m Hi1) as [E2 Hi2]; [rewrite Em1; eauto|done|done|].
  exists (freed m h1). split; [|split; [done|simpl; by rewrite Em1]].
  unfold my_process_message. erewrite bind_ok by (by apply msg_at_ok).
  erewrite bind_ok by exact E1. by erewrite bind_ok by exact E2.
Qed.
