(* ===== verification/Race.v ===== *)
(** * Two threads at one message queue: src/state_machine/handler.c

    The thread of a handler takes the messages it processes off the queue of
    the handler ([remove_from_list]) while other threads put new ones on it
    ([obtain], called by [obtain_message]).  The queue and [msg_count] have
    no lock.  Here the two functions are programs of single accesses to
    memory, and a schedule says whose access is next.  What the mutex of the
    loop protects ([uew_event_del]), and the allocation, are single steps. *)

From S2P Require Import Prelude Dll EventLoop Handler.

(** ** Programs of accesses *)

Inductive prog (S A : Type) : Type :=
  | Done (a : A)
  | Access {X : Type} (op : M S X) (k : X → prog S A).
Arguments Done {S A} a.
Arguments Access {S A X} op k.

Definition access {S X} (op : M S X) : prog S X := Access op Done.

#[export] Instance prog_ret S : MRet (prog S) := λ A a, Done a.
#[export] Instance prog_bind S : MBind (prog S) := λ A B f,
  fix bind p := match p with Done a => f a | Access op k => Access op (λ x, bind (k x)) end.

(** Without another thread. *)
Fixpoint run_alone {S A} (p : prog S A) : M S A :=
  match p with Done a => mret a | Access op k => x ← op; run_alone (k x) end.

Definition next_access {S A} (p : prog S A) : M S (prog S A) :=
  match p with Done a => mret (Done a) | Access op k => x ← op; mret (k x) end.

(** [true] is an access of the first thread, [false] one of the second; a
    thread that is done does nothing. *)
Fixpoint interleave {S A B} (sched : list bool) (p : prog S A) (q : prog S B) : M S (prog S A * prog S B) :=
  match sched with
  | [] => mret (p, q)
  | true :: sched => p ← next_access p; interleave sched p q
  | false :: sched => q ← next_access q; interleave sched p q
  end.

(** ** The functions *)

Abbreviation PH := (prog HANDLER).

Definition queue_access {A} (m : M lheap A) : PH A := access (zoom m).

Definition addToQueue_steps (msg queue : loc) : PH unit :=
  queue_access (set_next msg (Some queue));;
  p ← queue_access (get_prev queue);
  queue_access (set_prev msg p);;
  p ← queue_access (get_prev msg);
  queue_access (p ← lift (deref p); set_next p (Some msg));;
  queue_access (set_prev queue (Some msg)).

Definition count_steps (d : Z) : PH unit :=
  n ← access (gets msg_count);
  access (modify (set_msg_count (n + d))).

Definition obtain_steps : PH ptr :=
  n ← access (gets msg_count);
  if n + 1 <? MAX_MSG_QUEUE_SIZE then
    m ← access new_msg;
    addToQueue_steps m msg_queue;;
    count_steps 1;;
    mret (Some m)
  else mret None.

(** The stores of the removal: a pointer that is followed is read first. *)
Definition unlink_steps (m : loc) : PH unit :=
  n ← queue_access (get_next m);
  p ← queue_access (get_prev m);
  queue_access (n ← lift (deref n); set_prev n p);;
  p ← queue_access (get_prev m);
  n ← queue_access (get_next m);
  queue_access (p ← lift (deref p); set_next p n);;
  queue_access (set_next m None);;
  queue_access (set_prev m None).

Definition removeFromQueue_steps (m : loc) : PH unit :=
  n ← queue_access (get_next m);
  p ← queue_access (get_prev m);
  match n, p with
  | Some _, Some _ => unlink_steps m
  | _, _ => mret tt
  end.

Definition remove_from_list_steps (m : loc) : PH unit :=
  n ← access (msg_at m;; on_elinks (get_next m));
  p ← access (on_elinks (get_prev m));
  match n, p with
  | Some _, Some _ => access (zoom (uew_event_del m true))
  | _, _ => mret tt
  end;;
  removeFromQueue_steps m;;
  count_steps (-1).

(** What the thread of the handler does with a message it does not look at. *)
Definition remove_message_steps (m : loc) : PH unit :=
  remove_from_list_steps m;;
  access (free_msg m).
