(* ===== verification/RaceProofs.v ===== *)
(** * What two threads do to a message queue

    A thread takes a message off a queue while another puts one on it, in any
    interleaving of their accesses.  When they do not meet at the end of the
    queue, both are done as if one after the other, but for [msg_count],
    which is off by one at most; and the interleavings in which it is off, in
    which released memory is written, and in which a message is not in the
    queue.  The proofs are by rely and guarantee: what a thread knows of the
    memory, the accesses of the other do not change. *)

From S2P Require Import Prelude Dll EventLoop EventLoopProofs Handler HandlerProofs SendProofs Race.

(** ** Alone, the programs are the functions of Handler *)

Section alone.
Context {S : Type}.

Lemma bind_ext {A B} (m m' : M S A) (k k' : A → M S B) s :
  m s = m' s → (∀ a s', k a s' = k' a s') → (m ≫= k) s = (m' ≫= k') s.
Proof. intros E Hk. unfold mbind, M_bind. rewrite E. destruct (m' s) as [[a s']|]; [apply Hk|done]. Qed.

Lemma run_alone_bind {A B} (p : prog S A) (k : A → prog S B) s :
  run_alone (p ≫= k) s = (a ← run_alone p; run_alone (k a)) s.
Proof.
  revert s. induction p as [a|X op f IH]; intros s; [done|].
  transitivity ((x ← op; run_alone (f x ≫= k)) s); [done|].
  transitivity ((x ← op; (a ← run_alone (f x); run_alone (k a))) s).
  - by apply bind_ext; [|intros; apply IH].
  - simpl. unfold mbind, M_bind. by destruct (op s) as [[x s1]|].
Qed.
End alone.

Lemma zoom_lift {W A B} `{LensLaws W A} (r : res B) (w : W) : zoom (A := A) (lift r) w = lift r w.
Proof. unfold zoom, lift. destruct r; [|done]. by rewrite lset_lget. Qed.

Lemma run_access {S A B} (op : M S A) (k : A → prog S B) s :
  run_alone (access op ≫= k) s = (a ← op; run_alone (k a)) s.
Proof. done. Qed.

Lemma zoom_unit {W A} `{Lens W A} (m : M A unit) (w : W) :
  (x ← zoom m; mret x) w = zoom m w.
Proof. unfold mbind, M_bind. by destruct (zoom m w) as [[[] w']|]. Qed.

(** The accesses of a straight-line function, one by one. *)
Ltac same_step := first
  [ rewrite zoom_bind; apply bind_ext; [reflexivity|intros ? ?]
  | match goal with |- context [lift (deref (Some ?p)) ≫= ?k] => change (lift (deref (Some p)) ≫= k) with (k p); cbv beta end
  | match goal with |- context [deref ?o] => is_var o; destruct o; [|reflexivity] end
  | rewrite zoom_unit; reflexivity ].

Lemma addToQueue_alone m q h : run_alone (addToQueue_steps m q) h = addToQueue m q h.
Proof.
  unfold addToQueue, ring_add. cbn [addToQueue_steps run_alone mbind prog_bind access queue_access].
  repeat same_step.
Qed.

Lemma unlink_alone m h : run_alone (unlink_steps m) h = zoom (ring_remove m) h.
Proof.
  unfold ring_remove. cbn [unlink_steps run_alone mbind prog_bind access queue_access].
  repeat same_step.
Qed.

Lemma count_alone d h : run_alone (count_steps d) h = Ok (tt, set_msg_count (msg_count h + d) h).
Proof. done. Qed.

(** The programs are the functions. *)
Theorem obtain_alone h : run_alone obtain_steps h = obtain h.
Proof.
  unfold obtain_steps, obtain. rewrite run_access, !bind_gets. destruct (msg_count h + 1 <? MAX_MSG_QUEUE_SIZE); [|done].
  rewrite run_access. apply bind_ext; [done|]. intros m h1. rewrite run_alone_bind.
  apply bind_ext; [apply addToQueue_alone|]. by intros [] h2.
Qed.

Lemma remove_queue_alone m h : run_alone (removeFromQueue_steps m) h = removeFromQueue (Some m) h.
Proof.
  unfold removeFromQueue_steps, removeFromQueue, queue_access. rewrite run_access. apply bind_ext; [done|]. intros n h1.
  rewrite run_access. apply bind_ext; [done|]. intros p h2. destruct n, p; try done. apply unlink_alone.
Qed.

Lemma bind_assoc {S A B C} (m : M S A) (f : A → M S B) (g : B → M S C) s :
  ((m ≫= f) ≫= g) s = (m ≫= λ a, f a ≫= g) s.
Proof. unfold mbind, M_bind. by destruct (m s) as [[a s']|]. Qed.

Theorem remove_from_list_alone m h : run_alone (remove_from_list_steps m) h = remove_from_list (Some m) h.
Proof.
  unfold remove_from_list_steps, remove_from_list. rewrite run_access, bind_assoc.
  apply bind_ext; [done|]. intros x h1. apply bind_ext; [done|]. intros n h2.
  rewrite run_access. apply bind_ext; [done|]. intros p h3. rewrite run_alone_bind. apply bind_ext.
  { destruct n, p; try done. cbn. unfold mbind, M_bind. by destruct (zoom _ h3) as [[[] ?]|]. }
  intros [] h4. rewrite run_alone_bind. apply bind_ext; [apply remove_queue_alone|]. by intros [] h5.
Qed.

(** ** Rely and guarantee *)

(** From [s], in at most [n] accesses, [p] returns with [Q], while the others
    change the memory as [R] says, and [p] as [G] says. *)
Fixpoint rg {S A} (R G : S → S → Prop) (n : nat) (p : prog S A) (Q : A → S → Prop) (s : S) : Prop :=
  ∀ s', R s s' →
  match p, n with
  | Done a, _ => Q a s'
  | Access op k, O => False
  | Access op k, Datatypes.S n => ∃ x s'', op s' = Ok (x, s'') ∧ G s' s'' ∧ rg R G n (k x) Q s''
  end.

(** The accesses the schedule gives to a thread. *)
Definition share (b : bool) (sched : list bool) : nat := length (filter (λ x, x = b) sched).

Section rg.
Context {S : Type}.
Implicit Types (R G : relation S) (s : S).

Lemma rg_stable {A} R G n (p : prog S A) Q s s' : Transitive R → rg R G n p Q s → R s s' → rg R G n p Q s'.
Proof. intros HR H Hs. destruct p, n; intros s'' Hs'; exact (H s'' (HR _ _ _ Hs Hs')). Qed.

Lemma rg_done {A} R G n k (a : A) Q s : rg R G n (Done a) Q s → rg R G k (Done a) Q s.
Proof. by destruct n, k. Qed.

Lemma rg_next {A} R G n (p : prog S A) Q s : Reflexive R → Reflexive G → rg R G n p Q s → ∃ p' s',
  next_access p s = Ok (p', s') ∧ G s s' ∧ rg R G (pred n) p' Q s'.
Proof.
  intros HR HG H. destruct p as [a|X op k].
  { exists (Done a), s. split; [done|]. split; [done|]. by eapply rg_done. }
  destruct n as [|n]; [destruct (H s (HR s))|]. destruct (H s (HR s)) as (x & s1 & E & Hg & H1).
  exists (k x), s1. split; [|done]. simpl. by rewrite (bind_ok _ _ _ _ _ E).
Qed.

Lemma rg_alone {A} R G n (p : prog S A) Q : PreOrder R → PreOrder G → ∀ s, rg R G n p Q s → ∃ a s',
  run_alone p s = Ok (a, s') ∧ G s s' ∧ rg R G 0 (Done a) Q s'.
Proof.
  intros HR HG. revert p. induction n as [|n IH]; intros p s H; (destruct p as [a|X op k];
    [exists a, s; split; [done|]; split; [reflexivity|by eapply rg_done]|]).
  - destruct (H s (reflexivity s)).
  - destruct (H s (reflexivity s)) as (x & s1 & E & Hg & H1).
    destruct (IH (k x) s1 H1) as (a & s2 & E2 & Hg2 & H2). exists a, s2.
    split; [|split; [by etransitivity|done]]. simpl. by rewrite (bind_ok _ _ _ _ _ E).
Qed.

(** Two threads, each of which does what the other relies on. *)
Section par.
Context {A B : Type} (R1 G1 R2 G2 : relation S) (Q1 : A → S → Prop) (Q2 : B → S → Prop).
Context `{!PreOrder R1, !PreOrder R2, !PreOrder G1, !PreOrder G2}.
Context (H12 : ∀ s s', G1 s s' → R2 s s') (H21 : ∀ s s', G2 s s' → R1 s s').

Lemma rg_par sched : ∀ n k p q s, rg R1 G1 n p Q1 s → rg R2 G2 k q Q2 s → ∃ p' q' s',
  interleave sched p q s = Ok ((p', q'), s') ∧
  rg R1 G1 (n - share true sched) p' Q1 s' ∧ rg R2 G2 (k - share false sched) q' Q2 s'.
Proof using All.
  induction sched as [|b sched IH]; intros n k p q s Hp Hq.
  { exists p, q, s. by rewrite !Nat.sub_0_r. }
  destruct b; cbn [interleave].
  - destruct (rg_next _ _ _ _ _ _ _ _ Hp) as (p1 & s1 & E & Hg & Hp1).
    destruct (IH (pred n) k p1 q s1) as (p' & q' & s' & E2 & Hp2 & Hq2); [done|exact (rg_stable _ _ _ _ _ _ _ _ Hq (H12 _ _ Hg))|].
    exists p', q', s'. split; [rewrite (bind_ok _ _ _ _ _ E); exact E2|]. unfold share in *. rewrite !filter_cons. simpl.
    split; [|done]. by replace (n - Datatypes.S _)%nat with (pred n - length (filter (λ x, x = true) sched))%nat by lia.
  - destruct (rg_next _ _ _ _ _ _ _ _ Hq) as (q1 & s1 & E & Hg & Hq1).
    destruct (IH n (pred k) p q1 s1) as (p' & q' & s' & E2 & Hp2 & Hq2); [exact (rg_stable _ _ _ _ _ _ _ _ Hp (H21 _ _ Hg))|done|].
    exists p', q', s'. split; [rewrite (bind_ok _ _ _ _ _ E); exact E2|]. unfold share in *. rewrite !filter_cons. simpl.
    split; [done|]. by replace (k - Datatypes.S _)%nat with (pred k - length (filter (λ x, x = false) sched))%nat by lia.
Qed.

(** With enough turns both return. *)
Lemma rg_par_done sched n k p q s :
  rg R1 G1 n p Q1 s → rg R2 G2 k q Q2 s → (n ≤ share true sched)%nat → (k ≤ share false sched)%nat → ∃ a b s',
  interleave sched p q s = Ok ((Done a, Done b), s') ∧ Q1 a s' ∧ Q2 b s'.
Proof using All.
  intros Hp Hq Hn Hk. destruct (rg_par sched n k p q s Hp Hq) as (p' & q' & s' & E & H1 & H2).
  replace (n - share true sched)%nat with 0%nat in H1 by lia. replace (k - share false sched)%nat with 0%nat in H2 by lia.
  destruct p' as [a|]; [|destruct (H1 s' (reflexivity s'))]. destruct q' as [b|]; [|destruct (H2 s' (reflexivity s'))].
  exists a, b, s'. split; [done|]. split; [apply H1|apply H2]; reflexivity.
Qed.

(** One after the other. *)
Lemma rg_seq n k p q s : rg R1 G1 n p Q1 s → rg R2 G2 k q Q2 s → ∃ a b s1 s2,
  run_alone p s = Ok (a, s1) ∧ run_alone q s1 = Ok (b, s2) ∧ Q1 a s2 ∧ Q2 b s2.
Proof using All.
  intros Hp Hq. destruct (rg_alone _ _ _ _ _ _ _ s Hp) as (a & s1 & E1 & Hg1 & H1).
  destruct (rg_alone R2 G2 k q Q2 _ _ s1) as (b & s2 & E2 & Hg2 & H2); [exact (rg_stable _ _ _ _ _ _ _ _ Hq (H12 _ _ Hg1))|].
  exists a, b, s1, s2. split; [done|]. split; [done|]. split; [apply H1, H21, Hg2|apply H2; reflexivity].
Qed.
End par.
End rg.

(** ** What a thread knows of a handler *)

(** The handler without the links of the queue and the count. *)
Definition rest (h : HANDLER) : HANDLER :=
  set_msg_count 0 (lset (A := lheap) ((λ _, Links None None) <$> qlinks h) h).

(** At most the fields [next] of [WN] and [prev] of [WP] have changed. *)
Record chg (WN WP : list loc) (gr : relation HANDLER) (gc : relation Z) (h h' : HANDLER) : Prop := {
  chg_next : ∀ p, p ∉ WN → next_of (qlinks h') p = next_of (qlinks h) p;
  chg_prev : ∀ p, p ∉ WP → prev_of (qlinks h') p = prev_of (qlinks h) p;
  chg_rest : gr (rest h) (rest h');
  chg_count : gc (msg_count h) (msg_count h');
}.

#[export] Instance chg_preorder WN WP gr gc : PreOrder gr → PreOrder gc → PreOrder (chg WN WP gr gc).
Proof.
  intros Hr Hc. split; [by split|]. intros a b c [N1 P1 R1 C1] [N2 P2 R2 C2]. split.
  - intros p Hp. by rewrite N2, N1.
  - intros p Hp. by rewrite P2, P1.
  - by etransitivity.
  - by etransitivity.
Qed.

Class Stable {A} (r : relation A) (P : A → Prop) : Prop := stable x y : r x y → P x → P y.

Section access.
Context (WN WP FN FP : list loc) (gr rr : relation HANDLER) (gc rc : relation Z).
Context `{!PreOrder gr, !PreOrder gc}.
Context {A : Type} (Q : A → HANDLER → Prop).

(** The fields that the other thread does not change. *)
Record view (N P : loc → ptr) (vr : HANDLER → Prop) (vc : Z → Prop) (h : HANDLER) : Prop := {
  vw_next : ∀ p, p ∉ FN → next_of (qlinks h) p = N p;
  vw_prev : ∀ p, p ∉ FP → prev_of (qlinks h) p = P p;
  vw_rest : vr (rest h);
  vw_count : vc (msg_count h);
}.

Definition knows (n : nat) (p : prog HANDLER A) N P vr vc : Prop :=
  ∀ h, view N P vr vc h → rg (chg FN FP rr rc) (chg WN WP gr gc) n p Q h.

Definition upd (f : loc → ptr) (p : loc) (v : ptr) : loc → ptr := λ q, if decide (q = p) then v else f q.
Definition alive (vr : HANDLER → Prop) (p : loc) : Prop := ∀ r, vr r → is_Some (qlinks r !! p).

Context {vr : HANDLER → Prop} {vc : Z → Prop} `{!Stable rr vr, !Stable rc vc}.
Implicit Types (N P : loc → ptr).

Lemma view_stable N P h h' : view N P vr vc h → chg FN FP rr rc h h' → view N P vr vc h'.
Proof using Stable0 Stable1.
  intros [H1 H2 H3 H4] [C1 C2 C3 C4]. split; [| |by eapply stable|by eapply stable].
  - intros p Hp. by rewrite C1, H1.
  - intros p Hp. by rewrite C2, H2.
Qed.

Lemma view_alive N P h p : alive vr p → view N P vr vc h → is_Some (qlinks h !! p).
Proof using.
  intros Ha Hv. specialize (Ha _ (vw_rest _ _ _ _ _ Hv)). simpl in Ha. rewrite lookup_fmap in Ha.
  by rewrite fmap_is_Some in Ha.
Qed.

Lemma know_done n a N P : (∀ h, view N P vr vc h → Q a h) → knows n (Done a) N P vr vc.
Proof using Stable0 Stable1. intros HQ h Hv. destruct n; intros h' Hc; eapply HQ, view_stable; done. Qed.

(** One access, from all that is known. *)
Lemma know_access {X} n (op : M HANDLER X) k N P :
  (∀ h, view N P vr vc h → ∃ x h', op h = Ok (x, h') ∧ chg WN WP gr gc h h' ∧
     rg (chg FN FP rr rc) (chg WN WP gr gc) n (k x) Q h') → knows (S n) (Access op k) N P vr vc.
Proof using Stable0 Stable1. intros Hop h Hv h' Hc. apply Hop. by eapply view_stable. Qed.

Lemma know_get_next n p k N P :
  p ∉ FN → alive vr p → knows n (k (N p)) N P vr vc → knows (S n) (Access (zoom (get_next p)) k) N P vr vc.
Proof using All.
  intros Hp Ha Hk. apply know_access. intros h Hv. exists (N p), h. split; [|split; [reflexivity|by apply Hk]].
  apply zoom_read. rewrite get_next_ok by (by eapply view_alive). do 2 f_equal. by apply Hv.
Qed.

Lemma know_get_prev n p k N P :
  p ∉ FP → alive vr p → knows n (k (P p)) N P vr vc → knows (S n) (Access (zoom (get_prev p)) k) N P vr vc.
Proof using All.
  intros Hp Ha Hk. apply know_access. intros h Hv. exists (P p), h. split; [|split; [reflexivity|by apply Hk]].
  apply zoom_read. rewrite get_prev_ok by (by eapply view_alive). do 2 f_equal. by apply Hv.
Qed.

Lemma rest_links h q : (∀ p, is_Some (q !! p) ↔ is_Some (qlinks h !! p)) → rest (lset q h) = rest h.
Proof using.
  intros Hq. unfold rest. simpl. unfold set_msg_count. simpl. f_equal. apply map_eq. intros p. rewrite !lookup_fmap.
  specialize (Hq p). destruct (q !! p), (qlinks h !! p); try done; exfalso.
  - by destruct (proj1 Hq ltac:(eauto)).
  - by destruct (proj2 Hq ltac:(eauto)).
Qed.

Lemma know_set_next n p v k N P :
  p ∈ WN → p ∉ FN → alive vr p → knows n (k tt) (upd N p v) P vr vc →
  knows (S n) (Access (zoom (set_next p v)) k) N P vr vc.
Proof using All.
  intros HW Hp Ha Hk. apply know_access. intros h Hv.
  destruct (set_next_ok (qlinks h) p v) as (q & E & [_ Hs] & HN & HP); [by eapply view_alive|].
  exists tt, (lset q h). split; [by apply zoom_ok|].
  pose proof (rest_links h q Hs) as Hr. split.
  - split; [|intros x _; apply HP|by rewrite Hr|reflexivity].
    intros x Hx. etransitivity; [apply HN|]. rewrite decide_False; [done|by intros ->].
  - apply Hk. destruct Hv as [V1 V2 V3 V4]. split; [| |by rewrite Hr|done].
    + intros x Hx. etransitivity; [apply HN|]. unfold upd. case_decide; [done|by apply V1].
    + intros x Hx. etransitivity; [apply HP|]. by apply V2.
Qed.

Lemma know_set_prev n p v k N P :
  p ∈ WP → p ∉ FP → alive vr p → knows n (k tt) N (upd P p v) vr vc →
  knows (S n) (Access (zoom (set_prev p v)) k) N P vr vc.
Proof using All.
  intros HW Hp Ha Hk. apply know_access. intros h Hv.
  destruct (set_prev_ok (qlinks h) p v) as (q & E & [_ Hs] & HN & HP); [by eapply view_alive|].
  exists tt, (lset q h). split; [by apply zoom_ok|].
  pose proof (rest_links h q Hs) as Hr. split.
  - split; [intros x _; apply HN| |by rewrite Hr|reflexivity].
    intros x Hx. etransitivity; [apply HP|]. rewrite decide_False; [done|by intros ->].
  - apply Hk. destruct Hv as [V1 V2 V3 V4]. split; [| |by rewrite Hr|done].
    + intros x Hx. etransitivity; [apply HN|]. by apply V1.
    + intros x Hx. etransitivity; [apply HP|]. unfold upd. case_decide; [done|by apply V2].
Qed.

(** The two accesses of [++] or [--]. *)
Lemma know_count n d k N P (vc' : Z → Prop) :
  (∀ x y, vc x → vc y → gc y (x + d) ∧ vc' (x + d)) → knows n (k tt) N P vr vc' →
  knows (S (S n)) (count_steps d ≫= k) N P vr vc.
Proof using All.
  intros Hd Hk.
  assert (∀ x, vc x → knows (S n) (Access (modify (set_msg_count (x + d))) k) N P vr vc) as Hst.
  { intros x Hx. apply know_access. intros h [V1 V2 V3 V4]. destruct (Hd x _ Hx V4) as [H1 H2].
    exists tt, (set_msg_count (x + d) h). split; [done|]. split; [by split|]. by apply Hk. }
  apply know_access. intros h Hv. exists (msg_count h), h. split; [done|]. split; [reflexivity|].
  apply Hst; [by eapply vw_count|done].
Qed.
End access.

(** ** A message is put on the queue while another is taken off *)

(** Membership among the places of the queue. *)
Ltac at_place := rewrite ?not_elem_of_cons, ?elem_of_cons, ?elem_of_nil; intuition congruence.

Section beside.
Context (h0 : HANDLER) (l r ds os ts ps : list loc) (m : loc) (c : Z).

(** The queue of [h0] is right, whatever its count. *)
Definition counted (qs : list loc) (h : HANDLER) : HANDLER := set_msg_count (len (qs ++ ds ++ os)) h.

Context (Hinv : handler_inv (counted (l ++ m :: r) h0) (l ++ m :: r) ds os ts ps).
Context (Hr : r ≠ []) (Hts : m ∉ ts ++ ps) (Hmalloc : malloc_ok h0 sizeof_MSG = true).

Notation new := (brk h0).
Notation pred := (last_of msg_queue l).
Notation succ := (List.hd msg_queue r).
Notation last := (last_of m r).

Record places : Prop := {
  pl_next : next_of (qlinks h0) m = Some succ;
  pl_prev : prev_of (qlinks h0) m = Some pred;
  pl_last : prev_of (qlinks h0) msg_queue = Some last;
  pl_fresh : next_of (qlinks h0) new = None ∧ prev_of (qlinks h0) new = None;
  pl_live : ∀ p, p ∈ [m; pred; succ; last; msg_queue] → is_Some (qlinks h0 !! p);
  pl_new : new ∉ [m; pred; succ; last; msg_queue];
  pl_m : m ∉ [pred; succ; last; msg_queue];
  pl_succ : succ ≠ msg_queue;
  pl_pred : pred ≠ last;
}.

Lemma places_ok : places.
Proof using Hinv Hr.
  pose proof Hinv as [Hq _ Hnd _ _ _ _ _ Hfr _ _]. cbn [counted set_msg_count qlinks brk] in *.
  destruct (Hfr new ltac:(simpl; lia)) as (_ & Hnq & _). simpl in Hnq.
  pose proof Hq as Hq0. apply ring_split in Hq as (Hd & Hl & [Hn Hp] & Ht). simpl in Hn, Hp.
  assert (last ∈ r) as Hlast.
  { destruct r as [|y r']; [done|]. simpl. apply last_of_elem. }
  assert (succ ∈ r) as Hsucc by (destruct r; [done|by left]).
  pose proof (last_of_elem msg_queue l) as Hpred.
  rewrite NoDup_cons, NoDup_app, NoDup_cons, not_elem_of_app, not_elem_of_cons in Hd.
  destruct Hd as ((Hhl & Hhm & Hhr) & _ & Hlr & Hmr & _).
  assert (∀ p, p ∈ [m; pred; succ; last; msg_queue] → p ∈ msg_queue :: l ++ m :: r) as Hin.
  { intros p. rewrite !elem_of_cons, elem_of_nil, elem_of_app, elem_of_cons.
    apply elem_of_cons in Hpred. intros [->|[->|[->|[->|[->|[]]]]]]; tauto. }
  assert (∀ p, p ∈ [m; pred; succ; last; msg_queue] → is_Some (qlinks h0 !! p)) as Hlive.
  { intros p Hp'. eapply ring_live; [exact Hq0|by apply Hin]. }
  split; try done.
  - apply (ring_next _ _ _ _ _ Hq0).
  - destruct r as [|y r' _] using rev_ind; [done|]. rewrite last_of_snoc.
    destruct Hq0 as [_ Hpath]. replace ((l ++ m :: r' ++ [y]) ++ [msg_queue]) with ((l ++ m :: r') ++ [y; msg_queue]) in Hpath
      by (rewrite <-!app_assoc; simpl; by rewrite <-app_assoc).
    apply path_app in Hpath as [_ Hpath]. simpl in Hpath. by destruct Hpath as (_ & [_ ?] & _).
  - unfold next_of, prev_of. by rewrite Hnq.
  - intros H'%Hlive. rewrite Hnq in H'. by destruct H'.
  - rewrite !not_elem_of_cons. apply elem_of_cons in Hpred. split_and!.
    + intros E. destruct Hpred as [Hp'|Hp']; [congruence|]. rewrite <-E in Hp'. destruct (Hlr m Hp'). by left.
    + by intros E; rewrite <-E in Hsucc.
    + by intros E; rewrite <-E in Hlast.
    + done.
    + apply not_elem_of_nil.
  - by intros E; rewrite E in Hsucc.
  - intros E. rewrite <-E in Hlast. apply elem_of_cons in Hpred as [Hp'|Hp']; [by rewrite Hp' in Hlast|].
    destruct (Hlr _ Hp'). by right.
Qed.

Definition alloc_rest : HANDLER := rest (alloc_msg h0).

Lemma rest_idem h : rest (rest h) = rest h.
Proof using. unfold rest, set_msg_count. simpl. f_equal. apply map_eq. intros p. rewrite !lookup_fmap. by destruct (qlinks h !! p). Qed.

(** What the sender may do to the rest and to the count, and what the receiver. *)
Definition put_rest (a b : HANDLER) : Prop := b = a ∨ b = alloc_rest.
Definition put_count (x y : Z) : Prop := y = x ∨ c ≤ y ≤ c + 1.
Definition take_rest (a b : HANDLER) : Prop := b = a.
Definition take_count (x y : Z) : Prop := y = x ∨ c - 1 ≤ y ≤ c.

#[local] Instance put_rest_pre : PreOrder put_rest.
Proof using. split; [by left|]. intros x y z [->| ->] [->| ->]; unfold put_rest; tauto. Qed.
#[local] Instance take_rest_pre : PreOrder take_rest.
Proof using. split; [done|]. by intros x y z -> ->. Qed.
#[local] Instance put_count_pre : PreOrder put_count.
Proof using. split; [by left|]. intros x y z [->|?] [->|?]; unfold put_count; tauto. Qed.
#[local] Instance take_count_pre : PreOrder take_count.
Proof using. split; [by left|]. intros x y z [->|?] [->|?]; unfold take_count; tauto. Qed.

#[local] Instance stable_take_rest (vr : HANDLER → Prop) : Stable take_rest vr.
Proof using. by intros x y ->. Qed.
#[local] Instance stable_put_rest : Stable put_rest (λ a, a = rest h0 ∨ a = alloc_rest).
Proof using. intros x y [->| ->]; tauto. Qed.
#[local] Instance stable_take_before : Stable take_count (λ x, c - 1 ≤ x ≤ c).
Proof using. intros x y [->|?]; lia. Qed.
#[local] Instance stable_put_before : Stable put_count (λ x, c ≤ x ≤ c + 1).
Proof using. intros x y [->|?]; lia. Qed.
#[local] Instance stable_take_after : Stable take_count (λ x, c - 1 ≤ x ≤ c + 1).
Proof using. intros x y [->|?]; lia. Qed.
#[local] Instance stable_put_after : Stable put_count (λ x, c - 1 ≤ x ≤ c + 1).
Proof using. intros x y [->|?]; lia. Qed.

Notation N0 := (next_of (qlinks h0)).
Notation P0 := (prev_of (qlinks h0)).

(** The links when the new message is on the queue, and when [m] is off. *)
Definition put_next : loc → ptr := upd (upd N0 new (Some msg_queue)) last (Some new).
Definition put_prev : loc → ptr := upd (upd P0 new (Some last)) msg_queue (Some new).
Definition take_next : loc → ptr := upd (upd N0 pred (Some succ)) m None.
Definition take_prev : loc → ptr := upd (upd P0 succ (Some pred)) m None.

Notation sender := (knows [new; last] [new; msg_queue] [m; pred] [m; succ] put_rest take_rest put_count take_count).
Notation receiver := (knows [m; pred] [m; succ] [new; last] [new; msg_queue] take_rest put_rest take_count put_count).
Notation sender_view := (view [m; pred] [m; succ]).
Notation receiver_view := (view [new; last] [new; msg_queue]).

Definition put_post (a : ptr) (h : HANDLER) : Prop :=
  a = Some new ∧ sender_view put_next put_prev (λ a, a = alloc_rest) (λ x, c - 1 ≤ x ≤ c + 1) h.
Definition take_post (_ : unit) (h : HANDLER) : Prop :=
  receiver_view take_next take_prev (λ a, a = rest h0 ∨ a = alloc_rest) (λ x, c - 1 ≤ x ≤ c + 1) h.

(** The part of [obtain] that follows the test of the count. *)
Definition put_steps : PH ptr :=
  m ← access new_msg; addToQueue_steps m msg_queue;; count_steps 1;; mret (Some m).

Lemma new_msg_known n k :
  sender put_post n (k new) N0 P0 (λ a, a = alloc_rest) (λ x, c - 1 ≤ x ≤ c) →
  sender put_post (S n) (Access new_msg k) N0 P0 (λ a, a = rest h0) (λ x, c - 1 ≤ x ≤ c).
Proof using Hmalloc Hinv Hr.
  intros Hk. apply know_access; [apply _..|]. intros h [V1 V2 V3 V4]. pose proof places_ok as [_ _ _ [Fn Fp] _ _ _ _ _].
  assert (brk h = new) as Eb by (by apply (f_equal brk) in V3).
  assert (rest (alloc_msg h) = alloc_rest) as Er.
  { unfold alloc_rest. destruct h, h0. unfold rest, set_msg_count in V3. simpl in V3. injection V3 as E1 -> -> -> -> ->.
    unfold rest, set_msg_count, alloc_msg. simpl. f_equal. by rewrite !fmap_insert, E1. }
  exists new, (alloc_msg h). split.
  { rewrite new_msg_ok, Eb; [done|]. change (malloc_ok h) with (malloc_ok (rest h)). by rewrite V3. }
  assert (∀ p, p ≠ new → qlinks (alloc_msg h) !! p = qlinks h !! p) as Hsame.
  { intros p Hp. simpl. rewrite Eb. by rewrite lookup_insert_ne. }
  assert (qlinks (alloc_msg h) !! new = Some (Links None None)) as Hnew by (simpl; rewrite Eb; apply lookup_insert_eq).
  split.
  - split; [..|rewrite Er; by right|by left]; intros p [Hp _]%not_elem_of_cons; unfold next_of, prev_of; by rewrite (Hsame p Hp).
  - apply Hk. split; [..|done|done]; intros p Hp; (destruct (decide (p = new)) as [->|Hne];
      [rewrite ?Fn, ?Fp; unfold next_of, prev_of; by rewrite Hnew|]).
    + rewrite <-V1 by done. unfold next_of. by rewrite Hsame.
    + rewrite <-V2 by done. unfold prev_of. by rewrite Hsame.
Qed.

Lemma put_known : ∀ h, sender_view N0 P0 (λ a, a = rest h0) (λ x, c - 1 ≤ x ≤ c) h →
  rg (chg [m; pred] [m; succ] take_rest take_count) (chg [new; last] [new; msg_queue] put_rest put_count)
    9 put_steps put_post h.
Proof using Hmalloc Hinv Hr.
  pose proof places_ok as [Pn Pp Pl [Fn Fp] Hlive Hnew Hm Hs Hpl].
  assert (∀ p, p ∈ [m; pred; succ; last; msg_queue] ∨ p = new → alive (λ a, a = alloc_rest) p) as Ha.
  { intros p Hp r' ->. unfold alloc_rest, rest. simpl. rewrite lookup_fmap, fmap_is_Some.
    destruct (decide (p = new)) as [->|Hne]; [rewrite lookup_insert_eq; eauto|]. rewrite lookup_insert_ne by done.
    apply Hlive. tauto. }
  rewrite !not_elem_of_cons in Hnew, Hm.
  apply new_msg_known.
  apply know_set_next; [apply _|apply _|apply _|apply _|at_place|at_place|apply Ha; at_place|].
  apply know_get_prev; [apply _..|at_place|apply Ha; at_place|]. rewrite Pl.
  apply know_set_prev; [apply _..|at_place|at_place|apply Ha; at_place|].
  apply know_get_prev; [apply _..|at_place|apply Ha; at_place|].
  unfold upd at 1. rewrite decide_True by done.
  apply know_set_next; [apply _..|at_place|at_place|apply Ha; at_place|].
  apply know_set_prev; [apply _..|at_place|at_place|apply Ha; at_place|].
  eapply know_count; [apply _..| |].
  { intros x y Hx Hy. split; [right; lia|]. instantiate (1 := λ x, c - 1 ≤ x ≤ c + 1). simpl. lia. }
  apply know_done; [apply _..|]. intros h Hv. by split.
Qed.

Lemma event_off : elinks (upile (loop h0)) !! m = Some (Links None None) ∧ is_Some (msgs h0 !! m).
Proof using Hinv Hts.
  destruct Hinv as [_ _ _ _ _ _ Hu Hlive _ _ _]. assert (m ∈ (l ++ m :: r) ++ ds ++ os) by (apply elem_of_app; left; apply elem_of_app; right; left).
  split; [by apply Hu|by apply Hlive].
Qed.

(** The rest, as the receiver finds it. *)
Lemma rest_read h : rest h = rest h0 ∨ rest h = alloc_rest →
  elinks (upile (loop h)) !! m = Some (Links None None) ∧ is_Some (msgs h !! m).
Proof using Hinv Hr Hts.
  destruct event_off as [He Hx]. pose proof places_ok as [_ _ _ _ _ Hnew _ _ _].
  assert (m ≠ new) as Hmn by (intros ->; apply Hnew; by left).
  intros [E|E]; pose proof (f_equal loop E) as E1; pose proof (f_equal msgs E) as E2; simpl in E1, E2.
  - by rewrite E1, E2.
  - rewrite E1, E2. simpl. by rewrite !lookup_insert_ne by done.
Qed.

Notation seen := (λ a, a = rest h0 ∨ a = alloc_rest).

(** The two reads of the links of the event. *)
Lemma event_known {X} n (op : MH X) x k N P vc `{!Stable put_count vc} :
  (∀ h, elinks (upile (loop h)) !! m = Some (Links None None) → is_Some (msgs h !! m) → op h = Ok (x, h)) →
  receiver take_post n (k x) N P seen vc → receiver take_post (S n) (Access op k) N P seen vc.
Proof using Hinv Hr Hts.
  intros Hop Hk. apply know_access; [apply _..|]. intros h Hv.
  destruct (rest_read h (vw_rest _ _ _ _ _ _ _ Hv)) as [He Hx].
  exists x, h. split; [by apply Hop|]. split; [reflexivity|by apply Hk].
Qed.

Lemma on_elinks_next h : elinks (upile (loop h)) !! m = Some (Links None None) → on_elinks (get_next m) h = Ok (None, h).
Proof using. intros He. apply on_elinks_read. unfold get_next. by rewrite He. Qed.
Lemma on_elinks_prev h : elinks (upile (loop h)) !! m = Some (Links None None) → on_elinks (get_prev m) h = Ok (None, h).
Proof using. intros He. apply on_elinks_read. unfold get_prev. by rewrite He. Qed.

Lemma take_known : ∀ h, receiver_view N0 P0 seen (λ x, c ≤ x ≤ c + 1) h →
  rg (chg [new; last] [new; msg_queue] put_rest put_count) (chg [m; pred] [m; succ] take_rest take_count)
    14 (remove_from_list_steps m) take_post h.
Proof using Hinv Hr Hts.
  pose proof places_ok as [Pn Pp Pl [Fn Fp] Hlive Hnew Hm Hs Hpl].
  assert (∀ p, p ∈ [m; pred; succ; last; msg_queue] → alive seen p) as Ha.
  { intros p Hp r' Hr'. destruct (Hlive p Hp) as [x Hx].
    destruct Hr' as [->| ->]; unfold alloc_rest, rest; simpl; rewrite lookup_fmap, fmap_is_Some; [eauto|].
    destruct (decide (p = new)) as [->|Hne]; [rewrite lookup_insert_eq; eauto|]. rewrite lookup_insert_ne by done. eauto. }
  rewrite !not_elem_of_cons in Hnew, Hm.
  eapply event_known; [apply _|intros h He [x Hx]; rewrite (bind_ok _ _ _ _ _ (msg_at_ok _ _ _ Hx)); by apply on_elinks_next|].
  eapply event_known; [apply _|intros h He _; by apply on_elinks_prev|].
  apply know_get_next; [apply _..|at_place|apply Ha; at_place|]. rewrite Pn.
  apply know_get_prev; [apply _..|at_place|apply Ha; at_place|]. rewrite Pp.
  apply know_get_next; [apply _..|at_place|apply Ha; at_place|]. rewrite Pn.
  apply know_get_prev; [apply _..|at_place|apply Ha; at_place|]. rewrite Pp.
  apply know_set_prev; [apply _..|at_place|at_place|apply Ha; at_place|].
  apply know_get_prev; [apply _..|at_place|apply Ha; at_place|].
  unfold upd at 1. rewrite decide_False, Pp by at_place.
  apply know_get_next; [apply _..|at_place|apply Ha; at_place|]. rewrite Pn.
  apply know_set_next; [apply _..|at_place|at_place|apply Ha; at_place|].
  apply know_set_next; [apply _..|at_place|at_place|apply Ha; at_place|].
  apply know_set_prev; [apply _..|at_place|at_place|apply Ha; at_place|].
  eapply know_count; [apply _..| |].
  { intros x y Hx Hy. split; [right; lia|]. instantiate (1 := λ x, c - 1 ≤ x ≤ c + 1). simpl. lia. }
  apply know_done; [apply _..|]. done.
Qed.

(** Both are done: the memory but for the count. *)
Record both (h : HANDLER) : Prop := {
  both_put_next : ∀ p, p ∉ [m; pred] → next_of (qlinks h) p = put_next p;
  both_put_prev : ∀ p, p ∉ [m; succ] → prev_of (qlinks h) p = put_prev p;
  both_take_next : ∀ p, p ∉ [new; last] → next_of (qlinks h) p = take_next p;
  both_take_prev : ∀ p, p ∉ [new; msg_queue] → prev_of (qlinks h) p = take_prev p;
  both_rest : rest h = alloc_rest;
}.

Lemma both_done a b h : put_post a h → take_post b h → a = Some new ∧ both h ∧ c - 1 ≤ msg_count h ≤ c + 1.
Proof using. intros [-> [V1 V2 V3 V4]] [V5 V6 _ _]. done. Qed.

Lemma same_links (q q' : lheap) :
  (∀ p, next_of q p = next_of q' p) → (∀ p, prev_of q p = prev_of q' p) →
  (λ _, Links None None) <$> q = (λ _, Links None None) <$> q' → q = q'.
Proof using.
  intros Hn Hp Hd. apply map_eq. intros p. specialize (Hn p). specialize (Hp p). apply (f_equal (lookup p)) in Hd.
  rewrite !lookup_fmap in Hd. unfold next_of, prev_of in *.
  destruct (q !! p) as [[]|], (q' !! p) as [[]|]; try done. simpl in *. by rewrite Hn, Hp.
Qed.

Lemma both_unique h h' x : both h → both h' → set_msg_count x h = set_msg_count x h'.
Proof using Hinv Hr.
  pose proof places_ok as [_ _ _ _ _ Hnew Hm Hs Hpl]. rewrite !not_elem_of_cons in Hnew, Hm.
  intros [A1 A2 A3 A4 A5] [B1 B2 B3 B4 B5]. rewrite <-B5 in A5.
  assert (qlinks h = qlinks h') as Eq.
  { apply same_links; [| |by apply (f_equal qlinks) in A5]; intros p.
    - destruct (decide (p ∈ [m; pred])) as [Hp|Hp]; [|by rewrite A1, B1].
      rewrite A3, B3; [done|..]; revert Hp; at_place.
    - destruct (decide (p ∈ [m; succ])) as [Hp|Hp]; [|by rewrite A2, B2].
      rewrite A4, B4; [done|..]; revert Hp; at_place. }
  destruct h, h'. simpl in Eq. injection A5 as _ -> -> -> -> ->. unfold set_msg_count. simpl. by rewrite Eq.
Qed.

(** The threads, from a handler like [h0]. *)
Lemma start_views h : qlinks h = qlinks h0 → rest h = rest h0 → msg_count h = c →
  sender_view N0 P0 (λ a, a = rest h0) (λ x, c - 1 ≤ x ≤ c) h ∧ receiver_view N0 P0 seen (λ x, c ≤ x ≤ c + 1) h.
Proof using. intros Hq Hre Hc. split; (split; [by rewrite Hq|by rewrite Hq| |lia]); [done|by left]. Qed.

Lemma obtain_known h : c + 1 < MAX_MSG_QUEUE_SIZE →
  sender_view N0 P0 (λ a, a = rest h0) (λ x, c - 1 ≤ x ≤ c) h →
  rg (chg [m; pred] [m; succ] take_rest take_count) (chg [new; last] [new; msg_queue] put_rest put_count)
    10 obtain_steps put_post h.
Proof using Hmalloc Hinv Hr.
  intros Hc. revert h. apply know_access; [apply _..|]. intros h Hv. exists (msg_count h), h.
  split; [done|]. split; [reflexivity|]. pose proof (vw_count _ _ _ _ _ _ _ Hv) as Hx. simpl in Hx.
  rewrite (proj2 (Z.ltb_lt _ _)) by lia. by apply put_known.
Qed.

Lemma put_take n p sched h (Hp : rg (chg [m; pred] [m; succ] take_rest take_count)
    (chg [new; last] [new; msg_queue] put_rest put_count) n p put_post h) :
  receiver_view N0 P0 seen (λ x, c ≤ x ≤ c + 1) h → (n ≤ share true sched)%nat → (14 ≤ share false sched)%nat → ∃ h',
  interleave sched p (remove_from_list_steps m) h = Ok ((Done (Some new), Done tt), h') ∧ both h' ∧
  c - 1 ≤ msg_count h' ≤ c + 1.
Proof using Hinv Hr Hts.
  intros Hv Hn Hk.
  destruct (rg_par_done _ _ _ _ _ _ (λ _ _ H, H) (λ _ _ H, H) sched n 14 _ _ h Hp (take_known h Hv) Hn Hk)
    as (a & [] & h' & E & Ha & Hb).
  destruct (both_done _ _ _ Ha Hb) as (-> & Hb' & Hc). exists h'. done.
Qed.
End beside.

#[local] Existing Instances put_rest_pre take_rest_pre put_count_pre take_count_pre.

(** The queue is right, with a count that may be another. *)
Definition queue_ok (h : HANDLER) (qs ds os ts ps : list loc) : Prop :=
  handler_inv (counted ds os qs h) qs ds os ts ps.

(** A message that is not in the loop is taken off its queue. *)
Lemma take_message_ok h l r ds os ts ps m :
  handler_inv h (l ++ m :: r) ds os ts ps → m ∉ ts ++ ps → ∃ h',
  remove_from_list (Some m) h = Ok (tt, h') ∧ handler_inv h' (l ++ r) ds os ts ps ∧ msgs h' = msgs h ∧
  brk h' = brk h ∧ malloc_ok h' = malloc_ok h.
Proof.
  intros Hi Hts. destruct (remove_from_list_ok _ _ _ _ _ _ m Hi) as (h' & E & Hi' & Em & Eb & Ea & _); [mem_goal|].
  pose proof (hi_nodup _ _ _ _ _ _ Hi) as Hnd. destruct (live_disjoint _ _ _ Hnd) as (_ & D2 & _).
  assert (m ∉ ds ∧ m ∉ os) as [N1 N2] by (apply D2; mem_goal).
  rewrite (rm_notin m ds), (rm_notin m os), (rm_notin m ts), (rm_notin m ps) in Hi' by (done || (intros ?; apply Hts; mem_goal)).
  rewrite !NoDup_cons, NoDup_app in Hnd. rewrite rm_middle in Hi' by tauto. by exists h'.
Qed.

Section result.
Context (h : HANDLER) (l r ds os ts ps : list loc) (m : loc).
Context (Hinv : queue_ok h (l ++ m :: r) ds os ts ps) (Hr : r ≠ []) (Hts : m ∉ ts ++ ps).
Context (Hmalloc : malloc_ok h sizeof_MSG = true).

(** One after the other. *)
Lemma put_then_take : ∃ h', both h l r m h' ∧ handler_inv h' (l ++ r ++ [brk h]) ds os ts ps ∧
  msgs h' = <[brk h := mkMSG (-1) 0 None]> (msgs h).
Proof using All.
  set (h1 := counted ds os (l ++ m :: r) h). assert (handler_inv h1 (l ++ m :: r) ds os ts ps) as Hi by done.
  set (c := msg_count h1). assert (qlinks h1 = qlinks h ∧ rest h1 = rest h) as [Eq Er] by done.
  destruct (start_views h l r m c h1 Eq Er eq_refl) as [Vs Vr].
  pose proof (put_known h l r ds os ts ps m c Hinv Hr Hmalloc h1 Vs) as Hp.
  pose proof (take_known h l r ds os ts ps m c Hinv Hr Hts h1 Vr) as Ht.
  destruct (rg_seq _ _ _ _ _ _ (λ _ _ H, H) (λ _ _ H, H) 9 14 _ _ h1 Hp Ht) as (a & b & s1 & s2 & E1 & E2 & Ha & Hb).
  destruct (both_done _ _ _ _ _ _ _ _ Ha Hb) as (_ & Hb' & _). exists s2. split; [done|].
  pose proof (alloc_inv _ _ _ _ _ _ Hi) as Hi1. destruct (fresh_not_in _ _ _ _ _ _ (brk h1) Hi ltac:(lia)) as [Hn1 Hn2].
  destruct (addToQueue_new (alloc_msg h1) (l ++ m :: r) ds os ts ps (brk h1) Hi1) as (q' & E & Hi2);
    [simpl; rewrite lookup_insert_eq; eauto|simpl; rewrite lookup_insert_eq; eauto|done|simpl; apply lookup_insert_eq|].
  assert (run_alone put_steps h1 = Ok (Some (brk h1), set_msg_count (msg_count (alloc_msg h1) + 1) (lset q' (alloc_msg h1)))) as E3.
  { unfold put_steps. rewrite run_access, (bind_ok _ _ _ _ _ (new_msg_ok h1 Hmalloc)), run_alone_bind.
    rewrite (bind_ok _ _ _ tt (lset q' (alloc_msg h1))); [done|]. by rewrite addToQueue_alone. }
  rewrite E3 in E1. injection E1 as <- <-. rewrite remove_from_list_alone in E2.
  rewrite <-app_assoc in Hi2. destruct (take_message_ok _ l (r ++ [brk h]) ds os ts ps m Hi2 Hts) as (h' & E4 & Hi' & Em & _).
  pose proof (eq_trans (eq_sym E4) E2) as [= <- <-]. split; [done|by rewrite Em].
Qed.
End result.

(** C10: whatever the interleaving, a message that is put on a queue while
    another, not the last one, is taken off it is on the queue, the other is
    not, and the rest of the handler is well formed; only the count may be one
    too high or too low.  Neither thread runs into a fault, and both are done
    after ten and fourteen accesses. *)
Theorem put_beside_take h l r ds os ts ps m sched :
  queue_ok h (l ++ m :: r) ds os ts ps → r ≠ [] → m ∉ ts ++ ps → malloc_ok h sizeof_MSG = true →
  msg_count h + 1 < MAX_MSG_QUEUE_SIZE → (10 ≤ share true sched)%nat → (14 ≤ share false sched)%nat → ∃ h',
  interleave sched obtain_steps (remove_from_list_steps m) h = Ok ((Done (Some (brk h)), Done tt), h') ∧
  queue_ok h' (l ++ r ++ [brk h]) ds os ts ps ∧ msgs h' = <[brk h := mkMSG (-1) 0 None]> (msgs h) ∧
  msg_count h - 1 ≤ msg_count h' ≤ msg_count h + 1.
Proof.
  intros Hi Hr Hts Hm Hc Hn Hk. destruct (start_views h l r m (msg_count h) h eq_refl eq_refl eq_refl) as [Vs Vr].
  pose proof (obtain_known h l r ds os ts ps m (msg_count h) Hi Hr Hm h Hc Vs) as Hp.
  destruct (put_take h l r ds os ts ps m (msg_count h) Hi Hr Hts 10 obtain_steps sched h Hp Vr Hn Hk)
    as (h' & E & Hb & Hcount).
  destruct (put_then_take h l r ds os ts ps m Hi Hr Hts Hm) as (h2 & Hb2 & Hi2 & Em).
  pose proof (λ x, both_unique h l r ds os ts ps m Hi Hr h' h2 x Hb Hb2) as Hu.
  exists h'. split; [done|]. split; [|split; [|done]].
  - unfold queue_ok, counted. rewrite Hu, <-(hi_count _ _ _ _ _ _ Hi2). by destruct h2.
  - specialize (Hu 0). apply (f_equal msgs) in Hu. simpl in Hu. by rewrite Hu.
Qed.

(** ** A lost count *)

Section schedules.
Context {S A B : Type}.

Lemma interleave_app sched sched' (p : prog S A) (q : prog S B) s :
  interleave (sched ++ sched') p q s = (r ← interleave sched p q; interleave sched' r.1 r.2) s.
Proof.
  revert p q s. induction sched as [|b sched IH]; intros p q s; [done|]. destruct b; simpl.
  - rewrite bind_assoc. by apply bind_ext.
  - rewrite bind_assoc. by apply bind_ext.
Qed.

(** A thread can have the turns for a part of its program. *)
Lemma left_turns {X} (p : prog S X) (k : X → prog S A) : ∀ s a s1,
  run_alone p s = Ok (a, s1) → ∃ sched, ∀ (q : prog S B), interleave sched (p ≫= k) q s = Ok ((k a, q), s1).
Proof.
  induction p as [a|Y op f IH]; intros s x s1; simpl.
  - intros [= -> ->]. by exists [].
  - intros (y & s2 & E & H)%bind_inv. destruct (IH y s2 x s1 H) as [sched Hs]. exists (true :: sched). intros q.
    cbn [interleave]. rewrite (bind_ok _ _ _ (f y ≫= k) s2); [apply Hs|].
    cbn [next_access mbind prog_bind]. by rewrite (bind_ok _ _ _ _ _ E).
Qed.

Lemma right_turns (q : prog S B) : ∀ s b s1,
  run_alone q s = Ok (b, s1) → ∃ sched, ∀ (p : prog S A), interleave sched p q s = Ok ((p, Done b), s1).
Proof.
  induction q as [b|Y op f IH]; intros s x s1; simpl.
  - intros [= -> ->]. by exists [].
  - intros (y & s2 & E & H)%bind_inv. destruct (IH y s2 x s1 H) as [sched Hs]. exists (false :: sched). intros p.
    cbn [interleave]. rewrite (bind_ok _ _ _ (f y) s2); [apply Hs|]. cbn [next_access]. by rewrite (bind_ok _ _ _ _ _ E).
Qed.
End schedules.

(** Code that does not look at the count. *)
Definition blind {A} (op : MH A) : Prop := ∀ x h a h', op h = Ok (a, h') → op (set_msg_count x h) = Ok (a, set_msg_count x h').

Lemma blind_bind {A B} (op : MH A) (k : A → MH B) : blind op → (∀ a, blind (k a)) → blind (op ≫= k).
Proof.
  intros H1 H2 x h b h' (a & h1 & E1 & E2)%bind_inv. rewrite (bind_ok _ _ _ _ _ (H1 x h a h1 E1)). by apply H2.
Qed.
Lemma blind_queue {A} (op : M lheap A) : blind (zoom op).
Proof. intros x h a h'. unfold zoom. simpl. destruct (op (qlinks h)) as [[b q]|]; [|done]. by intros [= -> <-]. Qed.
Lemma blind_loop {A} (op : M uew_context A) : blind (zoom op).
Proof. intros x h a h'. unfold zoom. simpl. destruct (op (loop h)) as [[b q]|]; [|done]. by intros [= -> <-]. Qed.
Lemma blind_skip : blind skip.
Proof. by intros x h a h' [= <- <-]. Qed.
Lemma blind_msg_at m : blind (msg_at m).
Proof. intros x h a h'. unfold msg_at. simpl. destruct (msgs h !! m); [|done]. by intros [= -> <-]. Qed.

Lemma blind_remove_queue m : blind (removeFromQueue (Some m)).
Proof.
  apply blind_bind; [apply blind_queue|]. intros n. apply blind_bind; [apply blind_queue|]. intros p.
  destruct n, p; (apply blind_queue || apply blind_skip).
Qed.

Lemma remove_count m x h h' : remove_from_list (Some m) h = Ok (tt, h') →
  remove_from_list (Some m) (set_msg_count x h) = Ok (tt, set_msg_count (x - 1) h').
Proof.
  unfold remove_from_list. intros (y & h1 & E1 & E)%bind_inv. rewrite (bind_ok _ _ _ _ _ (blind_msg_at _ x _ _ _ E1)).
  apply bind_inv in E as (n & h2 & E2 & E). rewrite (bind_ok _ _ _ _ _ (blind_loop _ x _ _ _ E2)).
  apply bind_inv in E as (p & h3 & E3 & E). rewrite (bind_ok _ _ _ _ _ (blind_loop _ x _ _ _ E3)).
  apply bind_inv in E as ([] & h4 & E4 & E).
  match type of E4 with ?op _ = _ => assert (blind op) as Hb by (destruct n, p; (apply blind_loop || apply blind_skip)) end.
  rewrite (bind_ok _ _ _ _ _ (Hb x _ _ _ E4)).
  apply bind_inv in E as ([] & h5 & E5 & E). rewrite (bind_ok _ _ _ _ _ (blind_remove_queue m x _ _ _ E5)).
  injection E as <-. done.
Qed.

(** The accesses of [obtain] between the test of the count and its store. *)
Definition put_links : PH (loc * Z) :=
  m ← access new_msg; addToQueue_steps m msg_queue;; n ← access (gets msg_count); mret (m, n).
Definition store_count (mn : loc * Z) : PH ptr := access (modify (set_msg_count (mn.2 + 1)));; mret (Some mn.1).

Lemma obtain_turn {B} sched (q : PH B) h : msg_count h + 1 < MAX_MSG_QUEUE_SIZE →
  interleave (true :: sched) obtain_steps q h = interleave sched (put_links ≫= store_count) q h.
Proof.
  intros Hc. cbn [interleave]. rewrite (bind_ok _ _ _ (put_links ≫= store_count) h); [done|].
  unfold obtain_steps, access. cbn [next_access mbind prog_bind]. rewrite bind_gets.
  by rewrite (proj2 (Z.ltb_lt _ _)).
Qed.

(** When the count is stored last by the sender, the decrement of the
    receiver is lost: the count is one too high from then on. *)
Theorem decrement_lost h l r ds os ts ps m :
  queue_ok h (l ++ m :: r) ds os ts ps → m ∉ ts ++ ps → malloc_ok h sizeof_MSG = true →
  msg_count h + 1 < MAX_MSG_QUEUE_SIZE → ∃ sched h',
  interleave sched obtain_steps (remove_from_list_steps m) h = Ok ((Done (Some (brk h)), Done tt), h') ∧
  queue_ok h' (l ++ r ++ [brk h]) ds os ts ps ∧ msg_count h' = msg_count h + 1 ∧
  malloc_ok h' = malloc_ok h ∧ brk h' = Pos.succ (brk h).
Proof.
  intros Hi Hts Hm Hc. set (h1 := counted ds os (l ++ m :: r) h).
  pose proof (alloc_inv _ _ _ _ _ _ Hi) as Hi1. destruct (fresh_not_in _ _ _ _ _ _ (brk h) Hi ltac:(simpl; lia)) as [Hn1 Hn2].
  destruct (addToQueue_new (alloc_msg h1) (l ++ m :: r) ds os ts ps (brk h) Hi1) as (q' & E & Hi2);
    [simpl; rewrite lookup_insert_eq; eauto|simpl; rewrite lookup_insert_eq; eauto|done|simpl; apply lookup_insert_eq|].
  rewrite <-app_assoc in Hi2. destruct (take_message_ok _ l (r ++ [brk h]) ds os ts ps m Hi2 Hts) as (h3 & E3 & Hi3 & _ & Eb & Ea).
  apply (remove_count m (msg_count h)) in E3. set (h2 := lset q' (alloc_msg h)).
  assert (run_alone put_links h = Ok ((brk h, msg_count h), h2)) as E4.
  { unfold put_links. rewrite run_access, (bind_ok _ _ _ _ _ (new_msg_ok h Hm)), run_alone_bind.
    rewrite (bind_ok _ _ _ tt h2); [done|]. rewrite addToQueue_alone.
    apply (blind_queue _ (msg_count h)) in E. destruct h. exact E. }
  assert (run_alone (remove_from_list_steps m) h2 = Ok (tt, set_msg_count (msg_count h - 1) h3)) as E5.
  { rewrite remove_from_list_alone. destruct h. exact E3. }
  destruct (left_turns (B := unit) put_links store_count _ _ _ E4) as [s1 T1].
  destruct (right_turns (A := ptr) _ _ _ _ E5) as [s2 T2].
  exists (true :: s1 ++ s2 ++ [true]), (set_msg_count (msg_count h + 1) h3). split_and!; [| | |exact Ea|exact Eb].
  - rewrite obtain_turn, interleave_app, (bind_ok _ _ _ _ _ (T1 _)) by done.
    rewrite interleave_app, (bind_ok _ _ _ _ _ (T2 _)). done.
  - unfold queue_ok, counted. simpl. rewrite <-(hi_count _ _ _ _ _ _ Hi3). by destruct h3.
  - done.
Qed.

(** A message is put on the queue while one is taken off it. *)
Definition round (h h' : HANDLER) : Prop := ∃ m sched,
  interleave sched obtain_steps (remove_from_list_steps m) h = Ok ((Done (Some (brk h)), Done tt), h').

Lemma lose_places n : ∀ h m ts ps,
  queue_ok h [m] [] [] ts ps → m ∉ ts ++ ps → malloc_ok h sizeof_MSG = true →
  msg_count h + Z.of_nat n < MAX_MSG_QUEUE_SIZE → ∃ h' m',
  nsteps round n h h' ∧ queue_ok h' [m'] [] [] ts ps ∧ msg_count h' = msg_count h + Z.of_nat n.
Proof.
  induction n as [|n IH]; intros h m ts ps Hi Hts Hm Hc.
  { exists h, m. split; [constructor|]. split; [done|lia]. }
  destruct (decrement_lost h [] [] [] [] ts ps m Hi Hts Hm) as (sched & h1 & E & Hi1 & Hc1 & Ha & Hb); [lia|].
  destruct (fresh_not_in _ _ _ _ _ _ (brk h) Hi) as [_ Hf]; [simpl; lia|].
  destruct (IH h1 (brk h) ts ps) as (h' & m' & Hn & Hi' & Hc'); [done| |congruence|lia|].
  { intros Hin. apply Hf. by do 2 right. }
  exists h', m'. split; [|split; [done|lia]]. eapply nsteps_l; [|exact Hn]. by exists m, sched.
Qed.

(** C11: lost decrements take the places of a handler away for ever: after 30 of
    them a queue of one message refuses every other. *)
Theorem places_run_out h m ts ps :
  queue_ok h [m] [] [] ts ps → msg_count h = 1 → m ∉ ts ++ ps → malloc_ok h sizeof_MSG = true → ∃ h' m',
  nsteps round 30 h h' ∧ queue_ok h' [m'] [] [] ts ps ∧
  ∀ what dat size, obtain_message what dat size h' = Ok (None, h').
Proof.
  intros Hi Hc Hts Hm. destruct (lose_places 30 h m ts ps Hi Hts Hm) as (h' & m' & Hn & Hi' & Hc').
  { rewrite Hc. unfold MAX_MSG_QUEUE_SIZE. lia. }
  exists h', m'. split; [done|]. split; [done|]. intros what dat size. unfold obtain_message, obtain.
  rewrite bind_assoc, bind_gets, Hc', Hc. done.
Qed.

(** ** Examples *)

Lemma queue_ok_inv h qs ds os ts ps : handler_inv h qs ds os ts ps → queue_ok h qs ds os ts ps.
Proof. intros H. unfold queue_ok, counted. rewrite <-(hi_count _ _ _ _ _ _ H). by destruct h. Qed.

(** A handler with two messages, of which the first is being processed. *)
Definition demo_two : HANDLER :=
  match (obtain;; obtain) demo_handler with Ok (_, h) => h | Err _ => demo_handler end.

Lemma demo_two_ok : handler_inv demo_two [16%positive; 17%positive] [] [] [] [].
Proof.
  destruct (obtain_ok demo_handler [] [] [] [] [] demo_handler_inv) as (h1 & E1 & H1 & _ & Eb1 & _ & Em1 & _); [done|done|].
  destruct (obtain_ok h1 _ [] [] [] [] H1) as (h2 & E2 & H2 & _); [done|by rewrite Em1|].
  unfold demo_two. rewrite (bind_ok _ _ _ _ _ E1), E2. rewrite Eb1 in H2. exact H2.
Qed.

Lemma demo_two_brk : brk demo_two = 18%positive.
Proof. by vm_compute. Qed.
Lemma demo_two_count : msg_count demo_two = 2.
Proof. by vm_compute. Qed.

Definition turn_by_turn : list bool := concat (replicate 14 [true; false]).

Lemma put_beside_take_witness : ∃ h',
  interleave turn_by_turn obtain_steps (remove_from_list_steps 16) demo_two =
    Ok ((Done (Some 18%positive), Done tt), h') ∧
  queue_ok h' ([] ++ [17%positive] ++ [18%positive]) [] [] [] [] ∧ 1 ≤ msg_count h' ≤ 3.
Proof.
  destruct (put_beside_take demo_two [] [17%positive] [] [] [] [] 16 turn_by_turn) as (h' & E & H & _ & Hc);
    [exact (queue_ok_inv _ _ _ _ _ _ demo_two_ok)|done|apply not_elem_of_nil|by vm_compute|by vm_compute|by vm_compute; lia|by vm_compute; lia|].
  rewrite demo_two_brk in E, H. rewrite demo_two_count in Hc. exists h'. split; [exact E|]. split; [exact H|lia].
Defined.

(** A handler whose only message is being processed. *)
Definition demo_one : HANDLER := match obtain demo_handler with Ok (_, h) => h | Err _ => demo_handler end.

Lemma demo_one_ok : handler_inv demo_one [16%positive] [] [] [] [].
Proof.
  destruct (obtain_ok demo_handler [] [] [] [] [] demo_handler_inv) as (h1 & E1 & H1 & _); [done|done|].
  unfold demo_one. by rewrite E1.
Qed.

Lemma places_run_out_witness : ∃ h' m',
  nsteps round 30 demo_one h' ∧ queue_ok h' [m'] [] [] [] [] ∧ obtain_message 5 None 0 h' = Ok (None, h').
Proof.
  destruct (places_run_out demo_one 16 [] []) as (h' & m' & Hn & Hi & Ho);
    [exact (queue_ok_inv _ _ _ _ _ _ demo_one_ok)|by vm_compute|apply not_elem_of_nil|by vm_compute|].
  exists h', m'. split; [exact Hn|]. split; [exact Hi|apply Ho].
Defined.

(** When the message that is taken off is the last one, the sender can hold
    its address while it is released: the sender's next store is to memory
    that is no longer the message. *)
Lemma last_message_released :
  interleave (replicate 5 true ++ replicate 15 false ++ [true; true]) obtain_steps (remove_message_steps 16) demo_one =
    Err Dangling.
Proof. by vm_compute. Qed.

(** Two senders can leave one message out of the queue: it is still sent, but
    it is not found any more when it is to be cancelled. *)
Lemma two_senders_lose_one :
  match interleave (replicate 5 true ++ replicate 10 false ++ replicate 5 true) obtain_steps obtain_steps demo_handler with
  | Ok (_, h) => msg_count h = 2 ∧ msgs h !! 16%positive ≠ None ∧ msgs h !! 17%positive ≠ None ∧
      next_of (qlinks h) msg_queue = Some 16%positive ∧ next_of (qlinks h) 16 = Some msg_queue
  | Err _ => False
  end.
Proof. by vm_compute. Qed.
