(* ===== verification/World.v ===== *)
(** * The state of the daemon

    The static variables of the files of the daemon, its machine, its event
    loop, the device and what it sends: [fsm] is [*g_upil_s.fsm], [main_loop]
    is [g_upil_s.event_loop].  The events the files declare have fixed
    addresses in [main_loop].  The calls of the
    audio library are recorded with the rest of the output; CallAudio joins
    them with the library. *)

From S2P Require Import Prelude CString Dll EventLoop Handler Messages TpProtocol StateMachine.

(** What the daemon does to the outside, in order. *)
Inductive output : Type :=
  | Sent (fd : Z) (bytes : list Z)       (* send() or write() to a socket *)
  | Closed (fd : Z)
  | AudioStart
  | AudioStop
  | AudioPlay (path : list Z)            (* then begin_record *)
  | AudioRecord (path : list Z) (sec : Z). (* then end_record *)

(** upil_command.c *)
Record command_state := CommandState {
  s_cmd_buf : list Z;
  cmd_event_loop : bool;      (* s_event_loop is not NULL *)
}.

(** upil_monitor.c *)
Record monitor_state := MonitorState {
  s_fdMonitor : Z;
  mon_event_loop : bool;
}.

(** upil_ril.c *)
Record ril_state := RilState {
  s_fd_ril : Z;
  s_call_dir : Z;
  s_wait_response : Z;
  s_at_cmd_buf : list Z;
  ril_event_loop : bool;
}.

Record world := World {
  fsm : FSM;
  dev : device;
  main_loop : uew_context;
  s_ring_count : Z;           (* upil_sm.c *)
  cmd : command_state;
  mon : monitor_state;
  ril : ril_state;
  device_fd : Z;              (* g_upil_s.device_fd *)
  out : list output;
}.

Abbreviation MW := (M world).

#[export] Instance world_fsm : Lens world FSM := {|
  lget := fsm;
  lset f w := World f (dev w) (main_loop w) (s_ring_count w) (cmd w) (mon w) (ril w)
                    (device_fd w) (out w);
|}.
#[export] Instance world_dev : Lens world device := {|
  lget := dev;
  lset d w := World (fsm w) d (main_loop w) (s_ring_count w) (cmd w) (mon w) (ril w)
                    (device_fd w) (out w);
|}.
#[export] Instance world_loop : Lens world uew_context := {|
  lget := main_loop;
  lset l w := World (fsm w) (dev w) l (s_ring_count w) (cmd w) (mon w) (ril w)
                    (device_fd w) (out w);
|}.
#[export] Instance world_cmd : Lens world command_state := {|
  lget := cmd;
  lset c w := World (fsm w) (dev w) (main_loop w) (s_ring_count w) c (mon w) (ril w)
                    (device_fd w) (out w);
|}.
#[export] Instance world_mon : Lens world monitor_state := {|
  lget := mon;
  lset m w := World (fsm w) (dev w) (main_loop w) (s_ring_count w) (cmd w) m (ril w)
                    (device_fd w) (out w);
|}.
#[export] Instance world_ril : Lens world ril_state := {|
  lget := ril;
  lset r w := World (fsm w) (dev w) (main_loop w) (s_ring_count w) (cmd w) (mon w) r
                    (device_fd w) (out w);
|}.

Ltac solve_world_laws :=
  split; intros; repeat match goal with w : world |- _ => destruct w end; done.
#[export] Instance world_fsm_laws : LensLaws world FSM.
Proof. solve_world_laws. Qed.
#[export] Instance world_dev_laws : LensLaws world device.
Proof. solve_world_laws. Qed.
#[export] Instance world_loop_laws : LensLaws world uew_context.
Proof. solve_world_laws. Qed.
#[export] Instance world_cmd_laws : LensLaws world command_state.
Proof. solve_world_laws. Qed.
#[export] Instance world_mon_laws : LensLaws world monitor_state.
Proof. solve_world_laws. Qed.
#[export] Instance world_ril_laws : LensLaws world ril_state.
Proof. solve_world_laws. Qed.

Definition set_ring_count (n : Z) (w : world) : world :=
  World (fsm w) (dev w) (main_loop w) n (cmd w) (mon w) (ril w) (device_fd w) (out w).
Definition set_device_fd (n : Z) (w : world) : world :=
  World (fsm w) (dev w) (main_loop w) (s_ring_count w) (cmd w) (mon w) (ril w) n (out w).
Definition set_wait_response (n : Z) (r : ril_state) : ril_state :=
  RilState (s_fd_ril r) (s_call_dir r) n (s_at_cmd_buf r) (ril_event_loop r).
Definition set_call_dir (n : Z) (r : ril_state) : ril_state :=
  RilState (s_fd_ril r) n (s_wait_response r) (s_at_cmd_buf r) (ril_event_loop r).
Definition set_fd_ril (n : Z) (r : ril_state) : ril_state :=
  RilState n (s_call_dir r) (s_wait_response r) (s_at_cmd_buf r) (ril_event_loop r).
Definition set_at_cmd_buf (b : list Z) (r : ril_state) : ril_state :=
  RilState (s_fd_ril r) (s_call_dir r) (s_wait_response r) b (ril_event_loop r).

Definition emit (o : output) : MW unit := modify (λ w,
  World (fsm w) (dev w) (main_loop w) (s_ring_count w) (cmd w) (mon w) (ril w)
        (device_fd w) (out w ++ [o])).

(** Code of a message handler on the handler of the machine. *)
Definition on_fsm_handler {A} (m : MH A) : MW A := on_handler m.

(** The addresses of the events of the files. *)
Definition s_device_event : loc := 4%positive.
Definition cmd_listen_event : loc := 5%positive.
Definition cmd_commands_event : loc := 6%positive.
Definition mon_listen_event : loc := 7%positive.
Definition mon_monitor_event : loc := 8%positive.
Definition ril_listen_event : loc := 9%positive.
Definition ril_commands_event : loc := 10%positive.
