(* ===== verification/UpilApi.v ===== *)
(** * Requests to the telephone machine

    The functions of src/upil_sm.c that the rest of the daemon calls: they
    read the current state, or send a message to the machine.  A string
    argument is the characters before its NUL. *)

From stdpp Require Import strings.
From S2P Require Import Prelude CString Dll EventLoop Handler Messages TpProtocol StateMachine.
From S2P Require Import World.

(** The identifiers of the states of [my_state_table], in its order. *)
Definition state_ids : list Z :=
  [UPIL_SM_val UPIL_SM_OFFLINE; UPIL_SM_val UPIL_SM_SYNCING; UPIL_SM_val UPIL_SM_IDLE;
   UPIL_SM_val UPIL_SM_DIALING; UPIL_SM_val UPIL_SM_INCOMING;
   UPIL_SM_val UPIL_SM_CONVERSATION; UPIL_SM_val UPIL_SM_MEMO].

Definition upil_sm_get_current_state : MW Z :=
  s ← gets (λ w, cur_state (fsm w));
  match s with
  | Some i => lift (read_at state_ids (Z.of_nat i))
  | None => mret (UPIL_SM_val UPIL_SM_OFFLINE)
  end.

Definition upil_sm_start_dail (number : option (list Z)) : MW Z :=
  on_fsm_handler (sm_send_message UPIL_CTL_HANDFREE_ON number
    (match number with Some s => len s | None => 0 end)).

Definition upil_sm_hangup : MW Z :=
  on_fsm_handler (sm_send_message UPIL_CTL_HANDFREE_OFF None 0).

Definition upil_sm_usb_attach : MW Z :=
  on_fsm_handler (sm_send_message UPIL_EVT_USB_ATTACH None 0).

(** The result and the reply. *)
Definition upil_sm_get_version : MW (Z * list Z) := mret (0, lit "1.2.3").

Definition upil_sm_send_msg (event : Z) (data : option (list Z)) (data_size : Z) : MW Z :=
  on_fsm_handler (sm_send_message event data data_size).
