(* ===== verification/Receive.v ===== *)
(** * Reports of the device: [tpp_recv_event_cb] of src/tp_protocol.c

    What is read from the device is taken apart into lines of eight bytes;
    an event they complete is sent to the telephone machine. *)

From S2P Require Import Prelude CString Dll EventLoop Handler Messages TpProtocol StateMachine.
From S2P Require Import World UpilApi.

Definition UPIL_MAX_MSG_LEN : Z := 512.

(** The turn of the loop for the line at offset [off].  An acknowledgement
    ends a report that is not complete.  Its flag is cleared in the second
    byte of the buffer, whatever line it came in. *)
Definition recv_line (buf : list Z) (off : Z) : MW (list Z) :=
  b0 ← lift (read_at buf off);
  b1 ← lift (read_at buf (off + 1));
  buf ← (if (b0 =? 0x03) && (Z.land b1 0x80 =? 0x80) then
           zoom (modify dev_broadcast);;
           first ← lift (read_at buf 1);
           buf ← lift (write_at buf 1 (Z.land first 0x3F));
           zoom reset_pdu;;
           mret buf
         else mret buf);
  '(ret, event) ← zoom (hidpdu2event buf off);
  (if negb (ret =? 0) then
     match event with
     | Some e => upil_sm_send_msg (req_id e) (Some (req_data e)) (req_data_size e);; skip
     | None => skip
     end;;
     zoom reset_pdu
   else skip);;
  mret buf.

Fixpoint recv_lines (count : nat) (buf : list Z) (off : Z) : MW unit :=
  match count with
  | O => skip
  | S count' => buf ← recv_line buf off; recv_lines count' buf (off + HIDPDU_LINE_BYTES)
  end.

(** [buf] is the array of 512 bytes after the [read], which returned
    [r_bytes]; what is left of a line at its end is dropped. *)
Definition tpp_recv_event_cb (buf : list Z) (r_bytes : Z) : MW Z :=
  if r_bytes <? 0 then mret (-1)
  else recv_lines (Z.to_nat (r_bytes / HIDPDU_LINE_BYTES)) buf 0;; mret 0.
