(* ===== verification/ReceiveProofs.v ===== *)
(** * Reports that arrive from the device

    A report that is read in one go, in as many lines as it takes, becomes
    one message of the telephone machine. *)

From stdpp Require Import strings.
From S2P Require Import Prelude CString Dll EventLoop Handler Messages TpProtocol TpProofs.
From S2P Require Import StateMachine World UpilApi Receive.

(** ** One line *)

Lemma read_at_shift {A} (pre l post : list A) i x :
  read_at l i = Ok x → read_at (pre ++ l ++ post) (len pre + i) = Ok x.
Proof.
  unfold read_at. case_decide as Hi; [|done]. destruct (l !! Z.to_nat i) as [y|] eqn:E; [|done].
  intros [= ->]. pose proof (len_nonneg pre). rewrite decide_True by lia.
  rewrite lookup_app_r by (unfold len; lia).
  replace (Z.to_nat (len pre + i) - length pre)%nat with (Z.to_nat i) by (unfold len; lia).
  by rewrite (lookup_app_l_Some _ _ _ _ E).
Qed.

Lemma slice_shift {A} (pre l post : list A) off n s :
  slice l off n = Ok s → slice (pre ++ l ++ post) (len pre + off) n = Ok s.
Proof.
  unfold slice. case_decide as H; [|done]. intros [= <-].
  pose proof (len_nonneg pre). pose proof (len_nonneg post).
  rewrite decide_True by (rewrite !len_app; lia). f_equal.
  replace (Z.to_nat (len pre + off)) with (length pre + Z.to_nat off)%nat by (unfold len; lia).
  rewrite drop_app_add. rewrite drop_app_le by (unfold len in *; lia).
  rewrite take_app_le; [done|]. rewrite length_drop. unfold len in *. lia.
Qed.

Lemma line_parts c : (length c ≤ 6)%nat →
  read_at (hid_line c) 0 = Ok HID_FLAG ∧ read_at (hid_line c) 1 = Ok (len c) ∧
  slice (hid_line c) 2 (len c) = Ok c.
Proof.
  intros _. split_and!; [done|done|].
  pose proof (slice_middle [HID_FLAG; len c] c (drop (length c) [2; 3; 4; 5; 6; 7])) as E. exact E.
Qed.

(** A line is read alike at any offset. *)
Lemma hidpdu2event_at pre c post d :
  (length c ≤ 6)%nat →
  hidpdu2event (pre ++ hid_line c ++ post) (len pre) d = hidpdu2event (hid_line c) 0 d.
Proof.
  intros Hc. destruct (line_parts c Hc) as (E0 & E1 & E2). unfold hidpdu2event.
  rewrite E0. pose proof (read_at_shift pre _ post _ _ E0) as E0'. rewrite Z.add_0_r in E0'.
  rewrite E0'. erewrite !(bind_ok (lift (Ok HID_FLAG))) by done. rewrite Z.eqb_refl.
  rewrite (read_at_shift pre _ post _ _ E1). change (0 + 1) with 1. rewrite E1.
  erewrite !(bind_ok (lift (Ok (len c)))) by done.
  rewrite (slice_shift pre _ post _ _ _ E2). change (0 + 2) with 2. by rewrite E2.
Qed.

(** A line of a PDU is no acknowledgement. *)
Lemma no_ack (c : list Z) : (length c ≤ 6)%nat → (HID_FLAG =? 0x03) && (Z.land (len c) 0x80 =? 0x80) = false.
Proof.
  intros Hc. assert (length c = 0 ∨ length c = 1 ∨ length c = 2 ∨ length c = 3 ∨ length c = 4 ∨
    length c = 5 ∨ length c = 6)%nat as Hl by lia.
  unfold len. by destruct Hl as [->|[->|[->|[->|[->|[->| ->]]]]]].
Qed.

(** What the turn for a line does with the result. *)
Definition handle_event (r : Z * option TPPReq_t) : MW unit :=
  if negb (r.1 =? 0) then
    match r.2 with
    | Some e => upil_sm_send_msg (req_id e) (Some (req_data e)) (req_data_size e);; skip
    | None => skip
    end;;
    zoom reset_pdu
  else skip.

Lemma recv_line_ok pre c post w r d' :
  (length c ≤ 6)%nat → hidpdu2event (hid_line c) 0 (dev w) = Ok (r, d') →
  recv_line (pre ++ hid_line c ++ post) (len pre) w =
    (handle_event r;; mret (pre ++ hid_line c ++ post)) (lset d' w).
Proof.
  intros Hc E. destruct (line_parts c Hc) as (E0 & E1 & _). unfold recv_line.
  pose proof (read_at_shift pre _ post _ _ E0) as E0'. rewrite Z.add_0_r in E0'. rewrite E0'.
  erewrite bind_ok by done. rewrite (read_at_shift pre _ post _ _ E1). erewrite bind_ok by done.
  rewrite no_ack by done.
  erewrite bind_ok by done. erewrite bind_ok.
  2:{ apply (zoom_ok _ w). rewrite hidpdu2event_at by done. exact E. }
  unfold handle_event. by destruct r as [k [e|]].
Qed.

(** ** All lines *)

Lemma recv_feed ls pre post w e d' :
  Forall (λ l, ∃ c, l = hid_line c ∧ (length c ≤ 6)%nat) ls → ls ≠ [] →
  feed ls (dev w) = Ok (replicate (length ls - 1) (0, None) ++ [(1, Some e)], d') →
  recv_lines (length ls) (pre ++ concat ls ++ post) (len pre) w =
    handle_event (1, Some e) (lset d' w).
Proof.
  revert pre w. induction ls as [|l ls IH]; intros pre w Hls Hne E; [done|].
  apply Forall_cons in Hls as [(c & -> & Hc) Hls].
  cbn [feed] in E. apply bind_inv in E as (r & d1 & E1 & E).
  apply bind_inv in E as (rs & d2 & E2 & E). injection E as Hr ->.
  cbn [length recv_lines concat]. rewrite <-app_assoc.
  pose proof (recv_line_ok pre c (concat ls ++ post) w r d1 Hc E1) as Hrun.
  destruct ls as [|l' ls].
  - injection E2 as <- ->. injection Hr as ->. unfold mbind at 1, M_bind at 1. rewrite Hrun.
    unfold mbind, M_bind. by destruct (handle_event (1, Some e) (lset d' w)) as [[[] w']|].
  - cbn [length] in Hr. simpl in Hr. injection Hr as -> ->.
    assert (handle_event (0, None) (lset d1 w) = Ok (tt, lset d1 w)) as Hq by done.
    erewrite bind_ok.
    2:{ rewrite Hrun. by erewrite bind_ok by exact Hq. }
    assert (len pre + HIDPDU_LINE_BYTES = len (pre ++ hid_line c)) as ->.
    { rewrite len_app. unfold len at 3. rewrite hid_line_length by done. done. }
    rewrite app_assoc. rewrite IH; [|done|done|].
    + by destruct w.
    + simpl dev. rewrite E2. simpl. by rewrite Nat.sub_0_r.
Qed.

Lemma hid_lines_form fuel b : Forall (λ l, ∃ c, l = hid_line c ∧ (length c ≤ 6)%nat) (hid_lines fuel b).
Proof.
  revert b. induction fuel as [|f IH]; intros [|x b]; simpl; try constructor; [|apply IH].
  exists (x :: take 5 b). split; [done|]. simpl. rewrite length_take. lia.
Qed.

Lemma reset_received b d : len b ≤ 80 → reset_pdu (received b d) = Ok (tt, set_pdu zero_pdu 0 d).
Proof.
  intros Hb. unfold reset_pdu. erewrite bind_ok by done. simpl s_pdu_buf. simpl s_pdu_offset.
  pose proof (len_nonneg b).
  pose proof (blit_at [] (replicate (Z.to_nat (len b)) 0) (b ++ drop (length b) zero_pdu) 0 eq_refl) as E.
  change ([] ++ b ++ drop (length b) zero_pdu) with (b ++ drop (length b) zero_pdu) in E.
  rewrite E; clear E.
  2:{ rewrite len_replicate, len_app. pose proof (len_nonneg (drop (length b) zero_pdu)). lia. }
  erewrite bind_ok by done. rewrite length_replicate.
  assert (Z.to_nat (len b) = length b) as -> by (unfold len; lia).
  rewrite drop_app_length. cbn [app].
  assert (replicate (length b) 0 ++ drop (length b) zero_pdu = zero_pdu) as ->; [|done].
  unfold zero_pdu. rewrite drop_replicate, <-replicate_add. f_equal. unfold len in Hb. lia.
Qed.

(** The machine and the device are apart. *)
Lemma handle_event_ok e b d w :
  len b ≤ 80 →
  handle_event (1, Some e) (lset (received b d) w) =
    (upil_sm_send_msg (req_id e) (Some (req_data e)) (req_data_size e);; skip)
      (lset (set_pdu zero_pdu 0 d) w).
Proof.
  intros Hb. unfold handle_event. cbn [fst snd Z.eqb negb].
  unfold upil_sm_send_msg, on_fsm_handler, on_handler, sm_send_message.
  set (op := sm_send_message_delay _ _ _ _). unfold mbind, M_bind.
  assert (∀ d' : device, zoom (A := FSM) (zoom (A := HANDLER) op) (lset d' w) =
    match zoom (A := HANDLER) op (fsm w) with
    | Ok (r, f') => Ok (r, lset f' (lset d' w)) | Err f => Err f
    end) as E by done.
  rewrite !E. destruct (zoom op (fsm w)) as [[r f']|]; [|done].
  cbn [skip mret M_ret]. pose proof (reset_received b d Hb) as Er.
  by rewrite (zoom_ok reset_pdu (lset f' (lset (received b d) w)) tt (set_pdu zero_pdu 0 d)).
Qed.

(** C16: a report that is read at once becomes one message.  When the bytes
    of a PDU of a size of at most 58, which are the ten lines that one read
    takes, arrive in the lines they are cut into and stand for an event, the
    machine is sent that event, and the receiver is ready for the next PDU:
    beside the message nothing has changed. *)
Theorem recv_report_sends_event w size rest post e :
  let b := TP_FLAG :: size :: rest in
  let ls := hid_lines 64 b in
  dev w = set_pdu zero_pdu 0 (dev w) → len rest = size → size ≤ 58 →
  tppdu2event (b ++ drop (length b) zero_pdu) = Ok e →
  tpp_recv_event_cb (concat ls ++ post) (8 * len ls) w =
    (upil_sm_send_msg (req_id e) (Some (req_data e)) (req_data_size e);; mret 0) w.
Proof.
  intros b ls Hdev Hsize Hmax He.
  assert (len b = size + 2) as Hlb by (unfold b; rewrite !len_cons; lia).
  assert (length b < 64)%nat as Hlt by (unfold len in Hlb; lia).
  assert (ls ≠ []) as Hne by done.
  pose proof (feed_ok 64 [] b size rest (dev w) e eq_refl Hsize ltac:(lia) ltac:(done) Hlt He) as Hf.
  assert (received [] (dev w) = dev w) as Er by done. rewrite Er in Hf.
  pose proof (recv_feed ls [] post w e _ (hid_lines_form 64 b) Hne Hf) as Hrun.
  unfold tpp_recv_event_cb. rewrite (proj2 (Z.ltb_ge _ _)) by (pose proof (len_nonneg ls); lia).
  assert (Z.to_nat (8 * len ls / HIDPDU_LINE_BYTES) = length ls) as ->.
  { unfold HIDPDU_LINE_BYTES. rewrite Z.mul_comm, Z.div_mul by done. unfold len. lia. }
  change (len (@nil Z)) with 0 in Hrun. cbn [app] in Hrun.
  unfold mbind at 1, M_bind at 1. rewrite Hrun. rewrite handle_event_ok; [|unfold b in *; lia].
  rewrite <-Hdev. assert (lset (dev w) w = w) as -> by (by destruct w).
  unfold mbind, M_bind. by destruct (upil_sm_send_msg _ _ _ w) as [[ret w']|].
Qed.
