(* ===== verification/HidTools.v ===== *)
(** * The tools for the device: src/upil_tools/hidtool.c, hiddump.c

    hidtool sends one line of bytes to the device; hiddump prints what the
    device sends, the lines and the PDUs that are put together from them. *)

From stdpp Require Import strings.
From S2P Require Import Prelude CString EventLoop Debug Options Messages TpProtocol World Receive.

(** ** hidtool *)

(** [strtoul(s, &end, base)]: the value and [end]. *)
Definition strtoul_end (s : list Z) (base : Z) : Z * list Z :=
  let '(neg, s') := scan_sign (skip_spaces s) in
  let s' := skip_0x base s' in
  let '(v, n) := scan_digits base s' 0 0 in
  (if ULONG_MAX <? v then ULONG_MAX else wrapU 32 (if neg then - v else v),
   if (n =? 0)%nat then s else drop n s').

(** The loop, with the bytes that are stored so far: the counter at its end,
    and the bytes. *)
Fixpoint str2hex_loop (room : nat) (str data : list Z) (i : Z) : Z * list Z :=
  match room with
  | O => (i, data)
  | S room =>
      let '(n, ptr) := strtoul_end str 16 in
      if 0xFF <? n then (i, data)
      else if (length ptr =? length str)%nat then (i, data)
      else match ptr with
      | [] => (i, data ++ [n])
      | _ :: str => str2hex_loop room str (data ++ [n]) (i + 1)
      end
  end.
Definition str2hex (str : list Z) (data_size : nat) : Z * list Z := str2hex_loop data_size str [] 0.

(** The result, and the line that is written.  [fd]: what [open] returns.  The
    bytes that no digit has set are not initialised. *)
Definition hidtool_main (argv : list (list Z)) (fd : Z) : res (Z * list (list Z)) :=
  if fd <? 0 then Ok (-1, []) else
  cmd ← deref (argv !! 0%nat);
  let '(_, data) := str2hex cmd 8 in
  if len data <? 8 then Err Uninit else
  hex_line (lit "send:") (Some data) ≫= λ _, Ok (0, [data]).

(** ** hiddump *)

Record hiddump := Hiddump {
  hd_pdu : device;             (* s_pdu_buf and s_pdu_offset *)
  hd_out : list (list Z);      (* what is printed *)
  hd_watched : bool;           (* the event of the device is in the loop *)
  hd_closed : list Z;
}.

#[export] Instance hiddump_device : Lens hiddump device := {|
  lget := hd_pdu; lset d h := Hiddump d (hd_out h) (hd_watched h) (hd_closed h) |}.

Definition print (s : list Z) : M hiddump unit :=
  modify (λ h, Hiddump (hd_pdu h) (hd_out h ++ [s]) (hd_watched h) (hd_closed h)).
Definition hexdump (title : list Z) (data : list Z) : M hiddump unit :=
  line ← lift (hex_line title (Some data)); print line.

(** [hidpdu2event] when it is not asked for the event. *)
Definition hidpdu2pdu (data : list Z) (off : Z) : MD Z :=
  flag ← lift (read_at data off);
  if flag =? HID_FLAG then
    tp_size ← lift (read_at data (off + 1));
    bytes ← lift (slice data (off + 2) tp_size);
    d ← get;
    buf ← lift (blit (s_pdu_buf d) (s_pdu_offset d) bytes);
    let index := s_pdu_offset d + tp_size in
    modify (set_pdu buf index);;
    if 0 <? tp_size then
      result ← lift (check_tppdu buf index);
      mret (if 0 <? result then 1 else if result <? 0 then -1 else 0)
    else mret 0
  else mret (-1).

(** A line of the buffer; an acknowledgement clears its flag in the first
    line. *)
Definition dump_line (buf : list Z) (off : Z) : M hiddump (list Z) :=
  line ← lift (slice buf off HIDPDU_LINE_BYTES);
  hexdump (lit "<<") line;;
  b0 ← lift (read_at buf off);
  b1 ← lift (read_at buf (off + 1));
  buf ← (if (b0 =? 0x03) && (Z.land b1 0x80 =? 0x80) then
           print (lit "[ACK]" ++ [10]);;
           first ← lift (read_at buf 1);
           lift (write_at buf 1 (Z.land first 0x3F))
         else mret buf);
  ret ← zoom (hidpdu2pdu buf off);
  (if negb (ret =? 0) then
     when (0 <? ret)
       (h ← get;
        pdu ← lift (slice (s_pdu_buf (hd_pdu h)) 0 (s_pdu_offset (hd_pdu h)));
        hexdump (lit "++") pdu);;
     zoom reset_pdu
   else skip);;
  mret buf.

Fixpoint dump_lines (count : nat) (buf : list Z) (off : Z) : M hiddump (list Z) :=
  match count with
  | O => mret buf
  | S count => buf ← dump_line buf off; dump_lines count buf (off + HIDPDU_LINE_BYTES)
  end.

(** [buf] is the array of 512 bytes after the [read] of [fd], which returned
    [r_bytes]. *)
Definition recv_event_cb (fd : Z) (buf : list Z) (r_bytes : Z) : M hiddump Z :=
  if r_bytes <? 0 then
    modify (λ h, Hiddump (hd_pdu h) (hd_out h) false (hd_closed h ++ [fd]));; mret (-1)
  else
    let count := r_bytes / HIDPDU_LINE_BYTES in
    buf ← dump_lines (Z.to_nat count) buf 0;
    let rest := r_bytes mod HIDPDU_LINE_BYTES in
    when (0 <? rest)
      (line ← lift (slice buf (count * HIDPDU_LINE_BYTES) rest);
       hexdump (lit "<<") line);;
    mret 0.

(** The loop over the results of [getopt] up to its -1.  No option of the
    string has an argument, so that [optarg] is NULL where it is copied. *)
Fixpoint dump_options (opts : list opt_result) : res unit :=
  match opts with
  | [] => Ok tt
  | (c, optarg) :: opts =>
      if (c =? 100) || (c =? 102) then deref optarg;; dump_options opts
      else dump_options opts
  end.

(** The result of [main], which is the value of [c] when it is -1: without
    arguments [c] has none, with arguments it has the end of the options. *)
Definition hiddump_main (permute : bool) (argv : list (list Z)) : res Z :=
  match argv with
  | [] => Err Uninit
  | _ => dump_options (getopt permute (lit "df") argv);; Ok (-1)
  end.
