(* ===== verification/HidToolsProofs.v ===== *)
(** * Properties of the tools for the device *)

From stdpp Require Import strings.
From S2P Require Import Prelude CString EventLoop Debug Options Messages TpProtocol TpProofs.
From S2P Require Import Handler StateMachine World UpilApi Receive ReceiveProofs HidTools.

(** ** Bytes in hexadecimal *)

Lemma hex_digit_of d : 0 ≤ d < 16 → digit_of (hex_digit d) = Some d.
Proof.
  intros Hd. assert (d = 0 ∨ d = 1 ∨ d = 2 ∨ d = 3 ∨ d = 4 ∨ d = 5 ∨ d = 6 ∨ d = 7 ∨ d = 8 ∨ d = 9 ∨ d = 10 ∨
    d = 11 ∨ d = 12 ∨ d = 13 ∨ d = 14 ∨ d = 15) as H by lia.
  by repeat destruct H as [->|H]; [..|subst].
Qed.

Lemma hex_digit_range d : 0 ≤ d < 16 → 48 ≤ hex_digit d ≤ 70.
Proof. unfold hex_digit. intros. destruct (Z.ltb_spec d 10); lia. Qed.

(** The number of two digits, up to a space or the end. *)
Lemma strtoul_byte b rest :
  0 ≤ b < 256 → (rest = [] ∨ ∃ r, rest = 32 :: r) →
  strtoul_end (hex_digit (b / 16) :: hex_digit (b mod 16) :: rest) 16 = (b, rest).
Proof.
  intros Hb Hrest.
  assert (0 ≤ b / 16 < 16) as Hq by (split; [apply Z.div_pos; lia|apply Z.div_lt_upper_bound; lia]).
  pose proof (Z.mod_pos_bound b 16 ltac:(lia)) as Hr.
  pose proof (hex_digit_range _ Hq) as Rq. pose proof (hex_digit_range _ Hr) as Rr.
  set (h := hex_digit (b / 16)) in *. set (k := hex_digit (b mod 16)) in *.
  assert (skip_spaces (h :: k :: rest) = h :: k :: rest) as Es.
  { simpl. unfold isspace. destruct (Z.leb_spec 9 h), (Z.leb_spec h 13), (Z.eqb_spec h 32); try lia; done. }
  assert (scan_sign (h :: k :: rest) = (false, h :: k :: rest)) as Eg.
  { unfold scan_sign. repeat (case_match; try done); subst; lia. }
  assert (skip_0x 16 (h :: k :: rest) = h :: k :: rest) as E0.
  { unfold skip_0x. destruct (decide (h = 48)) as [->|]; [|repeat (case_match; try done)].
    destruct rest as [|c rest]; [done|]. rewrite (proj2 (Z.eqb_neq k 120)), (proj2 (Z.eqb_neq k 88)) by lia.
    by rewrite andb_false_r. }
  unfold strtoul_end. rewrite Es, Eg, E0.
  cbn [scan_digits]. unfold h, k. rewrite !hex_digit_of by done. rewrite !(proj2 (Z.ltb_lt _ 16)) by lia.
  assert (∀ v n, scan_digits 16 rest v n = (v, n)) as Ed by (intros v n; by destruct Hrest as [->|[r ->]]).
  rewrite Ed. cbn [Nat.eqb drop].
  replace ((0 * 16 + b / 16) * 16 + b mod 16) with b by (pose proof (Z.div_mod b 16); lia).
  unfold ULONG_MAX, wrapU. rewrite (proj2 (Z.ltb_ge _ _)) by lia. rewrite Z.mod_small by lia. done.
Qed.

(** Bytes with a space between them. *)
Fixpoint spaced (bs : list Z) : list Z :=
  match bs with
  | [] => []
  | [b] => [hex_digit (b / 16); hex_digit (b mod 16)]
  | b :: bs => hex_byte b ++ spaced bs
  end.

Lemma str2hex_step room b rest done i :
  0 ≤ b < 256 → (rest = [] ∨ ∃ r, rest = 32 :: r) →
  str2hex_loop (S room) (hex_digit (b / 16) :: hex_digit (b mod 16) :: rest) done i =
    match rest with [] => (i, done ++ [b]) | _ :: str => str2hex_loop room str (done ++ [b]) (i + 1) end.
Proof.
  intros Hb Hr. cbn [str2hex_loop]. rewrite strtoul_byte by done. rewrite (proj2 (Z.ltb_ge _ _)) by lia.
  rewrite (proj2 (Nat.eqb_neq _ _)); [done|]. simpl. lia.
Qed.

Lemma str2hex_spaced bs : ∀ b room done i,
  (S (length bs) ≤ room)%nat → Forall (λ b, 0 ≤ b < 256) (b :: bs) →
  str2hex_loop room (spaced (b :: bs)) done i = (i + len bs, done ++ b :: bs).
Proof.
  induction bs as [|c bs IH]; intros b room done i Hl [Hb Hbs]%Forall_cons; (destruct room as [|room]; [lia|]).
  - cbn [spaced]. rewrite str2hex_step by auto. change (len []) with 0. by rewrite Z.add_0_r.
  - assert (spaced (b :: c :: bs) = hex_digit (b / 16) :: hex_digit (b mod 16) :: 32 :: spaced (c :: bs)) as -> by done.
    rewrite str2hex_step by eauto. rewrite IH by (simpl in *; (lia || done)).
    rewrite len_cons, <-app_assoc. f_equal. lia.
Qed.

Lemma str2hex_text bs : ∀ room done i,
  (length bs ≤ room)%nat → Forall (λ b, 0 ≤ b < 256) bs →
  str2hex_loop room (concat (hex_byte <$> bs)) done i = (i + len bs, done ++ bs).
Proof.
  induction bs as [|b bs IH]; intros room done i Hl Hbs.
  { rewrite app_nil_r. change (len []) with 0. rewrite Z.add_0_r. by destruct room. }
  apply Forall_cons in Hbs as [Hb Hbs]. destruct room as [|room]; [simpl in Hl; lia|].
  rewrite fmap_cons, concat_cons. cbn [hex_byte app]. rewrite str2hex_step by eauto.
  rewrite IH by (simpl in *; (lia || done)). rewrite len_cons, <-app_assoc. f_equal. lia.
Qed.

(** The bytes of a command are read back from their text, at most eight of
    them; without a space at its end the count that is returned is one too
    small. *)
Theorem str2hex_reads b bs room :
  (S (length bs) ≤ room)%nat → Forall (λ b, 0 ≤ b < 256) (b :: bs) →
  str2hex (spaced (b :: bs)) room = (len bs, b :: bs) ∧
  str2hex (concat (hex_byte <$> b :: bs)) room = (1 + len bs, b :: bs).
Proof.
  intros Hl Hb. unfold str2hex. rewrite str2hex_spaced, str2hex_text by done.
  rewrite len_cons. split; f_equal; lia.
Qed.

(** hidtool sends the eight bytes of its argument as one line, and with
    fewer it sends bytes that were never set. *)
Theorem hidtool_sends b bs fd :
  0 ≤ fd → (length bs ≤ 7)%nat → Forall (λ b, 0 ≤ b < 256) (b :: bs) →
  hidtool_main [spaced (b :: bs)] fd =
    if decide (length bs = 7%nat) then Ok (0, [b :: bs]) else Err Uninit.
Proof.
  intros Hfd Hl Hb. unfold hidtool_main. rewrite (proj2 (Z.ltb_ge _ _)) by done.
  cbn [deref mbind res_bind]. change (deref ([spaced (b :: bs)] !! 0%nat)) with (Ok (spaced (b :: bs))).
  cbn [mbind res_bind]. rewrite (proj1 (str2hex_reads b bs 8 ltac:(lia) Hb)). rewrite len_cons.
  unfold len. case_decide.
  - rewrite (proj2 (Z.ltb_ge _ _)) by lia.
    destruct (hexdump_bounds (lit "send:") (b :: bs)) as [[E _]|[_ H']]; [done|by rewrite E|].
    rewrite len_cons in H'. change (len (lit "send:")) with 5 in H'. unfold len in H'. lia.
  - by rewrite (proj2 (Z.ltb_lt _ _)) by lia.
Qed.

(** ** hiddump *)

(** [hidpdu2pdu] is [hidpdu2event] without the event. *)
Theorem hidpdu2pdu_is data off d :
  hidpdu2event data off d =
    match hidpdu2pdu data off d with
    | Ok (1, d') => match tppdu2event (s_pdu_buf d') with Ok e => Ok ((1, Some e), d') | Err f => Err f end
    | Ok (r, d') => Ok ((r, None), d')
    | Err f => Err f
    end.
Proof.
  unfold hidpdu2event, hidpdu2pdu, mbind, M_bind, lift, get, modify, mret, M_ret.
  destruct (read_at data off) as [flag|]; [|done]. destruct (flag =? HID_FLAG); [|done].
  destruct (read_at data (off + 1)) as [n|]; [|done]. destruct (slice data (off + 2) n) as [bytes|]; [|done].
  destruct (blit _ _ bytes) as [buf|]; [|done]. destruct (0 <? n); [|done].
  destruct (check_tppdu buf _) as [k|]; [|done]. destruct (0 <? k); [|by destruct (k <? 0)].
  cbn [s_pdu_buf set_pdu]. by destruct (tppdu2event buf).
Qed.

Lemma hidpdu2pdu_ok data off d k o d' :
  hidpdu2event data off d = Ok ((k, o), d') → hidpdu2pdu data off d = Ok (k, d').
Proof.
  rewrite hidpdu2pdu_is. destruct (hidpdu2pdu data off d) as [[r d1]|]; [|done].
  destruct (decide (r = 1)) as [->|Hr].
  - destruct (tppdu2event _); [|done]. by intros [= <- _ <-].
  - assert (∀ X Y : res (Z * option TPPReq_t * device), match r with 1 => X | _ => Y end = Y) as -> by (intros; by repeat (case_match; try done)).
    by intros [= <- _ <-].
Qed.

Lemma hex_line_short title l :
  l ≠ [] → len title + 3 * len l + 3 ≤ 1024 → hex_line title (Some l) = Ok (hex_text title l).
Proof. intros Hl H. destruct (hexdump_bounds title l Hl) as [[E _]|[_ ?]]; [done|lia]. Qed.

(** What the turn for a line does with the result. *)
Definition dump_event (ret : Z) : M hiddump unit :=
  if negb (ret =? 0) then
     when (0 <? ret)
       (h ← get;
        pdu ← lift (slice (s_pdu_buf (hd_pdu h)) 0 (s_pdu_offset (hd_pdu h)));
        hexdump (lit "++") pdu);;
     zoom reset_pdu
   else skip.

Definition printed (l : list Z) (h : hiddump) : hiddump := Hiddump (hd_pdu h) (hd_out h ++ [l]) (hd_watched h) (hd_closed h).

Lemma dump_line_ok pre c post h k o d' :
  (length c ≤ 6)%nat → hidpdu2event (hid_line c) 0 (hd_pdu h) = Ok ((k, o), d') →
  dump_line (pre ++ hid_line c ++ post) (len pre) h =
    (dump_event k;; mret (pre ++ hid_line c ++ post)) (lset d' (printed (hex_text (lit "<<") (hid_line c)) h)).
Proof.
  intros Hc E. destruct (line_parts c Hc) as (E0 & E1 & _).
  pose proof (read_at_shift pre _ post _ _ E0) as E0'. rewrite Z.add_0_r in E0'.
  assert (slice (pre ++ hid_line c ++ post) (len pre) HIDPDU_LINE_BYTES = Ok (hid_line c)) as Es.
  { pose proof (slice_middle pre (hid_line c) post) as H. unfold len in H at 2. by rewrite hid_line_length in H. }
  assert (hexdump (lit "<<") (hid_line c) h = Ok (tt, printed (hex_text (lit "<<") (hid_line c)) h)) as Ex.
  { unfold hexdump. rewrite hex_line_short; [done|done|]. unfold len. rewrite hid_line_length by done. simpl. lia. }
  unfold dump_line. rewrite Es, E0', (read_at_shift pre _ post _ _ E1).
  rewrite bind_lift with (a := hid_line c) by done. rewrite (bind_ok _ _ _ _ _ Ex).
  do 2 (erewrite bind_lift by done). rewrite no_ack by done. erewrite bind_ok by done.
  rewrite (bind_ok _ _ _ k (lset d' (printed (hex_text (lit "<<") (hid_line c)) h))); [done|].
  apply (zoom_ok (A := device)). apply (hidpdu2pdu_ok _ _ _ _ o). rewrite hidpdu2event_at by done. exact E.
Qed.

Lemma dump_feed ls pre post h e d' :
  Forall (λ l, ∃ c, l = hid_line c ∧ (length c ≤ 6)%nat) ls → ls ≠ [] →
  feed ls (hd_pdu h) = Ok (replicate (length ls - 1) (0, None) ++ [(1, Some e)], d') →
  dump_lines (length ls) (pre ++ concat ls ++ post) (len pre) h =
    (dump_event 1;; mret (pre ++ concat ls ++ post))
      (Hiddump d' (hd_out h ++ (hex_text (lit "<<") <$> ls)) (hd_watched h) (hd_closed h)).
Proof.
  revert pre h. induction ls as [|l ls IH]; intros pre h Hls Hne E; [done|].
  apply Forall_cons in Hls as [(c & -> & Hc) Hls].
  cbn [feed] in E. apply bind_inv in E as ([k o] & d1 & E1 & E).
  apply bind_inv in E as (rs & d2 & E2 & E). injection E as Hr ->.
  cbn [length dump_lines concat]. rewrite <-app_assoc.
  pose proof (dump_line_ok pre c (concat ls ++ post) h k o d1 Hc E1) as Hrun.
  destruct ls as [|l' ls].
  - injection E2 as <- ->. injection Hr as -> ->. unfold mbind at 1, M_bind at 1. rewrite Hrun.
    unfold mbind, M_bind. by destruct (dump_event 1 _) as [[[] w']|].
  - cbn [length] in Hr. simpl in Hr. injection Hr as -> -> ->.
    erewrite bind_ok; [|rewrite Hrun; by erewrite bind_ok by done].
    assert (len pre + HIDPDU_LINE_BYTES = len (pre ++ hid_line c)) as ->.
    { rewrite len_app. unfold len at 3. by rewrite hid_line_length. }
    rewrite app_assoc, IH; [|done|done|simpl hd_pdu; rewrite E2; simpl; by rewrite Nat.sub_0_r].
    cbn. by rewrite <-!app_assoc.
Qed.

(** Hiddump prints the lines of a report as they are, then the PDU that they
    carry, and it is ready for the next PDU. *)
Theorem hiddump_prints h fd size rest post e :
  let b := TP_FLAG :: size :: rest in
  let ls := hid_lines 64 b in
  hd_pdu h = set_pdu zero_pdu 0 (hd_pdu h) → len rest = size → size ≤ 58 →
  tppdu2event (b ++ drop (length b) zero_pdu) = Ok e →
  recv_event_cb fd (concat ls ++ post) (8 * len ls) h =
    Ok (0, Hiddump (hd_pdu h) (hd_out h ++ (hex_text (lit "<<") <$> ls) ++ [hex_text (lit "++") b])
             (hd_watched h) (hd_closed h)).
Proof.
  intros b ls Hdev Hsize Hmax He.
  assert (len b = size + 2) as Hlb by (unfold b; rewrite !len_cons; lia).
  assert (length b < 64)%nat as Hlt by (unfold len in Hlb; lia).
  pose proof (feed_ok 64 [] b size rest (hd_pdu h) e eq_refl Hsize ltac:(lia) ltac:(done) Hlt He) as Hf.
  assert (received [] (hd_pdu h) = hd_pdu h) as Er by done. rewrite Er in Hf.
  pose proof (dump_feed ls [] post h e _ (hid_lines_form 64 b) ltac:(done) Hf) as Hrun.
  unfold recv_event_cb. rewrite (proj2 (Z.ltb_ge _ _)) by (pose proof (len_nonneg ls); lia).
  unfold HIDPDU_LINE_BYTES. rewrite (Z.mul_comm 8), Z.div_mul, Z_mod_mult by done.
  assert (Z.to_nat (len ls) = length ls) as -> by (unfold len; lia).
  change (len (@nil Z)) with 0 in Hrun. cbn [app] in Hrun.
  set (h1 := Hiddump (received b (hd_pdu h)) _ _ _) in Hrun.
  assert (dump_event 1 h1 = Ok (tt, lset (hd_pdu h) (printed (hex_text (lit "++") b) h1))) as Ed.
  { unfold dump_event. cbn [Z.eqb negb Z.ltb Z.compare when]. cbn [s_pdu_buf].
    erewrite bind_ok.
    2:{ rewrite bind_get. simpl hd_pdu. simpl s_pdu_buf. simpl s_pdu_offset.
        pose proof (slice_middle [] b (drop (length b) zero_pdu)) as Hs. rewrite app_nil_l in Hs.
        erewrite bind_lift by exact Hs. unfold hexdump. rewrite hex_line_short; [done|done|change (len (lit "++")) with 2; lia]. }
    rewrite (zoom_ok (A := device) reset_pdu _ tt (hd_pdu h)); [done|].
    simpl lget. rewrite Hdev at 2. apply (reset_received b (hd_pdu h)). lia. }
  erewrite bind_ok. 2:{ rewrite Hrun. by erewrite bind_ok by exact Ed. }
  cbn. unfold mret, M_ret. by rewrite <-!app_assoc.
Qed.

(** hiddump does not run: its [main] copies a null pointer for an option, and
    returns -1 at the end of the options. *)
Theorem hiddump_stops permute name argv :
  hiddump_main permute (name :: argv) = Ok (-1) ∨ hiddump_main permute (name :: argv) = Err NullDeref.
Proof.
  unfold hiddump_main. induction (getopt permute (lit "df") (name :: argv)) as [|[c [o|]] l IH]; [by left| |];
    cbn [dump_options]; destruct (_ || _); cbn [deref mbind res_bind]; auto.
Qed.

(** ** Examples *)

Lemma str2hex_reads_witness :
  str2hex (lit "03 FF") 8 = (1, [3; 255]) ∧ str2hex (lit "03 FF ") 8 = (2, [3; 255]).
Proof. apply (str2hex_reads 3 [255] 8); [simpl; lia|repeat constructor; lia]. Defined.

Lemma hidtool_sends_witness : hidtool_main [lit "03 FF"] 4 = Err Uninit.
Proof. apply (hidtool_sends 3 [255] 4); [lia|simpl; lia|repeat constructor; lia]. Defined.

Definition closed_dump (out : list (list Z)) : hiddump :=
  Hiddump (Device zero_pdu 0 0 [] (λ _, 8) (λ _, true) (mkTm 0 0 0 0 0 0)) out true [].

Lemma hiddump_prints_witness :
  recv_event_cb 4 [HID_FLAG; 3; TP_FLAG; 1; TPEvent_val TPP_EVT_RING; 5; 6; 7] 8 (closed_dump []) =
    Ok (0, closed_dump [hex_text (lit "<<") [HID_FLAG; 3; TP_FLAG; 1; TPEvent_val TPP_EVT_RING; 5; 6; 7];
                        hex_text (lit "++") [TP_FLAG; 1; TPEvent_val TPP_EVT_RING]]).
Proof.
  apply (hiddump_prints (closed_dump []) 4 1 [TPEvent_val TPP_EVT_RING] []
           (match tppdu2event ([TP_FLAG; 1; TPEvent_val TPP_EVT_RING] ++ drop 3 zero_pdu) with Ok e => e | Err _ => TPPReq 0 0 [] end));
    [done|done|lia|reflexivity].
Defined.
