(* ===== verification/Ril.v ===== *)
(** * The AT socket: src/upil_ril.c

    Commands of the radio layer, their replies, and the reports it gets on
    changes of the state. *)

From stdpp Require Import strings.
From S2P Require Import Prelude CString Dll EventLoop Handler Messages TpProtocol StateMachine.
From S2P Require Import World UpilApi.

Definition MAX_AT_COMMAND : Z := 8192.

Definition UPIL_AT_DIAL : list Z := lit "ATD".
Definition UPIL_AT_ANSWER : list Z := lit "ATA".
Definition UPIL_AT_HANGUP : list Z := lit "AT+CHLD=".
Definition UPIL_AT_CURRENT_CALLS : list Z := lit "AT+CLCC".
Definition UPIL_AT_CHECK : list Z := lit "ATE0".

(** "OK\n" or "ERROR\n", sent with the terminating NUL. *)
Definition OK_line : list Z := lit "OK" ++ [10; 0].
Definition ERROR_line : list Z := lit "ERROR" ++ [10; 0].

Definition process_reply (fd result : Z) (reply : option (list Z)) : MW unit :=
  match reply with Some r => emit (Sent fd r) | None => skip end;;
  when (result <? 1)
    (emit (Sent fd (if negb (result =? 0) then ERROR_line else OK_line))).

(** "+CLCC: 1,%d,%d,0,0,\"%s\",129\n" *)
Definition clcc_reply (dir state : Z) (number : list Z) : list Z :=
  lit "+CLCC: 1," ++ dec dir ++ [44] ++ dec state ++ lit ",0,0," ++ [34] ++ number ++
  [34] ++ lit ",129" ++ [10].

(** The number of the state in a CLCC line, and the direction it sets. *)
Definition clcc_state (cur_state : Z) : option Z * Z :=
  if cur_state =? UPIL_SM_DIALING then (Some 0, 2)
  else if cur_state =? UPIL_SM_INCOMING then (Some 1, 4)
  else (None, 0).

(** A command in progress is answered later: it has the result 1. *)
Definition await (result : Z) : MW Z :=
  if result =? 0 then zoom (modify (set_wait_response 1));; mret 1 else mret result.

Definition processCommandBuffer (fd : Z) (buffer : list Z) : MW unit :=
  if strcmp_eq buffer [13] then skip else
  result ← (if strStartsWith buffer UPIL_AT_CHECK then
              s ← upil_sm_get_current_state;
              mret (if s <? UPIL_SM_IDLE then -1 else 0)
            else mret 0);
  '(result, reply) ← (
    if strStartsWith buffer UPIL_AT_DIAL then
      (* the last character, a newline, is cut off; of an empty number the
         store hits the D of the command, which is not read again *)
      let dial_num := removelast (drop (length UPIL_AT_DIAL) buffer) in
      r ← upil_sm_start_dail (match dial_num with [] => None | _ => Some dial_num end);
      r ← await r;
      mret (r, None)
    else if strStartsWith buffer UPIL_AT_HANGUP then
      r ← upil_sm_hangup;
      r ← await r;
      mret (r, None)
    else if strStartsWith buffer UPIL_AT_ANSWER then
      r ← upil_sm_start_dail None;
      mret (r, None)
    else if strStartsWith buffer UPIL_AT_CURRENT_CALLS then
      cur_state ← upil_sm_get_current_state;
      if UPIL_SM_IDLE <? cur_state then
        let '(dir, state) := clcc_state cur_state in
        match dir with Some d => zoom (modify (set_call_dir d)) | None => skip end;;
        d ← gets (λ w, s_call_dir (ril w));
        f ← gets fsm;
        mret (result, Some (clcc_reply d state
          (if negb (d =? 0) then last_incoming_num f else last_outgoing_num f)))
      else mret (result, None)
    else mret (result, None));
  process_reply fd result reply.

(** [None]: [recv] fails or the peer has closed the socket. *)
Definition processCommandsCallback (fd : Z) (received : option (list Z)) : MW Z :=
  zoom (modify (set_at_cmd_buf (replicate 8192 0)));;
  match received with
  | Some bytes =>
      b ← lift (blit (replicate 8192 0) 0 bytes);
      zoom (modify (set_at_cmd_buf b));;
      s ← lift (cstr b);
      processCommandBuffer fd s
  | None =>
      emit (Closed fd);;
      set ← gets (λ w, ril_event_loop (ril w));
      if (set : bool) then
        zoom (uew_event_del ril_commands_event false);;
        zoom (uew_event_add_wakeup ril_listen_event)
      else fail NullDeref
  end;;
  mret 0.

(** [fd_cmd]: what [accept] returns. *)
Definition listenCallback (fd_cmd : Z) : MW Z :=
  if fd_cmd <? 0 then
    zoom (uew_event_add_wakeup ril_listen_event);;
    mret (-1)
  else
    zoom (uew_event_set ril_commands_event fd_cmd 1 ril_processCommandsCallback ril_commands_event);;
    set ← gets (λ w, ril_event_loop (ril w));
    (if (set : bool) then zoom (uew_event_add_wakeup ril_commands_event) else fail NullDeref);;
    zoom (modify (set_fd_ril fd_cmd));;
    mret 0.

Definition RING_line : list Z := lit "RING" ++ [10; 0].
Definition NO_CARRIER_line : list Z := lit "NO CARRIER" ++ [10; 0].

Definition upil_ril_unsolicited (msg : Z) : MW unit :=
  r ← gets ril;
  if msg =? UPIL_STATE_INCOMING then emit (Sent (s_fd_ril r) RING_line)
  else if msg =? UPIL_STATE_IDLE then
    if s_wait_response r =? 0 then emit (Sent (s_fd_ril r) NO_CARRIER_line)
    else process_reply (s_fd_ril r) 0 None;; zoom (modify (set_wait_response 0))
  else if msg =? UPIL_STATE_DIALING then
    when (negb (s_wait_response r =? 0))
      (process_reply (s_fd_ril r) 0 None;; zoom (modify (set_wait_response 0)))
  else skip.

(** [fd]: what [socket_local_server] returns. *)
Definition upil_ril_setup (event_loop : bool) (fd : Z) : MW Z :=
  if negb event_loop then mret (-1) else
  if fd <? 0 then mret (-1) else
  zoom (modify (λ r, RilState (s_fd_ril r) (s_call_dir r) (s_wait_response r)
                              (s_at_cmd_buf r) true));;
  zoom (uew_event_set ril_listen_event fd 0 ril_listenCallback ril_listen_event);;
  zoom (uew_event_add_wakeup ril_listen_event);;
  mret 0.
