(* ===== verification/Monitor.v ===== *)
(** * The monitor socket: src/upil_monitor.c

    Reports of states and calls to the client, each followed by the report
    to the radio layer. *)

From stdpp Require Import strings.
From S2P Require Import Prelude CString Dll EventLoop Handler Messages TpProtocol StateMachine.
From S2P Require Import World UpilApi Ril.

(** [deref] of a [char*], and the string there. *)
Definition string_at (data : option (list Z)) : res (list Z) := b ← deref data; cstr b.

(** The line for a message: [None] for a message without one. *)
Definition monitor_line (msg : Z) (data : option (list Z)) : res (option (list Z)) :=
  if msg =? UPIL_STATE_OFFLINE then Ok (Some (lit "STATE OFFLINE"))
  else if msg =? UPIL_STATE_SYNCING then Ok (Some (lit "STATE SYNCING"))
  else if msg =? UPIL_STATE_IDLE then Ok (Some (lit "STATE IDLE"))
  else if msg =? UPIL_STATE_DIALING then Ok (Some (lit "STATE DIALING"))
  else if msg =? UPIL_STATE_INCOMING then Ok (Some (lit "STATE INCOMING"))
  else if msg =? UPIL_STATE_CONVERSATION then Ok (Some (lit "STATE CONVERSATION"))
  else if msg =? UPIL_STATE_MEMO then Ok (Some (lit "STATE MEMO"))
  else if msg =? UPIL_EVT_RING then Ok (Some (lit "RING"))
  else if msg =? UPIL_EVT_CALL_ID then
    s ← string_at data; l ← store_string 512 (lit "CID " ++ s); Ok (Some l)
  else if msg =? UPIL_EVT_USB_ATTACH then Ok (Some (lit "INITIALIZE"))
  else Ok None.

Definition sendto_monitor (msg : Z) (data : option (list Z)) : MW unit :=
  line ← lift (monitor_line msg data);
  match line with
  | None => skip
  | Some l =>
      fd ← gets (λ w, s_fdMonitor (mon w));
      emit (Sent fd l);;
      upil_ril_unsolicited msg
  end.

(** [received]: whether [recv] returned data. *)
Definition event_monitor_callback (fd : Z) (received : bool) : MW Z :=
  (if received then skip
   else
     emit (Closed fd);;
     set ← gets (λ w, mon_event_loop (mon w));
     if (set : bool) then
       zoom (uew_event_del mon_monitor_event false);;
       zoom (uew_event_add_wakeup mon_listen_event)
     else fail NullDeref);;
  mret 0.

(** [fd]: what [accept] returns. *)
Definition monitor_listen (fd : Z) : MW Z :=
  zoom (modify (λ m, MonitorState fd (mon_event_loop m)));;
  if fd <? 0 then
    zoom (uew_event_add_wakeup mon_listen_event);;
    mret (-1)
  else
    zoom (uew_event_set mon_monitor_event fd 1 event_monitor_cb mon_monitor_event);;
    set ← gets (λ w, mon_event_loop (mon w));
    (if (set : bool) then zoom (uew_event_add_wakeup mon_monitor_event) else fail NullDeref);;
    mret 0.

(** [fd]: what [socket_local_server] returns. *)
Definition setup_event_monitor (event_loop : bool) (fd : Z) : MW Z :=
  if negb event_loop then mret (-1) else
  if fd <? 0 then mret (-1) else
  zoom (modify (λ m, MonitorState (s_fdMonitor m) true));;
  zoom (uew_event_set mon_listen_event fd 0 monitor_listenCallback mon_listen_event);;
  zoom (uew_event_add_wakeup mon_listen_event);;
  mret 0.
