(* ===== verification/UpilSm.v ===== *)
(** * The telephone state machine: src/upil_sm.c

    One pair of functions per state: what is done on entry, and what a
    message does.  The handlers read the message they process from the
    handler's store, as the code does through its pointer. *)

From stdpp Require Import strings.
From S2P Require Import Prelude CString Dll EventLoop Handler Messages TpProtocol StateMachine.
From S2P Require Import World UpilApi Ril Monitor.

Definition USB_KEEP_ALIVE_TIMER : Z := 5000.
Definition SYNCING_TIMEOUT : Z := 2000.
Definition DIAL_DELAY : Z := 1000.
Definition DIALINGTIMEOUT : Z := 6000.
Definition RING_TIMEOUT : Z := 8000.
Definition RECORD_START_TIMEOUT : Z := 24000.

(** Calls whose result the handlers drop. *)
Definition send_cmd_noparam (req : Z) : MW unit := zoom (tpp_send_cmd req None 0);; skip.
Definition post_delay (what msec : Z) : MW unit :=
  on_fsm_handler (sm_send_message_delay what None 0 msec);; skip.
Definition go_to (id : UPIL_SM) : MW unit := on_fsm_handler (sm_transition_to id);; skip.
Definition cancel (what : Z) : MW unit := on_fsm_handler (sm_remove_message_id what).
Definition set_fsm (f : FSM → FSM) : MW unit := zoom (modify f).

Definition default_process (msg : loc) : MW Z :=
  x ← on_fsm_handler (msg_at msg);
  cur ← gets (λ w, cur_state (fsm w));
  id ← lift (deref cur);
  id ← lift (read_at state_ids (Z.of_nat id));
  (if id =? UPIL_SM_OFFLINE then skip
   else if what x =? UPIL_CTL_USB_ON then
     send_cmd_noparam UPIL_CTL_USB_ON;;
     post_delay UPIL_CTL_USB_ON USB_KEEP_ALIVE_TIMER
   else if what x =? UPIL_EVT_USB_DETACH then go_to UPIL_SM_OFFLINE
   else skip);;
  mret HANDLED.

Definition offline_enter : MW unit :=
  cancel UPIL_CTL_USB_ON;;
  sendto_monitor UPIL_STATE_OFFLINE None.

Definition offline_process (msg : loc) : MW Z :=
  x ← on_fsm_handler (msg_at msg);
  (if what x =? UPIL_EVT_USB_ATTACH then go_to UPIL_SM_SYNCING
   else if what x =? UPIL_ASK_GET_VERSION then skip
   else default_process msg;; skip);;
  mret HANDLED.

Definition syncing_enter : MW unit :=
  sendto_monitor UPIL_STATE_SYNCING None;;
  send_cmd_noparam UPIL_CTL_USB_ON;;
  send_cmd_noparam UPIL_ASK_HARDWARE_INF;;
  send_cmd_noparam UPIL_ASK_READ_SN;;
  send_cmd_noparam UPIL_ASK_GET_VERSION;;
  send_cmd_noparam UPIL_ASK_PHONE_STATE;;
  send_cmd_noparam UPIL_ASK_RECORD_UP;;
  send_cmd_noparam UPIL_CTL_RINGER_OFF;;
  send_cmd_noparam UPIL_CTL_SET_TIME;;
  post_delay UPIL_CTL_USB_ON USB_KEEP_ALIVE_TIMER;;
  post_delay UPIL_EVT_SYNC_TIMEOUT SYNCING_TIMEOUT.

Definition syncing_process (msg : loc) : MW Z :=
  x ← on_fsm_handler (msg_at msg);
  (if what x =? UPIL_EVT_SYNC_TIMEOUT then go_to UPIL_SM_IDLE
   else if what x =? UPIL_EVT_PHONE_STATE then
     cancel UPIL_EVT_SYNC_TIMEOUT;;
     post_delay UPIL_EVT_SYNC_TIMEOUT SYNCING_TIMEOUT
   else if what x =? UPIL_EVT_HISTORY_FINISHED then
     cancel UPIL_EVT_SYNC_TIMEOUT;;
     go_to UPIL_SM_IDLE
   else if what x =? UPIL_EVT_DIALED_TX then skip
   else if what x =? UPIL_EVT_NEW_CID_TX then skip
   else if what x =? UPIL_EVT_OLD_CID_TX then skip
   else default_process msg;; skip);;
  mret HANDLED.

Definition idle_enter : MW unit :=
  sendto_monitor UPIL_STATE_IDLE None;;
  emit AudioStop;;
  set_fsm (set_incoming []);;
  modify (set_ring_count 0).

Definition idle_process (msg : loc) : MW Z :=
  x ← on_fsm_handler (msg_at msg);
  (if what x =? UPIL_CTL_HANDFREE_ON then
     set_fsm (set_outgoing []);;
     match data x with
     | Some d =>
         s ← lift (cstr d);
         n ← lift (store_string 128 s);
         set_fsm (set_outgoing n)
     | None => skip
     end;;
     send_cmd_noparam UPIL_CTL_HANDFREE_ON
   else if what x =? UPIL_EVT_HFREE_HOOK_ON then go_to UPIL_SM_DIALING
   else if what x =? UPIL_EVT_CALL_ID then
     s ← lift (string_at (data x));
     n ← lift (store_string 128 s);
     set_fsm (set_incoming n);;
     sendto_monitor (what x) (data x);;
     go_to UPIL_SM_INCOMING
   else if what x =? UPIL_EVT_RING then
     modify (λ w, set_ring_count (s_ring_count w + 1) w);;
     n ← gets s_ring_count;
     when (2 <=? n) (go_to UPIL_SM_INCOMING)
   else default_process msg;; skip);;
  mret HANDLED.

Definition dialing_enter : MW unit :=
  sendto_monitor UPIL_STATE_DIALING None;;
  f ← gets fsm;
  match last_outgoing_num f with
  | [] => skip
  | number =>
      on_fsm_handler (sm_send_message_delay UPIL_ASK_DTMF_TX (Some number) (len number) DIAL_DELAY);;
      skip
  end;;
  emit AudioStart.

Definition dialing_process (msg : loc) : MW Z :=
  x ← on_fsm_handler (msg_at msg);
  (if what x =? UPIL_ASK_DTMF_TX then
     zoom (tpp_send_cmd (what x) (data x) (data_size x));;
     post_delay UPIL_EVT_DIAL_END_CHECK DIALINGTIMEOUT
   else if (what x =? UPIL_EVT_DIAL_END) || (what x =? UPIL_EVT_DIAL_END_CHECK) then
     go_to UPIL_SM_CONVERSATION
   else if what x =? UPIL_EVT_REDIAL then
     cancel UPIL_EVT_DIAL_END_CHECK;;
     post_delay UPIL_EVT_DIAL_END_CHECK DIALINGTIMEOUT
   else if what x =? UPIL_CTL_HANDFREE_OFF then send_cmd_noparam (what x)
   else default_process msg;; skip);;
  mret HANDLED.

Definition incoming_enter : MW unit :=
  sendto_monitor UPIL_STATE_INCOMING None;;
  cancel UPIL_EVT_RING_TIMEOUT;;
  post_delay UPIL_EVT_RING_TIMEOUT RING_TIMEOUT;;
  cancel UPIL_EVT_RECORD_START;;
  post_delay UPIL_EVT_RECORD_START RECORD_START_TIMEOUT.

Definition incoming_process (msg : loc) : MW Z :=
  x ← on_fsm_handler (msg_at msg);
  (if what x =? UPIL_CTL_HANDFREE_OFF then send_cmd_noparam (what x)
   else if what x =? UPIL_CTL_HANDFREE_ON then send_cmd_noparam (what x)
   else if (what x =? UPIL_EVT_HAND_HOOK_ON) || (what x =? UPIL_EVT_HFREE_HOOK_ON) ||
           (what x =? UPIL_EVT_PARALL_HOOK_ON) then go_to UPIL_SM_CONVERSATION
   else if what x =? UPIL_EVT_RING then
     sendto_monitor UPIL_EVT_RING None;;
     cancel UPIL_EVT_RING_TIMEOUT;;
     post_delay UPIL_EVT_RING_TIMEOUT RING_TIMEOUT
   else if what x =? UPIL_EVT_CALL_ID then
     s ← lift (string_at (data x));
     n ← lift (store_string 128 s);
     set_fsm (set_incoming n);;
     sendto_monitor (what x) (data x)
   else if what x =? UPIL_EVT_RING_TIMEOUT then go_to UPIL_SM_IDLE
   else if what x =? UPIL_EVT_RECORD_START then go_to UPIL_SM_MEMO
   else default_process msg;; skip);;
  mret HANDLED.

Definition conversation_enter : MW unit :=
  sendto_monitor UPIL_STATE_CONVERSATION None;;
  emit AudioStart;;
  send_cmd_noparam UPIL_CTL_RECORD_LINE_PLAY_ON;;
  send_cmd_noparam UPIL_ASK_BUSY_TONE.

Definition conversation_process (msg : loc) : MW Z :=
  x ← on_fsm_handler (msg_at msg);
  (if what x =? UPIL_CTL_HANDFREE_OFF then send_cmd_noparam (what x)
   else if (what x =? UPIL_EVT_HFREE_HOOK_OFF) || (what x =? UPIL_EVT_HAND_HOOK_OFF) then
     send_cmd_noparam UPIL_CTL_RECORD_LINE_PLAY_OFF;;
     go_to UPIL_SM_IDLE
   else if what x =? UPIL_EVT_BUSY_ON then upil_sm_hangup;; skip
   else default_process msg;; skip);;
  mret HANDLED.

(** The two functions the audio library calls back. *)
Definition begin_record : MW unit :=
  on_fsm_handler (sm_send_message UPIL_CTL_RECORD_START None 0);; skip.
Definition end_record : MW unit :=
  on_fsm_handler (sm_send_message UPIL_EVT_RECORD_END None 0);; skip.

Definition stop_memo_flow : MW unit := emit AudioStop.

Definition memo_enter : MW unit :=
  sendto_monitor UPIL_STATE_MEMO None;;
  send_cmd_noparam UPIL_CTL_HANDFREE_ON.

Definition memo_process (msg : loc) : MW Z :=
  x ← on_fsm_handler (msg_at msg);
  (if (what x =? UPIL_EVT_HAND_HOOK_ON) || (what x =? UPIL_EVT_HFREE_HOOK_ON) ||
      (what x =? UPIL_EVT_PARALL_HOOK_ON) then
     send_cmd_noparam UPIL_CTL_RECORD_LINE_PLAY_ON;;
     send_cmd_noparam UPIL_ASK_BUSY_TONE;;
     emit (AudioPlay (lit "/data/welcome.wav"))
   else if what x =? UPIL_CTL_HANDFREE_ON then
     stop_memo_flow;;
     send_cmd_noparam UPIL_CTL_HANDFREE_ON;;
     go_to UPIL_SM_CONVERSATION
   else if what x =? UPIL_CTL_HANDFREE_OFF then
     stop_memo_flow;;
     send_cmd_noparam UPIL_CTL_HANDFREE_OFF
   else if what x =? UPIL_EVT_RECORD_END then
     send_cmd_noparam UPIL_CTL_HANDFREE_OFF
   else if (what x =? UPIL_EVT_HFREE_HOOK_OFF) || (what x =? UPIL_EVT_HAND_HOOK_OFF) then
     send_cmd_noparam UPIL_CTL_RECORD_LINE_PLAY_OFF;;
     emit AudioStop;;
     go_to UPIL_SM_IDLE
   else if what x =? UPIL_EVT_BUSY_ON then upil_sm_hangup;; skip
   else if what x =? UPIL_CTL_RECORD_START then
     emit (AudioRecord (lit "/data/record.wav") 30)
   else default_process msg;; skip);;
  mret HANDLED.

Definition my_state_table : list (FSM_STATE world) := [
  mkFSM_STATE UPIL_SM_OFFLINE (lit "Offline") (Some offline_enter) None (Some offline_process);
  mkFSM_STATE UPIL_SM_SYNCING (lit "Syncing") (Some syncing_enter) None (Some syncing_process);
  mkFSM_STATE UPIL_SM_IDLE (lit "Idle") (Some idle_enter) None (Some idle_process);
  mkFSM_STATE UPIL_SM_DIALING (lit "Dialing") (Some dialing_enter) None (Some dialing_process);
  mkFSM_STATE UPIL_SM_INCOMING (lit "Incoming") (Some incoming_enter) None (Some incoming_process);
  mkFSM_STATE UPIL_SM_CONVERSATION (lit "Conversation") (Some conversation_enter) None
    (Some conversation_process);
  mkFSM_STATE UPIL_SM_MEMO (lit "Memo") (Some memo_enter) None (Some memo_process)
].

(** Starts the machine on a state machine of the pool. *)
Definition upil_sm_start (name : list Z) (created : Z) (filedes : option (Z * Z))
    (pool : list FSM) : MW bool :=
  '(i, pool') ← lift (sm_obtain_fsm (len my_state_table) created filedes pool);
  match i with
  | None => mret false
  | Some i =>
      f ← lift (live (pool' !! i));
      zoom (put (f : FSM));;
      sm_set_init_state my_state_table UPIL_SM_OFFLINE;;
      n ← lift (store_string 64 name);
      set_fsm (set_name n);;
      mret true
  end.

(** The callback of every message of the machine. *)
Definition sm_process_message_of_fsm (msg : loc) : MW Z := sm_process_message my_state_table msg.
