(* ===== verification/UpilSmProofs.v ===== *)
(** * Properties of the telephone machine

    The contract of the telephone: seven states, the messages it understands,
    the number to dial that its struct holds, the [diagram] of the states it
    asks for, and the messages it takes back.  Every operation the handlers of the states use keeps the
    invariant of the machine ([keeps]), so that its table [Fulfils] the
    contract, and the framework's promises (MachineProofs) are its own. *)

From stdpp Require Import strings.
From S2P Require Import Prelude CString Dll EventLoop EventLoopProofs Handler HandlerProofs.
From S2P Require Import Messages TpProtocol TpProofs StateMachine SendProofs Contract MachineProofs World.
From S2P Require Import UpilApi Ril Monitor UpilSm.

(** ** The contract *)

(** A message the machine can process: the strings it carries end in a NUL
    and fit into the arrays they are copied to, a number to dial fits into
    the lines of a command, a request for a state names one. *)
Definition msg_ok (x : MSG) : Prop :=
  if what x =? UPIL_EVT_SM_TRANSITION
  then ∃ b n, data x = Some b ∧ bytes_int b = Ok n ∧ 0 ≤ n < 7
  else (what x = UPIL_EVT_CALL_ID → ∃ b s, data x = Some b ∧ cstr b = Ok s ∧ len s ≤ 127) ∧
    (what x = UPIL_CTL_HANDFREE_ON →
       data x = None ∨ ∃ b s, data x = Some b ∧ cstr b = Ok s ∧ len s ≤ 56) ∧
    (what x = UPIL_ASK_DTMF_TX → ∃ number, sendable UPIL_ASK_DTMF_TX (data x) (data_size x) number).

(** A message of a plain kind, without data. *)
Definition plain (what : Z) : bool :=
  negb (what =? UPIL_EVT_SM_TRANSITION) && negb (what =? UPIL_EVT_CALL_ID) && negb (what =? UPIL_ASK_DTMF_TX).

Lemma plain_message what : plain what = true → msg_ok (new_MSG what None 0).
Proof.
  unfold plain. rewrite !andb_true_iff, !negb_true_iff, !Z.eqb_neq.
  intros [[H1 H2] H3]. unfold msg_ok. simpl. rewrite (proj2 (Z.eqb_neq _ _)) by done.
  split_and!; [done| |done]. by left.
Qed.

(** ** The diagram of the states

    The state a message asks for, by the state of the machine. *)

Definition arrow (s : UPIL_SM) (what : Z) (t : UPIL_SM) := (s, what, t).

Definition diagram : list (UPIL_SM * Z * UPIL_SM) :=
  ((λ s, arrow s UPIL_EVT_USB_DETACH UPIL_SM_OFFLINE) <$>
     [UPIL_SM_SYNCING; UPIL_SM_IDLE; UPIL_SM_DIALING; UPIL_SM_INCOMING; UPIL_SM_CONVERSATION;
      UPIL_SM_MEMO]) ++ [
  arrow UPIL_SM_OFFLINE UPIL_EVT_USB_ATTACH UPIL_SM_SYNCING;
  arrow UPIL_SM_SYNCING UPIL_EVT_SYNC_TIMEOUT UPIL_SM_IDLE;
  arrow UPIL_SM_SYNCING UPIL_EVT_HISTORY_FINISHED UPIL_SM_IDLE;
  arrow UPIL_SM_IDLE UPIL_EVT_HFREE_HOOK_ON UPIL_SM_DIALING;
  arrow UPIL_SM_IDLE UPIL_EVT_CALL_ID UPIL_SM_INCOMING;
  arrow UPIL_SM_IDLE UPIL_EVT_RING UPIL_SM_INCOMING;
  arrow UPIL_SM_DIALING UPIL_EVT_DIAL_END UPIL_SM_CONVERSATION;
  arrow UPIL_SM_DIALING UPIL_EVT_DIAL_END_CHECK UPIL_SM_CONVERSATION;
  arrow UPIL_SM_INCOMING UPIL_EVT_HAND_HOOK_ON UPIL_SM_CONVERSATION;
  arrow UPIL_SM_INCOMING UPIL_EVT_HFREE_HOOK_ON UPIL_SM_CONVERSATION;
  arrow UPIL_SM_INCOMING UPIL_EVT_PARALL_HOOK_ON UPIL_SM_CONVERSATION;
  arrow UPIL_SM_INCOMING UPIL_EVT_RING_TIMEOUT UPIL_SM_IDLE;
  arrow UPIL_SM_INCOMING UPIL_EVT_RECORD_START UPIL_SM_MEMO;
  arrow UPIL_SM_CONVERSATION UPIL_EVT_HFREE_HOOK_OFF UPIL_SM_IDLE;
  arrow UPIL_SM_CONVERSATION UPIL_EVT_HAND_HOOK_OFF UPIL_SM_IDLE;
  arrow UPIL_SM_MEMO UPIL_CTL_HANDFREE_ON UPIL_SM_CONVERSATION;
  arrow UPIL_SM_MEMO UPIL_EVT_HFREE_HOOK_OFF UPIL_SM_IDLE;
  arrow UPIL_SM_MEMO UPIL_EVT_HAND_HOOK_OFF UPIL_SM_IDLE].

Definition requests (i : nat) (what id : Z) : bool :=
  existsb (λ '(s, k, t), (UPIL_SM_val s =? Z.of_nat i) && (k =? what) && (UPIL_SM_val t =? id)) diagram.

(** The number to dial fits into the lines of a command, and is a string. *)
Definition number_ok (f : FSM) : Prop :=
  len (last_outgoing_num f) ≤ 56 ∧ Forall (λ c, c ≠ 0) (last_outgoing_num f).

(** The messages the handlers take back: the times that are counted anew. *)
Definition timeouts : list Z :=
  [UPIL_CTL_USB_ON : Z; UPIL_EVT_SYNC_TIMEOUT : Z; UPIL_EVT_DIAL_END_CHECK : Z;
   UPIL_EVT_RING_TIMEOUT : Z; UPIL_EVT_RECORD_START : Z].

Definition telephone : contract :=
  Contract 7 msg_ok number_ok requests (λ what, bool_decide (what ∈ timeouts)).

#[export] Instance telephone_lawful : Lawful telephone.
Proof.
  split; [|done..]. intros x Ew. unfold telephone. cbn [accepts states]. unfold msg_ok.
  by rewrite Ew.
Qed.

(** ** Code that leaves the machine alone *)

(** The handlers wait for the device. *)
#[export] Instance world_outside : Outside world := {| answers w := answering (dev w); answers_lset f w H := H |}.

Lemma quiet_emit o : quiet (emit o).
Proof. by apply quiet_modify. Qed.

Lemma quiet_wait n : quiet (W := world) (zoom (modify (set_wait_response n))).
Proof. apply quiet_zoom; [done|]. intros w. by eexists _, _. Qed.
#[export] Hint Resolve quiet_emit quiet_wait : quiet.

Lemma quiet_reply fd r o : quiet (process_reply fd r o).
Proof. apply quiet_bind; [destruct o|intros _]; auto with quiet. Qed.
#[export] Hint Resolve quiet_reply : quiet.

Lemma quiet_unsolicited msg : quiet (upil_ril_unsolicited msg).
Proof.
  apply quiet_bind; [apply quiet_gets|]. intros r.
  repeat match goal with |- context [if ?b then _ else _] => destruct b end; auto with quiet.
Qed.

Lemma quiet_monitor msg data line :
  monitor_line msg data = Ok line → quiet (sendto_monitor msg data).
Proof.
  intros Hl. apply quiet_bind; [by eapply quiet_lift|]. intros [l|]; [|apply quiet_ret].
  apply quiet_bind; [apply quiet_gets|]. intros fd.
  apply quiet_bind; [apply quiet_emit|]. intros _. apply quiet_unsolicited.
Qed.

(** ** The calls of the handlers *)

Notation keeps v := (keeps telephone v).

Section calls.
Context (v : view).
Notation keeps := (keeps v).

Lemma keeps_emit o : keeps (λ _, True) (emit o).
Proof. apply keeps_quiet, quiet_emit. Qed.

Lemma keeps_monitor msg data line :
  monitor_line msg data = Ok line → keeps (λ _, True) (sendto_monitor msg data).
Proof. intros Hl. by eapply keeps_quiet, quiet_monitor. Qed.

Lemma keeps_send_cmd req data size number :
  sendable req data size number → keeps (λ _, True) (zoom (tpp_send_cmd req data size)).
Proof.
  intros Hs. apply keeps_quiet. intros w. unfold zoom. rewrite (tpp_send_ok _ _ _ _ _ Hs). cbn [lget world_dev].
  destruct (written_lines (dev w) _) as [k [r|e]] eqn:Ew; cbn [mbind res_bind].
  - by apply returns_ok.
  - right. pose proof (written_lines_fault _ _ _ _ Ew) as ->. split; [done|]. intros Ha.
    pose proof (answering_returns _ (request_lines (dev_time (dev w)) (request_of req data size) number) Ha) as Hr.
    by rewrite Ew in Hr.
Qed.

Lemma keeps_cmd req : keeps (λ _, True) (send_cmd_noparam req).
Proof. eapply keeps_drop, keeps_send_cmd, sendable_plain. Qed.

Lemma keeps_plain what msec :
  plain what = true → 0 ≤ msec ≤ INT_MAX →
  keeps (λ _, True) (on_fsm_handler (sm_send_message_delay what None 0 msec)).
Proof.
  intros Hp Hm. apply keeps_send; [|intros ?; lia|done].
  apply fine_message; [by apply plain_message|]. unfold plain in Hp.
  apply andb_true_iff in Hp as [[Hp _]%andb_true_iff _]. by apply negb_true_iff, Z.eqb_neq in Hp.
Qed.

Lemma keeps_post what msec :
  plain what = true → 0 ≤ msec ≤ INT_MAX → keeps (λ _, True) (post_delay what msec).
Proof. intros Hp Hm. by eapply keeps_drop, keeps_plain. Qed.

Lemma keeps_hangup : keeps (λ _, True) upil_sm_hangup.
Proof. by apply keeps_plain; vm_compute. Qed.

Lemma keeps_go_to (id : UPIL_SM) : v_req v id = true → keeps (λ _, True) (go_to id).
Proof. intros Hr. eapply keeps_drop, keeps_transition_to; [by destruct id|by destruct id|done]. Qed.

Lemma keeps_cancel what : what ∈ timeouts → keeps (λ _, True) (cancel what).
Proof. intros Hw. by apply keeps_remove, bool_decide_eq_true_2. Qed.

Lemma cstr_nonzero b s : cstr b = Ok s → Forall (λ c, c ≠ 0) s.
Proof.
  revert s. induction b as [|c b IH]; intros s; simpl; [done|].
  destruct (Z.eqb_spec c 0); [intros [= <-]; constructor|].
  destruct (cstr b) as [t|]; [|done]. intros [= <-]. constructor; [done|]. by apply IH.
Qed.

(** The struct of the machine is read. *)
Lemma keeps_number : keeps number_ok (gets fsm).
Proof.
  intros w Hw. destruct (keeps_fsm_read (ct := telephone) v w Hw) as [(f & w' & E & [(Ho & _) Hinv] & Ha)|[E _]]; [|done].
  left. by exists f, w'.
Qed.

(** The number of the current state. *)
Lemma keeps_state {A} (k : Z → MW A) (Q : A → Prop) :
  ((v_state v < 7)%nat → keeps Q (k (Z.of_nat (v_state v)))) →
  keeps Q (cur ← gets (λ w, cur_state (fsm w)); id ← lift (deref cur);
           id ← lift (read_at state_ids (Z.of_nat id)); k id).
Proof.
  intros Hk w Hw. pose proof Hw as (qs & ts & ps & [_ _ _ _ [Hi Hlt] _ _] & _).
  cbn [lget world_fsm telephone states] in Hi, Hlt. erewrite bind_ok by done. rewrite Hi. erewrite bind_ok by done.
  assert (read_at state_ids (Z.of_nat (v_state v)) = Ok (Z.of_nat (v_state v))) as ->.
  { revert Hlt. generalize (v_state v). intros i Hlt. do 7 (destruct i as [|i]; [done|]). lia. }
  erewrite bind_ok by done. by apply Hk.
Qed.
End calls.

(** ** The handlers of the states *)

(** A request of the diagram, the message being known from the branches. *)
Ltac request :=
  repeat match goal with
  | H : (_ || _) = true |- _ => apply orb_true_iff in H as [H|H]
  end;
  match goal with
  | H : (what ?x =? _) = true |- requests _ (what ?x) _ = true =>
      apply Z.eqb_eq in H; rewrite H; reflexivity
  end.

(** Decides the conditions on the message, applies the lemmas of the calls. *)
Create HintDb tel.
#[export] Hint Resolve keeps_skip keeps_emit keeps_cmd keeps_hangup : tel.
#[export] Hint Extern 1 (keeps _ _ (cancel _)) =>
  (apply keeps_cancel, (bool_decide_eq_true_1 _); vm_compute; reflexivity) : tel.
#[export] Hint Extern 1 (keeps _ _ (post_delay _ _)) =>
  (apply keeps_post; [by vm_compute|by vm_compute]) : tel.
#[export] Hint Extern 1 (keeps _ _ (sendto_monitor _ None)) =>
  (eapply keeps_monitor; reflexivity) : tel.
#[export] Hint Extern 1 (keeps _ _ (go_to _)) =>
  (apply keeps_go_to; cbn [v_req]; request) : tel.
#[export] Hint Extern 2 (keeps _ _ (_ ;; skip)) => (eapply keeps_drop) : tel.

(** One call after the other. *)
Ltac keeps_steps :=
  repeat (eapply (keeps_bind _ (λ _, True)); [solve [auto with tel]|intros _ _]);
  auto with tel.

(** Over the branches of a handler: all calls, then the result. *)
Ltac keeps_branches :=
  repeat match goal with
  | |- keeps _ _ (if ?b then _ else _) => destruct b eqn:?
  end.

(** What a state does on entry asks for no state. *)
Section enter.
Context (v : view).
Notation keeps := (keeps v).

Lemma keeps_offline_enter : keeps (λ _, True) offline_enter.
Proof. unfold offline_enter. keeps_steps. Qed.
Lemma keeps_syncing_enter : keeps (λ _, True) syncing_enter.
Proof. unfold syncing_enter. keeps_steps. Qed.
Lemma keeps_incoming_enter : keeps (λ _, True) incoming_enter.
Proof. unfold incoming_enter. keeps_steps. Qed.
Lemma keeps_conversation_enter : keeps (λ _, True) conversation_enter.
Proof. unfold conversation_enter. keeps_steps. Qed.
Lemma keeps_memo_enter : keeps (λ _, True) memo_enter.
Proof. unfold memo_enter. keeps_steps. Qed.
Lemma keeps_idle_enter : keeps (λ _, True) idle_enter.
Proof.
  unfold idle_enter. keeps_steps.
  eapply (keeps_bind _ (λ _, True)); [by apply keeps_fsm|intros _ _]. by apply keeps_modify.
Qed.

(** The number to dial, sent to the state itself. *)
Lemma sendable_number (n : list Z) :
  len n ≤ 56 → Forall (λ c, c ≠ 0) n → n ≠ [] →
  sendable UPIL_ASK_DTMF_TX (Some (n ++ [0; 0])) (len n) n.
Proof.
  intros Hl Hz Hne. pose proof (len_nonneg n). unfold sendable, request_of. cbn [req_data].
  assert (len n ≠ 0) as Hn0. { destruct n; [done|]. rewrite len_cons. pose proof (len_nonneg n). lia. }
  rewrite (proj2 (Z.eqb_neq _ _)) by done. cbn [default fmap option_fmap option_map].
  assert (take (Z.to_nat (len n)) (n ++ [0; 0]) = n) as ->.
  { unfold len. by rewrite Nat2Z.id, take_app_length. }
  split_and!; [lia|lia|right| |].
  - exists (n ++ [0; 0]). rewrite len_app. split; [done|]. change (len [0; 0]) with 2. lia.
  - assert (∃ k, (512 - length n)%nat = S k) as [k Hk].
    { unfold len in Hl. exists (511 - length n)%nat. lia. }
    change (id n) with n. revert Hk. generalize (512 - length n)%nat. intros ? ->. by apply cstr_app.
  - assert (∀ l : list Z, len (omap dial_code l) ≤ len l) as Ho; [|specialize (Ho n); lia].
    intros l. induction l as [|c l IH]; [done|]. rewrite omap_cons_eq, len_cons.
    destruct (dial_code c); [rewrite len_cons|]; lia.
Qed.

Lemma keeps_dialing_enter : keeps (λ _, True) dialing_enter.
Proof.
  unfold dialing_enter. keeps_steps.
  eapply keeps_bind; [apply keeps_number|]. intros f [Hl Hz].
  eapply (keeps_bind _ (λ _, True)); [|intros _ _; apply keeps_emit].
  destruct (last_outgoing_num f) as [|c n]; [apply keeps_skip|].
  eapply keeps_drop, keeps_send.
  - apply fine_message; [|done]. cbn [accepts telephone]. unfold msg_ok. rewrite new_MSG_what.
    split_and!; [done|done|]. intros _. exists (c :: n). unfold new_MSG.
    pose proof (len_nonneg n). rewrite (proj2 (Z.ltb_lt 0 (len (c :: n)))) by (rewrite len_cons; lia).
    cbn [data data_size fmap option_fmap option_map].
    unfold len at 1. rewrite Nat2Z.id, firstn_all. by apply sendable_number.
  - intros _. by exists (c :: n).
  - by vm_compute.
Qed.
End enter.

(** The messages the machine processes in its state [i]. *)
Section handlers.
Context (m : loc) (x : MSG) (old : before).
Notation keeps i := (keeps (View (Some (m, x)) i old (requests i (what x)))).

Lemma keeps_default i : keeps i (λ r, r = HANDLED) (default_process m).
Proof.
  unfold default_process. eapply keeps_bind; [by apply (keeps_msg _ _ x)|]. intros y ->.
  apply keeps_state. cbn [v_state]. intros Hi.
  eapply (keeps_bind _ (λ _, True)); [|intros _ _; by apply keeps_ret].
  keeps_branches; keeps_steps. apply keeps_go_to. cbn [v_req].
  do 7 (destruct i as [|?i]; [done || request|]). lia.
Qed.

(** The end of every handler: the default for other messages. *)
Lemma keeps_else i : keeps i (λ _, True) (default_process m;; skip).
Proof. eapply keeps_drop, keeps_default. Qed.
Hint Resolve keeps_else : tel.

(** A handler: the message is read, a branch is taken, and the result is
    that it was handled. *)
Lemma keeps_handle i (body : MSG → MW unit) :
  keeps i (λ _, True) (body x) →
  keeps i (λ r, r = HANDLED) (y ← on_fsm_handler (msg_at m); body y;; mret HANDLED).
Proof.
  intros Hb. eapply keeps_bind; [by apply (keeps_msg _ _ x)|]. intros y ->.
  eapply (keeps_bind _ (λ _, True)); [done|intros _ _; by apply keeps_ret].
Qed.

Lemma keeps_offline_process : keeps 0 (λ r, r = HANDLED) (offline_process m).
Proof. apply keeps_handle. keeps_branches; keeps_steps. Qed.
Lemma keeps_syncing_process : keeps 1 (λ r, r = HANDLED) (syncing_process m).
Proof. apply keeps_handle. keeps_branches; keeps_steps. Qed.
Lemma keeps_conversation_process : keeps 5 (λ r, r = HANDLED) (conversation_process m).
Proof. apply keeps_handle. keeps_branches; keeps_steps. Qed.
Lemma keeps_memo_process : keeps 6 (λ r, r = HANDLED) (memo_process m).
Proof. apply keeps_handle. unfold stop_memo_flow. keeps_branches; keeps_steps. Qed.

Hypothesis Hx : msg_ok x.
Hypothesis Hnt : what x ≠ UPIL_EVT_SM_TRANSITION.

Lemma msg_ok_plain :
  (what x = UPIL_EVT_CALL_ID → ∃ b s, data x = Some b ∧ cstr b = Ok s ∧ len s ≤ 127) ∧
  (what x = UPIL_CTL_HANDFREE_ON →
     data x = None ∨ ∃ b s, data x = Some b ∧ cstr b = Ok s ∧ len s ≤ 56) ∧
  (what x = UPIL_ASK_DTMF_TX → ∃ number, sendable UPIL_ASK_DTMF_TX (data x) (data_size x) number).
Proof. unfold msg_ok in Hx. by rewrite (proj2 (Z.eqb_neq _ _)) in Hx. Qed.

(** The number of a caller is reported. *)
Lemma keeps_call_id_told i :
  what x = UPIL_EVT_CALL_ID → keeps i (λ _, True) (sendto_monitor (what x) (data x)).
Proof.
  intros Hw. destruct msg_ok_plain as (Hc & _).
  destruct (Hc Hw) as (b & s & Hd & Hb & Hs). rewrite Hd, Hw. eapply keeps_monitor.
  unfold monitor_line. cbn [Z.eqb]. assert (string_at (Some b) = Ok s) as -> by done. cbn [mbind res_bind].
  rewrite store_ok; [done|]. rewrite len_app. change (len (lit "CID ")) with 4. lia.
Qed.

(** It is stored before that. *)
Lemma keeps_call_id_stored i (rest : MW unit) :
  what x = UPIL_EVT_CALL_ID → keeps i (λ _, True) rest →
  keeps i (λ _, True) (s ← lift (string_at (data x)); n ← lift (store_string 128 s); set_fsm (set_incoming n);; rest).
Proof.
  intros Hw Hr. destruct msg_ok_plain as (Hc & _).
  destruct (Hc Hw) as (b & s & Hd & Hb & Hs). rewrite Hd.
  assert (string_at (Some b) = Ok s) as Es by done.
  eapply keeps_bind; [by eapply (keeps_lift _ s _ (λ t, t = s))|intros t ->].
  eapply keeps_bind; [by eapply (keeps_lift _ s _ (λ t, t = s)); [apply store_ok; lia|]|intros t ->].
  eapply (keeps_bind _ (λ _, True)); [by apply keeps_fsm|by intros _ _].
Qed.

Lemma keeps_call_id i (rest : MW unit) :
  what x = UPIL_EVT_CALL_ID → keeps i (λ _, True) rest →
  keeps i (λ _, True) (s ← lift (string_at (data x)); n ← lift (store_string 128 s);
    set_fsm (set_incoming n);; sendto_monitor (what x) (data x);; rest).
Proof.
  intros Hw Hr. apply keeps_call_id_stored; [done|].
  eapply keeps_bind; [by apply keeps_call_id_told|by intros _ _].
Qed.

Lemma keeps_idle_process : keeps 2 (λ r, r = HANDLED) (idle_process m).
Proof.
  apply keeps_handle. keeps_branches; keeps_steps.
  - apply Z.eqb_eq in Heqb. destruct msg_ok_plain as (_ & Hh & _).
    eapply (keeps_bind _ (λ _, True)); [apply keeps_fsm; [done|]|intros _ _].
    { intros g _. split; [by vm_compute|constructor]. }
    eapply (keeps_bind _ (λ _, True)); [|intros _ _; apply keeps_cmd].
    destruct (Hh Heqb) as [->|(b & s & -> & Hb & Hs)]; [apply keeps_skip|].
    eapply keeps_bind; [by eapply (keeps_lift _ s _ (λ t, t = s))|intros t ->].
    eapply keeps_bind; [by eapply (keeps_lift _ s _ (λ t, t = s)); [apply store_ok; lia|]|intros t ->].
    apply keeps_fsm; [done|]. intros g _. split; [done|]. by eapply cstr_nonzero.
  - apply keeps_call_id; [by apply Z.eqb_eq|]. auto with tel.
  - eapply (keeps_bind _ (λ _, True)); [by apply keeps_modify|intros _ _].
    eapply keeps_bind; [apply keeps_gets|intros n _]. apply keeps_when. auto with tel.
Qed.

Lemma keeps_dialing_process : keeps 3 (λ r, r = HANDLED) (dialing_process m).
Proof.
  apply keeps_handle. keeps_branches; keeps_steps.
  apply Z.eqb_eq in Heqb. destruct msg_ok_plain as (_ & _ & Hd).
  destruct (Hd Heqb) as [number Hs]. rewrite Heqb.
  eapply (keeps_bind _ (λ _, True)); [by eapply keeps_send_cmd|intros _ _]. auto with tel.
Qed.

Lemma keeps_incoming_process : keeps 4 (λ r, r = HANDLED) (incoming_process m).
Proof.
  apply keeps_handle. keeps_branches; keeps_steps.
  apply keeps_call_id_stored; [|apply keeps_call_id_told]; by apply Z.eqb_eq.
Qed.
End handlers.


(** ** The table *)

(** The state at an index of the table. *)
Lemma state_at i : (i < 7)%nat → ∃ st f g,
  read_at my_state_table (Z.of_nat i) = Ok st ∧ st_id st = Z.of_nat i ∧
  enter_func st = Some f ∧ exit_func st = None ∧ process_func st = Some g ∧
  (∀ v, keeps v (λ _, True) f) ∧
  (∀ m x old, msg_ok x → what x ≠ UPIL_EVT_SM_TRANSITION →
     keeps (View (Some (m, x)) i old (requests i (what x))) (λ r, r = HANDLED) (g m)).
Proof.
  intros Hi.
  destruct i as [|[|[|[|[|[|[|i]]]]]]]; [..|lia];
    (eexists _, _, _; split_and!; try reflexivity; [intros v|intros ???]).
  - apply keeps_offline_enter. - intros ??. apply keeps_offline_process.
  - apply keeps_syncing_enter. - intros ??. apply keeps_syncing_process.
  - apply keeps_idle_enter. - intros ??. by apply keeps_idle_process.
  - apply keeps_dialing_enter. - intros ??. by apply keeps_dialing_process.
  - apply keeps_incoming_enter. - intros ??. by apply keeps_incoming_process.
  - apply keeps_conversation_enter. - intros ??. apply keeps_conversation_process.
  - apply keeps_memo_enter. - intros ??. apply keeps_memo_process.
Qed.

#[export] Instance telephone_fulfils : Fulfils my_state_table telephone.
Proof.
  split; [apply _|..]; intros i; [intros Hi|intros st f v Hi|intros st f v Hi|intros st g m x old Hi];
    destruct (state_at i Hi) as (st' & f' & g' & Est & Eid & Ee & Ex & Eg & Kf & Kg).
  - exists st'. by rewrite Eg.
  - rewrite Est. intros [= <-]. rewrite Ee. by intros [= <-] _.
  - rewrite Est. intros [= <-]. by rewrite Ex.
  - rewrite Est. intros [= <-]. rewrite Eg. intros [= <-]. by apply Kg.
Qed.

(** The telephone between two messages. *)
Abbreviation at_rest i w := (machine_rest telephone i (lget (W := world) w)).
