(* ===== verification/Commands.v ===== *)
(** * The command socket: src/upil_command.c

    Requests of the client library, each answered with a line that starts
    with [SUCCESS] or [FAILURE] in brackets. *)

From stdpp Require Import strings.
From S2P Require Import Prelude CString Dll EventLoop Handler Messages TpProtocol StateMachine.
From S2P Require Import World UpilApi Receive.

Definition REPLY_SUCCESS : list Z := lit "[SUCCESS]".
Definition REPLY_FAILURE : list Z := lit "[FAILURE]".
Definition UPIL_CTRL_GET_VER : list Z := lit "GET_VERSION".
Definition UPIL_CTRL_DIAL : list Z := lit "DIAL".
Definition UPIL_CTRL_HANGUP : list Z := lit "HANGUP".
Definition UPIL_CTRL_GET_STATE : list Z := lit "GET_CURR_STATE".
(** The length the macro of the same name has: that of the version request. *)
Definition UPIL_CTRL_GET_STATE_LEN : nat := length UPIL_CTRL_GET_VER.

(** [snprintf] cuts the reply to what fits into the buffer. *)
Definition reply_text (result : Z) (reply : option (list Z)) : list Z :=
  take (Z.to_nat UPIL_MAX_MSG_LEN - 1)
    ((if negb (result =? 0) then REPLY_FAILURE else REPLY_SUCCESS) ++ default [] reply).

Definition process_ctrl_reply (fd result : Z) (reply : option (list Z)) : MW unit :=
  emit (Sent fd (reply_text result reply)).

(** [None] for a command that is not known, which is not answered. *)
Definition ctrl_command (buffer : list Z) : MW (option (Z * option (list Z))) :=
  if strncmp_eq buffer UPIL_CTRL_GET_VER (length UPIL_CTRL_GET_VER) then
    '(result, version) ← upil_sm_get_version;
    mret (Some (result, Some version))
  else if strncmp_eq buffer UPIL_CTRL_DIAL (length UPIL_CTRL_DIAL) then
    let dial_num := drop (length UPIL_CTRL_DIAL) buffer in
    result ← upil_sm_start_dail (match dial_num with [] => None | _ => Some dial_num end);
    mret (Some (result, None))
  else if strncmp_eq buffer UPIL_CTRL_HANGUP (length UPIL_CTRL_HANGUP) then
    result ← upil_sm_hangup;
    mret (Some (result, None))
  else if strncmp_eq buffer UPIL_CTRL_GET_STATE UPIL_CTRL_GET_STATE_LEN then
    s ← upil_sm_get_current_state;
    mret (Some (0, Some (dec s)))
  else mret None.

Definition processCtrlBuffer (fd : Z) (buffer : list Z) : MW unit :=
  r ← ctrl_command buffer;
  match r with
  | Some (result, reply) => process_ctrl_reply fd result reply
  | None => skip
  end.

Definition set_cmd_buf (b : list Z) (c : command_state) : command_state :=
  CommandState b (cmd_event_loop c).

(** [None]: [recv] fails or the peer has closed the socket. *)
Definition processCtrlCallback (fd : Z) (received : option (list Z)) : MW Z :=
  let zeros := replicate (Z.to_nat UPIL_MAX_MSG_LEN) 0 in
  zoom (modify (set_cmd_buf zeros));;
  match received with
  | Some bytes =>
      b ← lift (blit zeros 0 bytes);
      zoom (modify (set_cmd_buf b));;
      s ← lift (cstr b);
      processCtrlBuffer fd s
  | None =>
      emit (Closed fd);;
      set ← gets (λ w, cmd_event_loop (cmd w));
      if (set : bool) then
        zoom (uew_event_del cmd_commands_event false);;
        zoom (uew_event_add_wakeup cmd_listen_event)
      else fail NullDeref
  end;;
  mret 0.

(** [fd_cmd]: what [accept] returns. *)
Definition ctrl_listenCallback (fd_cmd : Z) : MW Z :=
  if fd_cmd <? 0 then
    zoom (uew_event_add_wakeup cmd_listen_event);;
    mret (-1)
  else
    zoom (uew_event_set cmd_commands_event fd_cmd 1 command_processCommandsCallback
            cmd_commands_event);;
    set ← gets (λ w, cmd_event_loop (cmd w));
    (if (set : bool) then zoom (uew_event_add_wakeup cmd_commands_event) else fail NullDeref);;
    mret 0.

(** [fd]: what [socket_local_server] returns. *)
Definition setup_cmd_processor (event_loop : bool) (fd : Z) : MW Z :=
  if negb event_loop then mret (-1) else
  if fd <? 0 then mret (-1) else
  zoom (modify (λ c, CommandState (s_cmd_buf c) true));;
  zoom (uew_event_set cmd_listen_event fd 0 command_listenCallback cmd_listen_event);;
  zoom (uew_event_add_wakeup cmd_listen_event);;
  mret 0.
