(* ===== verification/Daemon.v ===== *)
(** * The daemon: src/upil.c

    The options of [main], the wait for the device, the start of the
    daemon, and the callbacks its two event loops run: the
    loop of the telephone machine delivers the messages, [main_loop] watches
    the device and the sockets.  A [system] holds the answers of the
    operating system. *)

From stdpp Require Import strings.
From S2P Require Import Prelude CString Dll EventLoop Debug Options Handler Messages TpProtocol StateMachine.
From S2P Require Import World UpilApi Receive Ril Monitor UpilSm Commands.

Record system := System {
  sys_access : list bool;                (* access() of the device, each second *)
  sys_open : Z;                          (* open() of the device *)
  sys_server : list Z → Z;               (* socket_local_server() *)
  sys_accept : Z → Z;                    (* accept() on a descriptor *)
  sys_recv : Z → option (list Z);        (* recv(): None when it is <= 0 *)
  sys_read : list Z * Z;                 (* read() of the device: array, result *)
  sys_created : Z;                       (* pthread_create() *)
  sys_pipe : option (Z * Z);             (* pipe() *)
}.

Definition UPIL_SOCKET_CMD : list Z := lit "upil.cmd".
Definition UPIL_SOCKET_EVT : list Z := lit "upil.evt".
Definition UPIL_SOCKET_RIL : list Z := lit "upil.ril".

(** Until the device is there; [Blocked] while it is not. *)
Fixpoint wait_device (found : list bool) : res Z :=
  match found with
  | [] => Err Blocked
  | true :: _ => Ok 0
  | false :: found => wait_device found
  end.

Definition setup_device (sys : system) : MW Z :=
  let s_dev_fd := sys_open sys in
  if s_dev_fd <? 0 then mret (-1) else
  modify (set_device_fd s_dev_fd);;
  zoom (uew_event_set s_device_event s_dev_fd 1 tpp_recv_event_cb_cb s_device_event);;
  zoom (uew_event_add_wakeup s_device_event);;
  upil_sm_usb_attach;;
  mret 0.

(** The start of the machine takes a struct of the pool; its handler starts
    the loop of the messages.  [Some c]: the process exits with [c]; [None]:
    it sleeps while its threads run. *)
Definition upil_main (sys : system) (pool : list FSM) : MW (option Z) :=
  started ← upil_sm_start (lit "MainSM") (sys_created sys) (sys_pipe sys) (sm_init_pool pool);
  if negb started then mret (Some (-1)) else
  ret ← zoom (uew_startEventLoop (sys_created sys) (sys_pipe sys));
  if negb (ret =? 0) then mret (Some (-1)) else
  setup_cmd_processor true (sys_server sys UPIL_SOCKET_CMD);;
  setup_event_monitor true (sys_server sys UPIL_SOCKET_EVT);;
  lift (wait_device (sys_access sys));;
  ret ← setup_device sys;
  if negb (ret =? 0) then mret (Some (-1)) else
  upil_ril_setup true (sys_server sys UPIL_SOCKET_RIL);;
  mret None.

(** [main] from its arguments: the options, and then the start.  The result
    has the settings of the debug output. *)
Definition main (permute : bool) (argv : list (list Z)) (sys : system) (pool : list FSM)
  : MW (option Z * option debug) :=
  match upil_options permute argv with
  | None => mret (Some (-1), None)
  | Some d => r ← upil_main sys pool; mret (r, Some d)
  end.

(** The process exits at a signal. *)
Definition upil_handle_signal (sig : Z) : Z := 0.

(** ** Callbacks *)

(** The loop of the wake-up pipe a callback belongs to is [own]. *)
Definition run_callback (own : MU Z → MW Z) (sys : system) (cb : callback) (fd : Z)
    (param : loc) : MW Z :=
  match cb with
  | processWakeupCallback => own processWakeup
  | sm_process_message_cb => sm_process_message_of_fsm param
  | tpp_recv_event_cb_cb => tpp_recv_event_cb (sys_read sys).1 (sys_read sys).2
  | command_listenCallback => ctrl_listenCallback (sys_accept sys fd)
  | command_processCommandsCallback => processCtrlCallback fd (sys_recv sys fd)
  | ril_listenCallback => listenCallback (sys_accept sys fd)
  | ril_processCommandsCallback => processCommandsCallback fd (sys_recv sys fd)
  | monitor_listenCallback => monitor_listen (sys_accept sys fd)
  | event_monitor_cb => event_monitor_callback fd (bool_decide (is_Some (sys_recv sys fd)))
  | my_process_message_cb | no_callback => fail NullDeref
  end.

(** The two contexts inside the state of the daemon. *)
#[export] Instance world_main_upile : Lens world upile_context := {|
  lget w := upile (main_loop w);
  lset c w := lset (A := uew_context) (lset c (main_loop w)) w;
|}.
Definition fsm_upile : Lens world upile_context := {|
  lget w := upile (loop (handler (fsm w)));
  lset c w :=
    let h := handler (fsm w) in
    lset (A := FSM) (lset (lset (lset c (loop h)) h) (fsm w)) w;
|}.

Definition main_turn (sys : system) (sel : select_call) : MW (option Z) :=
  loop_turn (run_callback zoom sys) sel.
Definition fsm_turn (sys : system) (sel : select_call) : MW (option Z) :=
  loop_turn (H := fsm_upile) (run_callback (λ m, on_fsm_handler (zoom m)) sys) sel.
