(* ===== verification/RunProofs.v ===== *)
(** * Runs of the telephone machine

    The start of the machine in the daemon, and its runs: the turns of its
    loop, what other parts of the daemon send to it, and the time that passes
    ([machine_run] of the framework).  Every reachable machine is well formed
    ([at_rest]), processes its next message without a fault when the name of
    the message is in the tables, and changes its state along [diagram]
    alone. *)

From stdpp Require Import strings relations.
From S2P Require Import Prelude CString Dll EventLoop EventLoopProofs Handler HandlerProofs.
From S2P Require Import Messages TpProtocol TpProofs StateMachine SendProofs Contract MachineProofs TurnProofs.
From S2P Require Import World UpilApi Ril Monitor UpilSm UpilSmProofs Daemon.

(** ** The start *)

(** A machine of the pool that can be started. *)
Definition startable (f : FSM) : Prop :=
  idle_handler (handler f) ∧ malloc_ok (handler f) sizeof_MSG = true ∧ number_ok f.

Lemma start_rest name r wr pool i f w :
  get_idle_fsm pool 0 = Some i → pool !! i = Some f → startable f → 0 ≤ r < FD_SETSIZE →
  len name + 1 ≤ 64 →
  returns w (upil_sm_start name 0 (Some (r, wr)) pool w) (λ b w', b = true ∧ ∃ qs ts ps, at_rest 0 w' qs ts ps).
Proof.
  intros Hi Hf (Hih & Hma & Hno) Hr Hname.
  destruct (obtain_fsm_ok pool i f 7 r wr Hi Hf Hih Hr) as (h & E & Hinv & Hlo & Hm & Ha).
  set (f1 := mkFSM [] true 7 None h (last_incoming_num f) (last_outgoing_num f)) in *.
  set (w1 := lset (A := FSM) f1 w).
  unfold upil_sm_start. erewrite bind_ok by (by change (len my_state_table) with 7; rewrite E).
  cbv iota beta. erewrite bind_ok.
  2:{ rewrite list_lookup_insert_eq by (by eapply lookup_lt_Some). done. }
  erewrite bind_ok by (by instantiate (1 := w1); instantiate (1 := tt)).
  apply (returns_from w w1); [done|]. eapply returns_bind.
  { apply (init_state_ok (tables := my_state_table) (ct := telephone) w1 UPIL_SM_OFFLINE);
      [done|done|done|by rewrite <-Hma, <-Ha|done..]. }
  intros r2 w2 (_ & qs & ts & Hr2).
  erewrite bind_ok by (by unfold lift; rewrite store_ok). erewrite bind_ok by done.
  apply returns_ok; [|done]. split; [done|]. exists qs, ts, []. destruct Hr2 as [[]]. by split; [split|].
Qed.

(** ** The runs *)

Abbreviation on_fsm_loop := (on_loop (W := world)).
Abbreviation deliver := (MachineProofs.deliver my_state_table).
Abbreviation outer_step := (MachineProofs.outer_step (W := world) telephone).

(** The machine of a pool, when it has been started. *)
Inductive started (w' : world) : Prop :=
  | started_from name r wr pool i f w :
      get_idle_fsm pool 0 = Some i → pool !! i = Some f → startable f → 0 ≤ r < FD_SETSIZE →
      len name + 1 ≤ 64 →
      upil_sm_start name 0 (Some (r, wr)) pool w = Ok (true, w') → started w'.

Abbreviation run := (machine_run my_state_table telephone started).

Lemma started_rest w : started w → ∃ qs ts ps, at_rest 0 w qs ts ps.
Proof.
  intros [name r wr pool i f w0 H1 H2 H3 H4 H5 E].
  exact (proj2 (returns_known _ _ _ _ _ (start_rest name r wr pool i f w0 H1 H2 H3 H4 H5) E)).
Qed.

Lemma starts_at_rest w : started w → ∃ i qs ts ps, at_rest i w qs ts ps.
Proof. intros Hw. exists 0%nat. by apply started_rest. Qed.

Lemma run_at_rest w : run w → ∃ i qs ts ps, at_rest i w qs ts ps.
Proof. exact (machine_run_rest (ct := telephone) started starts_at_rest w). Qed.

(** C1: in every run the machine is in one of its seven states, its queue,
    timers and pending events are well formed, there are at most 31 messages,
    and the messages that are allocated are exactly those on the queue: none
    is lost. *)
Theorem machine_invariant w :
  run w → ∃ (s : UPIL_SM) qs ts ps,
    upil_sm_get_current_state w = Ok (UPIL_SM_val s, w) ∧
    handler_inv (handler (fsm w)) qs [] [] ts ps ∧ len qs < MAX_MSG_QUEUE_SIZE ∧
    ∀ p, is_Some (msgs (handler (fsm w)) !! p) ↔ p ∈ qs.
Proof.
  intros (i & qs & ts & ps & [H1 Hlen H2 H3 [H4 Hlt] H5 H6 _] & Hq)%run_at_rest.
  cbn [states telephone lget world_fsm] in *.
  assert (∃ s : UPIL_SM, read_at state_ids (Z.of_nat i) = Ok (UPIL_SM_val s)) as [s Hs].
  { do 7 (destruct i as [|i]; [by eexists|]). lia. }
  exists s, qs, ts, ps. split_and!; [|done|done|].
  - unfold upil_sm_get_current_state. erewrite bind_ok by done. rewrite H4. unfold lift. by rewrite Hs.
  - intros p. split; [apply Hq|]. intros Hp. apply (hi_live _ _ _ _ _ _ H1).
    rewrite elem_of_app. by left.
Qed.

(** C2: a message never makes the machine fail, unless its name is not in
    the tables.  In every run, the first pending message is processed with the
    result 0, released, and leaves the machine in the state the message asks
    for, or in the same state; or a command of its handler waits for ever for
    a confirmation, which happens only with a device that leaves lines
    unconfirmed.  The start and the end of a recording read outside of the
    tables of the names.  The messages of a run are those of [msg_ok]: the
    number to dial has at most 56 keys and the number of a caller at most 127
    characters, which is what the lines of a command and the arrays of the
    machine have room for. *)
Theorem machine_processes_message w m x :
  run w → first_pending w = Some m → msgs (handler (fsm w)) !! m = Some x →
  (what x ≠ UPIL_CTL_RECORD_START → what x ≠ UPIL_CTL_RECORD_STOP → what x ≠ UPIL_EVT_RECORD_END →
    (∃ w' i, deliver m w = Ok (0, w') ∧ run w' ∧ msgs (handler (fsm w')) !! m = None ∧
      cur_state (fsm w) = Some i ∧ cur_state (fsm w') = Some (next_state i x)) ∨
    (deliver m w = Err Blocked ∧ ¬ answering (dev w))) ∧
  (what x = UPIL_CTL_RECORD_START ∨ what x = UPIL_CTL_RECORD_STOP ∨ what x = UPIL_EVT_RECORD_END →
    deliver m w = Err Overrun).
Proof.
  intros Hrun Hf Hx. destruct (run_at_rest w Hrun) as (i & qs & ts & ps & Hr).
  destruct (first_pending_head _ _ _ _ _ _ Hr Hf) as [ps' ->]; [by eexists|].
  destruct (msg2str_overrun (what x)) as [Ho Hok]. split.
  - intros N1 N2 N3. assert (named x) as Hn by (apply Hok; tauto).
    destruct (deliver_ok _ _ _ _ _ _ _ Hr Hx Hn)
      as [(r & w' & E & [-> (qs' & ts' & ps1 & Hr' & Hm & _)] & _)|Hb]; [left|by right].
    exists w', i. split_and!; [done|by eapply run_message; eauto|done|apply Hr|apply Hr'].
  - intros Hc%Ho. eapply deliver_nameless; [done|done|]. unfold named. by rewrite Hc.
Qed.

(** C3: the machine asks for states along the diagram alone.  Any request
    for a state that is queued after a message was there before, or is the one
    the diagram has for the state of the machine and the message. *)
Theorem machine_follows_diagram w m x w' i p y b n :
  run w → first_pending w = Some m → msgs (handler (fsm w)) !! m = Some x →
  deliver m w = Ok (0, w') → cur_state (fsm w) = Some i →
  msgs (handler (fsm w')) !! p = Some y → msgs (handler (fsm w)) !! p ≠ Some y →
  what y = UPIL_EVT_SM_TRANSITION → data y = Some b → bytes_int b = Ok n →
  requests i (what x) n = true.
Proof.
  intros Hrun Hf Hx E Hi Hy Hnew Hw Hb Hn. destruct (run_at_rest w Hrun) as (j & qs & ts & ps & Hr).
  destruct (first_pending_head _ _ _ _ _ _ Hr Hf) as [ps' ->]; [by eexists|].
  destruct (returns_known _ _ _ _ _ (deliver_ok _ _ _ _ _ _ _ Hr Hx (delivered_named _ _ _ _ _ _ _ _ Hr Hx E)) E)
    as (_ & qs' & ts' & ps1 & Hr' & _ & Ha & _).
  assert (cur_state (fsm w) = Some j) as Hj by apply Hr. rewrite Hi in Hj. injection Hj as <-.
  destruct (Ha p y Hy) as [?|Hreq]; [done|]. destruct (Hreq Hw) as (b' & n' & Hb' & Hn' & Hq).
  change (moves telephone i (what x) n = true). congruence.
Qed.

(** ** The turns of the loop *)

Abbreviation move := (machine_move (W := world) (tables := my_state_table) (ct := telephone)).
Abbreviation turn_fault := (TurnProofs.turn_fault (tables := my_state_table) (ct := telephone)).

(** C4: a turn of the loop of the messages serves what is due.  For every
    answer of [select], a turn of a machine with nothing pending is a sequence
    of steps of a run: it goes on, leaves nothing pending, and every message
    whose time has come was processed or taken back.  A turn has no other end
    when its due messages all have a name and are none of the [timeouts], and
    the device confirms every line.  The only faults are those of
    [turn_fault]: a message without a name, a message that a handler takes
    back when [fire] has read it as the next, and a wait for ever for a
    confirmation of the device.  The messages of a run are those of [msg_ok],
    with numbers to dial of at most 56 keys and numbers of callers of at most
    127 characters. *)
Theorem turn_serves_due sys sel w :
  run w → first_pending w = Some pending_list →
  let c := upile (loop (handler (fsm w))) in ∃ tv, calcNextTimeout c = Ok (tv, c) ∧
  ∀ woken n rfds, sel (nfds c) (readFds c) tv = (woken, Selected n rfds) →
  (∃ w', fsm_turn sys sel w = Ok (None, w') ∧ rtc move w w' ∧ run w' ∧
     first_pending w' = Some pending_list ∧
     ∀ p y, message_due w woken p y → msgs (handler (fsm w')) !! p = None) ∨
  (∃ e w1, fsm_turn sys sel w = Err e ∧ rtc move w w1 ∧ run w1 ∧ turn_fault w1 e ∧
     ((∃ p y, message_due w woken p y ∧ (¬ named y ∨ what y ∈ timeouts)) ∨ ¬ answering (dev w))).
Proof.
  intros Hrun Hf c.
  destruct (turn_serves (ct := telephone) (run_callback (λ m, on_fsm_handler (zoom m)) sys)
    (λ _ _ _, eq_refl) (λ _ _ _, eq_refl) started w starts_at_rest Hrun Hf) as (tv & Et & Hs).
  exists tv. split; [exact Et|]. intros woken n rfds Es.
  destruct (Hs sel woken n rfds Es) as [Hok|(e & w1 & E & Hm & Hr & Hf1 & Hu)]; [by left|right].
  exists e, w1. split_and!; [exact E|done..|].
  destruct Hu as [(p & y & Hd & Hu)|Hu]; [left|by right]. exists p, y. split; [done|].
  destruct Hu as [Hu|Hu]; [by left|right]. by apply bool_decide_eq_true in Hu.
Qed.
