(* ===== verification/EffectProofs.v ===== *)
(** * What a message does outside of the machine

    The handlers of the telephone act on the world around their machine: they
    send commands to the device and call the library of the sound.  An
    [Effect] says what it is to do a list of such actions; what a message does
    ([message_effect]) follows from what the entries and the handlers of the
    states do. *)

From S2P Require Import Prelude Dll EventLoop Handler HandlerProofs Messages TpProtocol StateMachine.
From S2P Require Import SendProofs Contract MachineProofs World UpilApi UpilSm UpilSmProofs RunProofs.

(** [R l w w']: from [w] to [w'] the actions [l] were done.  Changes of the
    machine alone are no action. *)
Class Effect {L : Type} (R : list L → world → world → Prop) : Prop := {
  effect_nil w : R [] w w;
  effect_app l k w1 w2 w3 : R l w1 w2 → R k w2 w3 → R (l ++ k) w1 w3;
  effect_fsm (f : FSM) w : R [] w (lset f w);
}.

(** [op] does [l] when it returns. *)
Definition does {L} (R : list L → world → world → Prop) {A} (l : list L) (op : MW A) : Prop :=
  ∀ w a w', op w = Ok (a, w') → R l w w'.

Section effect.
Context {L : Type} (R : list L → world → world → Prop) `{!Effect R}.
Notation does := (does R).

Lemma does_ret {A} (a : A) : does [] (mret a).
Proof. intros w b w' [= _ <-]. apply effect_nil. Qed.
Lemma does_skip : does [] skip.
Proof. apply does_ret. Qed.
Lemma does_gets {A} (f : world → A) : does [] (gets f).
Proof. intros w b w' [= _ <-]. apply effect_nil. Qed.
Lemma does_lift {A} (r : res A) : does [] (lift r).
Proof. intros w a w' E. unfold lift in E. destruct r; simplify_eq. apply effect_nil. Qed.

Lemma does_bind {A B} l k (op : MW A) (rest : A → MW B) :
  does l op → (∀ a, does k (rest a)) → does (l ++ k) (op ≫= rest).
Proof.
  intros Hop Hr w b w' (a & w1 & E1 & E2)%bind_inv. eapply effect_app; [by eapply Hop|by eapply Hr].
Qed.

Lemma does_bind_nil {A B} l (op : MW A) (rest : A → MW B) :
  does [] op → (∀ a, does l (rest a)) → does l (op ≫= rest).
Proof. apply (does_bind []). Qed.

Lemma does_bind_one {A B} o l (op : MW A) (rest : A → MW B) :
  does [o] op → (∀ a, does l (rest a)) → does (o :: l) (op ≫= rest).
Proof. apply (does_bind [o]). Qed.

Lemma does_drop {A} l (op : MW A) : does l op → does l (op;; skip).
Proof.
  intros Hop. rewrite <-(app_nil_r l). apply does_bind; [done|]. intros _. apply does_skip.
Qed.

Lemma does_when (b : bool) op : does [] op → does [] (when b op).
Proof. intros Hop. destruct b; [done|apply does_skip]. Qed.

(** Code on the machine does nothing. *)
Lemma does_fsm {A} (op : M FSM A) : does [] (zoom op).
Proof.
  intros w a w' E. unfold zoom in E. destruct (op _) as [[b f]|]; [|done]. injection E as _ <-.
  apply effect_fsm.
Qed.
Lemma does_handler {A} (op : MH A) : does [] (on_fsm_handler op).
Proof. apply does_fsm. Qed.
Lemma does_post what msec : does [] (post_delay what msec).
Proof. apply does_drop, does_handler. Qed.
Lemma does_go_to id : does [] (go_to id).
Proof. apply does_drop, does_handler. Qed.
Lemma does_cancel what : does [] (cancel what).
Proof. apply does_handler. Qed.
Lemma does_set_fsm f : does [] (set_fsm f).
Proof. apply does_fsm. Qed.
Lemma does_hangup : does [] upil_sm_hangup.
Proof. apply does_handler. Qed.

(** ** What a message does *)

(** What the entry of each state does, and the handler of each for a message. *)
Context (enter_effect : nat → list L) (process_effect : nat → MSG → list L).
Hypothesis enter_does : ∀ i st f,
  read_at my_state_table (Z.of_nat i) = Ok st → enter_func st = Some f → does (enter_effect i) f.
Hypothesis process_does : ∀ i st f m x w a w',
  read_at my_state_table (Z.of_nat i) = Ok st → process_func st = Some f →
  cur_state (fsm w) = Some i → msgs (handler (fsm w)) !! m = Some x → f m w = Ok (a, w') →
  R (process_effect i x) w w'.

Definition message_effect (i : nat) (x : MSG) : list L :=
  if what x =? UPIL_EVT_SM_TRANSITION then
    if decide (next_state i x = i) then [] else enter_effect (next_state i x)
  else process_effect i x.

Lemma transition_does n i w a w' :
  cur_state (fsm w) = Some i → (i < 7)%nat → fsm_size (fsm w) = 7 → 0 ≤ n < 7 →
  transition_to my_state_table n w = Ok (a, w') →
  R (if decide (Z.to_nat n = i) then [] else enter_effect (Z.to_nat n)) w w'.
Proof using enter_does Effect0.
  intros Hi Hlt Hsz Hn. destruct (state_at _ Hlt) as (st & f & g & Est & Eid & _ & Eexit & _).
  destruct (state_at (Z.to_nat n)) as (st' & f' & g' & Est' & _ & Eenter & _); [lia|].
  unfold transition_to. rewrite bind_ok with (a := Some st) (s' := w) by (by apply (current_ok i)).
  cbv iota beta. rewrite Eid. destruct (Z.eqb_spec (Z.of_nat i) n) as [<-|Hne].
  { intros [= _ <-]. rewrite Nat2Z.id, decide_True by done. apply effect_nil. }
  rewrite decide_False by lia.
  rewrite bind_ok with (a := Some (Z.to_nat n)) (s' := w) by (by apply (get_state_ok (ct := telephone))).
  cbv iota beta. rewrite Eexit. intros ([] & w1 & [= <-] & E)%bind_inv.
  apply bind_inv in E as ([] & w2 & [= <-] & E).
  rewrite bind_lift with (a := st') in E by done. rewrite Eenter in E.
  apply bind_inv in E as ([] & w3 & E3 & E). apply bind_inv in E as (b & w4 & E4 & [= _ <-]).
  eapply (effect_app []); [apply (effect_fsm (set_cur_state (Some (Z.to_nat n)) (fsm w)))|].
  rewrite <-(app_nil_r (enter_effect _)).
  eapply effect_app; [by eapply (enter_does _ _ _ Est' Eenter)|by eapply does_handler].
Qed.

Lemma dispatch_does i st f m x w a w' :
  cur_state (fsm w) = Some i → (i < 7)%nat → fsm_size (fsm w) = 7 → msg_ok x →
  read_at my_state_table (Z.of_nat i) = Ok st → process_func st = Some f →
  msgs (handler (fsm w)) !! m = Some x →
  (if what x =? UPIL_EVT_SM_TRANSITION then
     b ← lift (deref (data x));
     n ← lift (bytes_int b);
     transition_to my_state_table n
   else process_msg my_state_table m) w = Ok (a, w') → R (message_effect i x) w w'.
Proof using enter_does process_does Effect0.
  intros Hi Hlt Hsz Hok Est Ef Hx E. unfold msg_ok in Hok. unfold message_effect, next_state.
  destruct (what x =? UPIL_EVT_SM_TRANSITION).
  - destruct Hok as (b & n & Eb & En & Hn). rewrite Eb, En in *.
    rewrite bind_lift with (a := b), bind_lift with (a := n) in E by done.
    exact (transition_does n i w _ _ Hi Hlt Hsz Hn E).
  - unfold process_msg in E. rewrite bind_ok with (a := Some st) (s' := w) in E by (by apply (current_ok i)).
    rewrite Ef in E. rewrite bind_ok with (a := x) (s' := w) in E by (apply zoom_read, zoom_read, msg_at_ok, Hx).
    destruct (msg2str (what x)) as [str|] eqn:Es; [|done]. rewrite bind_lift with (a := str) in E by done.
    exact (process_does _ _ _ _ _ _ _ _ Est Ef Hi Hx E).
Qed.

(** From the removal of the message from its queue to its release. *)
Lemma deliver_does i w qs ts ps m x ret w' :
  at_rest i w qs ts (m :: ps) → msgs (handler (fsm w)) !! m = Some x →
  deliver m w = Ok (ret, w') → R (message_effect i x) w w'.
Proof using enter_does process_does Effect0.
  intros Hr Hx. pose proof Hr as [[_ _ _ H3 _ _ _ _] _]. pose proof (H3 _ _ Hx) as Hok.
  destruct (taken_ok _ _ _ _ _ _ _ (λ _, true) Hr Hx) as (w0 & h & E0 & E1 & _ & Em & Hinv).
  set (w1 := lset (lset h (lget (A := FSM) w0)) w0) in *.
  pose proof Hinv as (qs1 & ts1 & ps1 & [_ _ _ _ [Hi Hlt] Hsz _ _] & Hm & _).
  destruct (Hm m x eq_refl) as [Hx1 _]. cbn [states accepts telephone lget world_fsm v_state] in *.
  destruct (state_at _ Hlt) as (st & f & g & Est & _ & _ & _ & Eg & _).
  unfold deliver, sm_process_message, on_handler. rewrite (bind_ok _ _ _ _ _ E0).
  rewrite bind_ok with (a := tt) (s' := w1) by (apply (zoom_ok _ w0), (zoom_ok _ (fsm w0)); exact E1).
  rewrite bind_ok with (a := x) (s' := w1) by (apply zoom_read, zoom_read, msg_at_ok, Hx1).
  intros (r & w2 & E2 & ([] & w3 & E3 & [= _ <-])%bind_inv)%bind_inv.
  rewrite <-(app_nil_r (message_effect i x)).
  apply (effect_app [] (message_effect i x ++ []) w w0); [by eapply does_handler|].
  apply (effect_app [] (message_effect i x ++ []) w0 w1); [apply effect_fsm|].
  eapply effect_app; [by eapply (dispatch_does i st g m x w1)|by eapply does_handler].
Qed.

(** In a run, the state of the machine says what a message does. *)
Lemma message_does w m x w' i :
  run w → first_pending w = Some m → msgs (handler (fsm w)) !! m = Some x → deliver m w = Ok (0, w') →
  cur_state (fsm w) = Some i → R (message_effect i x) w w'.
Proof using enter_does process_does Effect0.
  intros Hrun Hf Hx E Hi. destruct (run_at_rest w Hrun) as (j & qs & ts & ps & Hr).
  destruct (first_pending_head _ _ _ _ _ _ Hr Hf) as [ps' ->]; [by eexists|].
  assert (cur_state (fsm w) = Some j) as Hj by apply Hr. rewrite Hi in Hj. injection Hj as <-.
  by eapply deliver_does.
Qed.

(** A handler reads its message, and then works. *)
Lemma handle_at m x l (body : MSG → MW unit) w a w' :
  msgs (handler (fsm w)) !! m = Some x → (∀ b w1, body x w = Ok (b, w1) → R l w w1) →
  (y ← on_fsm_handler (msg_at m); body y;; mret HANDLED) w = Ok (a, w') → R l w w'.
Proof.
  intros Hx Hl. rewrite bind_ok with (a := x) (s' := w) by (apply zoom_read, zoom_read; by apply msg_at_ok).
  intros (b & w1 & E & [= _ ->])%bind_inv. by eapply Hl.
Qed.

Lemma handle_does m x l (body : MSG → MW unit) w a w' :
  msgs (handler (fsm w)) !! m = Some x → does l (body x) →
  (y ← on_fsm_handler (msg_at m); body y;; mret HANDLED) w = Ok (a, w') → R l w w'.
Proof. intros Hx Hl. apply (handle_at m x l body w); [done|]. by apply Hl. Qed.
End effect.

(** The seven states of the table. *)
Lemma table_states (P : nat → FSM_STATE world → Prop) :
  (∀ i st, (i < 7)%nat → my_state_table !! i = Some st → P i st) →
  ∀ i st, read_at my_state_table (Z.of_nat i) = Ok st → P i st.
Proof.
  intros HP i st E. unfold read_at in E. case_decide; [|done]. rewrite Nat2Z.id in E.
  destruct (my_state_table !! i) as [st'|] eqn:Ei; [|done]. injection E as <-.
  apply HP; [|done]. by apply lookup_lt_Some in Ei.
Qed.

(** The tests on the number of the message, and then the calls one after the
    other: each does nothing, or the first of the actions that are left. *)
Create HintDb effect.
#[export] Hint Resolve does_ret does_skip does_gets does_lift does_fsm does_handler does_post does_go_to
  does_cancel does_set_fsm does_hangup : effect.
#[export] Hint Extern 0 (Effect _) => (apply _) : effect.

Ltac split_what :=
  repeat match goal with
  | |- context [?k =? ?j] =>
      first [is_var k; destruct (Z.eqb_spec k j) as [->|_]
            |let b := eval vm_compute in (k =? j) in change (k =? j) with b]; cbn [orb]; cbv iota
  end.

Ltac does_steps :=
  lazymatch goal with
  | |- does _ _ (_ ≫= _) =>
      first [ apply does_bind_nil; [apply _|solve [does_steps]|intros ?]
            | apply does_bind_one; [apply _|solve [does_steps]|intros ?] ]; does_steps
  | |- does _ _ (when _ _) => apply does_when; [apply _|does_steps]
  | |- does _ _ (match ?x with _ => _ end) => first [solve [auto with effect]|destruct x; does_steps]
  | |- _ => auto with effect
  end.
