(* ===== verification/DeviceProofs.v ===== *)
(** * The commands a message sends to the telephone

    Which commands the entries and the handlers of the states send: what a
    message does to the device is to run these commands, one after the
    other. *)

From S2P Require Import Prelude CString Dll EventLoop Handler HandlerProofs Messages TpProtocol StateMachine.
From S2P Require Import SendProofs MachineProofs World UpilApi Ril Monitor UpilSm UpilSmProofs RunProofs EffectProofs.

(** The arguments of a [tpp_send_cmd]. *)
Definition command : Type := Z * option (list Z) * Z.
Definition plain_cmd (req : Z) : command := (req, None, 0).

Fixpoint run_commands (l : list command) : MD unit :=
  match l with
  | [] => skip
  | (req, data, data_size) :: l => tpp_send_cmd req data data_size;; run_commands l
  end.

(** The commands on the entry of a state. *)
Definition enter_commands (i : nat) : list command :=
  match i with
  | 1%nat => map (plain_cmd ∘ UPILReq_val)
           [UPIL_CTL_USB_ON; UPIL_ASK_HARDWARE_INF; UPIL_ASK_READ_SN; UPIL_ASK_GET_VERSION;
            UPIL_ASK_PHONE_STATE; UPIL_ASK_RECORD_UP; UPIL_CTL_RINGER_OFF; UPIL_CTL_SET_TIME]
  | 5%nat => [plain_cmd UPIL_CTL_RECORD_LINE_PLAY_ON; plain_cmd UPIL_ASK_BUSY_TONE]
  | 6%nat => [plain_cmd UPIL_CTL_HANDFREE_ON]
  | _ => []
  end.

(** A telephone that is there is kept alive. *)
Definition default_commands (i : nat) (k : Z) : list command :=
  if (i =? 0)%nat then [] else if k =? UPIL_CTL_USB_ON then [plain_cmd UPIL_CTL_USB_ON] else [].

(** The commands of a message that asks for no state. *)
Definition process_commands (i : nat) (x : MSG) : list command :=
  let k := what x in
  let hooks := (k =? UPIL_CTL_HANDFREE_ON) || (k =? UPIL_CTL_HANDFREE_OFF) in
  let hung_up := (k =? UPIL_EVT_HFREE_HOOK_OFF) || (k =? UPIL_EVT_HAND_HOOK_OFF) in
  let picked_up :=
    (k =? UPIL_EVT_HAND_HOOK_ON) || (k =? UPIL_EVT_HFREE_HOOK_ON) || (k =? UPIL_EVT_PARALL_HOOK_ON) in
  match i with
  | 2%nat => if k =? UPIL_CTL_HANDFREE_ON then [plain_cmd k] else default_commands i k
  | 3%nat => if k =? UPIL_ASK_DTMF_TX then [(k, data x, data_size x)]
         else if k =? UPIL_CTL_HANDFREE_OFF then [plain_cmd k]
         else default_commands i k
  | 4%nat => if hooks then [plain_cmd k] else default_commands i k
  | 5%nat => if k =? UPIL_CTL_HANDFREE_OFF then [plain_cmd k]
         else if hung_up then [plain_cmd UPIL_CTL_RECORD_LINE_PLAY_OFF]
         else default_commands i k
  | 6%nat => if picked_up then [plain_cmd UPIL_CTL_RECORD_LINE_PLAY_ON; plain_cmd UPIL_ASK_BUSY_TONE]
         else if hooks then [plain_cmd k]
         else if k =? UPIL_EVT_RECORD_END then [plain_cmd UPIL_CTL_HANDFREE_OFF]
         else if hung_up then [plain_cmd UPIL_CTL_RECORD_LINE_PLAY_OFF]
         else default_commands i k
  | _ => default_commands i k
  end.

(** The commands of the message [x] in the state [i]. *)
Definition message_commands (i : nat) (x : MSG) : list command :=
  message_effect enter_commands process_commands i x.

(** ** The calls of a handler *)

(** The device is as after the commands [l]. *)
Definition commanded (l : list command) (w w' : world) : Prop := run_commands l (dev w) = Ok (tt, dev w').

Lemma run_commands_app l k d d1 d2 :
  run_commands l d = Ok (tt, d1) → run_commands k d1 = Ok (tt, d2) → run_commands (l ++ k) d = Ok (tt, d2).
Proof.
  revert d. induction l as [|[[req data] n] l IH]; intros d; cbn [run_commands app]; [by intros [= ->]|].
  intros (ret & d0 & E & E1)%bind_inv E2. rewrite (bind_ok _ _ _ _ _ E). by apply IH.
Qed.

#[export] Instance commanded_effect : Effect commanded.
Proof. split; unfold commanded; [done| |done]. intros l k w1 w2 w3. apply run_commands_app. Qed.

Lemma commanded_leaves {A} (op : MW A) : leaves dev op → does commanded [] op.
Proof. intros H w a w' E. unfold commanded. by rewrite (H _ _ _ E). Qed.

Lemma commanded_one req data n : does commanded [(req, data, n)] (zoom (tpp_send_cmd req data n)).
Proof.
  intros w ret w' E. unfold zoom in E. unfold commanded. cbn [run_commands].
  destruct (tpp_send_cmd req data n (lget w)) as [[r d]|] eqn:Ed; [|done]. injection E as _ <-.
  by rewrite (bind_ok _ _ _ _ _ Ed).
Qed.

Lemma commanded_plain req : does commanded [plain_cmd req] (send_cmd_noparam req).
Proof. apply does_drop; [apply _|apply commanded_one]. Qed.
Lemma commanded_emit o : does commanded [] (emit o).
Proof. apply commanded_leaves. leaves. Qed.
Lemma commanded_monitor msg data : does commanded [] (sendto_monitor msg data).
Proof. apply commanded_leaves. unfold sendto_monitor, upil_ril_unsolicited, process_reply. leaves. Qed.
Lemma commanded_ring n : does commanded [] (modify (set_ring_count n)).
Proof. apply commanded_leaves. leaves. Qed.
Lemma commanded_rings : does commanded [] (modify (λ w, set_ring_count (s_ring_count w + 1) w)).
Proof. apply commanded_leaves. leaves. Qed.
#[local] Hint Resolve commanded_one commanded_plain commanded_emit commanded_monitor commanded_ring commanded_rings : effect.

(** ** What a message sends *)

Lemma commanded_default m x i w a w' :
  cur_state (fsm w) = Some i → (i < 7)%nat → msgs (handler (fsm w)) !! m = Some x →
  (default_process m;; skip) w = Ok (a, w') → commanded (default_commands i (what x)) w w'.
Proof.
  intros Hi Hlt Hx (ret & w1 & E & [= _ <-])%bind_inv. revert E. unfold default_process.
  rewrite bind_ok with (a := x) (s' := w) by (apply zoom_read, zoom_read; by apply msg_at_ok).
  rewrite bind_gets, Hi, bind_lift with (a := i) by done.
  rewrite bind_lift with (a := Z.of_nat i) by (destruct i as [|[|[|[|[|[|[|i]]]]]]]; [done..|lia]).
  intros (b & w2 & E & [= _ <-])%bind_inv. refine ((_ : does commanded _ _) _ _ _ E).
  destruct i as [|i]; [apply does_skip; apply _|].
  change (Z.of_nat (S i) =? UPIL_SM_OFFLINE) with false. unfold default_commands. cbn [Nat.eqb]. cbv iota.
  generalize (what x). intros k. split_what; does_steps.
Qed.

Lemma enter_commanded i st f :
  read_at my_state_table (Z.of_nat i) = Ok st → enter_func st = Some f → does commanded (enter_commands i) f.
Proof.
  revert i st. apply (table_states (λ i st, enter_func st = Some f → does commanded (enter_commands i) f)).
  intros i st Hi Est Ef. destruct i as [|[|[|[|[|[|[|i]]]]]]]; [..|lia].
  all: injection Est as <-; injection Ef as <-; cbn [enter_commands map compose].
  - unfold offline_enter. does_steps. - unfold syncing_enter. does_steps. - unfold idle_enter. does_steps.
  - unfold dialing_enter. does_steps. - unfold incoming_enter. does_steps. - unfold conversation_enter. does_steps.
  - unfold memo_enter. does_steps.
Qed.

Lemma process_commanded i st f m x w a w' :
  read_at my_state_table (Z.of_nat i) = Ok st → process_func st = Some f →
  cur_state (fsm w) = Some i → msgs (handler (fsm w)) !! m = Some x → f m w = Ok (a, w') →
  commanded (process_commands i x) w w'.
Proof.
  intros Est Ef Hc Hx. pose proof (λ b w1 Hlt, commanded_default m x i w b w1 Hc Hlt Hx) as Hd. clear Hc.
  revert i st Est Ef Hd.
  apply (table_states (λ i st, process_func st = Some f →
    (∀ b w1, (i < 7)%nat → (default_process m;; skip) w = Ok (b, w1) → commanded (default_commands i (what x)) w w1) →
    f m w = Ok (a, w') → commanded (process_commands i x) w w')).
  intros i st Hi Est Ef Hd. specialize (λ b w1, Hd b w1 Hi).
  destruct i as [|[|[|[|[|[|[|i]]]]]]]; [..|lia].
  all: injection Est as <-; injection Ef as <-; apply (handle_at commanded m x _ _ w a w' Hx).
  all: unfold process_commands, stop_memo_flow; cbv zeta; revert Hd; generalize (what x); intros k Hd.
  all: split_what; first [exact Hd|intros b w1 E; refine ((_ : does commanded _ _) _ _ _ E); does_steps].
Qed.

(** C6: The commands that a message sends to the telephone depend on the message
    and on the state of the machine alone: in every run, when the first pending
    message is processed to its end, the device is as after the commands of the
    table [message_commands], one after the other and each with the lines, the
    signals and the error of its [tpp_send_cmd]. *)
Theorem message_runs_commands w m x w' i :
  run w → first_pending w = Some m → msgs (handler (fsm w)) !! m = Some x → deliver m w = Ok (0, w') →
  cur_state (fsm w) = Some i → run_commands (message_commands i x) (dev w) = Ok (tt, dev w').
Proof. exact (message_does commanded _ _ enter_commanded process_commanded w m x w' i). Qed.
