(* ===== verification/Ctrl.v ===== *)
(** * The client library: src/upil_ctrl.c, and src/upil_client.c

    [client] holds the static descriptors of the library and what it does to
    its sockets.  The peer and the system answer through [ctrl_sys]. *)

From stdpp Require Import strings.
From S2P Require Import Prelude CString Messages Receive Commands.

Inductive client_output : Type :=
  | Client_sent (fd : Z) (bytes : list Z)
  | Client_closed (fd : Z)
  | Client_wakeup (fd : Z)          (* a byte written to the wake-up descriptor *)
  | Client_print (line : list Z)
  | Client_killed.                  (* kill(0, SIGKILL) *)

Record client := Client {
  s_fd_sender : Z;
  s_fd_monitor : Z;
  s_fd_wakeup : Z;
  cl_out : list client_output;
}.

(** What comes back for a command. *)
Inductive exchange : Type :=
  | SendFails
  | NoAnswer                        (* select fails, or three seconds pass *)
  | RecvFails
  | Received (msg : list Z).        (* at most 511 bytes *)

Record ctrl_sys := CtrlSys {
  cs_socket : Z;
  cs_connect : Z;
  cs_exchange : list Z → exchange;
  cs_pipe : option (Z * Z);
  (* what select() and recv() give on the monitor socket: None when it is
     the pipe that is ready *)
  cs_monitor : option (Z * list Z);
}.

Abbreviation MK := (M client).

Definition set_fd_sender (n : Z) (c : client) : client :=
  Client n (s_fd_monitor c) (s_fd_wakeup c) (cl_out c).
Definition set_fd_monitor (n : Z) (c : client) : client :=
  Client (s_fd_sender c) n (s_fd_wakeup c) (cl_out c).
Definition set_fd_wakeup (n : Z) (c : client) : client :=
  Client (s_fd_sender c) (s_fd_monitor c) n (cl_out c).
Definition say (o : client_output) : MK unit := modify (λ c,
  Client (s_fd_sender c) (s_fd_monitor c) (s_fd_wakeup c) (cl_out c ++ [o])).

Section client.
Variable sys : ctrl_sys.

(** [strcpy(reply, s)] into an array [reply]. *)
Definition strcpy (reply s : list Z) : res (list Z) := blit reply 0 (s ++ [0]).

(** The result, and the array [reply] after the call. *)
Definition upil_ctrl_request (cmd reply : list Z) : MK (Z * list Z) :=
  reply ← lift (write_at reply 0 0);
  c ← get;
  say (Client_sent (s_fd_sender c) cmd);;
  match cs_exchange sys cmd with
  | SendFails => mret (-1, reply)
  | NoAnswer => mret (-2, reply)
  | RecvFails => mret (-2, reply)
  | Received bytes =>
      msg ← lift (cstr (bytes ++ [0]));
      if strncmp_eq msg REPLY_SUCCESS (length REPLY_SUCCESS) then
        r ← lift (strcpy reply (drop (length REPLY_SUCCESS) msg)); mret (0, r)
      else if strncmp_eq msg REPLY_FAILURE (length REPLY_FAILURE) then
        r ← lift (strcpy reply (drop (length REPLY_FAILURE) msg)); mret (-3, r)
      else r ← lift (strcpy reply msg); mret (-3, r)
  end.

Definition upil_ctrl_dial (number : option (list Z)) : MK Z :=
  let text := UPIL_CTRL_DIAL ++ default [] number in
  lift (strcpy (replicate 64 0) text);;
  '(ret, _) ← upil_ctrl_request text (replicate 10 0);
  mret (if ret <? 0 then -1 else 0).

Definition upil_ctrl_hangup : MK Z :=
  '(ret, _) ← upil_ctrl_request UPIL_CTRL_HANGUP (replicate 128 0);
  mret (if ret <? 0 then -1 else 0).

(** The result and the array [version] after the call. *)
Definition upil_ctrl_get_version (version : list Z) : MK (Z * list Z) :=
  '(ret, reply) ← upil_ctrl_request UPIL_CTRL_GET_VER (replicate 128 0);
  if ret <? 0 then mret (-1, version) else
  s ← lift (cstr reply);
  match s with
  | [] => mret (0, version)
  | _ => v ← lift (strcpy version s); mret (0, v)
  end.

(** [None]: nothing is stored. *)
Definition upil_ctrl_get_state : MK (Z * option Z) :=
  '(ret, reply) ← upil_ctrl_request UPIL_CTRL_GET_STATE (replicate 128 0);
  if ret <? 0 then mret (-1, None) else
  s ← lift (cstr reply);
  match s with
  | [] => mret (0, None)
  | _ => mret (0, Some (atoi s))
  end.

Definition upil_ctrl_connect : MK Z :=
  modify (set_fd_sender (cs_socket sys));;
  if cs_socket sys <=? 0 then mret (-1)
  else if cs_connect sys <? 0 then mret (-1) else mret 0.

Definition upil_ctrl_disconnect : MK Z :=
  c ← get;
  when (0 <=? s_fd_sender c) (say (Client_closed (s_fd_sender c)));;
  modify (set_fd_monitor (-1));;
  mret 0.

Definition upil_monitor_connect : MK Z :=
  modify (set_fd_monitor (cs_socket sys));;
  if cs_socket sys <=? 0 then mret (-1)
  else if cs_connect sys <? 0 then mret (-1) else mret 0.

Definition upil_monitor_disconnect : MK Z :=
  c ← get;
  when (0 <=? s_fd_wakeup c) (say (Client_wakeup (s_fd_wakeup c)));;
  modify (set_fd_wakeup (-1));;
  when (0 <=? s_fd_monitor c) (say (Client_closed (s_fd_monitor c)));;
  modify (set_fd_monitor (-1));;
  mret 0.

(** The array is [buf]; the number of bytes, and the array. *)
Definition upil_monitor_recv (buf : list Z) : MK (Z * list Z) :=
  match cs_pipe sys with
  | None => mret (-1, buf)
  | Some (r, w) =>
      modify (set_fd_wakeup r);;
      '(ret, buf) ← match cs_monitor sys with
        | Some (n, bytes) =>
            b ← lift (if n <=? 0 then Ok buf else blit buf 0 bytes);
            let ret := if n <=? 0 then -1 else n in
            b ← lift (write_at b ret 0);
            mret (ret, b)
        | None => mret (-1, buf)
        end;
      say (Client_closed r);;
      say (Client_closed w);;
      modify (set_fd_wakeup 0);;
      mret (ret, buf)
  end.

Definition upil_connect : MK Z :=
  ret ← upil_ctrl_connect;
  if ret <? 0 then mret (-1) else
  ret ← upil_monitor_connect;
  if ret <? 0 then upil_ctrl_disconnect;; mret (-2) else mret 0.

Definition upil_disconnect : MK unit :=
  upil_ctrl_disconnect;; upil_monitor_disconnect;; skip.

(** [junk]: what the variable holds when nothing is stored in it. *)
Definition upil_is_device_exist (junk : Z) : MK Z :=
  '(ret, state) ← upil_ctrl_get_state;
  mret (if (ret <? 0) || (default junk state =? UPIL_SM_OFFLINE) then 0 else 1).

Definition upil_is_device_ready (junk : Z) : MK Z :=
  '(ret, state) ← upil_ctrl_get_state;
  mret (if (ret <? 0) || (default junk state <? UPIL_SM_IDLE) then 0 else 1).

Definition upil_ril_write (buffer : list Z) : MK Z :=
  (if strncmp_eq buffer (lit "ATD") 3 then upil_ctrl_dial (Some (drop 3 buffer));; skip
   else skip);;
  mret 0.

(** The first record is dropped. *)
Definition upil_ril_read (buffer : list Z) : MK (Z * list Z) :=
  '(rb, buffer) ← upil_monitor_recv buffer;
  if rb <=? 0 then mret (rb, buffer) else upil_monitor_recv buffer.

(** The command loop of the test client. *)
Fixpoint client_loop (lines : list (list Z)) : MK unit :=
  match lines with
  | [] => skip
  | line :: lines' =>
      if strcmp_eq line (lit "EXIT") then skip
      else if strcmp_eq line (lit "HELP") then
        say (Client_print (lit "-------- upil command --------"));;
        client_loop lines'
      else match line with
      | [] => client_loop lines'
      | _ =>
          '(_, response) ← upil_ctrl_request line (replicate 1024 0);
          s ← lift (cstr response);
          match s with [] => skip | _ => say (Client_print s) end;;
          client_loop lines'
      end
  end.
End client.

(** The thread that prints what the monitor socket has, up to an error, with
    the answers of the system to each turn. *)
Fixpoint readLoop (turns : list ctrl_sys) (buf : list Z) : MK unit :=
  match turns with
  | [] => fail Blocked
  | sys :: turns =>
      '(ret, buf) ← upil_monitor_recv sys buf;
      if ret <? 0 then
        say (Client_print (lit "exit read loop"));; say Client_killed
      else
        line ← lift (cstr buf);
        say (Client_print (lit "<< " ++ line));;
        readLoop turns buf
  end.
