(* ===== verification/CtrlProofs.v ===== *)
(** * The client library and the daemon together

    [served w fd] answers a command of the client as the daemon in the state
    [w] does, on its command socket [fd].  The theorems state what the
    functions of the library return for that daemon. *)

From stdpp Require Import strings.
From S2P Require Import Prelude CString Dll EventLoop Handler Messages TpProtocol StateMachine.
From S2P Require Import World UpilApi Receive Commands Ctrl.

(** ** The two ends *)

(** What the daemon sends when it receives the command. *)
Definition answer (w : world) (fd : Z) (cmd : list Z) : option (list Z) :=
  match processCtrlCallback fd (Some cmd) w with
  | Ok (_, w') =>
      match drop (length (out w)) (out w') with
      | [Sent _ bytes] => Some bytes
      | _ => None
      end
  | Err _ => None
  end.

Definition served (w : world) (fd : Z) (cmd : list Z) : exchange :=
  match answer w fd cmd with Some bytes => Received bytes | None => NoAnswer end.

Definition daemon_sys (w : world) (fd : Z) : ctrl_sys :=
  CtrlSys 3 0 (served w fd) None None.

(** The machine does not see the command buffer. *)
Lemma zoom_fsm_cmd {A} (op : M FSM A) (c : command_state) w :
  zoom op (lset c w) =
  match op (fsm w) with Ok (a, f) => Ok (a, lset f (lset c w)) | Err e => Err e end.
Proof. done. Qed.

Lemma serve_ok w fd cmd result reply w' :
  len cmd ≤ 511 → Forall (λ c, c ≠ 0) cmd →
  (∀ c : command_state, ctrl_command cmd (lset c w) = Ok (Some (result, reply), lset c w')) →
  out w' = out w → ∃ w2,
  processCtrlCallback fd (Some cmd) w = Ok (0, w2) ∧ fsm w2 = fsm w' ∧
  out w2 = out w ++ [Sent fd (reply_text result reply)].
Proof.
  intros Hlen Hnz Hc Hout.
  set (zeros := replicate (Z.to_nat UPIL_MAX_MSG_LEN) 0).
  assert (len zeros = 512) as Hz by done.
  assert (blit zeros 0 cmd = Ok (cmd ++ drop (length cmd) zeros)) as Eb.
  { rewrite (blit_ok zeros 0 cmd) by lia.
    change (take (Z.to_nat 0) zeros) with (@nil Z). cbn [app]. do 3 f_equal. unfold len. lia. }
  assert (cstr (cmd ++ drop (length cmd) zeros) = Ok cmd) as Es.
  { unfold zeros. rewrite drop_replicate. change (Z.to_nat UPIL_MAX_MSG_LEN) with 512%nat.
    assert (∃ k, (512 - length cmd)%nat = S k) as [k Hk].
    { exists (511 - length cmd)%nat. unfold len in Hlen. lia. }
    rewrite Hk. by apply cstr_app. }
  set (c := set_cmd_buf (cmd ++ drop (length cmd) zeros) (set_cmd_buf zeros (World.cmd w))).
  assert (processCtrlCallback fd (Some cmd) w = (processCtrlBuffer fd cmd;; mret 0) (lset c w)) as E.
  { unfold processCtrlCallback. fold zeros. rewrite Eb. unfold mbind, M_bind, lift at 1.
    cbn [zoom lget lset world_cmd modify]. rewrite Es. done. }
  eexists. split.
  - rewrite E. unfold processCtrlBuffer. by erewrite bind_ok by (erewrite bind_ok by apply Hc; done).
  - split; [done|]. simpl. by rewrite Hout.
Qed.

Lemma answer_ok w fd cmd w2 reply :
  processCtrlCallback fd (Some cmd) w = Ok (0, w2) → out w2 = out w ++ [Sent fd reply] →
  answer w fd cmd = Some reply.
Proof. intros E Ho. unfold answer. rewrite E, Ho, drop_app_length. done. Qed.

(** ** The client *)

Definition sent (cmd : list Z) (c : client) : client :=
  Client (s_fd_sender c) (s_fd_monitor c) (s_fd_wakeup c)
    (cl_out c ++ [Client_sent (s_fd_sender c) cmd]).

(** A reply of the daemon taken apart, into an array it fits. *)
Lemma request_ok sys cmd buf c result text :
  cs_exchange sys cmd = Received (reply_text result (Some text)) → Forall (λ c, c ≠ 0) text →
  len text ≤ 500 → len text < len buf →
  upil_ctrl_request sys cmd buf c =
    Ok ((if result =? 0 then 0 else -3, text ++ 0 :: drop (S (length text)) buf), sent cmd c).
Proof.
  intros Hx Hnz Ht Hb. unfold upil_ctrl_request. pose proof (len_nonneg text).
  destruct buf as [|x buf]; [rewrite len_nil in Hb; lia|]. rewrite len_cons in Hb.
  assert (write_at (x :: buf) 0 0 = Ok (0 :: buf)) as E0.
  { unfold write_at. pose proof (len_nonneg buf). rewrite blit_ok; [done|lia|].
    unfold len. simpl. lia. }
  erewrite bind_ok by (by rewrite E0). erewrite bind_ok by done. erewrite bind_ok by done.
  rewrite Hx. set (pre := if negb (result =? 0) then REPLY_FAILURE else REPLY_SUCCESS).
  assert (reply_text result (Some text) = pre ++ text) as Er.
  { unfold reply_text. fold pre. cbn [default]. apply take_ge. rewrite length_app.
    assert (length pre ≤ 9)%nat by (unfold pre; by destruct (negb _)).
    change (Z.to_nat UPIL_MAX_MSG_LEN - 1)%nat with 511%nat. unfold len in Ht.
    change (id text) with text. lia. }
  rewrite Er. assert (cstr ((pre ++ text) ++ [0]) = Ok (pre ++ text)) as Ec.
  { apply cstr_app, Forall_app. split; [|done].
    unfold pre. destruct (negb _); by apply (bool_decide_unpack _). }
  erewrite bind_ok by (by rewrite Ec).
  assert (strcpy (0 :: buf) text = Ok (text ++ 0 :: drop (S (length text)) (x :: buf))) as Es.
  { unfold strcpy. rewrite blit_ok; [|lia|unfold len in *; rewrite length_app; simpl; lia].
    f_equal. rewrite <-app_assoc. cbn [app]. change (take (Z.to_nat 0) (0 :: buf)) with (@nil Z).
    cbn [app]. do 2 f_equal. rewrite len_app. change (len [0]) with 1. unfold len.
    replace (Z.to_nat (0 + (Z.of_nat (length text) + 1))) with (S (length text)) by lia. done. }
  unfold pre. destruct (Z.eqb_spec result 0) as [->|Hr]; cbn [negb].
  - rewrite strncmp_eq_app, drop_app_length, Es. by erewrite bind_ok by done.
  - assert (strncmp_eq (REPLY_FAILURE ++ text) REPLY_SUCCESS (length REPLY_SUCCESS) = false) as -> by done.
    rewrite strncmp_eq_app, drop_app_length, Es. by erewrite bind_ok by done.
Qed.

(** The library reports the state the daemon is in. *)
Theorem client_gets_state w fd c (s : UPIL_SM) :
  upil_sm_get_current_state w = Ok (UPIL_SM_val s, w) →
  upil_ctrl_get_state (daemon_sys w fd) c =
    Ok ((0, Some (UPIL_SM_val s)), sent UPIL_CTRL_GET_STATE c).
Proof.
  intros Hs. assert (answer w fd UPIL_CTRL_GET_STATE = Some (reply_text 0 (Some (dec s)))) as Ha.
  { destruct (serve_ok w fd UPIL_CTRL_GET_STATE 0 (Some (dec s)) w) as (w2 & E & _ & Ho);
      [by vm_compute|by apply (bool_decide_unpack _)| |done|by eapply answer_ok].
    intros c'. change (ctrl_command UPIL_CTRL_GET_STATE) with
      (s ← upil_sm_get_current_state; mret (M := M world) (Some (0, Some (dec s)))).
    erewrite bind_ok; [done|].
    unfold upil_sm_get_current_state in *. apply bind_inv in Hs as (cur & w1 & E1 & E2).
    injection E1 as <- <-. erewrite bind_ok by done. simpl in *.
    destruct (cur_state (fsm w)) as [i|]; [|by injection E2 as ->].
    unfold lift in *. destruct (read_at state_ids (Z.of_nat i)); [|done]. by injection E2 as ->. }
  unfold upil_ctrl_get_state. erewrite bind_ok.
  2:{ apply (request_ok _ _ _ _ 0 (dec s)); [|destruct s; by apply (bool_decide_unpack _)|destruct s; by vm_compute..].
      simpl. unfold served. by rewrite Ha. }
  destruct s; vm_compute; reflexivity.
Qed.

(** A number of 60 characters overruns the array of the command. *)
Theorem client_dial_overruns sys c number :
  60 ≤ len number → upil_ctrl_dial sys (Some number) c = Err Overrun.
Proof.
  intros Hlen. unfold upil_ctrl_dial. apply bind_err. cbn [default]. change (id number) with number.
  unfold lift, strcpy, blit. rewrite decide_False; [done|]. rewrite !len_app, len_replicate.
  change (len UPIL_CTRL_DIAL) with 4. change (len [0]) with 1. lia.
Qed.

(** C36: a number that is not empty and has at most 59 characters, the most
    for which the command fits the 64 bytes of the library, is the one the
    machine gets when the library is asked to dial it, and the result of the
    library tells whether the machine was sent it. *)
Theorem client_dial_reaches_machine w fd c number ret w' :
  number ≠ [] → Forall (λ c, c ≠ 0) number → len number ≤ 59 →
  upil_sm_start_dail (Some number) w = Ok (ret, w') → ∃ w2,
  processCtrlCallback fd (Some (UPIL_CTRL_DIAL ++ number)) w = Ok (0, w2) ∧ fsm w2 = fsm w' ∧
  upil_ctrl_dial (daemon_sys w fd) (Some number) c =
    Ok (if ret =? 0 then 0 else -1, sent (UPIL_CTRL_DIAL ++ number) c).
Proof.
  intros Hne Hnz Hlen E. pose proof (len_nonneg number).
  destruct (serve_ok w fd (UPIL_CTRL_DIAL ++ number) ret None w') as (w2 & Ec & Hf & Ho).
  - rewrite len_app. change (len UPIL_CTRL_DIAL) with 4. lia.
  - apply Forall_app. split; [by apply (bool_decide_unpack _)|done].
  - intros c'. assert (ctrl_command (UPIL_CTRL_DIAL ++ number) =
      (result ← upil_sm_start_dail (match number with [] => None | _ => Some number end);
       mret (M := M world) (Some (result, None)))) as -> by done.
    assert (match number with [] => None | _ => Some number end = Some number) as -> by (by destruct number).
    erewrite bind_ok; [done|]. unfold upil_sm_start_dail, on_fsm_handler, on_handler in *.
    rewrite zoom_fsm_cmd. unfold zoom at 1 in E. cbn [lget world_fsm] in E.
    destruct (zoom _ (fsm w)) as [[r f]|]; [|done]. by injection E as -> <-.
  - unfold upil_sm_start_dail, on_fsm_handler, on_handler, zoom at 1 in E. cbn [lget world_fsm] in E.
    destruct (zoom _ (fsm w)) as [[r f]|]; [|done]. by injection E as _ <-.
  - exists w2. split; [done|]. split; [done|]. unfold upil_ctrl_dial.
    erewrite bind_ok.
    2:{ unfold strcpy. cbn [default]. rewrite blit_ok; [done|lia|].
        rewrite len_replicate, !len_app. change (len UPIL_CTRL_DIAL) with 4.
        change (len [0]) with 1. change (id number) with number. lia. }
    erewrite bind_ok.
    2:{ apply (request_ok _ _ _ _ ret []); [|constructor|done|done].
        transitivity (served w fd (UPIL_CTRL_DIAL ++ number)); [done|].
        unfold served. by rewrite (answer_ok _ _ _ _ _ Ec Ho). }
    destruct (ret =? 0); done.
Qed.

(** [upil_monitor_recv] returns what the daemon reports, with a NUL
    behind it; but when the daemon is gone it stores the NUL in front of the
    array. *)
Theorem upil_monitor_recv_result sys r p n bytes buf c :
  cs_pipe sys = Some (r, p) → cs_monitor sys = Some (n, bytes) →
  let c' := Client (s_fd_sender c) (s_fd_monitor c) 0
              (cl_out c ++ [Client_closed r; Client_closed p]) in
  (0 < n → len bytes = n → n < len buf →
     upil_monitor_recv sys buf c = Ok ((n, bytes ++ 0 :: drop (S (length bytes)) buf), c')) ∧
  (n ≤ 0 → upil_monitor_recv sys buf c = Err Overrun).
Proof.
  intros Hp Hm c'. unfold upil_monitor_recv. rewrite Hp, Hm. split.
  - intros Hn Hlen Hbuf. rewrite (proj2 (Z.leb_gt _ _)) by done.
    assert (blit buf 0 bytes = Ok (bytes ++ drop (length bytes) buf)) as Eb.
    { rewrite blit_ok by lia. change (take (Z.to_nat 0) buf) with (@nil Z). cbn [app].
      do 3 f_equal. unfold len. lia. }
    assert (write_at (bytes ++ drop (length bytes) buf) n 0 =
      Ok (bytes ++ 0 :: drop (S (length bytes)) buf)) as Ew.
    { unfold write_at. rewrite <-Hlen. rewrite blit_prefix.
      - rewrite drop_drop, <-app_assoc. cbn [app length]. do 4 f_equal. lia.
      - rewrite len_drop. unfold len in *. simpl. lia. }
    erewrite bind_ok by done. rewrite Eb.
    erewrite bind_ok by (erewrite bind_ok by done; rewrite Ew; by erewrite bind_ok by done).
    cbv iota beta. erewrite bind_ok by done. erewrite bind_ok by done. erewrite bind_ok by done.
    unfold c', mret, M_ret. simpl. by rewrite <-app_assoc.
  - intros Hn. rewrite (proj2 (Z.leb_le _ _)) by done. erewrite bind_ok by done.
    unfold mbind, M_bind, lift at 1. unfold write_at, blit.
    rewrite decide_False by lia. done.
Qed.

(** [upil_disconnect] closes the command socket alone, and forgets the
    monitor socket without closing it. *)
Theorem upil_disconnect_leaks_monitor c :
  0 ≤ s_fd_sender c → ∃ c' woken,
  upil_disconnect c = Ok (tt, c') ∧ s_fd_monitor c' = -1 ∧
  cl_out c' = cl_out c ++ Client_closed (s_fd_sender c) :: woken ∧
  ∀ fd, Client_closed fd ∉ woken.
Proof.
  destruct c as [snd mon wk o]. simpl. intros Hs.
  assert (upil_ctrl_disconnect (Client snd mon wk o) =
    Ok (0, Client snd (-1) wk (o ++ [Client_closed snd]))) as E1.
  { unfold upil_ctrl_disconnect. erewrite bind_ok by done. cbn [s_fd_sender].
    by rewrite (proj2 (Z.leb_le _ _)). }
  set (woken := if 0 <=? wk then [Client_wakeup wk] else []).
  assert (upil_monitor_disconnect (Client snd (-1) wk (o ++ [Client_closed snd])) =
    Ok (0, Client snd (-1) (-1) ((o ++ [Client_closed snd]) ++ woken))) as E2.
  { unfold upil_monitor_disconnect, woken. erewrite bind_ok by done. cbn [s_fd_wakeup s_fd_monitor].
    destruct (0 <=? wk); [done|]. by rewrite app_nil_r. }
  exists (Client snd (-1) (-1) ((o ++ [Client_closed snd]) ++ woken)), woken.
  split; [|split; [done|split]].
  - unfold upil_disconnect. erewrite bind_ok by exact E1. by erewrite bind_ok by exact E2.
  - simpl. by rewrite <-app_assoc.
  - intros fd. unfold woken. destruct (0 <=? wk); rewrite ?elem_of_cons, ?elem_of_nil; naive_solver.
Qed.

(** ** The thread of the command line client *)

(** A turn in which the daemon reports the line [s], and one in which it has
    closed its socket. *)
Definition reports (s : list Z) : ctrl_sys := CtrlSys 3 0 (λ _, NoAnswer) (Some (8, 9)) (Some (len s, s)).
Definition hangs_up : ctrl_sys := CtrlSys 3 0 (λ _, NoAnswer) (Some (8, 9)) (Some (0, [])).

Definition printed (s : list Z) : list client_output :=
  [Client_closed 8; Client_closed 9; Client_print (lit "<< " ++ s)].

(** Every report of the daemon is printed as a line, in the order they come;
    when the daemon has gone, the thread writes in front of its buffer before
    it could say so. *)
Theorem readLoop_prints ss turns buf c :
  Forall (λ s, Forall (λ x, x ≠ 0) s ∧ 0 < len s < len buf) ss → ∃ buf' c',
  readLoop ((reports <$> ss) ++ turns) buf c = readLoop turns buf' c' ∧ len buf' = len buf ∧
  cl_out c' = cl_out c ++ concat (printed <$> ss) ∧
  readLoop ((reports <$> ss) ++ hangs_up :: turns) buf c = Err Overrun.
Proof.
  intros H. revert buf c H. induction ss as [|s ss IH]; intros buf c H.
  { exists buf, c. rewrite app_nil_r. split_and!; [done..|]. cbn [fmap list_fmap app readLoop].
    apply bind_err. by apply (upil_monitor_recv_result hangs_up 8 9 0 []). }
  apply Forall_cons in H as [[Hs Hl] H].
  set (c1 := Client (s_fd_sender c) (s_fd_monitor c) 0 (cl_out c ++ printed s)).
  set (buf1 := s ++ 0 :: drop (S (length s)) buf).
  assert (len buf1 = len buf) as Hb.
  { unfold buf1. rewrite len_app, len_cons, len_drop. unfold len in *. lia. }
  destruct (IH buf1 c1) as (buf' & c' & E & Hlen & Ho & Ef); [by rewrite Hb|].
  assert (∀ rest, readLoop (reports s :: rest) buf c = readLoop rest buf1 c1) as Hstep.
  { intros rest. cbn [readLoop].
    destruct (upil_monitor_recv_result (reports s) 8 9 (len s) s buf c eq_refl eq_refl) as [Er _].
    rewrite (bind_ok _ _ _ _ _ (Er ltac:(lia) eq_refl ltac:(lia))). rewrite (proj2 (Z.ltb_ge _ _)) by lia.
    rewrite bind_lift with (a := s) by (by apply cstr_app).
    rewrite bind_ok with (a := tt) (s' := c1); [done|]. unfold say, c1, printed. unfold modify. cbn [cl_out s_fd_sender s_fd_monitor s_fd_wakeup]. by rewrite <-app_assoc. }
  exists buf', c'. rewrite !fmap_cons, <-!app_comm_cons, !Hstep, concat_cons. split; [done|]. split; [lia|].
  split; [|done]. rewrite Ho. unfold c1. cbn [cl_out]. by rewrite <-app_assoc.
Qed.

(** ** Witnesses *)

Lemma readLoop_prints_witness : ∃ buf' c',
  readLoop ((reports <$> [lit "RING"; lit "STATE IDLE"]) ++ []) (replicate 512 0) (Client 3 4 (-1) []) = readLoop [] buf' c' ∧
  len buf' = len (replicate 512 0) ∧ cl_out c' = [] ++ concat (printed <$> [lit "RING"; lit "STATE IDLE"]) ∧
  readLoop ((reports <$> [lit "RING"; lit "STATE IDLE"]) ++ hangs_up :: []) (replicate 512 0) (Client 3 4 (-1) []) = Err Overrun.
Proof.
  apply (readLoop_prints [lit "RING"; lit "STATE IDLE"] [] (replicate 512 0) (Client 3 4 (-1) [])).
  repeat constructor; try (by apply (bool_decide_unpack _)); by vm_compute.
Defined.


Definition demo_client : client := Client 3 4 (-1) [].

Lemma upil_monitor_recv_witness :
  upil_monitor_recv (CtrlSys 3 0 (λ _, NoAnswer) (Some (8, 9)) (Some (4, lit "RING"))) (replicate 16 7)
    demo_client =
    Ok ((4, lit "RING" ++ 0 :: replicate 11 7), Client 3 4 0 [Client_closed 8; Client_closed 9]).
Proof.
  apply (upil_monitor_recv_result (CtrlSys 3 0 (λ _, NoAnswer) (Some (8, 9)) (Some (4, lit "RING")))
    8 9 4 (lit "RING") (replicate 16 7) demo_client); [reflexivity|reflexivity|lia|reflexivity|by vm_compute].
Defined.

Lemma upil_disconnect_witness : ∃ c', upil_disconnect demo_client = Ok (tt, c') ∧ s_fd_monitor c' = -1.
Proof.
  destruct (upil_disconnect_leaks_monitor demo_client) as (c' & o & H1 & H2 & _);
    [by vm_compute|]. by exists c'.
Defined.
