(* ===== verification/AtTok.v ===== *)
(** * Tokens of an AT response: src/ril-telephone/at_tok.c

    The functions move a pointer along a string.  The state is that pointer:
    the characters from it to the terminating NUL, or [None] for NULL.  The
    NULs [strsep] writes into the string are behind the pointer and are not
    read again.  The first result is the one of the C function, the second
    what it stores through its output pointer, [None] when it stores
    nothing. *)

From S2P Require Import Prelude CString.

Abbreviation MT := (M (option (list Z))).

Definition at_tok_start : MT Z :=
  p_cur ← get;
  match p_cur with
  | None => mret (-1)
  | Some s =>
      put (strchr s 58);;
      match strchr s 58 with
      | None => mret (-1)
      | Some r => put (Some (drop 1 r));; mret 0
      end
  end.

Definition skipWhiteSpace : MT unit := modify (fmap skip_spaces).

Fixpoint after_comma (s : list Z) : list Z :=
  match s with
  | [] => []
  | c :: s' => if c =? 44 then s' else after_comma s'
  end.
Definition skipNextComma : MT unit := modify (fmap after_comma).

Definition nextTok : MT (option (list Z)) :=
  skipWhiteSpace;;
  p_cur ← get;
  match p_cur with
  | None => mret None
  | Some (34 :: s) =>
      put (strsep s 34).2;;
      skipNextComma;;
      mret (Some (strsep s 34).1)
  | Some s => put (strsep s 44).2;; mret (Some (strsep s 44).1)
  end.

Definition at_tok_nextint_base (base : Z) (uns : bool) : MT (Z * option Z) :=
  p_cur ← get;
  match p_cur with
  | None => mret (-1, None)
  | Some _ =>
      ret ← nextTok;
      match ret with
      | None => mret (-1, None)
      | Some t =>
          let '(l, converted) := if uns then strtoul t base else strtol t base in
          mret (if (converted : bool) then 0 else -1, Some (s32 l))
      end
  end.

Definition at_tok_nextint : MT (Z * option Z) := at_tok_nextint_base 10 false.
Definition at_tok_nexthexint : MT (Z * option Z) := at_tok_nextint_base 16 true.

Definition at_tok_nextbool : MT (Z * option Z) :=
  '(ret, out) ← at_tok_nextint;
  if ret <? 0 then mret (-1, None) else
  let result := default 0 out in
  if negb ((result =? 0) || (result =? 1)) then mret (-1, None)
  else mret (ret, Some result).

Definition at_tok_nextstr : MT (Z * option (option (list Z))) :=
  p_cur ← get;
  match p_cur with
  | None => mret (-1, None)
  | Some _ => t ← nextTok; mret (0, Some t)
  end.

(** 1 when there are more tokens. *)
Definition at_tok_hasmore : MT Z :=
  gets (λ p, match p with None => 0 | Some [] => 0 | Some _ => 1 end).
