(* ===== verification/AtChannel.v ===== *)
(** * The AT channel: src/ril-telephone/atchannel.c

    One thread sends a command and waits for its response, another reads the
    lines of the channel and gives each to the pending command or to the
    handler of unsolicited lines.  [channel] holds the static variables of
    the file, what was written, and the answers of the system: the chunks
    the reads return ([reads], then the end of the stream), and how many
    bytes a write takes ([at_write], negative for an error).

    Where the command thread waits it gives up its lock, and the other
    threads run: [sched] lists, in order, what they do while commands wait,
    with a [Wake] wherever the waiting thread is woken, signalled or not. *)

From stdpp Require Import strings.
From S2P Require Import Prelude CString AtTok.

Definition MAX_AT_RESPONSE : Z := 8 * 1024.
Definition HANDSHAKE_RETRY_COUNT : nat := 8.
Definition HANDSHAKE_TIMEOUT_MSEC : Z := 250.

Definition AT_ERROR_GENERIC : Z := -1.
Definition AT_ERROR_COMMAND_PENDING : Z := -2.
Definition AT_ERROR_CHANNEL_CLOSED : Z := -3.
Definition AT_ERROR_TIMEOUT : Z := -4.
Definition AT_ERROR_INVALID_THREAD : Z := -5.
Definition AT_ERROR_INVALID_RESPONSE : Z := -6.

Definition CME_ERROR_NON_CME : Z := -1.
Definition CME_SUCCESS : Z := 0.

Inductive ATCommandType : Type := NO_RESULT | NUMERIC | SINGLELINE | MULTILINE.

(** The list of the intermediate lines, from its head on. *)
Record ATResponse := mkATResponse {
  success : Z;
  finalResponse : option (list Z);
  p_intermediates : list (list Z);
}.

Inductive at_event : Type :=
  | Line (line : list Z)     (* the reader processes a line *)
  | ReaderClosed             (* the reader ends *)
  | Wake                     (* the waiting thread wakes up *)
  | TimedOut.                (* its time is over *)

Record channel := Channel {
  s_fd : Z;
  s_ATBuffer : list Z;
  s_ATBufferCur : Z;
  s_readCount : Z;
  s_type : ATCommandType;
  s_responsePrefix : option (list Z);
  s_smsPDU : option (list Z);
  sp_response : option ATResponse;
  s_readerClosed : Z;
  reads : list (list Z);
  written : list Z;
  at_write : list Z → Z;
  sched : list at_event;
}.

Definition set_reading (buf : list Z) (cur count : Z) (rs : list (list Z)) (c : channel) : channel :=
  Channel (s_fd c) buf cur count (s_type c) (s_responsePrefix c) (s_smsPDU c)
    (sp_response c) (s_readerClosed c) rs (written c) (at_write c) (sched c).
Definition set_command (t : ATCommandType) (prefix pdu : option (list Z)) (r : option ATResponse)
    (c : channel) : channel :=
  Channel (s_fd c) (s_ATBuffer c) (s_ATBufferCur c) (s_readCount c) t prefix pdu r
    (s_readerClosed c) (reads c) (written c) (at_write c) (sched c).
Definition set_response (r : option ATResponse) (c : channel) : channel :=
  set_command (s_type c) (s_responsePrefix c) (s_smsPDU c) r c.
Definition set_channel (fd closed : Z) (c : channel) : channel :=
  Channel fd (s_ATBuffer c) (s_ATBufferCur c) (s_readCount c) (s_type c) (s_responsePrefix c)
    (s_smsPDU c) (sp_response c) closed (reads c) (written c) (at_write c) (sched c).
Definition set_written (w : list Z) (c : channel) : channel :=
  Channel (s_fd c) (s_ATBuffer c) (s_ATBufferCur c) (s_readCount c) (s_type c) (s_responsePrefix c)
    (s_smsPDU c) (sp_response c) (s_readerClosed c) (reads c) w (at_write c) (sched c).
Definition set_sched (s : list at_event) (c : channel) : channel :=
  Channel (s_fd c) (s_ATBuffer c) (s_ATBufferCur c) (s_readCount c) (s_type c) (s_responsePrefix c)
    (s_smsPDU c) (sp_response c) (s_readerClosed c) (reads c) (written c) (at_write c) s.

Abbreviation MC := (M channel).

(** ** Kinds of lines *)

Definition starts_with_one_of (prefixes : list (list Z)) (line : list Z) : bool :=
  existsb (strStartsWith line) prefixes.

Definition s_finalResponsesError : list (list Z) :=
  [lit "ERROR"; lit "+CMS ERROR:"; lit "+CME ERROR:"; lit "NO CARRIER"; lit "NO ANSWER";
   lit "NO DIALTONE"].
Definition isFinalResponseError : list Z → bool := starts_with_one_of s_finalResponsesError.

Definition s_finalResponsesSuccess : list (list Z) := [lit "OK"; lit "CONNECT"].
Definition isFinalResponseSuccess : list Z → bool := starts_with_one_of s_finalResponsesSuccess.

Definition isFinalResponse (line : list Z) : bool :=
  isFinalResponseSuccess line || isFinalResponseError line.

Definition s_smsUnsoliciteds : list (list Z) := [lit "+CMT:"; lit "+CDS:"; lit "+CBM:"].
Definition isSMSUnsolicited : list Z → bool := starts_with_one_of s_smsUnsoliciteds.

(** ** Writing *)

(** The loop over the rest of a string; a write takes at least one byte of
    it or fails, so that one turn per byte is enough. *)
Fixpoint write_all (fuel : nat) (s : list Z) : MC bool :=
  match s with
  | [] => mret true
  | _ =>
      match fuel with
      | O => fail OutOfFuel
      | S f =>
          w ← gets at_write;
          let n := w s in
          if n <? 0 then mret false else
          modify (λ c, set_written (written c ++ take (Z.to_nat n) s) c);;
          write_all f (drop (Z.to_nat n) s)
      end
  end.

(** One byte after the string: a write that takes nothing is repeated. *)
Definition write_ended (s : list Z) (ending : Z) : MC Z :=
  c ← get;
  if (s_fd c <? 0) || (0 <? s_readerClosed c) then mret AT_ERROR_CHANNEL_CLOSED else
  ok ← write_all (length s) s;
  if negb ok then mret AT_ERROR_GENERIC else
  ok ← write_all 1 [ending];
  if negb (ok : bool) then mret AT_ERROR_GENERIC else mret 0.

Definition writeline (s : list Z) : MC Z := write_ended s 13.
Definition writeCtrlZ (s : list Z) : MC Z := write_ended s 26.

(** ** Reading lines *)

(** The characters at a position: [None] behind the end of the array. *)
Definition char_at (buf : list Z) (cur : Z) : res Z := read_at buf cur.

(** Skips over leading newlines. *)
Fixpoint skip_newlines (fuel : nat) (buf : list Z) (cur : Z) : res Z :=
  match fuel with
  | O => Err OutOfFuel
  | S f =>
      c ← char_at buf cur;
      if (c =? 13) || (c =? 10) then skip_newlines f buf (cur + 1) else Ok cur
  end.

Fixpoint find_newline (fuel : nat) (buf : list Z) (cur : Z) : res (option Z) :=
  match fuel with
  | O => Err OutOfFuel
  | S f =>
      c ← char_at buf cur;
      if c =? 0 then Ok None
      else if (c =? 13) || (c =? 10) then Ok (Some cur)
      else find_newline f buf (cur + 1)
  end.

(** The prompt for an SMS is not ended by a newline. *)
Definition findNextEOL (buf : list Z) (cur : Z) : res (option Z) :=
  c0 ← char_at buf cur;
  let scan := find_newline (S (length buf)) buf cur in
  if negb (c0 =? 62) then scan else
  c1 ← char_at buf (cur + 1);
  if negb (c1 =? 32) then scan else
  c2 ← char_at buf (cur + 2);
  if c2 =? 0 then Ok (Some (cur + 2)) else scan.

(** [read(s_fd, p, n)]: the next chunk, or as much of it as fits. *)
Definition read_chunk (n : Z) (rs : list (list Z)) : option (list Z * list (list Z)) :=
  match rs with
  | [] | [] :: _ => None
  | chunk :: rs' =>
      if len chunk <=? n then Some (chunk, rs')
      else Some (take (Z.to_nat n) chunk, drop (Z.to_nat n) chunk :: rs')
  end.

(** The loop that reads until there is a newline.  Every turn takes a byte
    off the chunks. *)
Fixpoint read_more (fuel : nat) (p_read : Z) : MC (option Z) :=
  match fuel with
  | O => fail OutOfFuel
  | S f =>
      p_read ← (if MAX_AT_RESPONSE - p_read =? 0 then
                  c ← get;
                  b ← lift (write_at (s_ATBuffer c) 0 0);
                  modify (set_reading b 0 (s_readCount c) (reads c));;
                  mret 0
                else mret p_read);
      c ← get;
      match read_chunk (MAX_AT_RESPONSE - p_read) (reads c) with
      | None => mret None
      | Some (bytes, rs) =>
          b ← lift (blit (s_ATBuffer c) p_read (bytes ++ [0]));
          cur ← lift (skip_newlines (S (length b)) b (s_ATBufferCur c));
          modify (set_reading b cur (s32 (s_readCount c + len bytes)) rs);;
          p_eol ← lift (findNextEOL b cur);
          match p_eol with
          | Some e => mret (Some e)
          | None => read_more f (p_read + len bytes)
          end
      end
  end.

Definition read_fuel (c : channel) : nat := S (length (concat (reads c))).

(** The line: [None] when the stream ends. *)
Definition readline : MC (option (list Z)) :=
  c ← get;
  first ← lift (char_at (s_ATBuffer c) (s_ATBufferCur c));
  p_eol ← (if first =? 0 then
             b ← lift (write_at (s_ATBuffer c) 0 0);
             modify (set_reading b 0 (s_readCount c) (reads c));;
             read_more (read_fuel c) 0
           else
             cur ← lift (skip_newlines (S (length (s_ATBuffer c))) (s_ATBuffer c) (s_ATBufferCur c));
             p_eol ← lift (findNextEOL (s_ATBuffer c) cur);
             match p_eol with
             | Some e =>
                 modify (set_reading (s_ATBuffer c) cur (s_readCount c) (reads c));;
                 mret (Some e)
             | None =>
                 rest ← lift (cstr (drop (Z.to_nat cur) (s_ATBuffer c)));
                 b ← lift (blit (s_ATBuffer c) 0 (rest ++ [0]));
                 modify (set_reading b 0 (s_readCount c) (reads c));;
                 read_more (read_fuel c) (len rest)
             end);
  match p_eol with
  | None => mret None
  | Some e =>
      c ← get;
      b ← lift (write_at (s_ATBuffer c) e 0);
      ret ← lift (cstr (drop (Z.to_nat (s_ATBufferCur c)) b));
      modify (set_reading b (e + 1) (s_readCount c) (reads c));;
      mret (Some ret)
  end.

(** ** The two threads *)

Definition CME_text : list Z := lit "+CME ERROR:".

(** The response [calloc] makes. *)
Definition at_response_new : ATResponse := mkATResponse 0 None [].

(** The loop that flips the list: [pcur] is what is left of it. *)
Fixpoint reverse_loop (pcur done : list (list Z)) : list (list Z) :=
  match pcur with [] => done | line :: pnext => reverse_loop pnext (line :: done) end.
Definition reverseIntermediates (r : ATResponse) : ATResponse :=
  mkATResponse (success r) (finalResponse r) (reverse_loop (p_intermediates r) []).

Definition addIntermediate (line : list Z) : MC unit :=
  c ← get;
  r ← lift (deref (sp_response c));
  modify (set_response (Some (mkATResponse (success r) (finalResponse r)
                                (line :: p_intermediates r)))).

(** The response with its success and its final line set. *)
Definition handleFinalResponse (succ : Z) (line : list Z) : MC unit :=
  c ← get;
  r ← lift (deref (sp_response c));
  modify (set_response (Some (mkATResponse succ (Some line) (p_intermediates r)))).

Definition clearPendingCommand : MC unit := modify (λ c, set_command (s_type c) None None None c).

Section threads.
(** The program around the channel, and the functions it installs:
    [unsol] for unsolicited lines, [on_timeout] and [on_closed]. *)
Context {W : Type} `{Lens W channel}.
Variable unsol : option (list Z → option (list Z) → M W unit).
Variable on_timeout on_closed : option (M W unit).

Definition handleUnsolicited (line : list Z) : M W unit :=
  match unsol with Some f => f line None | None => skip end.

(** A line that is no final response, by the type of the command. *)
Definition by_type (c : channel) (r : ATResponse) (line : list Z) : M W unit :=
  let none := bool_decide (p_intermediates r = []) in
  let starts := p ← deref (s_responsePrefix c); mret (strStartsWith line p) in
  match s_type c with
  | NO_RESULT => handleUnsolicited line
  | NUMERIC =>
      if none && match line with d :: _ => isdigit d | [] => false end
      then zoom (addIntermediate line) else handleUnsolicited line
  | SINGLELINE =>
      if none then
        b ← lift starts;
        if (b : bool) then zoom (addIntermediate line) else handleUnsolicited line
      else handleUnsolicited line
  | MULTILINE =>
      b ← lift starts;
      if (b : bool) then zoom (addIntermediate line) else handleUnsolicited line
  end.

Definition processLine (line : list Z) : M W unit :=
  c ← gets lget;
  match sp_response c with
  | None => handleUnsolicited line
  | Some r =>
      if isFinalResponseSuccess line then zoom (handleFinalResponse 1 line)
      else if isFinalResponseError line then zoom (handleFinalResponse 0 line)
      else match s_smsPDU c with
      | Some pdu =>
          if strcmp_eq line (lit "> ") then
            zoom (writeCtrlZ pdu);;
            zoom (modify (λ c, set_command (s_type c) (s_responsePrefix c) None (sp_response c) c))
          else by_type c r line
      | None => by_type c r line
      end
  end.

(** The callback runs once, when the channel was still open. *)
Definition onReaderClosed : M W unit :=
  c ← gets lget;
  match on_closed with
  | Some f =>
      if s_readerClosed c =? 0 then
        zoom (modify (λ c, set_channel (s_fd c) 1 c));; f
      else skip
  | None => skip
  end.

(** The turns of [readerLoop]; [None] when [n] of them did not end it. *)
Fixpoint readerLoop (n : nat) : M W (option unit) :=
  match n with
  | O => mret None
  | S n' =>
      line ← zoom readline;
      match line with
      | None => onReaderClosed;; mret (Some tt)
      | Some line =>
          if isSMSUnsolicited line then
            line2 ← zoom readline;
            match line2 with
            | None => onReaderClosed;; mret (Some tt)
            | Some line2 =>
                match unsol with Some f => f line (Some line2) | None => skip end;;
                readerLoop n'
            end
          else processLine line;; readerLoop n'
      end
  end.

(** [tid] is whether [pthread_create] returns a negative number. *)
Definition at_open (fd : Z) (failed : bool) : M W Z :=
  zoom (modify (λ c, set_command (s_type c) None None None (set_channel fd 0 c)));;
  mret (if failed then -1 else 0).

Definition at_close : M W unit := zoom (modify (set_channel (-1) 1)).

(** What the other threads do until the waiting thread wakes up: whether
    its time was over. *)
Fixpoint cond_wait (timed : bool) (events : list at_event) : M W bool :=
  match events with
  | [] => fail Blocked
  | Wake :: evs => zoom (modify (set_sched evs));; mret false
  | TimedOut :: evs =>
      if timed then zoom (modify (set_sched evs));; mret true else cond_wait timed evs
  | Line l :: evs => processLine l;; cond_wait timed evs
  | ReaderClosed :: evs => onReaderClosed;; cond_wait timed evs
  end.

(** The loop that waits for the final response: whether it timed out.
    Every turn takes an event off the schedule. *)
Fixpoint wait_response (fuel : nat) (timed : bool) : M W bool :=
  match fuel with
  | O => fail OutOfFuel
  | S f =>
      c ← gets lget;
      r ← lift (deref (sp_response c));
      if bool_decide (finalResponse r = None) && (s_readerClosed c =? 0) then
        timeout ← cond_wait timed (sched c);
        if (timeout : bool) then mret true else wait_response f timed
      else mret false
  end.

(** The error, and the response that is passed on when there is none or
    the channel was closed. *)
Definition at_send_command_full_nolock (command : list Z) (type : ATCommandType)
    (responsePrefix smspdu : option (list Z)) (timeoutMsec : Z)
  : M W (Z * option ATResponse) :=
  c ← gets lget;
  match sp_response c with
  | Some _ => zoom clearPendingCommand;; mret (AT_ERROR_COMMAND_PENDING, None)
  | None =>
      err ← zoom (writeline command);
      if err <? 0 then zoom clearPendingCommand;; mret (err, None) else
      zoom (modify (set_command type responsePrefix smspdu (Some at_response_new)));;
      fuel ← gets (λ w, S (length (sched (lget w))));
      timeout ← wait_response fuel (negb (timeoutMsec =? 0));
      if (timeout : bool) then zoom clearPendingCommand;; mret (AT_ERROR_TIMEOUT, None) else
      c ← gets lget;
      r ← lift (deref (sp_response c));
      zoom (modify (set_response None));;
      zoom clearPendingCommand;;
      mret (if 0 <? s_readerClosed c then AT_ERROR_CHANNEL_CLOSED else 0,
            Some (reverseIntermediates r))
  end.

(** [reader]: whether the caller is the reader thread. *)
Definition at_send_command_full (reader : bool) (command : list Z) (type : ATCommandType)
    (responsePrefix smspdu : option (list Z)) (timeoutMsec : Z)
  : M W (Z * option ATResponse) :=
  if reader then mret (AT_ERROR_INVALID_THREAD, None) else
  '(err, r) ← at_send_command_full_nolock command type responsePrefix smspdu timeoutMsec;
  match on_timeout with
  | Some f => if err =? AT_ERROR_TIMEOUT then f else skip
  | None => skip
  end;;
  mret (err, r).

Definition at_send_command (reader : bool) (command : list Z) : M W (Z * option ATResponse) :=
  at_send_command_full reader command NO_RESULT None None 0.

(** A successful command must have an intermediate response. *)
Definition need_intermediate (result : Z * option ATResponse) : Z * option ATResponse :=
  match result with
  | (err, Some r) =>
      if (err =? 0) && (0 <? success r) && bool_decide (p_intermediates r = [])
      then (AT_ERROR_INVALID_RESPONSE, None) else result
  | _ => result
  end.

Definition at_send_command_singleline (reader : bool) (command responsePrefix : list Z)
  : M W (Z * option ATResponse) :=
  r ← at_send_command_full reader command SINGLELINE (Some responsePrefix) None 0;
  mret (need_intermediate r).
Definition at_send_command_numeric (reader : bool) (command : list Z)
  : M W (Z * option ATResponse) :=
  r ← at_send_command_full reader command NUMERIC None None 0;
  mret (need_intermediate r).
Definition at_send_command_sms (reader : bool) (command pdu responsePrefix : list Z)
  : M W (Z * option ATResponse) :=
  r ← at_send_command_full reader command SINGLELINE (Some responsePrefix) (Some pdu) 0;
  mret (need_intermediate r).
Definition at_send_command_multiline (reader : bool) (command responsePrefix : list Z)
  : M W (Z * option ATResponse) :=
  at_send_command_full reader command MULTILINE (Some responsePrefix) None 0.

(** The pause after a success only lets time pass. *)
Fixpoint handshake_loop (tries : nat) (err : Z) : M W Z :=
  match tries with
  | O => mret err
  | S n =>
      '(err, _) ← at_send_command_full_nolock (lit "ATE0Q0V1") NO_RESULT None None
                    HANDSHAKE_TIMEOUT_MSEC;
      if err =? 0 then mret err else handshake_loop n err
  end.

Definition at_handshake (reader : bool) : M W Z :=
  if reader then mret AT_ERROR_INVALID_THREAD else
  handshake_loop HANDSHAKE_RETRY_COUNT (-1).
End threads.

(** The error code of a response, for AT+CMEE=1. *)
Definition at_get_cme_error (r : ATResponse) : res Z :=
  if 0 <? success r then Ok CME_SUCCESS else
  match finalResponse r with
  | None => Ok CME_ERROR_NON_CME
  | Some line =>
      if negb (strStartsWith line CME_text) then Ok CME_ERROR_NON_CME else
      '(err, p_cur) ← at_tok_start (Some line);
      if err <? 0 then Ok CME_ERROR_NON_CME else
      '((err, ret), _) ← at_tok_nextint p_cur;
      if err <? 0 then Ok CME_ERROR_NON_CME else Ok (default 0 ret)
  end.
