(* ===== verification/ReadlineProofs.v ===== *)
(** * The lines the reader of the AT channel sees

    [readline] gives the lines of the stream one after the other, however the
    stream is cut into the chunks that the reads return. *)

From stdpp Require Import strings.
From S2P Require Import Prelude CString AtTok AtChannel Ril.

Definition newline (c : Z) : Prop := c = 13 ∨ c = 10.
#[export] Instance newline_dec c : Decision (newline c).
Proof. apply _. Defined.
Definition text (l : list Z) : Prop := Forall (λ c, c ≠ 0) l.
Definition no_newline (l : list Z) : Prop := Forall (λ c, ¬ newline c) l.

Lemma newline_eqb c : (c =? 13) || (c =? 10) = bool_decide (newline c).
Proof.
  unfold newline. destruct (Z.eqb_spec c 13), (Z.eqb_spec c 10); symmetry;
    rewrite ?bool_decide_eq_true, ?bool_decide_eq_false; tauto.
Qed.

(** ** Scanning the buffer *)

(** The text before position [p] is [l], the text there starts with [t]. *)
Lemma char_here {A} (l : list A) c t : read_at (l ++ c :: t) (len l) = Ok c.
Proof. apply read_at_app_r. Qed.

Lemma skip_ok fuel a nls t post :
  Forall newline nls → (∀ c t', t = c :: t' → ¬ newline c) → (length nls < fuel)%nat →
  skip_newlines fuel (a ++ nls ++ t ++ 0 :: post) (len a) = Ok (len a + len nls).
Proof.
  revert a nls. induction fuel as [|f IH]; intros a nls Hn Ht Hf; [lia|]. cbn [skip_newlines].
  destruct nls as [|n nls].
  - rewrite Z.add_0_r. cbn [app]. unfold char_at. destruct t as [|c t]; cbn [app]; rewrite char_here;
      cbn [mbind res_bind]; rewrite newline_eqb, bool_decide_false; [done| |done|by eapply Ht].
    unfold newline. lia.
  - apply Forall_cons in Hn as [Hn Hns]. cbn [app]. unfold char_at. rewrite char_here.
    cbn [mbind res_bind]. rewrite newline_eqb, bool_decide_true by done.
    assert (a ++ n :: nls ++ t ++ 0 :: post = (a ++ [n]) ++ nls ++ t ++ 0 :: post) as ->
      by (by rewrite <-app_assoc).
    assert (len a + 1 = len (a ++ [n])) as -> by (by rewrite len_app).
    rewrite IH; [|done|done|simpl in Hf; lia]. rewrite len_app.
    change (len [n]) with 1. rewrite len_cons. f_equal. lia.
Qed.

Lemma find_some fuel a line n post :
  text line → no_newline line → newline n → (length line < fuel)%nat →
  find_newline fuel (a ++ line ++ n :: post) (len a) = Ok (Some (len a + len line)).
Proof.
  revert a line. induction fuel as [|f IH]; intros a line Ht Hl Hn Hf; [lia|]. cbn [find_newline].
  destruct line as [|c line]; cbn [app]; unfold char_at; rewrite char_here; cbn [mbind res_bind].
  - assert (n ≠ 0) by (unfold newline in Hn; lia). rewrite (proj2 (Z.eqb_neq _ _)) by done.
    rewrite newline_eqb, bool_decide_true by done. by rewrite Z.add_0_r.
  - apply Forall_cons in Ht as [Hc Ht]. apply Forall_cons in Hl as [Hcn Hl].
    rewrite (proj2 (Z.eqb_neq _ _)) by done. rewrite newline_eqb, bool_decide_false by done.
    assert (a ++ c :: line ++ n :: post = (a ++ [c]) ++ line ++ n :: post) as ->
      by (by rewrite <-app_assoc).
    assert (len a + 1 = len (a ++ [c])) as -> by (by rewrite len_app).
    rewrite IH by (done || (simpl in Hf; lia)). rewrite len_app.
    change (len [c]) with 1. rewrite len_cons. do 2 f_equal. lia.
Qed.

Lemma find_none fuel a t post :
  text t → no_newline t → (length t < fuel)%nat →
  find_newline fuel (a ++ t ++ 0 :: post) (len a) = Ok None.
Proof.
  revert a t. induction fuel as [|f IH]; intros a t Ht Hl Hf; [lia|]. cbn [find_newline].
  destruct t as [|c t]; cbn [app]; unfold char_at; rewrite char_here; cbn [mbind res_bind]; [done|].
  apply Forall_cons in Ht as [Hc Ht]. apply Forall_cons in Hl as [Hcn Hl].
  rewrite (proj2 (Z.eqb_neq _ _)) by done. rewrite newline_eqb, bool_decide_false by done.
  assert (a ++ c :: t ++ 0 :: post = (a ++ [c]) ++ t ++ 0 :: post) as -> by (by rewrite <-app_assoc).
  assert (len a + 1 = len (a ++ [c])) as -> by (by rewrite len_app).
  apply IH; [done|done|simpl in Hf; lia].
Qed.

(** A line that is not the prompt for a message. *)
Definition no_prompt (t : list Z) : Prop := ∀ t', t ≠ 62 :: t'.

Lemma eol_scan a t x post :
  no_prompt t → (t = [] → x ≠ 62) →
  findNextEOL (a ++ t ++ x :: post) (len a) =
    find_newline (S (length (a ++ t ++ x :: post))) (a ++ t ++ x :: post) (len a).
Proof.
  intros Hp Hx. unfold findNextEOL, char_at.
  destruct t as [|c t]; cbn [app]; rewrite char_here; cbn [mbind res_bind].
  - by rewrite (proj2 (Z.eqb_neq _ _)) by auto.
  - rewrite (proj2 (Z.eqb_neq c 62)); [done|]. intros ->. by eapply Hp.
Qed.

Lemma eol_some a line n post :
  text line → no_newline line → newline n → no_prompt line →
  findNextEOL (a ++ line ++ n :: post) (len a) = Ok (Some (len a + len line)).
Proof.
  intros Ht Hl Hn Hp. rewrite eol_scan; [|done|unfold newline in Hn; lia].
  apply find_some; try done. rewrite !length_app. lia.
Qed.

Lemma eol_none a t post :
  text t → no_newline t → no_prompt t → findNextEOL (a ++ t ++ 0 :: post) (len a) = Ok None.
Proof.
  intros Ht Hl Hp. rewrite eol_scan by done. apply find_none; try done. rewrite !length_app. lia.
Qed.

(** ** The stream *)

(** Newlines, a line and its newline: the next line of a stream. *)
Record next_line (nls line : list Z) (nl : Z) (rest : list Z) : Prop := {
  nl_nls : Forall newline nls;
  nl_line : text line;
  nl_no_newline : no_newline line;
  nl_no_prompt : no_prompt line;
  nl_nonempty : line ≠ [];
  nl_end : newline nl;
}.

(** The text that is there, [x], and the rest of the stream, [r]: the line is
    there, or a part of what comes before its end. *)
Lemma split_stream (nls line rest x r : list Z) (nl : Z) :
  x ++ r = nls ++ line ++ nl :: rest →
  (∃ u, x = nls ++ line ++ nl :: u ∧ rest = u ++ r) ∨
  (∃ n1 n2 l1 l2, nls = n1 ++ n2 ∧ line = l1 ++ l2 ∧ x = n1 ++ l1 ∧
     r = n2 ++ l2 ++ nl :: rest ∧ (l1 = [] ∨ n2 = [])).
Proof.
  intros E. apply app_eq_inv in E as [(k & E1 & E2)|(k & E1 & E2)].
  - apply app_eq_inv in E2 as [(j & E3 & E4)|(j & E3 & E4)].
    + right. exists nls, [], k, j. rewrite (app_nil_r nls). naive_solver.
    + destruct j as [|c j].
      * right. simpl in E4. rewrite app_nil_r in E3. subst.
        exists nls, [], line, []. rewrite (app_nil_r nls), (app_nil_r line). naive_solver.
      * left. injection E4 as <- ->. exists j. by subst.
  - right. exists x, k, [], line. rewrite (app_nil_r x). naive_solver.
Qed.

Definition stream_ok (c : channel) : Prop := Forall (λ ch, ch ≠ [] ∧ text ch) (reads c).

(** A read of [n] bytes takes some of the stream. *)
Lemma read_chunk_ok n c :
  stream_ok c → 0 < n → concat (reads c) ≠ [] → ∃ bytes rs,
  read_chunk n (reads c) = Some (bytes, rs) ∧ bytes ≠ [] ∧ text bytes ∧ len bytes ≤ n ∧
  concat (reads c) = bytes ++ concat rs ∧ Forall (λ ch, ch ≠ [] ∧ text ch) rs.
Proof.
  unfold stream_ok. intros Hs Hn Hne. destruct (reads c) as [|ch rs]; [done|].
  apply Forall_cons in Hs as [[Hch Ht] Hs]. destruct ch as [|x ch]; [done|].
  cbn [read_chunk]. destruct (Z.leb_spec (len (x :: ch)) n) as [Hle|Hgt].
  - exists (x :: ch), rs. done.
  - exists (take (Z.to_nat n) (x :: ch)), (drop (Z.to_nat n) (x :: ch) :: rs).
    assert (Z.to_nat n ≠ 0%nat) as Hz by lia. split; [done|]. split_and!.
    + destruct (Z.to_nat n); done.
    + by apply Forall_take.
    + rewrite len_take. lia.
    + cbn [concat]. by rewrite app_assoc, take_drop.
    + constructor; [split|done].
      * intros E. apply (f_equal length) in E. rewrite length_drop in E. unfold len in Hgt.
        change (length (@nil Z)) with 0%nat in E. lia.
      * by apply Forall_drop.
Qed.

(** What the channel holds: the unread text [u] in its buffer. *)
Record unread (c : channel) (a u post : list Z) : Prop := {
  ur_len : len (s_ATBuffer c) = MAX_AT_RESPONSE + 1;
  ur_buf : s_ATBuffer c = a ++ u ++ 0 :: post;
  ur_cur : s_ATBufferCur c = len a;
  ur_text : text u;
}.

(** The channel after the line at [len p] was found. *)
Record found (c : channel) (e : Z) (line rest : list Z) : Prop := {
  fd_split : ∃ p nl u post, unread c p (line ++ nl :: u) post ∧ e = len p + len line ∧
    rest = u ++ concat (reads c);
  fd_stream : stream_ok c;
}.

(** The bytes of a read are stored behind the text, with their NUL. *)
Lemma chunk_stored c a t post bytes :
  unread c a t post → len a + len t + len bytes ≤ MAX_AT_RESPONSE → ∃ post',
  let b := a ++ (t ++ bytes) ++ 0 :: post' in
  blit (s_ATBuffer c) (len a + len t) (bytes ++ [0]) = Ok b ∧ len b = MAX_AT_RESPONSE + 1.
Proof.
  intros [Hlen Hbuf _ _] Hb. exists (drop (length bytes) post).
  assert (blit (s_ATBuffer c) (len a + len t) (bytes ++ [0]) =
    Ok (a ++ (t ++ bytes) ++ 0 :: drop (length bytes) post)) as E.
  { rewrite Hbuf in *. assert (a ++ t ++ 0 :: post = (a ++ t) ++ 0 :: post) as -> by (by rewrite <-app_assoc).
    rewrite <-len_app, blit_prefix.
    - rewrite length_app. simpl length. rewrite Nat.add_1_r. cbn [drop]. by rewrite <-!app_assoc.
    - rewrite len_app. change (len [0]) with 1. rewrite !len_app in Hlen. lia. }
  split; [done|]. rewrite <-Hlen. by apply blit_len in E.
Qed.

(** The search of the end of the line, when it is there. *)
Lemma scan_found a nls line nl u post rest :
  next_line nls line nl rest → let b := a ++ (nls ++ line ++ nl :: u) ++ 0 :: post in
  skip_newlines (S (length b)) b (len a) = Ok (len (a ++ nls)) ∧
  findNextEOL b (len (a ++ nls)) = Ok (Some (len (a ++ nls) + len line)).
Proof.
  intros [Hnls Hline Hnn Hnp Hlne Hnl] b.
  assert (b = a ++ nls ++ (line ++ nl :: u) ++ 0 :: post) as E1 by (unfold b; by rewrite <-!app_assoc).
  assert (b = (a ++ nls) ++ line ++ nl :: u ++ 0 :: post) as E2 by (rewrite E1; by rewrite <-!app_assoc).
  split; [|by rewrite E2, eol_some].
  rewrite len_app. rewrite E1 at 2. apply skip_ok; [done| |unfold b; rewrite !length_app; lia].
  intros x k. destruct line as [|y line]; [done|]. intros [= <- _]. by apply Forall_cons in Hnn as [? _].
Qed.

(** And when it is not there yet. *)
Lemma scan_goes_on a n1 n2 l1 l2 nl rest post :
  next_line (n1 ++ n2) (l1 ++ l2) nl rest → let b := a ++ (n1 ++ l1) ++ 0 :: post in
  skip_newlines (S (length b)) b (len a) = Ok (len (a ++ n1)) ∧ findNextEOL b (len (a ++ n1)) = Ok None.
Proof.
  intros [[Hn1 _]%Forall_app [Hl1 _]%Forall_app [Hnn _]%Forall_app Hnp _ _] b.
  assert (b = a ++ n1 ++ l1 ++ 0 :: post) as E1 by (unfold b; by rewrite <-!app_assoc).
  assert (b = (a ++ n1) ++ l1 ++ 0 :: post) as E2 by (rewrite E1; by rewrite <-!app_assoc).
  split.
  - rewrite len_app. rewrite E1 at 2. apply skip_ok; [done| |unfold b; rewrite !length_app; lia].
    intros x k ->. by apply Forall_cons in Hnn as [? _].
  - rewrite E2, eol_none; [done|done|done|]. intros k ->. by eapply Hnp.
Qed.

(** A turn of [read_more], up to what the search gives. *)
Lemma read_more_turn f c a t post bytes rs post' cur eol :
  let b := a ++ (t ++ bytes) ++ 0 :: post' in
  unread c a t post → len a + len t < MAX_AT_RESPONSE →
  read_chunk (MAX_AT_RESPONSE - (len a + len t)) (reads c) = Some (bytes, rs) →
  blit (s_ATBuffer c) (len a + len t) (bytes ++ [0]) = Ok b →
  skip_newlines (S (length b)) b (len a) = Ok cur → findNextEOL b cur = Ok eol →
  read_more (S f) (len a + len t) c =
    (match eol with Some e => mret (Some e) | None => read_more f (len a + len t + len bytes) end)
      (set_reading b cur (s32 (s_readCount c + len bytes)) rs c).
Proof.
  intros b [_ _ Hcur _] Hlt Er Eb Es Ee. cbn [read_more]. rewrite (proj2 (Z.eqb_neq _ 0)) by lia.
  erewrite bind_ok by done. erewrite bind_ok by done. rewrite Er, Eb.
  erewrite bind_ok by done. rewrite Hcur. erewrite bind_ok by (unfold lift; by rewrite Es).
  erewrite bind_ok by done. by erewrite bind_ok by (unfold lift; by rewrite Ee).
Qed.

Lemma read_more_ok fuel c a t post nls line nl rest :
  unread c a t post → stream_ok c → Forall newline a →
  next_line nls line nl rest → t ++ concat (reads c) = nls ++ line ++ nl :: rest →
  len t ≤ len nls + len line → len a + len nls + len line < MAX_AT_RESPONSE →
  (length (concat (reads c)) < fuel)%nat →
  ∃ c' e, read_more fuel (len a + len t) c = Ok (Some e, c') ∧ found c' e line rest ∧
    sp_response c' = sp_response c.
Proof.
  revert c a t post nls line. induction fuel as [|f IH]; intros c a t post nls line Hu Hs Ha Hn E Ht Hmax Hf;
    [lia|].
  assert (concat (reads c) ≠ []) as Hne.
  { intros E0. rewrite E0, app_nil_r in E. apply (f_equal len) in E.
    rewrite !len_app, len_cons in E. pose proof (len_nonneg rest). lia. }
  destruct (read_chunk_ok (MAX_AT_RESPONSE - (len a + len t)) c Hs ltac:(lia) Hne)
    as (bytes & rs & Er & Hb1 & Hb2 & Hb3 & Hb4 & Hrs).
  destruct (chunk_stored c a t post bytes Hu ltac:(lia)) as (post' & Eb & Hlen').
  assert (text (t ++ bytes)) as Htb by (apply Forall_app; split; [apply Hu|done]).
  assert ((t ++ bytes) ++ concat rs = nls ++ line ++ nl :: rest) as E' by (by rewrite <-app_assoc, <-Hb4).
  pose proof (read_more_turn f c a t post bytes rs post') as Hturn. cbv zeta in Hturn, Eb, Hlen'.
  destruct (split_stream _ _ _ _ _ _ E') as [(u & Eu & Er')|(n1 & n2 & l1 & l2 & -> & -> & Ex & Er' & Hcase)].
  - destruct (scan_found a nls line nl u post' rest Hn) as [E1 E2]. rewrite Eu in *.
    rewrite (Hturn _ _ Hu ltac:(lia) Er Eb E1 E2). eexists _, _. split; [done|]. split; [|done].
    split; [|done]. exists (a ++ nls), nl, u, post'. split_and!; [|done|done].
    apply Forall_app in Htb as [_ Htb]. split; simpl; [done| |done|done]. by rewrite <-!app_assoc.
  - destruct (scan_goes_on a n1 n2 l1 l2 nl rest post' Hn) as [E1 E2]. rewrite Ex in *.
    rewrite (Hturn _ _ Hu ltac:(lia) Er Eb E1 E2). clear Hturn.
    assert (len a + len t + len bytes = len (a ++ n1) + len l1) as ->.
    { apply (f_equal len) in Ex. rewrite !len_app in *. lia. }
    destruct Hn as [[Hn1 Hn2]%Forall_app Hline Hnn Hnp Hlne Hnl]. pose proof Hline as [Hl1 _]%Forall_app.
    match goal with |- ∃ c' e, read_more _ _ ?c1 = _ ∧ _ =>
      apply (IH c1 (a ++ n1) l1 post' n2 (l1 ++ l2)); cbn [reads set_reading] end.
    + split; simpl; [done| |done|done]. by rewrite <-!app_assoc.
    + done.
    + by apply Forall_app.
    + by split.
    + rewrite Er'. destruct Hcase as [-> | ->]; [done|]. cbn [app]. by rewrite <-app_assoc.
    + rewrite len_app. pose proof (len_nonneg n2). pose proof (len_nonneg l2). lia.
    + rewrite !len_app in *. lia.
    + rewrite Hb4, length_app in Hf. destruct bytes; [done|]. simpl in Hf. lia.
Qed.

Lemma drop_len_app {A} (a t : list A) : drop (Z.to_nat (len a)) (a ++ t) = t.
Proof. unfold len. by rewrite Nat2Z.id, drop_app_length. Qed.

(** The channel between two lines, [stream] being what is still to come. *)
Definition at_line (c : channel) (stream : list Z) : Prop :=
  stream_ok c ∧ ∃ a u post, unread c a u post ∧ stream = u ++ concat (reads c).

Definition take_line (p_eol : option Z) : MC (option (list Z)) :=
  match p_eol with
  | None => mret None
  | Some e =>
      c ← get;
      b ← lift (write_at (s_ATBuffer c) e 0);
      ret ← lift (cstr (drop (Z.to_nat (s_ATBufferCur c)) b));
      modify (set_reading b (e + 1) (s_readCount c) (reads c));;
      mret (Some ret)
  end.

Lemma take_line_ok c e line rest :
  found c e line rest → text line → ∃ c',
  take_line (Some e) c = Ok (Some line, c') ∧ at_line c' rest ∧ sp_response c' = sp_response c.
Proof.
  intros [(p & nl & u & post & [Hlen Hbuf Hcur Htext] & -> & ->) Hs] Hl.
  apply Forall_app in Htext as [_ Htext]. apply Forall_cons in Htext as [_ Hu].
  assert (write_at (s_ATBuffer c) (len p + len line) 0 = Ok (p ++ line ++ 0 :: u ++ 0 :: post)) as Ew.
  { rewrite Hbuf. unfold write_at.
    assert (p ++ (line ++ nl :: u) ++ 0 :: post = (p ++ line) ++ nl :: u ++ 0 :: post) as ->
      by (by rewrite <-!app_assoc).
    rewrite <-len_app, blit_prefix.
    - cbn [length drop]. by rewrite <-!app_assoc.
    - unfold len. simpl. lia. }
  unfold take_line. erewrite bind_ok by done. rewrite Ew. erewrite bind_ok by done.
  rewrite Hcur, drop_len_app, cstr_app by done.
  erewrite bind_ok by done. erewrite bind_ok by done. eexists. split; [done|]. split; [|done].
  split; [done|]. exists (p ++ line ++ [0]), u, post. split; [|done]. split; simpl.
  - rewrite <-Hlen. symmetry. pose proof (blit_len _ _ _ _ Ew) as Hb. by rewrite <-Hb.
  - by rewrite <-!app_assoc.
  - rewrite !len_app. change (len [0]) with 1. lia.
  - done.
Qed.

(** The text behind position [len a] is moved to the start of the buffer. *)
Lemma move_ok a t post :
  text t → ∃ post',
  cstr (drop (Z.to_nat (len a)) (a ++ t ++ 0 :: post)) = Ok t ∧
  blit (a ++ t ++ 0 :: post) 0 (t ++ [0]) = Ok (t ++ 0 :: post').
Proof.
  intros Ht. rewrite drop_len_app, cstr_app by done.
  exists (drop (length (t ++ [0])) (a ++ t ++ 0 :: post)). split; [done|].
  pose proof (blit_prefix [] (t ++ [0]) (a ++ t ++ 0 :: post)) as E.
  change ([] ++ a ++ t ++ 0 :: post) with (a ++ t ++ 0 :: post) in E.
  change (len (@nil Z)) with 0 in E. rewrite E.
  - cbn [app]. by rewrite <-app_assoc.
  - unfold len. rewrite !length_app. simpl. lia.
Qed.

(** What [readline] does with the next line. *)
Definition returns_line (c : channel) (line rest : list Z) : Prop :=
  ∃ c', readline c = Ok (Some line, c') ∧ at_line c' rest ∧ sp_response c' = sp_response c.

(** Reading on, with the text [t] in front of the buffer. *)
Lemma read_on_ok c t n2 post line nl rest :
  stream_ok c → unread c [] t post → next_line n2 line nl rest →
  t ++ concat (reads c) = n2 ++ line ++ nl :: rest → len t ≤ len n2 + len line →
  len n2 + len line < MAX_AT_RESPONSE → ∃ e c2 c',
  read_more (read_fuel c) (len t) c = Ok (Some e, c2) ∧ take_line (Some e) c2 = Ok (Some line, c') ∧
  at_line c' rest ∧ sp_response c' = sp_response c.
Proof.
  intros Hs Hu Hn E Ht Hmax.
  destruct (read_more_ok (read_fuel c) c [] t post n2 line nl rest) as (c2 & e & Em & Hf & Hsp); try done.
  all: try (rewrite ?len_nil; unfold read_fuel; lia).
  destruct (take_line_ok _ _ _ _ Hf (nl_line _ _ _ _ Hn)) as (c' & Et & Hat & Hsp').
  rewrite len_nil, Z.add_0_l in Em. exists e, c2, c'. by rewrite Hsp', Hsp.
Qed.

Section readline.
Context (c : channel) (a post : list Z) (nls line rest : list Z) (nl : Z).
Context (Hs : stream_ok c) (Hn : next_line nls line nl rest) (Hmax : len nls + len line < MAX_AT_RESPONSE).

Lemma first_char u : unread c a u post → char_at (s_ATBuffer c) (s_ATBufferCur c) = Ok (List.hd 0 u).
Proof using Type. intros [_ Hbuf Hcur _]. unfold char_at. rewrite Hcur, Hbuf. destruct u; apply char_here. Qed.

(** The buffer is used up. *)
Lemma readline_empty :
  unread c a [] post → concat (reads c) = nls ++ line ++ nl :: rest → returns_line c line rest.
Proof using Hs Hn Hmax.
  intros Hu E. pose proof Hu as [Hlen _ _ Htext]. unfold returns_line, readline. erewrite bind_ok by done.
  rewrite (first_char [] Hu). erewrite bind_ok by done. cbn [List.hd]. rewrite (proj2 (Z.eqb_eq 0 0)) by done.
  assert (∃ post1, write_at (s_ATBuffer c) 0 0 = Ok (0 :: post1)) as [post1 Ew].
  { unfold write_at. rewrite blit_ok; [by eexists|lia|]. rewrite Hlen. by vm_compute. }
  destruct (read_on_ok (set_reading (0 :: post1) 0 (s_readCount c) (reads c) c) [] nls post1 line nl rest)
    as (e & c2 & c' & Em & Et & Hat & Hsp); try done.
  { split; try done. simpl. rewrite <-Hlen. apply (blit_len _ _ _ _ Ew). }
  { pose proof (len_nonneg nls). pose proof (len_nonneg line). rewrite len_nil. lia. }
  exists c'. split; [|done]. rewrite (bind_ok _ _ _ (Some e) c2); [exact Et|].
  rewrite Ew. erewrite bind_ok by done. by erewrite bind_ok by done.
Qed.

(** The line is in the buffer, and [v] behind it. *)
Lemma readline_buffered u v :
  unread c a u post → u ≠ [] → u = nls ++ line ++ nl :: v → rest = v ++ concat (reads c) →
  returns_line c line rest.
Proof using Hs Hn Hmax.
  intros Hu Hne Ev Er. pose proof Hu as [Hlen Hbuf Hcur Htext]. pose proof Hn as [Hnls Hline Hnn Hnp Hlne Hnl].
  unfold returns_line, readline. erewrite bind_ok by done.
  rewrite (first_char u Hu). erewrite bind_ok by done. destruct u as [|x u]; [done|]. cbn [List.hd].
  pose proof Htext as [Hx0 _]%Forall_cons. rewrite (proj2 (Z.eqb_neq x 0)) by done.
  assert (s_ATBuffer c = a ++ nls ++ (line ++ nl :: v) ++ 0 :: post) as Eb1.
  { rewrite Hbuf, Ev. by rewrite <-!app_assoc. }
  assert (s_ATBuffer c = (a ++ nls) ++ line ++ nl :: v ++ 0 :: post) as Eb2.
  { rewrite Eb1. by rewrite <-!app_assoc. }
  destruct (take_line_ok (set_reading (s_ATBuffer c) (len (a ++ nls)) (s_readCount c) (reads c) c)
    (len (a ++ nls) + len line) line rest) as (c' & Et & Hat & Hsp); [|done|].
  { split; [|done]. exists (a ++ nls), nl, v, post. split_and!; [|done|done]. split; simpl; try done.
    - rewrite Eb2. by rewrite <-!app_assoc.
    - rewrite Ev in Htext. by apply Forall_app in Htext as [_ Htext]. }
  exists c'. split; [|done]. rewrite (bind_ok _ _ _ (Some (len (a ++ nls) + len line))
    (set_reading (s_ATBuffer c) (len (a ++ nls)) (s_readCount c) (reads c) c)); [exact Et|].
  erewrite bind_ok.
  2:{ rewrite Hcur. rewrite Eb1 at 2. rewrite skip_ok; [done|done| |rewrite Eb1, !length_app; lia].
      intros y k. destruct line as [|z line']; [done|]. intros [= <- _].
      by apply Forall_cons in Hnn as [? _]. }
  rewrite <-(len_app a nls). rewrite Eb2 at 1. rewrite eol_some by done.
  erewrite bind_ok by done. cbv iota. by erewrite bind_ok by done.
Qed.

(** A part of the line is there: [n1] and [l1]. *)
Lemma readline_partial u n1 n2 l1 l2 :
  unread c a u post → u ≠ [] → nls = n1 ++ n2 → line = l1 ++ l2 → u = n1 ++ l1 →
  concat (reads c) = n2 ++ l2 ++ nl :: rest → l1 = [] ∨ n2 = [] → returns_line c line rest.
Proof using Hs Hn Hmax.
  intros Hu Hne En El Ex Er Hcase. pose proof Hu as [Hlen Hbuf Hcur Htext].
  pose proof Hn as [Hnls Hline Hnn Hnp Hlne Hnl]. unfold returns_line, readline. erewrite bind_ok by done.
  rewrite (first_char u Hu). erewrite bind_ok by done. destruct u as [|x u]; [done|]. cbn [List.hd].
  pose proof Htext as [Hx0 _]%Forall_cons. rewrite (proj2 (Z.eqb_neq x 0)) by done.
  subst nls line. apply Forall_app in Hnls as [Hn1 Hn2].
  apply Forall_app in Hline as [Hl1 Hl2]. pose proof Hnn as Hnn'. apply Forall_app in Hnn' as [Hnn1 Hnn2].
  assert (s_ATBuffer c = a ++ n1 ++ l1 ++ 0 :: post) as Eb1.
  { rewrite Hbuf, Ex. by rewrite <-!app_assoc. }
  assert (s_ATBuffer c = (a ++ n1) ++ l1 ++ 0 :: post) as Eb2 by (rewrite Eb1; by rewrite <-!app_assoc).
  destruct (move_ok (a ++ n1) l1 post Hl1) as (post1 & Ec & Ebl).
  destruct (read_on_ok (set_reading (l1 ++ 0 :: post1) 0 (s_readCount c) (reads c) c) l1 n2 post1 (l1 ++ l2) nl rest)
    as (e & c2 & c' & Em & Et & Hat & Hsp); try done.
  { split; try done. simpl. rewrite <-Hlen, Eb2. apply (blit_len _ _ _ _ Ebl). }
  { split; try done. by apply Forall_app. }
  { cbn [reads set_reading]. rewrite Er. destruct Hcase as [-> | ->]; [done|]. cbn [app]. by rewrite <-app_assoc. }
  { rewrite len_app. pose proof (len_nonneg n2). pose proof (len_nonneg l2). lia. }
  { rewrite (len_app n1 n2) in Hmax. pose proof (len_nonneg n1). lia. }
  exists c'. split; [|done]. rewrite (bind_ok _ _ _ (Some e) c2); [exact Et|].
  erewrite bind_ok.
  2:{ rewrite Hcur. rewrite Eb1 at 2. rewrite skip_ok; [done|done| |rewrite Eb1, !length_app; lia].
      intros y k ->. by apply Forall_cons in Hnn1 as [? _]. }
  rewrite <-(len_app a n1). rewrite Eb2 at 1. rewrite eol_none; [|done|done|].
  2:{ intros k ->. by eapply Hnp. }
  erewrite bind_ok by done. cbv iota. rewrite Eb2 at 1. rewrite Ec. erewrite bind_ok by done.
  rewrite Eb2, Ebl. erewrite bind_ok by done. by erewrite bind_ok by done.
Qed.
End readline.

(** C15: the reader sees the lines of a stream of text.  Of a stream without
    NUL and whose reads do not fail, whatever the chunks are that they return,
    the next call returns the next line that is not empty and does not begin
    like a prompt, with '>', without its newline, and what is behind it is
    still to come: no byte of it is lost and the buffer is not overrun, for a
    line that with the newlines before it is shorter than the buffer.  (With a
    NUL between the lines, as the daemon of this repository sends them, it
    depends on the chunks: [coalesced_reply_lost].) *)
Theorem readline_next_line c nls line nl rest :
  at_line c (nls ++ line ++ nl :: rest) → next_line nls line nl rest →
  len nls + len line < MAX_AT_RESPONSE → ∃ c',
  readline c = Ok (Some line, c') ∧ at_line c' rest ∧ sp_response c' = sp_response c.
Proof.
  intros (Hs & a & u & post & Hu & E) Hn Hmax. symmetry in E. destruct (decide (u = [])) as [->|Hne].
  { by eapply readline_empty. }
  destruct (split_stream _ _ _ _ _ _ E) as [(v & Ev & Er)|(n1 & n2 & l1 & l2 & En & El & Ex & Er & Hcase)].
  - by eapply readline_buffered.
  - by eapply readline_partial.
Qed.

(** ** Examples *)

(** An open channel whose reads return [rs]. *)
Definition fresh_channel (rs : list (list Z)) : channel :=
  Channel 5 (replicate 8193 0) 0 0 NO_RESULT None None None 0 rs [] (λ s, len s) [].

Lemma fresh_at_line rs :
  Forall (λ ch, ch ≠ [] ∧ text ch) rs → at_line (fresh_channel rs) (concat rs).
Proof.
  intros Hrs. split; [done|]. exists [], [], (replicate 8192 0).
  split; [|done]. split; [by vm_compute|reflexivity|done|constructor].
Qed.

(** A line in three chunks. *)
Lemma readline_witness : ∃ c',
  readline (fresh_channel [lit "+CL"; lit "CC: 1" ++ [13]; 10 :: lit "OK" ++ [13]]) =
    Ok (Some (lit "+CLCC: 1"), c') ∧ at_line c' (10 :: lit "OK" ++ [13]).
Proof.
  destruct (readline_next_line (fresh_channel [lit "+CL"; lit "CC: 1" ++ [13]; 10 :: lit "OK" ++ [13]])
    [] (lit "+CLCC: 1") 13 (10 :: lit "OK" ++ [13])) as (c' & E & Hat & _).
  - apply fresh_at_line. by apply (bool_decide_unpack _).
  - split; try (by apply (bool_decide_unpack _)). intros t'. discriminate.
  - by vm_compute.
  - by exists c'.
Defined.

Definition two_lines : MC (option (list Z) * option (list Z)) :=
  a ← readline; b ← readline; mret (a, b).
Definition lines_of (rs : list (list Z)) : option (option (list Z) * option (list Z)) :=
  match two_lines (fresh_channel rs) with Ok (l, _) => Some l | Err _ => None end.

(** The daemon ends its lines with a newline and a NUL.  Lines that are
    read apart arrive, but of two that are read together the second one is
    lost: the NUL ends the text of the buffer. *)
Theorem coalesced_reply_lost :
  lines_of [RING_line; OK_line] = Some (Some (lit "RING"), Some (lit "OK")) ∧
  lines_of [RING_line ++ OK_line] = Some (Some (lit "RING"), None).
Proof. split; vm_compute; reflexivity. Qed.
