(* ===== verification/ChannelProofs.v ===== *)
(** * Properties of the AT channel

    A command gets the lines that belong to its response, in order, and the
    handler of unsolicited lines gets the others; a command never stays
    pending; a line is written whole.  Unsolicited lines are recorded. *)

From stdpp Require Import strings.
From S2P Require Import Prelude CString AtTok AtChannel.

(** The channel, and the unsolicited lines in the order they were handled. *)
Definition listener : Type := channel * list (list Z).
#[export] Instance listener_channel : Lens listener channel := {| lget := fst; lset c w := (c, w.2) |}.
#[export] Instance listener_channel_laws : LensLaws listener channel.
Proof. split; intros; repeat match goal with w : listener |- _ => destruct w end; done. Qed.

Definition listen : option (list Z → option (list Z) → M listener unit) :=
  Some (λ line _, modify (λ w : listener, (w.1, w.2 ++ [line]))).

(** ** Writing *)

(** The device takes at least a byte of what is written. *)
Definition takes_bytes (c : channel) : Prop := ∀ s, s ≠ [] → 1 ≤ at_write c s.

Lemma write_all_ok fuel s c :
  takes_bytes c → (length s ≤ fuel)%nat →
  write_all fuel s c = Ok (true, set_written (written c ++ s) c).
Proof.
  revert s c. induction fuel as [|f IH]; intros s c Ht Hf.
  { destruct s; [|simpl in Hf; lia]. simpl. rewrite app_nil_r. by destruct c. }
  destruct s as [|x s]. { simpl. rewrite app_nil_r. by destruct c. }
  cbn [write_all]. erewrite bind_ok by done. pose proof (Ht (x :: s) ltac:(done)) as H1.
  rewrite (proj2 (Z.ltb_ge _ _)) by lia. erewrite bind_ok by done.
  rewrite IH; [|done|].
  - simpl. rewrite <-app_assoc, take_drop. done.
  - rewrite length_drop. simpl in *. lia.
Qed.

Lemma write_ended_ok s e c :
  takes_bytes c → 0 ≤ s_fd c → s_readerClosed c = 0 →
  write_ended s e c = Ok (0, set_written (written c ++ s ++ [e]) c).
Proof.
  intros Ht Hfd Hc. unfold write_ended. erewrite bind_ok by done.
  rewrite (proj2 (Z.ltb_ge _ _)) by done. rewrite Hc. cbn [orb Z.ltb Z.compare].
  erewrite bind_ok by (by apply write_all_ok). cbn [negb].
  erewrite bind_ok by (by apply write_all_ok). cbn [negb]. 
  unfold mret, M_ret. simpl. by rewrite <-app_assoc.
Qed.

(** ** The lines of a response *)

Definition is_final (l : list Z) : bool := isFinalResponse l.
Definition starts_digit (l : list Z) : bool := match l with d :: _ => isdigit d | [] => false end.

(** The first line that [P] holds for, and the other lines. *)
Fixpoint first_line (P : list Z → bool) (ls : list (list Z)) : list (list Z) * list (list Z) :=
  match ls with
  | [] => ([], [])
  | l :: ls' => if P l then ([l], ls') else let '(a, u) := first_line P ls' in (a, l :: u)
  end.

(** The lines that are the response of a command, and the unsolicited ones. *)
Definition answered (t : ATCommandType) (prefix : list Z) (ls : list (list Z))
    : list (list Z) * list (list Z) :=
  match t with
  | NO_RESULT => ([], ls)
  | NUMERIC => first_line starts_digit ls
  | SINGLELINE => first_line (λ l, strStartsWith l prefix) ls
  | MULTILINE => (filter (λ l, strStartsWith l prefix = true) ls,
                  filter (λ l, ¬ strStartsWith l prefix = true) ls)
  end.

(** The same, line by line: [acc] are the lines of the response so far. *)
Definition wanted (t : ATCommandType) (prefix : list Z) (acc : list (list Z)) (l : list Z) : bool :=
  match t with
  | NO_RESULT => false
  | NUMERIC => bool_decide (acc = []) && starts_digit l
  | SINGLELINE => bool_decide (acc = []) && strStartsWith l prefix
  | MULTILINE => strStartsWith l prefix
  end.
Fixpoint collect (t : ATCommandType) (prefix : list Z) (acc ls : list (list Z))
    : list (list Z) * list (list Z) :=
  match ls with
  | [] => (acc, [])
  | l :: ls' =>
      if wanted t prefix acc l then collect t prefix (acc ++ [l]) ls'
      else let '(a, u) := collect t prefix acc ls' in (a, l :: u)
  end.

Lemma collect_done t prefix acc ls :
  (∀ l, wanted t prefix acc l = false) → collect t prefix acc ls = (acc, ls).
Proof. intros H. induction ls as [|l ls IH]; simpl; [done|]. by rewrite H, IH. Qed.

Lemma collect_first (t : ATCommandType) prefix P ls :
  (∀ l, wanted t prefix [] l = P l) → (∀ x l, wanted t prefix [x] l = false) →
  collect t prefix [] ls = first_line P ls.
Proof.
  intros H1 H2. induction ls as [|l ls IH]; simpl; [done|]. rewrite H1.
  destruct (P l); [by apply collect_done|]. by rewrite IH.
Qed.

Lemma collect_filter prefix acc ls :
  collect MULTILINE prefix acc ls =
    (acc ++ filter (λ l, strStartsWith l prefix = true) ls,
     filter (λ l, ¬ strStartsWith l prefix = true) ls).
Proof.
  revert acc. induction ls as [|l ls IH]; intros acc; simpl.
  { by rewrite app_nil_r. }
  rewrite !filter_cons. destruct (strStartsWith l prefix) eqn:E.
  - rewrite decide_True, decide_False by naive_solver. rewrite IH. by rewrite <-app_assoc.
  - rewrite decide_False, decide_True by naive_solver. by rewrite IH.
Qed.

Lemma collect_answered t prefix ls : collect t prefix [] ls = answered t prefix ls.
Proof.
  destruct t; simpl.
  - by apply collect_done.
  - by apply collect_first.
  - by apply collect_first.
  - apply collect_filter.
Qed.

(** ** A command and its response *)

(** The channel while it waits: the command, and its response so far. *)
Definition waiting (t : ATCommandType) (prefix : option (list Z)) (acc : list (list Z)) (c : channel)
    : channel :=
  set_command t prefix None (Some (mkATResponse 0 None (rev acc))) c.

Lemma unsolicited_ok line (c : channel) log :
  handleUnsolicited listen line (c, log) = Ok (tt, (c, log ++ [line])).
Proof. done. Qed.

Lemma intermediate_ok t prefix acc c log line :
  zoom (addIntermediate line) ((waiting t prefix acc c, log) : listener) =
    Ok (tt, (waiting t prefix (acc ++ [line]) c, log)).
Proof. unfold waiting. by rewrite rev_app_distr. Qed.

(** The prefix is there for the types that look at it. *)
Definition prefix_ok (t : ATCommandType) (prefix : option (list Z)) : Prop :=
  match t with SINGLELINE | MULTILINE => is_Some prefix | _ => True end.

Lemma rev_nil_dec (acc : list (list Z)) : bool_decide (rev acc = []) = bool_decide (acc = []).
Proof.
  apply bool_decide_ext. destruct acc as [|x acc]; [done|].
  split; [|done]. simpl. intros H. by apply app_eq_nil in H as [_ ?].
Qed.

Lemma line_intermediate t prefix acc c log line :
  prefix_ok t prefix → is_final line = false →
  processLine listen line ((waiting t prefix acc c, log) : listener) =
    Ok (tt, if wanted t (default [] prefix) acc line
            then (waiting t prefix (acc ++ [line]) c, log)
            else (waiting t prefix acc c, log ++ [line])).
Proof.
  intros Hp Hf. unfold processLine. erewrite bind_ok by done.
  cbn [lget listener_channel fst waiting set_command sp_response s_smsPDU].
  unfold is_final, isFinalResponse in Hf. apply orb_false_iff in Hf as [-> ->].
  unfold by_type. cbn [s_type s_responsePrefix p_intermediates waiting set_command].
  rewrite rev_nil_dec. fold (starts_digit line).
  destruct t; cbn [wanted].
  - apply unsolicited_ok.
  - destruct (bool_decide (acc = []) && starts_digit line); [apply intermediate_ok|apply unsolicited_ok].
  - destruct Hp as [p ->]. cbn [default]. change (id p) with p.
    destruct (bool_decide (acc = [])); cbn [andb]; [|apply unsolicited_ok].
    erewrite bind_ok by done. destruct (strStartsWith line p); [apply intermediate_ok|apply unsolicited_ok].
  - destruct Hp as [p ->]. cbn [default]. change (id p) with p.
    erewrite bind_ok by done. destruct (strStartsWith line p); [apply intermediate_ok|apply unsolicited_ok].
Qed.

Lemma lines_ok on_closed t prefix ls evs timed acc c log :
  prefix_ok t prefix → Forall (λ l, is_final l = false) ls →
  cond_wait listen on_closed timed ((Line <$> ls) ++ evs) ((waiting t prefix acc c, log) : listener) =
    let '(acc', u) := collect t (default [] prefix) acc ls in
    cond_wait listen on_closed timed evs ((waiting t prefix acc' c, log ++ u) : listener).
Proof.
  intros Hp. revert acc log. induction ls as [|l ls IH]; intros acc log Hf.
  { simpl. by rewrite app_nil_r. }
  apply Forall_cons in Hf as [Hl Hf]. cbn [fmap list_fmap app cond_wait collect].
  erewrite bind_ok by (by apply line_intermediate).
  destruct (wanted t (default [] prefix) acc l); [by apply IH|].
  rewrite IH by done. destruct (collect t (default [] prefix) acc ls) as [a u].
  by rewrite <-app_assoc.
Qed.

Lemma final_ok t prefix acc c log line :
  is_final line = true →
  processLine listen line ((waiting t prefix acc c, log) : listener) =
    Ok (tt, (set_command t prefix None (Some (mkATResponse (if isFinalResponseSuccess line then 1 else 0)
               (Some line) (rev acc))) c, log)).
Proof.
  intros Hf. unfold processLine. erewrite bind_ok by done.
  cbn [lget listener_channel fst waiting set_command sp_response s_smsPDU].
  unfold is_final, isFinalResponse in Hf. destruct (isFinalResponseSuccess line); [done|].
  simpl in Hf. by rewrite Hf.
Qed.

Lemma reverse_loop_ok l done : reverse_loop l done = rev l ++ done.
Proof. revert done. induction l as [|x l IH]; intros d; simpl; [done|]. rewrite IH. by rewrite <-app_assoc. Qed.

(** C12: a command returns the response that belongs to it.  The command is
    written whole, with its end of line; when lines that are not final come
    in, then a final one, the response has the final line, whether it is a
    success, and the lines that belong to a command of the type in the order
    they came in; the handler of unsolicited lines gets the other lines in
    their order; and no command is pending any more. *)
Theorem at_send_command_collects t prefix command ls final evs c log :
  takes_bytes c → 0 ≤ s_fd c → s_readerClosed c = 0 → sp_response c = None → prefix_ok t prefix →
  sched c = (Line <$> ls) ++ Line final :: Wake :: evs →
  Forall (λ l, is_final l = false) ls → is_final final = true →
  let resp := mkATResponse (if isFinalResponseSuccess final then 1 else 0) (Some final)
                (answered t (default [] prefix) ls).1 in
  ∃ c', at_send_command_full listen None None false command t prefix None 0 (c, log) =
    Ok ((0, Some resp), (c', log ++ (answered t (default [] prefix) ls).2)) ∧
    written c' = written c ++ command ++ [13] ∧ sp_response c' = None ∧ sched c' = evs.
Proof.
  intros Ht Hfd Hcl Hr Hp Hs Hf Hfin resp. unfold at_send_command_full, at_send_command_full_nolock.
  set (c1 := set_written (written c ++ command ++ [13]) c).
  set (c2 := set_command t prefix None (Some at_response_new) c1).
  assert (c2 = waiting t prefix [] c1) as E2 by done.
  rewrite <-collect_answered in *.
  destruct (collect t (default [] prefix) [] ls) as [acc u] eqn:Ec. cbn [fst snd] in *.
  set (c3 := set_sched evs (set_command t prefix None (Some (mkATResponse
    (if isFinalResponseSuccess final then 1 else 0) (Some final) (rev acc))) c1)).
  assert (cond_wait listen None false (sched c2) ((c2, log) : listener) = Ok (false, (c3, log ++ u))) as Ew.
  { rewrite E2. change (sched (waiting t prefix [] c1)) with (sched c). rewrite Hs.
    rewrite lines_ok by done. rewrite Ec. cbn [cond_wait].
    erewrite bind_ok by (by apply final_ok). cbn [cond_wait]. by erewrite bind_ok by done. }
  set (c4 := set_command t None None None (set_response None c3)).
  assert (wait_response listen None (S (length (sched c2))) false ((c2, log) : listener) =
    Ok (false, (c3, log ++ u))) as Ewait.
  { cbn [wait_response]. erewrite bind_ok by done. cbn [lget listener_channel fst].
    erewrite bind_ok by done. change (s_readerClosed c2) with (s_readerClosed c). rewrite Hcl.
    cbn [finalResponse at_response_new]. rewrite bool_decide_true by done. cbn [andb Z.eqb].
    erewrite bind_ok by exact Ew. cbv iota.
    assert (∃ n, length (sched c2) = S n) as [n ->].
    { change (sched c2) with (sched c). rewrite Hs, length_app. simpl. eexists. apply Nat.add_succ_r. }
    cbn [wait_response]. erewrite bind_ok by done. by erewrite bind_ok by done. }
  exists c4. split; [|done]. erewrite bind_ok.
  2:{ erewrite bind_ok by done. cbn [lget listener_channel fst]. rewrite Hr.
      erewrite bind_ok by (apply (zoom_ok _ ((c, log) : listener)); by apply write_ended_ok).
      change (0 <? 0) with false. cbv iota. cbn [lset listener_channel snd].
      erewrite bind_ok by done. erewrite bind_ok by done.
      change (negb (0 =? 0)) with false. erewrite bind_ok by exact Ewait. cbv iota.
      erewrite bind_ok by done. erewrite bind_ok by done. erewrite bind_ok by done.
      by erewrite bind_ok by done. }
  cbv iota beta. erewrite bind_ok by done. unfold mret, M_ret. cbn [lget listener_channel fst].
  change (s_readerClosed c3) with (s_readerClosed c). rewrite Hcl.
  unfold resp, reverseIntermediates. cbn [p_intermediates success finalResponse].
  rewrite <-collect_answered, Ec, reverse_loop_ok, rev_involutive, app_nil_r. done.
Qed.

(** ** How a command ends *)

(** No command is pending. *)
Definition idle (c : channel) : Prop := sp_response c = None ∧ s_responsePrefix c = None ∧ s_smsPDU c = None.

(** A callback that at most closes the channel, as [at_close] does. *)
Definition only_closes (o : option (M listener unit)) : Prop := ∀ f c log, o = Some f → ∃ fd closed log',
  f (c, log) = Ok (tt, (set_channel fd closed c, log')) ∧ (0 < s_readerClosed c → 0 < closed).

Section ending.
Context (on_closed : option (M listener unit)).
Context (Hclosed : only_closes on_closed).

(** The channel while a command waits. *)
Record awaiting (t : ATCommandType) (prefix : option (list Z)) (c : channel) : Prop := {
  awaiting_response : is_Some (sp_response c);
  awaiting_type : s_type c = t;
  awaiting_prefix : s_responsePrefix c = prefix;
  awaiting_device : takes_bytes c;
}.

Lemma ended_total s e c : takes_bytes c → ∃ r c', write_ended s e c = Ok (r, c') ∧ (c' = c ∨ ∃ w, c' = set_written w c).
Proof.
  intros Ht. destruct (decide (s_fd c < 0 ∨ 0 < s_readerClosed c)) as [Hc|Hc].
  - exists AT_ERROR_CHANNEL_CLOSED, c. split; [|by left]. unfold write_ended. erewrite bind_ok by done.
    assert ((s_fd c <? 0) || (0 <? s_readerClosed c) = true) as ->; [|done]. by rewrite orb_true_iff, !Z.ltb_lt.
  - unfold write_ended. erewrite bind_ok by done.
    assert ((s_fd c <? 0) || (0 <? s_readerClosed c) = false) as ->.
    { rewrite orb_false_iff, !Z.ltb_ge. lia. }
    erewrite bind_ok by (by apply write_all_ok). cbn [negb]. erewrite bind_ok by (by apply write_all_ok).
    eexists 0, _. split; [reflexivity|]. right. by eexists.
Qed.

Lemma zoom_channel {B} (m : M channel B) c log b c' :
  m c = Ok (b, c') → zoom m ((c, log) : listener) = Ok (b, (c', log)).
Proof using. intros E. unfold zoom. cbn [lget listener_channel fst]. by rewrite E. Qed.

(** A line while a command waits. *)
Lemma line_total t prefix line c log :
  prefix_ok t prefix → awaiting t prefix c → ∃ c' log',
  processLine listen line ((c, log) : listener) = Ok (tt, (c', log')) ∧ awaiting t prefix c' ∧
  s_readerClosed c' = s_readerClosed c.
Proof using.
  intros Hp [[r Hr] Hty Hpr Hdev]. unfold processLine. erewrite bind_ok by done. cbn [lget listener_channel fst]. rewrite Hr.
  assert (∀ c, sp_response c = Some r → s_type c = t → s_responsePrefix c = prefix → takes_bytes c → ∃ c' log',
    by_type listen c r line ((c, log) : listener) = Ok (tt, (c', log')) ∧ awaiting t prefix c' ∧
    s_readerClosed c' = s_readerClosed c) as Hby.
  { clear c Hr Hty Hpr Hdev. intros c Hr Hty Hpr Hdev.
    assert (awaiting t prefix c) as Hc by (by split; [exists r|..]).
    assert (∃ c' log', handleUnsolicited listen line ((c, log) : listener) = Ok (tt, (c', log')) ∧ awaiting t prefix c' ∧
      s_readerClosed c' = s_readerClosed c) as Hun by (by eexists c, _).
    assert (∃ c' log', zoom (addIntermediate line) ((c, log) : listener) = Ok (tt, (c', log')) ∧ awaiting t prefix c' ∧
      s_readerClosed c' = s_readerClosed c) as Hadd.
    { eexists _, _. split.
      - apply zoom_channel. unfold addIntermediate. rewrite bind_get, bind_lift with (a := r) by (by rewrite Hr). reflexivity.
      - split; [by split; [eexists|..]|done]. }
    unfold by_type. rewrite Hty, Hpr. destruct t; [done|by destruct (_ && _)|..].
    - destruct Hp as [q ->]. destruct (bool_decide _); [|done]. rewrite bind_lift with (a := strStartsWith line q) by done.
      by destruct (strStartsWith line q).
    - destruct Hp as [q ->]. rewrite bind_lift with (a := strStartsWith line q) by done.
      by destruct (strStartsWith line q). }
  assert (∀ b, ∃ c' log', zoom (handleFinalResponse b line) ((c, log) : listener) = Ok (tt, (c', log')) ∧
    awaiting t prefix c' ∧ s_readerClosed c' = s_readerClosed c) as Hfin.
  { intros b. eexists _, _. split.
    - apply zoom_channel. unfold handleFinalResponse. erewrite bind_ok by done.
      rewrite bind_lift with (a := r) by (cbn [lget listener_channel fst]; by rewrite Hr). reflexivity.
    - split; [by split; [eexists|..]|done]. }
  destruct (isFinalResponseSuccess line); [apply Hfin|]. destruct (isFinalResponseError line); [apply Hfin|].
  destruct (s_smsPDU c) as [pdu|]; [|by apply Hby]. destruct (strcmp_eq line (lit "> ")); [|by apply Hby].
  destruct (ended_total pdu 26 c Hdev) as (x & c1 & E & Hc1).
  rewrite bind_ok with (a := x) (s' := (c1, log)) by (by apply zoom_channel).
  eexists _, _. split; [reflexivity|]. by destruct Hc1 as [->|[w ->]]; split; [split; simpl; rewrite ?Hr; eauto|..].
Qed.

(** What a wait leaves: why the channel is closed, and the events to come. *)
Definition waited (evs : list at_event) (c c' : channel) : Prop :=
  sched c' ⊆ evs ∧ (length (sched c') < length evs)%nat ∧
  (s_readerClosed c' = s_readerClosed c ∨ 0 < s_readerClosed c' ∧ ReaderClosed ∈ evs).

Lemma wait_total t prefix timed evs c log :
  prefix_ok t prefix → awaiting t prefix c → 0 ≤ s_readerClosed c →
  cond_wait listen on_closed timed evs ((c, log) : listener) = Err Blocked ∨ ∃ b c' log',
  cond_wait listen on_closed timed evs ((c, log) : listener) = Ok (b, (c', log')) ∧ awaiting t prefix c' ∧
  waited evs c c' ∧ (b = true → timed = true ∧ TimedOut ∈ evs).
Proof using Hclosed.
  intros Hp. revert c log. induction evs as [|ev evs IH]; intros c log Hc H0; [by left|].
  assert (∀ c1 log1 x, awaiting t prefix c1 → 0 ≤ s_readerClosed c1 →
    (s_readerClosed c1 = s_readerClosed c ∨ 0 < s_readerClosed c1 ∧ ReaderClosed ∈ x :: evs) →
    cond_wait listen on_closed timed evs ((c1, log1) : listener) = Err Blocked ∨ ∃ b c' log',
    cond_wait listen on_closed timed evs ((c1, log1) : listener) = Ok (b, (c', log')) ∧ awaiting t prefix c' ∧
    waited (x :: evs) c c' ∧ (b = true → timed = true ∧ TimedOut ∈ x :: evs)) as Hnext.
  { intros c1 log1 x Hc1 H1 Hx. destruct (IH c1 log1 Hc1 H1) as [|(b & c' & log' & E & Hc' & (Hs & Hl & Hcl) & Hb)]; [by left|].
    right. exists b, c', log'. split; [done|]. split; [done|]. split.
    - split; [set_solver|]. split; [simpl; lia|].
      destruct Hcl as [->|[? ?]]; [done|]. right. split; [done|]. by apply elem_of_cons; right.
    - intros [? ?]%Hb. split; [done|]. by apply elem_of_cons; right. }
  destruct ev as [line| | |]; cbn [cond_wait].
  - destruct (line_total t prefix line c log Hp Hc) as (c1 & log1 & E & Hc1 & Hcl).
    rewrite (bind_ok _ _ _ _ _ E). apply Hnext; [done|lia|by left].
  - assert (∃ c1 log1, onReaderClosed on_closed ((c, log) : listener) = Ok (tt, (c1, log1)) ∧ awaiting t prefix c1 ∧
      0 ≤ s_readerClosed c1 ∧ (s_readerClosed c1 = s_readerClosed c ∨ 0 < s_readerClosed c1)) as (c1 & log1 & E & Hc1 & H1 & Hcl).
    { unfold onReaderClosed. erewrite bind_ok by done. cbn [lget listener_channel fst].
      destruct on_closed as [f|] eqn:Ef; [|exists c, log; by eauto].
      destruct (s_readerClosed c =? 0); [|exists c, log; by eauto].
      destruct (Hclosed f (set_channel (s_fd c) 1 c) log eq_refl) as (fd & closed & log' & E & Hle). specialize (Hle ltac:(done)).
      exists (set_channel fd closed (set_channel (s_fd c) 1 c)), log'. erewrite bind_ok by done.
      split; [exact E|]. destruct Hc. split; [by split|]. simpl. lia. }
    rewrite (bind_ok _ _ _ _ _ E). apply Hnext; [done|lia|].
    destruct Hcl as [|]; [by left|]. right. split; [done|]. by apply elem_of_cons; left.
  - right. eexists false, (set_sched evs c), log. split; [done|]. destruct Hc.
    split; [by split|]. split; [|done]. split; [simpl; set_solver|]. split; [simpl; lia|by left].
  - destruct timed; [|by apply Hnext; [|lia|left]]. right. eexists true, (set_sched evs c), log. split; [done|]. destruct Hc.
    split; [by split|]. split; [|by intros _; split; [|apply elem_of_cons; left]].
    split; [simpl; set_solver|]. split; [simpl; lia|by left].
Qed.

Lemma response_total t prefix timed fuel c log :
  prefix_ok t prefix → awaiting t prefix c → 0 ≤ s_readerClosed c → (length (sched c) < fuel)%nat →
  wait_response listen on_closed fuel timed ((c, log) : listener) = Err Blocked ∨ ∃ b c' log',
  wait_response listen on_closed fuel timed ((c, log) : listener) = Ok (b, (c', log')) ∧ awaiting t prefix c' ∧
  (s_readerClosed c' = s_readerClosed c ∨ 0 < s_readerClosed c' ∧ ReaderClosed ∈ sched c) ∧
  (b = true → timed = true ∧ TimedOut ∈ sched c) ∧
  (b = false → (∃ r, sp_response c' = Some r ∧ is_Some (finalResponse r)) ∨ s_readerClosed c' ≠ 0).
Proof using Hclosed.
  intros Hp. revert c log. induction fuel as [|f IH]; intros c log Hc H0 Hf; [lia|].
  cbn [wait_response]. destruct (awaiting_response _ _ _ Hc) as [r Hr].
  erewrite bind_ok by done. cbn [lget listener_channel fst]. rewrite bind_lift with (a := r) by (by rewrite Hr).
  destruct (bool_decide_reflect (finalResponse r = None)) as [Hn|Hn]; cbn [andb].
  2:{ right. exists false, c, log. split; [done|]. split; [done|]. split; [by left|]. split; [done|]. left.
      exists r. split; [done|]. by apply not_eq_None_Some. }
  destruct (Z.eqb_spec (s_readerClosed c) 0) as [Hz|Hz].
  2:{ right. exists false, c, log. split; [done|]. split; [done|]. split; [by left|]. split; [done|]. by right. }
  destruct (wait_total t prefix timed (sched c) c log Hp Hc H0) as [E|(b & c1 & log1 & E & Hc1 & (Hs & Hl & Hcl) & Hb)].
  { left. by rewrite (bind_err _ _ _ _ E). }
  rewrite (bind_ok _ _ _ _ _ E). destruct b.
  { right. exists true, c1, log1. split; [done|]. split; [done|]. split; [done|]. split; [done|]. done. }
  destruct (IH c1 log1 Hc1) as [|(b & c2 & log2 & E2 & Hc2 & Hcl2 & Hb2 & Hend)]; [lia|lia|by left|].
  right. exists b, c2, log2. split; [done|]. split; [done|]. split; [|split; [|done]].
  - destruct Hcl2 as [->|[? ?]]; [done|]. right. split; [done|]. by apply Hs.
  - intros [? ?]%Hb2. split; [done|]. by apply Hs.
Qed.
End ending.

Lemma full_ok on_timeout on_closed t prefix pdu command msec (w : listener) e r w' :
  at_send_command_full_nolock listen on_closed command t prefix pdu msec w = Ok ((e, r), w') → e ≠ AT_ERROR_TIMEOUT →
  at_send_command_full listen on_timeout on_closed false command t prefix pdu msec w = Ok ((e, r), w').
Proof.
  intros E He. unfold at_send_command_full. rewrite (bind_ok _ _ _ _ _ E). destruct on_timeout; [|done].
  by rewrite (proj2 (Z.eqb_neq _ _) He).
Qed.

(** Whatever happens, and for any device. *)
Lemma clear_ends (w : listener) : ends (zoom clearPendingCommand) w (λ _ w', idle w'.1).
Proof. by intros b w' [= <- <-]. Qed.

Lemma command_ends_idle on_timeout on_closed t prefix pdu command msec (w : listener) :
  only_closes on_timeout →
  ends (at_send_command_full listen on_timeout on_closed false command t prefix pdu msec) w (λ _ w', idle w'.1).
Proof.
  intros Ht. assert (ends (at_send_command_full_nolock listen on_closed command t prefix pdu msec) w (λ _ w', idle w'.1)) as H.
  { assert (∀ {B} (b : B) w, ends (zoom clearPendingCommand;; mret b) w (λ _ w', idle w'.1)) as Hclear.
    { intros B b w1. apply ends_bind. intros [] w2 E. apply ends_ret. by eapply clear_ends. }
    unfold at_send_command_full_nolock. apply ends_bind. intros c w1 _. destruct (sp_response c); [apply Hclear|].
    apply ends_bind. intros err w2 _. destruct (err <? 0); [apply Hclear|]. apply ends_bind. intros [] w3 _.
    apply ends_bind. intros fuel w4 _. apply ends_bind. intros [] w5 _; [apply Hclear|]. apply ends_bind. intros c1 w6 _.
    apply ends_bind. intros r w7 _. apply ends_bind. intros [] w8 _. apply Hclear. }
  unfold at_send_command_full. apply ends_bind. intros [e r] w1 Hw%H. apply ends_bind. intros [] w2 E. apply ends_ret.
  destruct on_timeout as [f|]; [|by injection E as <-]. destruct (e =? _); [|by injection E as <-].
  destruct w1 as [c1 log1]. destruct (Ht f c1 log1 eq_refl) as (fd & cl & log' & E' & _).
  rewrite E' in E. by injection E as <-.
Qed.

(** The causes of the ways in which a command that was written ends. *)
Definition ending_of (msec : Z) (events : list at_event) (e : Z) (r : option ATResponse) : Prop :=
  (e = AT_ERROR_TIMEOUT ∧ r = None ∧ msec ≠ 0 ∧ TimedOut ∈ events) ∨
  (e = AT_ERROR_CHANNEL_CLOSED ∧ is_Some r ∧ ReaderClosed ∈ events) ∨
  (e = 0 ∧ ∃ resp, r = Some resp ∧ is_Some (finalResponse resp)).

Lemma written_total on_closed t prefix pdu command msec c log :
  only_closes on_closed → prefix_ok t prefix →
  takes_bytes c → 0 ≤ s_fd c → s_readerClosed c = 0 → sp_response c = None →
  at_send_command_full_nolock listen on_closed command t prefix pdu msec ((c, log) : listener) = Err Blocked ∨ ∃ e r c' log',
  at_send_command_full_nolock listen on_closed command t prefix pdu msec ((c, log) : listener) = Ok ((e, r), (c', log')) ∧
  ending_of msec (sched c) e r.
Proof.
  intros Hcl Hp Ht Hfd H0 Hr. unfold at_send_command_full_nolock.
  erewrite bind_ok by done. cbn [lget listener_channel fst]. rewrite Hr.
  erewrite bind_ok by (apply zoom_channel; by apply write_ended_ok).
  change (0 <? 0) with false. cbv iota. set (c1 := set_written _ c).
  erewrite bind_ok by done. erewrite bind_ok by done. cbn [lget lset listener_channel fst snd].
  set (c2 := set_command t prefix pdu (Some at_response_new) c1).
  destruct (response_total on_closed Hcl t prefix (negb (msec =? 0)) (S (length (sched c2))) c2 log Hp)
    as [E|(b & c3 & log3 & E & [[r Hr3] _ _ _] & Hclosed & Htime & Hend)];
    [by split; [by eexists|..]|by rewrite <-H0|lia|left; exact (bind_err _ _ _ _ E)|].
  right. change (sched c2) with (sched c) in *. rewrite (bind_ok _ _ _ _ _ E). destruct b.
  - eexists _, _, _, _. erewrite bind_ok by done. split; [reflexivity|]. left.
    destruct (Htime eq_refl) as [Hm Hin]. split_and!; [done..|by intros ->|done].
  - erewrite bind_ok by done. cbn [lget listener_channel fst]. rewrite bind_lift with (a := r) by (by rewrite Hr3).
    erewrite bind_ok by done. erewrite bind_ok by done. eexists _, _, _, _. split; [reflexivity|]. right.
    change (s_readerClosed c2) with (s_readerClosed c) in Hclosed. destruct (Z.ltb_spec 0 (s_readerClosed c3)) as [Hlt|Hge].
    + left. split; [done|]. split; [by eexists|]. destruct Hclosed as [Heq|[_ ?]]; [lia|done].
    + right. split; [done|]. eexists. split; [reflexivity|].
      destruct (Hend eq_refl) as [(r' & Hr' & Hf)|Hne]; [|lia]. rewrite Hr3 in Hr'. by injection Hr' as <-.
Qed.

(** C37: a command of another thread than the reader's never stays pending,
    for any device, schedule and type: wherever it ends, nothing is pending.
    The errors say why it had no response.  The reader itself is refused, and
    changes nothing; so is a command while another is pending, which is then
    not pending any more; on a closed channel nothing is written; a write that
    fails gives the generic error; and a command that was written ends with a
    time-out only after its time was over, with a closed channel only after
    the reader had closed it, and with a response that has its final line
    otherwise, or it waits for ever. *)
Theorem at_send_command_errors on_timeout on_closed t prefix pdu command msec c log :
  only_closes on_timeout → only_closes on_closed →
  let send reader := at_send_command_full listen on_timeout on_closed reader command t prefix pdu msec (c, log) in
  send true = Ok ((AT_ERROR_INVALID_THREAD, None), (c, log)) ∧
  (∀ e r c' log', send false = Ok ((e, r), (c', log')) → idle c') ∧
  (is_Some (sp_response c) → ∃ c', send false = Ok ((AT_ERROR_COMMAND_PENDING, None), (c', log)) ∧ written c' = written c) ∧
  (sp_response c = None → s_fd c < 0 ∨ 0 < s_readerClosed c → ∃ c',
     send false = Ok ((AT_ERROR_CHANNEL_CLOSED, None), (c', log)) ∧ written c' = written c) ∧
  (sp_response c = None → 0 ≤ s_fd c → s_readerClosed c = 0 → command ≠ [] → at_write c command < 0 → ∃ c',
     send false = Ok ((AT_ERROR_GENERIC, None), (c', log)) ∧ written c' = written c) ∧
  (sp_response c = None → 0 ≤ s_fd c → s_readerClosed c = 0 → takes_bytes c → prefix_ok t prefix →
     send false = Err Blocked ∨ ∃ e r c' log', send false = Ok ((e, r), (c', log')) ∧ ending_of msec (sched c) e r) ∧
  (sp_response c = None → 0 ≤ s_fd c → s_readerClosed c = 0 → takes_bytes c → prefix_ok t prefix →
     ∀ ls evs, pdu = None → msec ≠ 0 → Forall (λ l, is_final l = false) ls → sched c = (Line <$> ls) ++ TimedOut :: evs →
     ∃ c' log', send false = Ok ((AT_ERROR_TIMEOUT, None), (c', log'))).
Proof.
  intros Hto Hcl send. split; [done|]. split; [|split; [|split; [|split; [|split]]]].
  - intros e r c' log' E. exact (command_ends_idle on_timeout on_closed t prefix pdu command msec (c, log) Hto _ _ E).
  - intros [r Hr]. eexists. split; [|].
    + apply full_ok; [|done]. unfold at_send_command_full_nolock. erewrite bind_ok by done. cbn [lget listener_channel fst].
      rewrite Hr. by erewrite bind_ok by done.
    + done.
  - intros Hr Hc. eexists. split; [|].
    + apply full_ok; [|done]. unfold at_send_command_full_nolock. erewrite bind_ok by done. cbn [lget listener_channel fst].
      rewrite Hr. erewrite bind_ok.
      2:{ apply zoom_channel. unfold writeline, write_ended. rewrite bind_get.
          assert ((s_fd c <? 0) || (0 <? s_readerClosed c) = true) as ->; [|done].
          rewrite orb_true_iff, !Z.ltb_lt. done. }
      change (AT_ERROR_CHANNEL_CLOSED <? 0) with true. cbv iota. by erewrite bind_ok by done.
    + done.
  - intros Hr Hfd H0 Hne Hw. eexists. split; [|].
    + apply full_ok; [|done]. unfold at_send_command_full_nolock. erewrite bind_ok by done. cbn [lget listener_channel fst].
      rewrite Hr. erewrite bind_ok.
      2:{ apply zoom_channel. unfold writeline, write_ended. rewrite bind_get, (proj2 (Z.ltb_ge _ _) Hfd), H0. cbn [orb Z.ltb Z.compare].
          rewrite bind_ok with (a := false) (s' := c); [done|]. destruct command as [|x l]; [done|].
          cbn [length write_all]. rewrite bind_gets. by rewrite (proj2 (Z.ltb_lt _ _) Hw). }
      change (AT_ERROR_GENERIC <? 0) with true. cbv iota. by erewrite bind_ok by done.
    + done.
  - intros Hr Hfd H0 Hdev Hp. unfold send, at_send_command_full.
    destruct (written_total on_closed t prefix pdu command msec c log Hcl Hp Hdev Hfd H0 Hr) as [E|(e & r & c1 & log1 & E & He)].
    { left. exact (bind_err _ _ _ _ E). }
    right. rewrite (bind_ok _ _ _ _ _ E). destruct on_timeout as [f|]; [|by eexists _, _, _, _].
    destruct (e =? AT_ERROR_TIMEOUT); [|by eexists _, _, _, _].
    destruct (Hto f c1 log1 eq_refl) as (fd & cl & log' & Ef & _). rewrite (bind_ok _ _ _ _ _ Ef).
    by eexists _, _, _, _.
  - intros Hr Hfd H0 Hdev Hp ls evs -> Hm Hls Hs.
    set (c1 := set_written (written c ++ command ++ [13]) c). set (c2 := set_command t prefix None (Some at_response_new) c1).
    assert (∃ c3 log3, cond_wait listen on_closed (negb (msec =? 0)) (sched c2) ((c2, log) : listener) =
      Ok (true, (c3, log3))) as (c3 & log3 & Ew).
    { assert (c2 = waiting t prefix [] c1) as -> by done. change (sched (waiting t prefix [] c1)) with (sched c).
      rewrite Hs, lines_ok by done. destruct (collect _ _ _ _) as [acc u]. cbn [cond_wait].
      rewrite (proj2 (Z.eqb_neq _ _)) by done. cbn [negb]. cbv iota. eexists _, _. by erewrite bind_ok by done. }
    assert (wait_response listen on_closed (S (length (sched c2))) (negb (msec =? 0)) ((c2, log) : listener) =
      Ok (true, (c3, log3))) as E.
    { cbn [wait_response]. erewrite bind_ok by done. cbn [lget listener_channel fst]. erewrite bind_ok by done.
      change (s_readerClosed c2) with (s_readerClosed c). rewrite H0. cbn [finalResponse at_response_new].
      rewrite bool_decide_true by done. cbn [andb Z.eqb]. by rewrite (bind_ok _ _ _ _ _ Ew). }
    assert (∃ c4, at_send_command_full_nolock listen on_closed command t prefix None msec ((c, log) : listener) =
      Ok ((AT_ERROR_TIMEOUT, None), (c4, log3))) as [c4 E4].
    { eexists. unfold at_send_command_full_nolock. erewrite bind_ok by done. cbn [lget listener_channel fst]. rewrite Hr.
      erewrite bind_ok by (apply zoom_channel; by apply write_ended_ok). change (0 <? 0) with false. cbv iota.
      erewrite bind_ok by done. erewrite bind_ok by done. rewrite (bind_ok _ _ _ _ _ E). by erewrite bind_ok by done. }
    unfold send, at_send_command_full. rewrite (bind_ok _ _ _ _ _ E4). destruct on_timeout as [f|]; [|by eexists _, _].
    change (AT_ERROR_TIMEOUT =? AT_ERROR_TIMEOUT) with true. cbv iota.
    destruct (Hto f c4 log3 eq_refl) as (fd & cl & log' & Ef & _). rewrite (bind_ok _ _ _ _ _ Ef). by eexists _, _.
Qed.

(** ** Witnesses *)

Definition demo_channel (events : list at_event) : channel :=
  Channel 5 (replicate 8193 0) 0 0 NO_RESULT None None None 0 [] [] (λ s, 1) events.

Lemma at_send_command_witness : ∃ c',
  at_send_command_full listen None None false (lit "AT+CLCC") MULTILINE (Some (lit "+CLCC:")) None 0
    ((demo_channel [Line (lit "+CLCC: 1"); Line (lit "RING"); Line (lit "+CLCC: 2"); Line (lit "OK"); Wake],
      []) : listener) =
  Ok ((0, Some (mkATResponse 1 (Some (lit "OK")) [lit "+CLCC: 1"; lit "+CLCC: 2"])), (c', [lit "RING"])).
Proof.
  destruct (at_send_command_collects MULTILINE (Some (lit "+CLCC:")) (lit "AT+CLCC")
    [lit "+CLCC: 1"; lit "RING"; lit "+CLCC: 2"] (lit "OK") []
    (demo_channel [Line (lit "+CLCC: 1"); Line (lit "RING"); Line (lit "+CLCC: 2"); Line (lit "OK"); Wake])
    []) as (c' & E & _); try done.
  - by eexists.
  - by apply (bool_decide_unpack _).
  - exists c'. rewrite E. reflexivity.
Defined.

(** Callbacks that close the channel, as those of the RIL do. *)
Definition closing : option (M listener unit) :=
  Some (modify (λ w : listener, (set_channel (-1) 1 w.1, w.2 ++ [lit "closed"]))).
Lemma closing_closes : only_closes closing.
Proof. intros f c log [= <-]. by exists (-1), 1, (log ++ [lit "closed"]). Qed.

Lemma at_send_command_errors_witness : ∃ c' log',
  at_send_command_full listen closing closing false (lit "AT+CLCC") MULTILINE (Some (lit "+CLCC:")) None 250
    ((demo_channel [Line (lit "+CLCC: 1"); Line (lit "RING"); TimedOut], []) : listener) =
    Ok ((AT_ERROR_TIMEOUT, None), (c', log')) ∧ idle c'.
Proof.
  destruct (at_send_command_errors closing closing MULTILINE (Some (lit "+CLCC:")) None (lit "AT+CLCC") 250
    (demo_channel [Line (lit "+CLCC: 1"); Line (lit "RING"); TimedOut]) [] closing_closes closing_closes)
    as (_ & Hidle & _ & _ & _ & _ & H).
  destruct (H eq_refl ltac:(done) eq_refl (λ s _, Z.le_refl 1) ltac:(by eexists) [lit "+CLCC: 1"; lit "RING"] [] eq_refl
    ltac:(done) ltac:(by apply (bool_decide_unpack _)) eq_refl) as (c' & log' & E).
  exists c', log'. exact (conj E (Hidle _ _ _ _ E)).
Defined.
