(* ===== verification/AtTime.v ===== *)
(** * Time and memory of the AT channel: src/ril-telephone/atchannel.c

    The parts of the channel that AtChannel leaves to the system: the end of
    a wait as an absolute time, in the build without USE_NP, the pause after
    a handshake, the release of a response, and the two callbacks. *)

From stdpp Require Import strings.
From S2P Require Import Prelude CString EventLoop AtTok AtChannel ReadlineProofs ChannelProofs.

Record timespec := Timespec { ts_sec : Z; ts_nsec : Z }.

(** C division rounds to zero. *)
Definition setTimespecRelative (tv : timeval) (msec : Z) : timespec :=
  Timespec (s32 (tv_sec tv + Z.quot msec 1000)) (s32 ((tv_usec tv + Z.rem msec 1000 * 1000) * 1000)).

(** What [pthread_cond_timedwait] and [nanosleep] take for a time. *)
Definition timespec_ok (ts : timespec) : bool := (0 <=? ts_nsec ts) && (ts_nsec ts <? 1000000000).

(** [nanosleep] sleeps the time that is left, or is interrupted after some of
    it: [interrupts] has the nanoseconds slept up to each signal.  The result
    is how long it was in all. *)
Definition nsec_of (ts : timespec) : Z := ts_sec ts * 1000000000 + ts_nsec ts.
Definition of_nsec (n : Z) : timespec := Timespec (n / 1000000000) (n mod 1000000000).

Fixpoint sleep_loop (ts : timespec) (interrupts : list Z) : Z :=
  match interrupts with
  | [] => nsec_of ts
  | n :: interrupts =>
      if n <? nsec_of ts then n + sleep_loop (of_nsec (nsec_of ts - n)) interrupts
      else nsec_of ts
  end.

Definition sleepMsec (msec : Z) (interrupts : list Z) : Z :=
  sleep_loop (Timespec (Z.quot msec 1000) (Z.rem msec 1000 * 1000 * 1000)) interrupts.

(** ** Memory *)

(** The blocks of a response: the text and the struct of each line, the text
    of the final one, and the response. *)
Inductive at_block := Line_text (i : nat) | Line_struct (i : nat) | Final_text | Response_struct.
#[export] Instance at_block_eq_dec : EqDecision at_block.
Proof. solve_decision. Defined.

(** The calls of [free] on a block. *)
Fixpoint free_lines (i : nat) (lines : list (list Z)) : list at_block :=
  match lines with
  | [] => []
  | _ :: lines => Line_text i :: Line_struct i :: free_lines (S i) lines
  end.

Definition at_response_free (p_response : option ATResponse) : list at_block :=
  match p_response with
  | None => []
  | Some r =>
      free_lines 0 (p_intermediates r) ++
      match finalResponse r with Some _ => [Final_text] | None => [] end ++ [Response_struct]
  end.

(** ** The callbacks *)

Record at_callbacks (F : Type) := AtCallbacks {
  s_onTimeout : option F;
  s_onReaderClosed : option F;
}.
Arguments AtCallbacks {F}.
Arguments s_onTimeout {F}.
Arguments s_onReaderClosed {F}.

Definition at_set_on_timeout {F} (onTimeout : option F) (c : at_callbacks F) : at_callbacks F :=
  AtCallbacks onTimeout (s_onReaderClosed c).
Definition at_set_on_reader_closed {F} (onClose : option F) (c : at_callbacks F) : at_callbacks F :=
  AtCallbacks (s_onTimeout c) onClose.

(** ** Waiting without USE_NP *)

Section threads.
Context {W : Type} `{Lens W channel}.
Variable unsol : option (list Z → option (list Z) → M W unit).
Variable on_closed : option (M W unit).

(** [pthread_cond_timedwait]: a time that is none is an error at once, with
    the lock kept, so that no other thread runs. *)
Definition cond_timedwait (ts : timespec) (events : list at_event) : M W bool :=
  if timespec_ok ts then cond_wait unsol on_closed true events else mret false.

Fixpoint wait_response_until (fuel : nat) (ts : timespec) : M W bool :=
  match fuel with
  | O => fail OutOfFuel
  | S f =>
      c ← gets lget;
      r ← lift (deref (sp_response c));
      if bool_decide (finalResponse r = None) && (s_readerClosed c =? 0) then
        timeout ← cond_timedwait ts (sched c);
        if (timeout : bool) then mret true else wait_response_until f ts
      else mret false
  end.

(** ** What the wait does *)

(** An absolute time is one when the microseconds and the milliseconds below
    a second do not make a second together. *)
Theorem setTimespec_valid tv msec :
  0 ≤ tv_usec tv < 1000000 → 0 ≤ msec →
  timespec_ok (setTimespecRelative tv msec) = true ↔ tv_usec tv + msec mod 1000 * 1000 < 1000000.
Proof using.
  clear. intros Htv Hm. unfold timespec_ok, setTimespecRelative. cbn [ts_nsec].
  rewrite Z.rem_mod_nonneg by lia. pose proof (Z.mod_pos_bound msec 1000 ltac:(lia)).
  rewrite s32_small by (unfold INT_MIN, INT_MAX; lia). rewrite andb_true_iff, Z.leb_le, Z.ltb_lt. lia.
Qed.

(** With such a time the wait is the one with USE_NP. *)
Theorem wait_until_valid fuel ts (w : W) :
  timespec_ok ts = true → wait_response_until fuel ts w = wait_response unsol on_closed fuel true w.
Proof.
  intros Ht. revert w. induction fuel as [|f IH]; intros w; [done|]. cbn [wait_response_until wait_response].
  unfold cond_timedwait. rewrite Ht. unfold mbind, M_bind.
  destruct (gets lget w) as [[c w1]|]; [|done]. destruct (lift (deref (sp_response c)) w1) as [[r w2]|]; [|done].
  destruct (_ && _); [|done]. destruct (cond_wait unsol on_closed true (sched c) w2) as [[[] w3]|]; [done| |done]. apply IH.
Qed.

(** With any other the command thread turns in its loop for ever and keeps
    the lock: the reader cannot give it the response that would end it. *)
Theorem wait_until_hangs fuel ts (w : W) r :
  timespec_ok ts = false → sp_response (lget w) = Some r → finalResponse r = None → s_readerClosed (lget w) = 0 →
  wait_response_until fuel ts w = Err OutOfFuel.
Proof.
  intros Ht Hr Hf Hc. induction fuel as [|f IH]; [done|]. cbn [wait_response_until]. rewrite bind_gets.
  rewrite bind_lift with (a := r) by (by rewrite Hr). rewrite Hf, Hc, bool_decide_true by done.
  unfold cond_timedwait. rewrite Ht. exact IH.
Qed.

(** C39: The wait of a handshake, begun at the time [tv]: in the last quarter of
    a second it hangs. *)
Theorem handshake_wait fuel tv (w : W) r :
  0 ≤ tv_usec tv < 1000000 → sp_response (lget w) = Some r → finalResponse r = None → s_readerClosed (lget w) = 0 →
  wait_response_until fuel (setTimespecRelative tv HANDSHAKE_TIMEOUT_MSEC) w =
    if tv_usec tv <? 750000 then wait_response unsol on_closed fuel true w else Err OutOfFuel.
Proof.
  intros Htv Hr Hf Hc. pose proof (setTimespec_valid tv HANDSHAKE_TIMEOUT_MSEC Htv ltac:(done)) as Hv.
  change (HANDSHAKE_TIMEOUT_MSEC mod 1000) with 250 in Hv.
  destruct (Z.ltb_spec (tv_usec tv) 750000).
  - apply wait_until_valid, Hv. lia.
  - eapply wait_until_hangs; [|done..]. apply not_true_is_false. rewrite Hv. lia.
Qed.
End threads.

(** ** Sleeping *)

Lemma nsec_of_nsec n : nsec_of (of_nsec n) = n.
Proof. unfold nsec_of, of_nsec. cbn [ts_sec ts_nsec]. pose proof (Z.div_mod n 1000000000). lia. Qed.

(** The pause is as long as it should be, however often it is interrupted. *)
Theorem sleepMsec_total msec interrupts : 0 ≤ msec → sleepMsec msec interrupts = msec * 1000000.
Proof.
  intros Hm. unfold sleepMsec.
  assert (∀ ts, sleep_loop ts interrupts = nsec_of ts) as ->.
  { induction interrupts as [|n interrupts IH]; intros ts; [done|]. simpl.
    destruct (n <? nsec_of ts); [|done]. rewrite IH, nsec_of_nsec. lia. }
  unfold nsec_of. cbn [ts_sec ts_nsec]. pose proof (Z.quot_rem' msec 1000). lia.
Qed.

(** ** Releasing *)

Definition response_blocks (r : ATResponse) (b : at_block) : Prop :=
  match b with
  | Line_text i | Line_struct i => (i < length (p_intermediates r))%nat
  | Final_text => is_Some (finalResponse r)
  | Response_struct => True
  end.

Lemma free_lines_elem b i lines :
  b ∈ free_lines i lines ↔ ∃ j, (b = Line_text j ∨ b = Line_struct j) ∧ (i ≤ j < i + length lines)%nat.
Proof.
  revert i. induction lines as [|l lines IH]; intros i; simpl.
  { rewrite elem_of_nil. split; [done|]. intros (j & _ & Hj). lia. }
  rewrite !elem_of_cons, IH. split.
  - intros [->|[->|(j & Hb & Hj)]]; [exists i; split; [by left|lia]|exists i; split; [by right|lia]|].
    exists j. split; [done|lia].
  - intros (j & Hb & Hj). destruct (decide (j = i)) as [->|Hne]; [destruct Hb as [->| ->]; auto|].
    right. right. exists j. split; [done|lia].
Qed.

Lemma free_lines_nodup i lines : NoDup (free_lines i lines).
Proof.
  revert i. induction lines as [|l lines IH]; intros i; simpl; [constructor|].
  apply NoDup_cons; split; [|apply NoDup_cons; split; [|apply IH]].
  - rewrite elem_of_cons, free_lines_elem. intros [?|(j & [?|?] & Hj)]; simplify_eq. lia.
  - rewrite free_lines_elem. intros (j & [?|?] & Hj); simplify_eq. lia.
Qed.

(** Every block of a response is released once. *)
Theorem response_freed_once r :
  NoDup (at_response_free (Some r)) ∧ ∀ b, b ∈ at_response_free (Some r) ↔ response_blocks r b.
Proof.
  unfold at_response_free. split.
  - apply NoDup_app. split; [apply free_lines_nodup|]. split.
    + intros b (j & [->| ->] & _)%free_lines_elem; destruct (finalResponse r); set_solver.
    + destruct (finalResponse r); [|apply NoDup_singleton].
      apply NoDup_cons. split; [by rewrite list_elem_of_singleton|apply NoDup_singleton].
  - intros b. rewrite !elem_of_app, free_lines_elem, list_elem_of_singleton. unfold response_blocks, is_Some.
    destruct b as [i|i| |], (finalResponse r); rewrite ?list_elem_of_singleton, ?elem_of_nil; split; try (naive_solver lia).
    all: intros Hi; left; exists i; split; [by auto|lia].
Qed.

(** ** Examples *)

(** A command waits, and its response would come. *)
Definition demo_waiting : listener :=
  (set_response (Some at_response_new) (demo_channel [Line (lit "OK"); Wake]), []).

Lemma handshake_wait_witness :
  wait_response_until listen None 9 (setTimespecRelative (Timeval 100 800000) HANDSHAKE_TIMEOUT_MSEC) demo_waiting =
    Err OutOfFuel ∧
  is_ok (wait_response_until listen None 9 (setTimespecRelative (Timeval 100 700000) HANDSHAKE_TIMEOUT_MSEC) demo_waiting) = true.
Proof.
  split.
  - by apply (handshake_wait listen None 9 (Timeval 100 800000) demo_waiting at_response_new).
  - by rewrite (handshake_wait listen None 9 (Timeval 100 700000) demo_waiting at_response_new).
Defined.

Lemma sleepMsec_total_witness : sleepMsec 250 [1000; 249000000] = 250 * 1000000.
Proof. by apply (sleepMsec_total 250 [1000; 249000000]). Defined.
