(* ===== verification/RilTelephone.v ===== *)
(** * The radio layer: src/ril-telephone/ril-telephone.c

    Requests of the telephony framework, turned into AT commands, and the
    state of the radio.  [rild] holds the static variables and the channel;
    [rout] lists the calls to the framework in order.  The commands are
    issued from a thread that is not the reader of the channel. *)

From stdpp Require Import strings.
From S2P Require Import Prelude CString AtTok AtChannel.

Inductive SIM_Status : Type :=
  | SIM_ABSENT | SIM_NOT_READY | SIM_READY | SIM_PIN | SIM_PUK | SIM_NETWORK_PERSONALIZATION.

Inductive RIL_RadioState : Type :=
  | RADIO_STATE_OFF | RADIO_STATE_UNAVAILABLE | RADIO_STATE_SIM_NOT_READY
  | RADIO_STATE_SIM_LOCKED_OR_ABSENT | RADIO_STATE_SIM_READY.
#[export] Instance RIL_RadioState_eq_dec : EqDecision RIL_RadioState.
Proof. solve_decision. Defined.

Inductive RIL_CallState : Type :=
  | RIL_CALL_ACTIVE | RIL_CALL_HOLDING | RIL_CALL_DIALING | RIL_CALL_ALERTING
  | RIL_CALL_INCOMING | RIL_CALL_WAITING.
#[export] Instance RIL_CallState_eq_dec : EqDecision RIL_CallState.
Proof. solve_decision. Defined.

(** The fields of a call the code sets; [memset] gives [zero_call]. *)
Record RIL_Call := mkRIL_Call {
  rc_state : RIL_CallState;
  rc_index : Z;
  rc_toa : Z;
  rc_isMpty : Z;
  rc_isMT : Z;
  rc_isVoice : Z;
  rc_number : option (list Z);
}.
Definition zero_call : RIL_Call := mkRIL_Call RIL_CALL_ACTIVE 0 0 0 0 0 None.

Definition set_rc_state (s : RIL_CallState) (c : RIL_Call) : RIL_Call :=
  mkRIL_Call s (rc_index c) (rc_toa c) (rc_isMpty c) (rc_isMT c) (rc_isVoice c) (rc_number c).
Definition set_rc_index (n : Z) (c : RIL_Call) : RIL_Call :=
  mkRIL_Call (rc_state c) n (rc_toa c) (rc_isMpty c) (rc_isMT c) (rc_isVoice c) (rc_number c).
Definition set_rc_toa (n : Z) (c : RIL_Call) : RIL_Call :=
  mkRIL_Call (rc_state c) (rc_index c) n (rc_isMpty c) (rc_isMT c) (rc_isVoice c) (rc_number c).
Definition set_rc_isMpty (n : Z) (c : RIL_Call) : RIL_Call :=
  mkRIL_Call (rc_state c) (rc_index c) (rc_toa c) n (rc_isMT c) (rc_isVoice c) (rc_number c).
Definition set_rc_isMT (n : Z) (c : RIL_Call) : RIL_Call :=
  mkRIL_Call (rc_state c) (rc_index c) (rc_toa c) (rc_isMpty c) n (rc_isVoice c) (rc_number c).
Definition set_rc_isVoice (n : Z) (c : RIL_Call) : RIL_Call :=
  mkRIL_Call (rc_state c) (rc_index c) (rc_toa c) (rc_isMpty c) (rc_isMT c) n (rc_number c).
Definition set_rc_number (n : option (list Z)) (c : RIL_Call) : RIL_Call :=
  mkRIL_Call (rc_state c) (rc_index c) (rc_toa c) (rc_isMpty c) (rc_isMT c) (rc_isVoice c) n.

(** ** A line of AT+CLCC *)

Definition clccStateToRILState (state : Z) : option RIL_CallState :=
  match state with
  | 0 => Some RIL_CALL_ACTIVE
  | 1 => Some RIL_CALL_HOLDING
  | 2 => Some RIL_CALL_DIALING
  | 3 => Some RIL_CALL_ALERTING
  | 4 => Some RIL_CALL_INCOMING
  | 5 => Some RIL_CALL_WAITING
  | _ => None
  end.

(** The pointer into the line, and the call that is filled in. *)
Record clcc := Clcc { cl_line : option (list Z); cl_call : RIL_Call }.

#[export] Instance clcc_line : Lens clcc (option (list Z)) := {|
  lget := cl_line; lset l c := Clcc l (cl_call c) |}.

Definition on_call (f : RIL_Call → RIL_Call) : M clcc unit :=
  modify (λ c, Clcc (cl_line c) (f (cl_call c))).
(** What a token function stores through its output pointer. *)
Definition store_out {A} (f : A → RIL_Call → RIL_Call) (out : option A) : M clcc unit :=
  match out with Some a => on_call (f a) | None => skip end.

(** [tok] with its result stored by [f]; [k] goes on when it succeeds, and
    [-1] is the result otherwise. *)
Definition then_tok {A} (tok : MT (Z * option A)) (f : A → RIL_Call → RIL_Call)
    (k : option A → M clcc Z) : M clcc Z :=
  '(err, out) ← zoom tok;
  store_out f out;;
  if err <? 0 then mret (-1) else k out.

(** The number and what follows it. *)
Definition clcc_number : M clcc Z :=
  '(err, out) ← zoom at_tok_nextstr;
  store_out set_rc_number out;;
  if err <? 0 then mret 0 else
  on_call (λ c, match rc_number c with
    | Some n => if strspn n (lit "+0123456789") =? 0 then set_rc_number None c else c
    | None => c
    end);;
  then_tok at_tok_nextint set_rc_toa (λ _, mret 0).

Definition callFromCLCCLine : M clcc Z :=
  err ← zoom at_tok_start;
  if err <? 0 then mret (-1) else
  then_tok at_tok_nextint set_rc_index (λ _,
  then_tok at_tok_nextbool set_rc_isMT (λ _,
  then_tok at_tok_nextint (λ _ c, c) (λ state,
  match clccStateToRILState (default 0 state) with
  | None => mret (-1)
  | Some s =>
      on_call (set_rc_state s);;
      then_tok at_tok_nextint (λ _ c, c) (λ mode,
      on_call (set_rc_isVoice (if default 0 mode =? 0 then 1 else 0));;
      then_tok at_tok_nextbool set_rc_isMpty (λ _,
      more ← zoom at_tok_hasmore;
      if more =? 1 then clcc_number else mret 0))
  end))).

(** ** Requests and the state *)

Definition RIL_E_SUCCESS : Z := 0.
Definition RIL_E_RADIO_NOT_AVAILABLE : Z := 1.
Definition RIL_E_GENERIC_FAILURE : Z := 2.
Definition RIL_E_REQUEST_NOT_SUPPORTED : Z := 6.

Record RIL_AppStatus := mkRIL_AppStatus {
  app_type : Z; app_state : Z; perso_substate : Z; pin1 : Z; pin2 : Z;
}.
Record RIL_CardStatus := mkRIL_CardStatus {
  card_state : Z;
  universal_pin_state : Z;
  gsm_umts_subscription_app_index : Z;
  cdma_subscription_app_index : Z;
  ims_subscription_app_index : Z;
  num_applications : Z;
  applications : list RIL_AppStatus;
}.

(** The data of a response. *)
Inductive response : Type :=
  | NoData
  | Ints (l : list Z)
  | Strings (l : list (list Z))
  | Text (s : list Z)
  | Calls (l : list RIL_Call)
  | CardStatus (s : RIL_CardStatus)
  | Raw (bytes : list Z).

Inductive timed_callback : Type := cb_pollSIMState | cb_sendCallStateChanged
  | cb_onDataCallListChanged | cb_initializeCallback.

(** The calls to the framework. *)
Inductive ril_output : Type :=
  | OnRequestComplete (t : Z) (e : Z) (r : response)
  | OnUnsolicitedResponse (what : Z)
  | RequestTimedCallback (cb : timed_callback).

Record rild := Rild {
  chan : channel;
  sState : RIL_RadioState;
  s_closed : Z;
  rout : list ril_output;
}.

#[export] Instance rild_channel : Lens rild channel := {|
  lget := chan; lset c r := Rild c (sState r) (s_closed r) (rout r) |}.
#[export] Instance rild_channel_laws : LensLaws rild channel.
Proof. split; intros; repeat match goal with r : rild |- _ => destruct r end; done. Qed.

Abbreviation MR := (M rild).

Definition tell (o : ril_output) : MR unit :=
  modify (λ r, Rild (chan r) (sState r) (s_closed r) (rout r ++ [o])).
Definition complete (t e : Z) (d : response) : MR unit := tell (OnRequestComplete t e d).
Definition set_sState (s : RIL_RadioState) (r : rild) : rild :=
  Rild (chan r) s (s_closed r) (rout r).
Definition set_closed (n : Z) (r : rild) : rild := Rild (chan r) (sState r) n (rout r).

(** ** The numbers of ril.h *)

(** The requests the library knows. *)
Abbreviation RIL_REQUEST_GET_SIM_STATUS := 1 (only parsing).
Abbreviation RIL_REQUEST_ENTER_SIM_PIN := 2 (only parsing).
Abbreviation RIL_REQUEST_ENTER_SIM_PUK := 3 (only parsing).
Abbreviation RIL_REQUEST_ENTER_SIM_PIN2 := 4 (only parsing).
Abbreviation RIL_REQUEST_ENTER_SIM_PUK2 := 5 (only parsing).
Abbreviation RIL_REQUEST_CHANGE_SIM_PIN := 6 (only parsing).
Abbreviation RIL_REQUEST_CHANGE_SIM_PIN2 := 7 (only parsing).
Abbreviation RIL_REQUEST_GET_CURRENT_CALLS := 9 (only parsing).
Abbreviation RIL_REQUEST_DIAL := 10 (only parsing).
Abbreviation RIL_REQUEST_GET_IMSI := 11 (only parsing).
Abbreviation RIL_REQUEST_HANGUP := 12 (only parsing).
Abbreviation RIL_REQUEST_HANGUP_WAITING_OR_BACKGROUND := 13 (only parsing).
Abbreviation RIL_REQUEST_HANGUP_FOREGROUND_RESUME_BACKGROUND := 14 (only parsing).
Abbreviation RIL_REQUEST_UDUB := 17 (only parsing).
Abbreviation RIL_REQUEST_SIGNAL_STRENGTH := 19 (only parsing).
Abbreviation RIL_REQUEST_VOICE_REGISTRATION_STATE := 20 (only parsing).
Abbreviation RIL_REQUEST_DATA_REGISTRATION_STATE := 21 (only parsing).
Abbreviation RIL_REQUEST_OPERATOR := 22 (only parsing).
Abbreviation RIL_REQUEST_RADIO_POWER := 23 (only parsing).
Abbreviation RIL_REQUEST_DTMF := 24 (only parsing).
Abbreviation RIL_REQUEST_SEND_SMS := 25 (only parsing).
Abbreviation RIL_REQUEST_SETUP_DATA_CALL := 27 (only parsing).
Abbreviation RIL_REQUEST_SEND_USSD := 29 (only parsing).
Abbreviation RIL_REQUEST_CANCEL_USSD := 30 (only parsing).
Abbreviation RIL_REQUEST_GET_IMEI := 38 (only parsing).
Abbreviation RIL_REQUEST_ANSWER := 40 (only parsing).
Abbreviation RIL_REQUEST_QUERY_NETWORK_SELECTION_MODE := 45 (only parsing).
Abbreviation RIL_REQUEST_SET_NETWORK_SELECTION_AUTOMATIC := 46 (only parsing).
Abbreviation RIL_REQUEST_DATA_CALL_LIST := 57 (only parsing).
Abbreviation RIL_REQUEST_OEM_HOOK_RAW := 59 (only parsing).
Abbreviation RIL_REQUEST_WRITE_SMS_TO_SIM := 63 (only parsing).
Abbreviation RIL_REQUEST_DELETE_SMS_ON_SIM := 64 (only parsing).

(** ** The state of the radio *)

Definition RIL_UNSOL_RESPONSE_RADIO_STATE_CHANGED : Z := 1000.
Definition RIL_UNSOL_RESPONSE_CALL_STATE_CHANGED : Z := 1001.
Definition RIL_UNSOL_RESPONSE_VOICE_NETWORK_STATE_CHANGED : Z := 1002.

Definition getSIMStatus : SIM_Status := SIM_READY.
Definition isRadioOn : Z := 1.
Definition onSIMReady : MR unit := skip.

(** [pollSIMState] and [setRadioState] call each other: [set] is the latter. *)
Definition poll_with (set : RIL_RadioState → MR unit) : MR unit :=
  r ← get;
  if negb (bool_decide (sState r = RADIO_STATE_SIM_NOT_READY)) then skip else
  match getSIMStatus with
  | SIM_NOT_READY => tell (RequestTimedCallback cb_pollSIMState)
  | SIM_READY => set RADIO_STATE_SIM_READY
  | _ => set RADIO_STATE_SIM_LOCKED_OR_ABSENT
  end.

Fixpoint setRadioState_n (fuel : nat) (newState : RIL_RadioState) : MR unit :=
  match fuel with
  | O => fail OutOfFuel
  | S f =>
      r ← get;
      let oldState := sState r in
      let newState := if 0 <? s_closed r then RADIO_STATE_UNAVAILABLE else newState in
      when (negb (bool_decide (oldState = newState)) || (0 <? s_closed r))
        (modify (set_sState newState));;
      r ← get;
      if bool_decide (sState r = oldState) then skip else
      tell (OnUnsolicitedResponse RIL_UNSOL_RESPONSE_RADIO_STATE_CHANGED);;
      match sState r with
      | RADIO_STATE_SIM_READY => onSIMReady
      | RADIO_STATE_SIM_NOT_READY => poll_with (setRadioState_n f)
      | _ => skip
      end
  end.

(** A change to SIM_NOT_READY makes one more change, so that two levels are
    enough. *)
Definition setRadioState : RIL_RadioState → MR unit := setRadioState_n 2.
Definition pollSIMState : MR unit := poll_with setRadioState.
Definition onRadioPowerOn : MR unit := pollSIMState.

(** ** Callbacks of the channel *)

Definition onUnsolicited (s : list Z) (sms_pdu : option (list Z)) : MR unit :=
  r ← get;
  if bool_decide (sState r = RADIO_STATE_UNAVAILABLE) then skip
  else if starts_with_one_of [lit "+CRING:"; lit "RING"; lit "NO CARRIER"; lit "+CCWA"] s then
    tell (OnUnsolicitedResponse RIL_UNSOL_RESPONSE_CALL_STATE_CHANGED)
  else if starts_with_one_of [lit "+CREG:"; lit "+CGREG:"] s then
    tell (OnUnsolicitedResponse RIL_UNSOL_RESPONSE_VOICE_NETWORK_STATE_CHANGED)
  else if strStartsWith s (lit "+CGEV:") then tell (RequestTimedCallback cb_onDataCallListChanged)
  else skip.

Definition onATReaderClosed : MR unit :=
  at_close;; modify (set_closed 1);; setRadioState RADIO_STATE_UNAVAILABLE.
Definition onATTimeout : MR unit :=
  at_close;; modify (set_closed 1);; setRadioState RADIO_STATE_UNAVAILABLE.

(** ** Commands of the request thread *)

Definition unsol : option (list Z → option (list Z) → MR unit) := Some onUnsolicited.

Definition send_command (command : list Z) : MR (Z * option ATResponse) :=
  at_send_command unsol (Some onATTimeout) (Some onATReaderClosed) false command.

(** ** Requests *)

(** The data of a request, by the type the code casts it to. *)
Inductive request_data : Type :=
  | Data_ints (l : list Z)
  | Data_dial (address : list Z)
  | Data_bytes (bytes : list Z)
  | Data_null.

Definition int_data (d : request_data) : res Z :=
  match d with Data_ints l => read_at l 0 | Data_null => Err NullDeref | _ => Err Overrun end.
Definition dial_data (d : request_data) : res (list Z) :=
  match d with Data_dial a => Ok a | Data_null => Err NullDeref | _ => Err Overrun end.
Definition datalen (d : request_data) : Z :=
  match d with
  | Data_ints l => 4 * len l
  | Data_dial _ => 12
  | Data_bytes b => len b
  | Data_null => 0
  end.

Definition requestRadioPower (data : request_data) (t : Z) : MR unit :=
  if datalen data <? 4 then fail Aborted else
  onOff ← lift (int_data data);
  r ← get;
  (if (onOff =? 0) && negb (bool_decide (sState r = RADIO_STATE_OFF))
   then setRadioState RADIO_STATE_OFF
   else if (0 <? onOff) && bool_decide (sState r = RADIO_STATE_OFF)
   then setRadioState RADIO_STATE_SIM_NOT_READY
   else skip);;
  complete t RIL_E_SUCCESS NoData.

Definition requestOrSendDataCallList (t : option Z) : MR unit :=
  t ← lift (deref t); complete t RIL_E_GENERIC_FAILURE NoData.
Definition onDataCallListChanged : MR unit := requestOrSendDataCallList None.
Definition requestDataCallList (t : Z) : MR unit := requestOrSendDataCallList (Some t).
Definition requestQueryNetworkSelectionMode (t : Z) : MR unit := complete t RIL_E_SUCCESS (Ints [0]).
Definition sendCallStateChanged : MR unit :=
  tell (OnUnsolicitedResponse RIL_UNSOL_RESPONSE_CALL_STATE_CHANGED).

(** The loop over the lines: [call] is the next struct of the array, which a
    line that is not valid leaves half written; the calls come last first. *)
Fixpoint clcc_loop (lines : list (list Z)) (call : RIL_Call) (calls : list RIL_Call)
    (needRepoll : bool) : res (list RIL_Call * bool) :=
  match lines with
  | [] => Ok (reverse calls, needRepoll)
  | line :: lines' =>
      '(err, c) ← callFromCLCCLine (Clcc (Some line) call);
      if negb (err =? 0) then clcc_loop lines' (cl_call c) calls needRepoll else
      let active := match rc_state (cl_call c) with
        | RIL_CALL_ACTIVE | RIL_CALL_HOLDING => true | _ => false end in
      clcc_loop lines' zero_call (cl_call c :: calls) (needRepoll || negb active)
  end.

Definition requestGetCurrentCalls (t : Z) : MR unit :=
  '(err, p_response) ← at_send_command_multiline unsol (Some onATTimeout) (Some onATReaderClosed)
                         false (lit "AT+CLCC") (lit "+CLCC:");
  match p_response with
  | Some r =>
      if negb (err =? 0) || (success r =? 0) then complete t RIL_E_GENERIC_FAILURE NoData else
      '(calls, needRepoll) ← lift (clcc_loop (p_intermediates r) zero_call [] false);
      complete t RIL_E_SUCCESS (Calls calls);;
      when needRepoll (tell (RequestTimedCallback cb_sendCallStateChanged))
  | None =>
      if negb (err =? 0) then complete t RIL_E_GENERIC_FAILURE NoData else fail NullDeref
  end.

(** A command whose success is not looked at. *)
Definition request_command (command : list Z) (t : Z) : MR unit :=
  send_command command;; complete t RIL_E_SUCCESS NoData.

Definition dial_command (address : list Z) : list Z := lit "ATD" ++ address.
Definition requestDial (data : request_data) (t : Z) : MR unit :=
  address ← lift (dial_data data); request_command (dial_command address) t.
Definition requestHangup (data : request_data) (t : Z) : MR unit :=
  line ← lift (int_data data); request_command (lit "AT+CHLD=1" ++ dec line) t.

Definition requestSignalStrength (t : Z) : MR unit :=
  complete t RIL_E_SUCCESS (Ints [31; 99; -1; -1; -1; -1; -1; -1; -1; -1; -1; -1]).
Definition requestRegistrationState (request t : Z) : MR unit :=
  complete t RIL_E_SUCCESS (Strings
    [if request =? RIL_REQUEST_DATA_REGISTRATION_STATE then lit "3" else lit "1";
     lit "-1"; lit "-1"; lit "0"]).
Definition requestOperator (t : Z) : MR unit :=
  complete t RIL_E_SUCCESS (Strings [lit "Telephone"; lit "Telephone"; lit "46003"]).
Definition requestWriteSmsToSim (t : Z) : MR unit := complete t RIL_E_GENERIC_FAILURE NoData.
Definition requestSendSMS (t : Z) : MR unit := complete t RIL_E_GENERIC_FAILURE NoData.
Definition requestSetupDataCall (t : Z) : MR unit := complete t RIL_E_GENERIC_FAILURE NoData.
Definition requestEnterSimPin (t : Z) : MR unit := complete t RIL_E_SUCCESS NoData.
Definition requestSendUSSD (t : Z) : MR unit := complete t RIL_E_REQUEST_NOT_SUPPORTED NoData.

(** *** The card *)

Definition RIL_CARD_MAX_APPS : Z := 8.
Definition RIL_CARDSTATE_ABSENT : Z := 0.
Definition RIL_CARDSTATE_PRESENT : Z := 1.
Definition app_status_array (s : SIM_Status) : RIL_AppStatus :=
  match s with
  | SIM_ABSENT => mkRIL_AppStatus 0 0 0 0 0
  | SIM_NOT_READY => mkRIL_AppStatus 1 1 0 0 0
  | SIM_READY => mkRIL_AppStatus 1 5 2 0 0
  | SIM_PIN => mkRIL_AppStatus 1 2 0 1 0
  | SIM_PUK => mkRIL_AppStatus 1 3 0 4 0
  | SIM_NETWORK_PERSONALIZATION => mkRIL_AppStatus 1 4 3 1 0
  end.

Definition getCardStatus (sim_status : SIM_Status) : Z * RIL_CardStatus :=
  let absent := match sim_status with SIM_ABSENT => true | _ => false end in
  let none := app_status_array SIM_ABSENT in
  let apps := replicate (Z.to_nat RIL_CARD_MAX_APPS) none in
  (RIL_E_SUCCESS,
   mkRIL_CardStatus
     (if absent then RIL_CARDSTATE_ABSENT else RIL_CARDSTATE_PRESENT) 0
     (if absent then RIL_CARD_MAX_APPS else 0) RIL_CARD_MAX_APPS RIL_CARD_MAX_APPS
     (if absent then 0 else 1)
     (if absent then apps else <[0%nat := app_status_array sim_status]> apps)).

Definition requestGetSimStatus (t : Z) : MR unit :=
  let '(result, status) := getCardStatus getSIMStatus in
  complete t result (if result =? RIL_E_SUCCESS then CardStatus status else NoData).

(** *** The dispatch *)

Definition raw_data (d : request_data) : response :=
  match d with
  | Data_ints l => Ints l
  | Data_dial a => Text a
  | Data_bytes b => Raw b
  | Data_null => NoData
  end.

Definition dispatch_request (request : Z) (data : request_data) (t : Z) : MR unit :=
  match request with
  | RIL_REQUEST_GET_SIM_STATUS => requestGetSimStatus t
  | RIL_REQUEST_GET_CURRENT_CALLS => requestGetCurrentCalls t
  | RIL_REQUEST_DIAL => requestDial data t
  | RIL_REQUEST_HANGUP => requestHangup data t
  | RIL_REQUEST_HANGUP_WAITING_OR_BACKGROUND => request_command (lit "AT+CHLD=0") t
  | RIL_REQUEST_HANGUP_FOREGROUND_RESUME_BACKGROUND => request_command (lit "AT+CHLD=1") t
  | RIL_REQUEST_ANSWER => request_command (lit "ATA") t
  | RIL_REQUEST_UDUB => request_command (lit "ATH") t
  | RIL_REQUEST_SIGNAL_STRENGTH => requestSignalStrength t
  | RIL_REQUEST_VOICE_REGISTRATION_STATE | RIL_REQUEST_DATA_REGISTRATION_STATE =>
      requestRegistrationState request t
  | RIL_REQUEST_OPERATOR => requestOperator t
  | RIL_REQUEST_RADIO_POWER => requestRadioPower data t
  | RIL_REQUEST_DTMF => complete t RIL_E_SUCCESS NoData
  | RIL_REQUEST_SEND_SMS => requestSendSMS t
  | RIL_REQUEST_SETUP_DATA_CALL => requestSetupDataCall t
  | RIL_REQUEST_GET_IMSI => complete t RIL_E_SUCCESS (Text (lit "460030123456789"))
  | RIL_REQUEST_GET_IMEI => complete t RIL_E_SUCCESS (Text (lit "123456789012345"))
  | RIL_REQUEST_SEND_USSD => requestSendUSSD t
  | RIL_REQUEST_CANCEL_USSD =>
      complete t RIL_E_GENERIC_FAILURE NoData;; skip   (* falls through *)
  | RIL_REQUEST_SET_NETWORK_SELECTION_AUTOMATIC => skip
  | RIL_REQUEST_DATA_CALL_LIST => requestDataCallList t
  | RIL_REQUEST_QUERY_NETWORK_SELECTION_MODE => requestQueryNetworkSelectionMode t
  | RIL_REQUEST_OEM_HOOK_RAW => complete t RIL_E_SUCCESS (raw_data data)
  | RIL_REQUEST_WRITE_SMS_TO_SIM => requestWriteSmsToSim t
  | RIL_REQUEST_DELETE_SMS_ON_SIM => complete t RIL_E_GENERIC_FAILURE NoData
  | RIL_REQUEST_ENTER_SIM_PIN | RIL_REQUEST_ENTER_SIM_PUK
  | RIL_REQUEST_ENTER_SIM_PIN2 | RIL_REQUEST_ENTER_SIM_PUK2
  | RIL_REQUEST_CHANGE_SIM_PIN | RIL_REQUEST_CHANGE_SIM_PIN2 => requestEnterSimPin t
  | _ => complete t RIL_E_REQUEST_NOT_SUPPORTED NoData
  end.

Definition onRequest (request : Z) (data : request_data) (t : Z) : MR unit :=
  r ← get;
  if bool_decide (sState r = RADIO_STATE_UNAVAILABLE) &&
     negb (request =? RIL_REQUEST_GET_SIM_STATUS)
  then complete t RIL_E_RADIO_NOT_AVAILABLE NoData
  else if bool_decide (sState r = RADIO_STATE_OFF) &&
     negb ((request =? RIL_REQUEST_RADIO_POWER) || (request =? RIL_REQUEST_GET_SIM_STATUS))
  then complete t RIL_E_RADIO_NOT_AVAILABLE NoData
  else dispatch_request request data t.

Definition currentState : MR RIL_RadioState := gets sState.
Definition onSupports (requestCode : Z) : Z := 1.
Definition onCancel (t : Z) : MR unit := skip.
Definition getVersion : list Z := lit "ril for telephone 0.2".

(** ** Start *)

Definition initializeCallback : MR unit :=
  setRadioState RADIO_STATE_OFF;;
  at_handshake unsol (Some onATReaderClosed) false;;
  send_command (lit "ATC");;
  when (0 <? isRadioOn) (setRadioState RADIO_STATE_SIM_NOT_READY).

(** A turn of [mainLoop] up to its wait for the end of the channel: the
    socket [fd] it has got, and whether the thread could be created.  The
    result is whether the loop goes on. *)
Definition mainLoop_turn (fd : Z) (failed : bool) : MR bool :=
  modify (set_closed 0);;
  ret ← at_open fd failed;
  if ret <? 0 then mret false else
  tell (RequestTimedCallback cb_initializeCallback);;
  mret true.

(** While the channel is open: [others] is what the other threads do between
    two wakes of this one.  The rest of it is the result. *)
Fixpoint waitForClose (others : list (MR unit)) : MR (list (MR unit)) :=
  r ← get;
  if negb (s_closed r =? 0) then mret others else
  match others with
  | [] => fail Blocked
  | op :: others => op;; waitForClose others
  end.

(** A turn of the loop: the results of [socket_local_client], whether the
    thread could not be created, and what the other threads do. *)
Record main_turn := MainTurn {
  mt_fds : list Z;
  mt_failed : bool;
  mt_others : list (MR unit);
}.

Fixpoint opened_fd (fds : list Z) : res Z :=
  match fds with
  | [] => Err Blocked
  | fd :: fds => if fd <? 0 then opened_fd fds else Ok fd
  end.

Fixpoint mainLoop (turns : list main_turn) : MR unit :=
  match turns with
  | [] => fail Blocked
  | t :: turns =>
      fd ← lift (opened_fd (mt_fds t));
      more ← mainLoop_turn fd (mt_failed t);
      if negb (more : bool) then skip else
      waitForClose (mt_others t);;
      mainLoop turns
  end.
