(* ===== verification/ClccProofs.v ===== *)
(** * Calls, from the daemon to the framework

    The reply of the daemon to AT+CLCC (upil_ril.c) is taken apart again by
    the radio layer (ril-telephone.c), and a number it is asked to dial
    reaches the machine. *)

From stdpp Require Import strings.
From S2P Require Import Prelude CString Dll EventLoop Handler Messages TpProtocol StateMachine.
From S2P Require Import World UpilApi Ril AtTok AtChannel RilTelephone.

(** ** Tokens *)

Lemma nextTok_plain (s rest : list Z) c :
  c ∉ [34; 44] → isspace c = false → 44 ∉ s →
  nextTok (Some (c :: s ++ 44 :: rest)) = Ok (Some (c :: s), Some rest).
Proof.
  intros Hc Hsp Hs. rewrite !not_elem_of_cons in Hc. destruct Hc as (H34 & H44 & _).
  unfold nextTok. erewrite bind_ok by done. cbn [fmap option_fmap option_map skip_spaces].
  rewrite Hsp. erewrite bind_ok by done.
  assert (strsep (c :: s ++ 44 :: rest) 44 = (c :: s, Some rest)) as E.
  { apply (strsep_app (c :: s)). rewrite not_elem_of_cons. split; [congruence|done]. }
  destruct c as [|p|p]; try (rewrite E; done).
  do 6 (destruct p as [p|p|]; try (rewrite E; done)). done.
Qed.

(** The integer [%d] has printed is the next token. *)
Lemma nextint_dec n rest :
  INT_MIN ≤ n ≤ INT_MAX →
  at_tok_nextint (Some (dec n ++ 44 :: rest)) = Ok ((0, Some n), Some rest).
Proof.
  intros Hn. unfold at_tok_nextint, at_tok_nextint_base. erewrite bind_ok by done.
  assert (∃ c s, dec n = c :: s ∧ c ∉ [34; 44] ∧ isspace c = false) as (c & s & E & Hc & Hsp).
  { pose proof (dec_chars n) as Hch. destruct (dec n) as [|c s] eqn:E.
    - pose proof (strtol_dec n [] Hn ltac:(done)) as H. by rewrite E in H.
    - exists c, s. split; [done|]. apply Forall_cons in Hch as [Hc _].
      rewrite !not_elem_of_cons. split; [split_and!; [lia|lia|apply not_elem_of_nil]|].
      unfold isspace. destruct Hc as [->|Hc]; [done|].
      rewrite (proj2 (Z.leb_gt c 13)), andb_false_r, (proj2 (Z.eqb_neq c 32)) by lia. done. }
  assert (44 ∉ s) as H44.
  { assert (44 ∉ dec n) as H by (apply dec_not_elem; lia). rewrite E, not_elem_of_cons in H. tauto. }
  rewrite E. cbn [app]. erewrite bind_ok by (by apply nextTok_plain). rewrite <-E.
  pose proof (strtol_dec n [] Hn ltac:(done)) as Hs. rewrite app_nil_r in Hs. rewrite Hs.
  by rewrite s32_small.
Qed.

Lemma nextint_space s : at_tok_nextint (Some (32 :: s)) = at_tok_nextint (Some s).
Proof. done. Qed.

Lemma nextbool_dec n rest :
  n = 0 ∨ n = 1 → at_tok_nextbool (Some (dec n ++ 44 :: rest)) = Ok ((0, Some n), Some rest).
Proof.
  intros Hn. unfold at_tok_nextbool.
  erewrite bind_ok by (apply nextint_dec; unfold INT_MIN, INT_MAX; lia). by destruct Hn as [->| ->].
Qed.

(** A string in quotes. *)
Lemma nextstr_quoted s rest :
  34 ∉ s → at_tok_nextstr (Some (34 :: s ++ 34 :: 44 :: rest)) = Ok ((0, Some (Some s)), Some rest).
Proof.
  intros Hs. unfold at_tok_nextstr. erewrite bind_ok by done. cbv iota.
  erewrite bind_ok; [done|]. unfold nextTok. erewrite bind_ok by done. erewrite bind_ok by done.
  cbn [fmap option_fmap option_map skip_spaces]. change (isspace 34) with false. cbv iota.
  rewrite strsep_app by done. erewrite bind_ok by done. by erewrite bind_ok by done.
Qed.

Lemma then_tok_ok {A} (tok : MT (Z * option A)) f k out l l' c :
  tok l = Ok ((0, Some out), l') → then_tok tok f k (Clcc l c) = k (Some out) (Clcc l' (f out c)).
Proof.
  intros E. unfold then_tok. erewrite bind_ok by (apply (zoom_ok tok (Clcc l c)); exact E).
  cbn [lset clcc_line cl_call]. by erewrite bind_ok by done.
Qed.

(** ** A call *)

(** The line of a call: the reply of the daemon without its newline. *)
Definition clcc_text (dir state : Z) (number : list Z) : list Z :=
  lit "+CLCC: 1," ++ dec dir ++ 44 :: dec state ++ 44 :: lit "0,0," ++ 34 :: number ++ 34 :: 44 :: lit "129".

Lemma clcc_reply_text dir state number : clcc_reply dir state number = clcc_text dir state number ++ [10].
Proof.
  unfold clcc_reply, clcc_text. rewrite <-!app_assoc. cbn [app]. do 2 f_equal.
  f_equal. rewrite <-!app_assoc. cbn [app]. f_equal. 
  change (lit ",0,0,") with (44 :: lit "0,0,"). cbn [app]. f_equal.
  rewrite <-!app_assoc. cbn [app]. do 2 f_equal. by rewrite <-!app_assoc.
Qed.

(** The number as the framework gets it: only when it starts like one. *)
Definition shown_number (number : list Z) : option (list Z) :=
  if strspn number (lit "+0123456789") =? 0 then None else Some number.

Lemma clcc_line_ok dir state number rs call :
  dir = 0 ∨ dir = 1 → clccStateToRILState state = Some rs → 34 ∉ number →
  callFromCLCCLine (Clcc (Some (clcc_text dir state number)) call) =
    Ok (0, Clcc None (mkRIL_Call rs 1 129 0 dir 1 (shown_number number))).
Proof.
  intros Hdir Hst Hnum.
  assert (INT_MIN ≤ state ≤ INT_MAX) as Hrange.
  { unfold INT_MIN, INT_MAX. destruct state as [|p|p]; try done; try lia.
    do 3 (destruct p as [p|p|]; try done; try lia). }
  unfold callFromCLCCLine. set (t := dec 1 ++ 44 :: dec dir ++ 44 :: dec state ++ 44 :: dec 0 ++ 44 ::
    dec 0 ++ 44 :: 34 :: number ++ 34 :: 44 :: dec 129).
  erewrite bind_ok.
  2:{ apply (zoom_ok at_tok_start (Clcc (Some (clcc_text dir state number)) call) 0 (Some (32 :: t))).
      cbn [lget clcc_line cl_line].
      assert (clcc_text dir state number = lit "+CLCC:" ++ 32 :: t) as ->; [|done].
      reflexivity. }
  cbn [lset clcc_line cl_call]. unfold t. change (0 <? 0) with false. cbv iota.
  erewrite then_tok_ok by (rewrite nextint_space; by apply nextint_dec).
  erewrite then_tok_ok by (by apply nextbool_dec).
  erewrite then_tok_ok by (by apply nextint_dec).
  cbn [default]. change (id state) with state. rewrite Hst. erewrite bind_ok by done.
  erewrite then_tok_ok by (by apply nextint_dec).
  erewrite bind_ok by done.
  erewrite then_tok_ok by (apply nextbool_dec; by left).
  cbv beta. erewrite (bind_ok (zoom at_tok_hasmore) _ _ 1) by reflexivity.
  change (1 =? 1) with true. cbv iota.
  unfold clcc_number. erewrite bind_ok.
  2:{ eapply (zoom_ok at_tok_nextstr). cbn [lget clcc_line cl_line]. by apply nextstr_quoted. }
  cbv iota beta. erewrite bind_ok by done. change (0 <? 0) with false. cbv iota.
  erewrite bind_ok by done. erewrite then_tok_ok; [|reflexivity].
  unfold shown_number, set_rc_toa, set_rc_number. simpl. by destruct (strspn number _ =? 0).
Qed.

(** C34: the line of a call that the daemon sends is read back by the radio
    layer as that call: its direction, its state, and its number if it looks
    like one. *)
Theorem clcc_roundtrip dir state number rs line call :
  dir = 0 ∨ dir = 1 → clccStateToRILState state = Some rs → 34 ∉ number →
  clcc_reply dir state number = line ++ [10] →
  callFromCLCCLine (Clcc (Some line) call) =
    Ok (0, Clcc None (mkRIL_Call rs 1 129 0 dir 1 (shown_number number))).
Proof.
  intros Hd Hs Hn E. rewrite clcc_reply_text in E. apply app_inj_tail in E as [<- _].
  by apply clcc_line_ok.
Qed.

Lemma clcc_roundtrip_witness :
  callFromCLCCLine (Clcc (Some (clcc_text 1 4 (lit "5550"))) zero_call) =
    Ok (0, Clcc None (mkRIL_Call RIL_CALL_INCOMING 1 129 0 1 1 (Some (lit "5550")))).
Proof.
  apply (clcc_roundtrip 1 4 (lit "5550") RIL_CALL_INCOMING (clcc_text 1 4 (lit "5550")) zero_call);
    [by right|done| |reflexivity].
  by apply (bool_decide_unpack _).
Defined.

(** ** Dialling *)

Definition dial_and_answer (fd : Z) (number : list Z) : MW unit :=
  r ← upil_sm_start_dail (Some number);
  r ← await r;
  process_reply fd r None.

Lemma dial_buffer fd rest w :
  removelast rest ≠ [] →
  processCommandBuffer fd (UPIL_AT_DIAL ++ rest) w = dial_and_answer fd (removelast rest) w.
Proof.
  intros Hne.
  assert (processCommandBuffer fd (UPIL_AT_DIAL ++ rest) w =
    ('(result, reply) ← (r ← upil_sm_start_dail (match removelast rest with [] => None | _ => Some (removelast rest) end);
       r ← await r; mret (r, None));
     process_reply fd result reply) w) as ->.
  { unfold processCommandBuffer. rewrite strStartsWith_app. reflexivity. }
  assert (match removelast rest with [] => None | _ => Some (removelast rest) end = Some (removelast rest))
    as -> by (by destruct (removelast rest)).
  unfold dial_and_answer, mbind, M_bind. destruct (upil_sm_start_dail _ w) as [[r w1]|]; [|done].
  by destruct (await r w1) as [[r' w2]|].
Qed.

(** The number the framework dials is the one the machine is asked to
    dial, if the daemon receives the command with the carriage return behind
    it; the radio layer writes that one apart, and when it is not there yet
    the last digit is lost. *)
Theorem dialled_number fd number w :
  number ≠ [] →
  processCommandBuffer fd (dial_command number ++ [13]) w = dial_and_answer fd number w ∧
  (removelast number ≠ [] →
   processCommandBuffer fd (dial_command number) w = dial_and_answer fd (removelast number) w).
Proof.
  intros Hne. split; [|apply dial_buffer].
  pose proof (dial_buffer fd (number ++ [13]) w) as H. rewrite removelast_last in H. by apply H.
Qed.
