(* ===== verification/RilTelephoneProofs.v ===== *)
(** * Properties of the radio layer

    Every request is answered once, whatever the channel does while it waits;
    the state of the radio changes as it is told; and the calls of the daemon
    reach the framework.  [runs Q op]: the operation ends in [Q], or it waits
    for the channel for ever; it never fails in another way. *)

From stdpp Require Import strings.
From S2P Require Import Prelude CString Ril AtTok AtChannel RilTelephone ChannelProofs.
From S2P Require Import ClccProofs.

(** ** The channel and the completions *)

(** The device takes bytes, and a pending command that looks at its prefix
    has one. *)
Record chan_ok (c : channel) : Prop := {
  co_write : takes_bytes c;
  co_prefix : is_Some (sp_response c) → prefix_ok (s_type c) (s_responsePrefix c);
}.

(** The requests that are completed, in order, each with its error and its
    response. *)
Definition answer_of (o : ril_output) : option (Z * Z * response) :=
  match o with OnRequestComplete t e d => Some (t, e, d) | _ => None end.
Definition answered (r : rild) : list (Z * Z * response) := omap answer_of (rout r).
Definition completions (r : rild) : list Z := (λ x, x.1.1) <$> answered r.

(** What ril.h says a request that succeeds is answered with: the number of
    retries for a PIN, 15 strings for the registration with a network, and 6
    for that of the data connection. *)
Definition ril_h_type (request : Z) (d : response) : bool :=
  match request, d with
  | RIL_REQUEST_GET_SIM_STATUS, CardStatus s =>
      (0 <=? num_applications s) && (num_applications s <=? RIL_CARD_MAX_APPS) &&
      (len (applications s) =? RIL_CARD_MAX_APPS)
  | RIL_REQUEST_GET_CURRENT_CALLS, Calls _ => true
  | RIL_REQUEST_GET_IMSI, Text _ | RIL_REQUEST_GET_IMEI, Text _ => true
  | RIL_REQUEST_SIGNAL_STRENGTH, Ints l => len l =? 12   (* RIL_SignalStrength *)
  | RIL_REQUEST_VOICE_REGISTRATION_STATE, Strings l => len l =? 15
  | RIL_REQUEST_DATA_REGISTRATION_STATE, Strings l => len l =? 6
  | RIL_REQUEST_OPERATOR, Strings l => len l =? 3
  | RIL_REQUEST_ENTER_SIM_PIN, Ints l | RIL_REQUEST_ENTER_SIM_PUK, Ints l
  | RIL_REQUEST_ENTER_SIM_PIN2, Ints l | RIL_REQUEST_ENTER_SIM_PUK2, Ints l
  | RIL_REQUEST_CHANGE_SIM_PIN, Ints l | RIL_REQUEST_CHANGE_SIM_PIN2, Ints l
  | RIL_REQUEST_QUERY_NETWORK_SELECTION_MODE, Ints l
  | RIL_REQUEST_WRITE_SMS_TO_SIM, Ints l => len l =? 1
  | RIL_REQUEST_OEM_HOOK_RAW, _ => true
  | RIL_REQUEST_GET_SIM_STATUS, _ | RIL_REQUEST_GET_CURRENT_CALLS, _ | RIL_REQUEST_GET_IMSI, _
  | RIL_REQUEST_GET_IMEI, _ | RIL_REQUEST_SIGNAL_STRENGTH, _
  | RIL_REQUEST_VOICE_REGISTRATION_STATE, _ | RIL_REQUEST_DATA_REGISTRATION_STATE, _
  | RIL_REQUEST_ENTER_SIM_PIN, _ | RIL_REQUEST_ENTER_SIM_PUK, _ | RIL_REQUEST_ENTER_SIM_PIN2, _
  | RIL_REQUEST_ENTER_SIM_PUK2, _ | RIL_REQUEST_CHANGE_SIM_PIN, _ | RIL_REQUEST_CHANGE_SIM_PIN2, _
  | RIL_REQUEST_OPERATOR, _ | RIL_REQUEST_QUERY_NETWORK_SELECTION_MODE, _
  | RIL_REQUEST_WRITE_SMS_TO_SIM, _ | RIL_REQUEST_SEND_SMS, _ | RIL_REQUEST_SETUP_DATA_CALL, _
  | RIL_REQUEST_DATA_CALL_LIST, _ => false
  | _, NoData => true
  | _, _ => false
  end.

(** What the requests are answered with that get less than that. *)
Definition answered_short (request : Z) : option response :=
  match request with
  | RIL_REQUEST_ENTER_SIM_PIN | RIL_REQUEST_ENTER_SIM_PUK | RIL_REQUEST_ENTER_SIM_PIN2
  | RIL_REQUEST_ENTER_SIM_PUK2 | RIL_REQUEST_CHANGE_SIM_PIN | RIL_REQUEST_CHANGE_SIM_PIN2 => Some NoData
  | RIL_REQUEST_VOICE_REGISTRATION_STATE => Some (Strings [lit "1"; lit "-1"; lit "-1"; lit "0"])
  | RIL_REQUEST_DATA_REGISTRATION_STATE => Some (Strings [lit "3"; lit "-1"; lit "-1"; lit "0"])
  | _ => None
  end.

Definition answer_type (request : Z) (d : response) : bool :=
  match answered_short request, d with
  | None, _ => ril_h_type request d
  | Some NoData, NoData => true
  | Some (Strings l), Strings k => bool_decide (k = l)
  | Some _, _ => false
  end.
Definition answer_fits (request e : Z) (d : response) : bool :=
  if e =? RIL_E_SUCCESS then answer_type request d else match d with NoData => true | _ => false end.

(** What all code but the requests keeps. *)
Record frame (r r' : rild) : Prop := {
  fr_done : answered r' = answered r;
  fr_chan : chan_ok (chan r');
  fr_resp : is_Some (sp_response (chan r)) → is_Some (sp_response (chan r'));
  fr_sched : sched (chan r') = sched (chan r);
}.

Definition runs {A} (Q : rild → A → rild → Prop) (op : MR A) : Prop :=
  ∀ r, chan_ok (chan r) → match op r with Ok (a, r') => Q r a r' | Err e => e = Blocked end.

Lemma runs_bind {A B} (P : rild → A → rild → Prop) (Q : rild → B → rild → Prop) (op : MR A) (k : A → MR B) :
  runs P op → (∀ r a r', P r a r' → chan_ok (chan r')) →
  (∀ r0 a r1, P r0 a r1 → match k a r1 with Ok (b, r2) => Q r0 b r2 | Err e => e = Blocked end) →
  runs Q (op ≫= k).
Proof.
  intros Hop Hc Hk r Hr. unfold mbind, M_bind. specialize (Hop r Hr).
  destruct (op r) as [[a r1]|]; [|done]. by apply Hk.
Qed.

Definition framed {A} (r : rild) (_ : A) (r' : rild) : Prop := frame r r'.

Lemma frame_refl r : chan_ok (chan r) → frame r r.
Proof. by split. Qed.

Lemma frame_trans r1 r2 r3 : frame r1 r2 → frame r2 r3 → frame r1 r3.
Proof. intros [A1 B1 C1 D1] [A2 B2 C2 D2]. split; [congruence|done|tauto|congruence]. Qed.

Lemma runs_framed_bind {A B} (op : MR A) (k : A → MR B) :
  runs framed op → (∀ a, runs framed (k a)) → runs framed (op ≫= k).
Proof.
  intros Hop Hk. eapply runs_bind; [exact Hop|intros r a r' H; apply H|].
  intros r0 a r1 H1. specialize (Hk a r1 (fr_chan _ _ H1)).
  destruct (k a r1) as [[b r2]|]; [|done]. by eapply frame_trans.
Qed.

Lemma runs_ret {A} (a : A) : runs framed (mret a).
Proof. intros r Hr. by apply frame_refl. Qed.
Lemma runs_skip : runs framed skip.
Proof. apply runs_ret. Qed.
Lemma runs_get : runs framed get.
Proof. intros r Hr. by apply frame_refl. Qed.
Lemma runs_gets {A} (f : rild → A) : runs framed (gets f).
Proof. intros r Hr. by apply frame_refl. Qed.
Lemma runs_when (b : bool) op : runs framed op → runs framed (when b op).
Proof. intros H. destruct b; [done|apply runs_skip]. Qed.
Lemma runs_modify (f : rild → rild) :
  (∀ r, chan (f r) = chan r) → (∀ r, rout (f r) = rout r) → runs framed (modify f).
Proof.
  intros H1 H2 r Hr. split; simpl; rewrite ?H1; try done. unfold answered. by rewrite H2.
Qed.
Lemma runs_tell o :
  match o with OnRequestComplete _ _ _ => False | _ => True end → runs framed (tell o).
Proof.
  intros Ho r Hr. split; simpl; try done. unfold answered. simpl. rewrite omap_app.
  destruct o; [done|..]; simpl; by rewrite app_nil_r.
Qed.

(** Operations on the channel. *)
Lemma runs_chan {A} (op : MC A) :
  (∀ c, chan_ok c → match op c with
     | Ok (a, c') => chan_ok c' ∧ (is_Some (sp_response c) → is_Some (sp_response c')) ∧ sched c' = sched c
     | Err e => e = Blocked end) → runs framed (zoom op).
Proof.
  intros Hop r Hr. unfold zoom. specialize (Hop (lget r) Hr).
  destruct (op (lget r)) as [[a c']|]; [|done]. destruct Hop as (H1 & H2 & H3). by split.
Qed.

Create HintDb runs.
#[export] Hint Resolve runs_ret runs_skip runs_get runs_gets runs_when runs_framed_bind : runs.
#[export] Hint Extern 1 (runs framed (modify _)) => (apply runs_modify; intros []; reflexivity) : runs.
#[export] Hint Extern 1 (runs framed (tell _)) => (apply runs_tell; exact I) : runs.

(** ** The state of the radio *)

(** The state a change to [s] ends in, and the number of reports of it.  A
    channel that is closed makes the radio unavailable; a card that is not
    ready is ready at once. *)
Definition settled (r : rild) (s : RIL_RadioState) : RIL_RadioState * nat :=
  let target := if 0 <? s_closed r then RADIO_STATE_UNAVAILABLE else s in
  if bool_decide (sState r = target) then (target, 0%nat)
  else if bool_decide (target = RADIO_STATE_SIM_NOT_READY) then (RADIO_STATE_SIM_READY, 2%nat)
  else (target, 1%nat).

Definition state_report : ril_output :=
  OnUnsolicitedResponse RIL_UNSOL_RESPONSE_RADIO_STATE_CHANGED.

Lemma setRadioState_ok s r :
  setRadioState s r =
    Ok (tt, Rild (chan r) (settled r s).1 (s_closed r) (rout r ++ replicate (settled r s).2 state_report)).
Proof.
  destruct r as [c st cl o]. destruct cl as [|p|p], st, s; cbv -[app];
    rewrite ?app_nil_r, <-?app_assoc; reflexivity.
Qed.

(** C35: a change of the radio state ends in the state it should, with a
    report of each step, and never runs out of steps: a channel that is
    closed makes the radio unavailable whatever is asked for, and a radio
    whose card is not ready goes on to ready. *)
Theorem setRadioState_settles s r :
  setRadioState s r =
    Ok (tt, Rild (chan r) (settled r s).1 (s_closed r) (rout r ++ replicate (settled r s).2 state_report)) ∧
  ((settled r s).1 ≠ sState r → (settled r s).2 ≠ 0%nat) ∧
  (0 < s_closed r → (settled r s).1 = RADIO_STATE_UNAVAILABLE) ∧
  (s_closed r ≤ 0 → s ≠ RADIO_STATE_SIM_NOT_READY → (settled r s).1 = s).
Proof.
  split; [apply setRadioState_ok|].
  destruct r as [c st cl o]. unfold settled. cbn [sState s_closed].
  split; [|split].
  - destruct (0 <? cl), st, s; vm_compute; intros H; first [discriminate|by destruct H].
  - intros H. rewrite (proj2 (Z.ltb_lt _ _)) by done. by destruct st.
  - intros H Hs. rewrite (proj2 (Z.ltb_ge _ _)) by done.
    destruct (bool_decide (st = s)); [done|]. by rewrite bool_decide_false.
Qed.

Lemma runs_setRadioState s : runs framed (setRadioState s).
Proof.
  intros r Hr. rewrite setRadioState_ok. split; simpl; try done.
  unfold answered. simpl. rewrite omap_app.
  assert (∀ n, omap answer_of
    (replicate n state_report) = []) as ->; [|by rewrite app_nil_r].
  intros n. by induction n.
Qed.
#[export] Hint Resolve runs_setRadioState : runs.

Lemma runs_onUnsolicited s pdu : runs framed (onUnsolicited s pdu).
Proof.
  apply runs_framed_bind; [apply runs_get|]. intros r.
  repeat match goal with |- context [if ?b then _ else _] => destruct b end; auto with runs.
Qed.

Lemma runs_at_close : runs framed (at_close (W := rild)).
Proof. apply runs_chan. intros c [H1 H2]. by split. Qed.
#[export] Hint Resolve runs_onUnsolicited runs_at_close : runs.

Lemma runs_closed : runs framed onATReaderClosed.
Proof. unfold onATReaderClosed. auto with runs. Qed.
Lemma runs_timeout : runs framed onATTimeout.
Proof. unfold onATTimeout. auto with runs. Qed.
#[export] Hint Resolve runs_closed runs_timeout : runs.

(** ** The channel, while a command waits *)

Lemma write_ended_total s e c : takes_bytes c → ∃ n w, write_ended s e c = Ok (n, set_written w c).
Proof.
  intros Ht. destruct (decide (s_fd c < 0 ∨ 0 < s_readerClosed c)) as [Hc|Hc].
  - exists AT_ERROR_CHANNEL_CLOSED, (written c). unfold write_ended. erewrite bind_ok by done.
    assert ((s_fd c <? 0) || (0 <? s_readerClosed c) = true) as ->
      by (by rewrite orb_true_iff, !Z.ltb_lt). by destruct c.
  - exists 0, (written c ++ s ++ [e]). unfold write_ended. erewrite bind_ok by done.
    assert ((s_fd c <? 0) || (0 <? s_readerClosed c) = false) as ->
      by (rewrite orb_false_iff, !Z.ltb_ge; lia).
    erewrite bind_ok by (by apply write_all_ok). cbn [negb].
    erewrite bind_ok by (by apply write_all_ok). cbn [negb].
    unfold mret, M_ret. simpl. by rewrite <-app_assoc.
Qed.

(** An update of the channel inside the state. *)
Definition with_chan (c : channel) (r : rild) : rild := Rild c (sState r) (s_closed r) (rout r).

Lemma frame_chan r c :
  chan_ok c → (is_Some (sp_response (chan r)) → is_Some (sp_response c)) →
  sched c = sched (chan r) → frame r (with_chan c r).
Proof. by split. Qed.

Lemma runs_by_type c0 r0 line r :
  chan_ok (chan r) → sp_response (chan r) = Some r0 → c0 = chan r →
  match by_type unsol c0 r0 line r with Ok (_, r') => frame r r' | Err e => e = Blocked end.
Proof.
  intros Hr Hs ->. pose proof Hr as [Hw Hp]. rewrite Hs in Hp. specialize (Hp ltac:(eauto)).
  assert (match zoom (A := channel) (addIntermediate line) r with
    | Ok (_, r') => frame r r' | Err e => e = Blocked end) as Hadd.
  { unfold zoom, addIntermediate. cbn [lget rild_channel].
    erewrite bind_ok by done. rewrite Hs. erewrite bind_ok by done.
    apply (frame_chan r (set_response _ (chan r))); [|simpl; eauto|done]. by split. }
  pose proof (runs_onUnsolicited line None r Hr) as Hun.
  change (handleUnsolicited unsol line) with (onUnsolicited line None) in *.
  assert (∀ p, s_responsePrefix (chan r) = Some p →
    match (b ← lift (p ← deref (s_responsePrefix (chan r)); mret (strStartsWith line p));
      if (b : bool) then zoom (addIntermediate line) else handleUnsolicited unsol line) r with
    | Ok (_, r') => frame r r' | Err e => e = Blocked end) as Hst.
  { intros p Ep. rewrite Ep. erewrite bind_ok by done. by destruct (strStartsWith line p). }
  unfold by_type. destruct (s_type (chan r)); simpl in Hp.
  - done.
  - by destruct (bool_decide _ && _).
  - destruct Hp as [p Hp]. destruct (bool_decide _); [by eapply Hst|done].
  - destruct Hp as [p Hp]. by eapply Hst.
Qed.

Lemma runs_processLine line : runs framed (processLine unsol line).
Proof.
  intros r Hr. unfold processLine. erewrite bind_ok by done. cbn [lget rild_channel].
  pose proof Hr as [Hw Hp].
  destruct (sp_response (chan r)) as [r0|] eqn:Hs; [|by apply runs_onUnsolicited].
  assert (∀ n, match zoom (A := channel) (handleFinalResponse n line) r with
    | Ok (_, r') => frame r r' | Err e => e = Blocked end) as Hfin.
  { intros n. unfold zoom, handleFinalResponse. cbn [lget rild_channel].
    erewrite bind_ok by done. rewrite Hs. erewrite bind_ok by done.
    apply (frame_chan r (set_response _ (chan r))); [|simpl; eauto|done].
    split; [done|]. intros _. by apply Hp. }
  destruct (isFinalResponseSuccess line); [apply Hfin|].
  destruct (isFinalResponseError line); [apply Hfin|].
  destruct (s_smsPDU (chan r)) as [pdu|]; [|exact (runs_by_type (chan r) r0 line r Hr Hs eq_refl)].
  destruct (strcmp_eq line (lit "> ")); [|exact (runs_by_type (chan r) r0 line r Hr Hs eq_refl)].
  destruct (write_ended_total pdu 26 (chan r) Hw) as (n & w & E).
  erewrite bind_ok by (apply (zoom_ok _ r); exact E).
  apply (frame_chan r (set_command (s_type (chan r)) (s_responsePrefix (chan r)) None
    (sp_response (chan r)) (set_written w (chan r)))); [|done|done]. split; [done|]. intros _. apply Hp. eauto.
Qed.

Lemma runs_onReaderClosed : runs framed (onReaderClosed (Some onATReaderClosed)).
Proof.
  intros r Hr. unfold onReaderClosed. erewrite bind_ok by done. cbn [lget rild_channel].
  destruct (s_readerClosed (chan r) =? 0); [|by apply frame_refl].
  set (r1 := with_chan (set_channel (s_fd (chan r)) 1 (chan r)) r).
  erewrite bind_ok by (by instantiate (1 := r1); instantiate (1 := tt)).
  assert (frame r r1) as H1 by (apply frame_chan; [by destruct Hr; split|done|done]).
  pose proof (runs_closed r1 (fr_chan _ _ H1)) as H2.
  destruct (onATReaderClosed r1) as [[[] r2]|]; [|done]. by eapply frame_trans.
Qed.

(** The same without the schedule, of which a wait takes some. *)
Record frame' (r r' : rild) : Prop := {
  fr'_done : answered r' = answered r;
  fr'_chan : chan_ok (chan r');
  fr'_resp : is_Some (sp_response (chan r)) → is_Some (sp_response (chan r'));
}.

Lemma frame_weaken r r' : frame r r' → frame' r r'.
Proof. intros [A B C D]. by split. Qed.
Lemma frame'_trans r1 r2 r3 : frame' r1 r2 → frame' r2 r3 → frame' r1 r3.
Proof. intros [A1 B1 C1] [A2 B2 C2]. split; [congruence|done|tauto]. Qed.

Lemma runs_cond_wait timed evs r :
  chan_ok (chan r) →
  match cond_wait unsol (Some onATReaderClosed) timed evs r with
  | Ok (_, r') => frame' r r' ∧ (length (sched (chan r')) < length evs)%nat
  | Err e => e = Blocked
  end.
Proof.
  revert r. induction evs as [|ev evs IH]; intros r Hr; [done|].
  assert (frame' r (with_chan (set_sched evs (chan r)) r)) as Hset.
  { destruct Hr. by split. }
  assert (∀ r1, frame r r1 →
    match cond_wait unsol (Some onATReaderClosed) timed evs r1 with
    | Ok (_, r') => frame' r r' ∧ (length (sched (chan r')) < S (length evs))%nat
    | Err e => e = Blocked
    end) as Hgo.
  { intros r1 H1. specialize (IH r1 (fr_chan _ _ H1)).
    destruct (cond_wait _ _ timed evs r1) as [[b r2]|]; [|done]. destruct IH as [H2 Hl].
    split; [|lia]. eapply frame'_trans; [by apply frame_weaken|done]. }
  destruct ev as [l| | |]; cbn [cond_wait length].
  - pose proof (runs_processLine l r Hr) as H1. unfold mbind, M_bind.
    destruct (processLine unsol l r) as [[[] r1]|]; [|done]. by apply Hgo.
  - pose proof (runs_onReaderClosed r Hr) as H1. unfold mbind, M_bind.
    destruct (onReaderClosed _ r) as [[[] r1]|]; [|done]. by apply Hgo.
  - erewrite bind_ok by done. split; [done|]. simpl. lia.
  - destruct timed.
    + erewrite bind_ok by done. split; [done|]. simpl. lia.
    + apply Hgo. by apply frame_refl.
Qed.

Lemma runs_wait_response fuel timed r :
  chan_ok (chan r) → is_Some (sp_response (chan r)) → (length (sched (chan r)) < fuel)%nat →
  match wait_response unsol (Some onATReaderClosed) fuel timed r with
  | Ok (_, r') => frame' r r'
  | Err e => e = Blocked
  end.
Proof.
  revert r. induction fuel as [|f IH]; intros r Hr [r0 Hs] Hf; [lia|]. cbn [wait_response].
  erewrite bind_ok by done. cbn [lget rild_channel]. rewrite Hs. erewrite bind_ok by done.
  destruct (_ && _).
  2:{ apply frame_weaken. by apply frame_refl. }
  pose proof (runs_cond_wait timed (sched (chan r)) r Hr) as Hw. unfold mbind at 1, M_bind at 1.
  destruct (cond_wait _ _ timed (sched (chan r)) r) as [[b r1]|]; [|done].
  destruct Hw as [Hfr Hl]. destruct b; [done|].
  assert (is_Some (sp_response (chan r1))) as Hs1 by (apply Hfr; eauto).
  specialize (IH r1 (fr'_chan _ _ Hfr) Hs1 ltac:(lia)).
  destruct (wait_response _ _ f timed r1) as [[b' r2]|]; [|done]. by eapply frame'_trans.
Qed.

(** What a command keeps; the response is there when there is no error. *)
Record command_done (r : rild) (a : Z * option ATResponse) (r' : rild) : Prop := {
  cd_done : answered r' = answered r;
  cd_chan : chan_ok (chan r');
  cd_resp : a.1 = 0 → is_Some a.2;
}.

Lemma cleared c : takes_bytes c → chan_ok (set_command (s_type c) None None None c).
Proof. intros H. split; [done|]. by intros []. Qed.

Lemma runs_full_nolock command t prefix msec :
  prefix_ok t prefix →
  runs command_done
    (at_send_command_full_nolock unsol (Some onATReaderClosed) command t prefix None msec).
Proof.
  intros Hp r Hr. pose proof Hr as [Hw _]. unfold at_send_command_full_nolock.
  erewrite bind_ok by done. cbn [lget rild_channel].
  destruct (sp_response (chan r)) as [r0|] eqn:Hs.
  { erewrite bind_ok by done. split; [done|by apply cleared|done]. }
  destruct (write_ended_total command 13 (chan r) Hw) as (n & w & E).
  erewrite bind_ok by (apply (zoom_ok _ r); exact E).
  destruct (Z.ltb_spec n 0) as [Hn|Hn].
  { erewrite bind_ok by done. split; [done|by apply cleared|]. simpl. lia. }
  set (r1 := with_chan (set_command t prefix None (Some at_response_new) (set_written w (chan r))) r).
  erewrite bind_ok by (by instantiate (1 := r1); instantiate (1 := tt)).
  erewrite bind_ok by done.
  assert (chan_ok (chan r1)) as Hr1 by (by split).
  pose proof (runs_wait_response (S (length (sched (lget r1)))) (negb (msec =? 0)) r1 Hr1
    ltac:(by eexists) ltac:(simpl; lia)) as Hwait.
  unfold mbind at 1, M_bind at 1.
  destruct (wait_response _ _ _ _ r1) as [[b r2]|]; [|done]. destruct Hwait as [Hd Hc Hresp].
  destruct b.
  { erewrite bind_ok by done. split; [done|apply cleared, Hc|done]. }
  erewrite bind_ok by done. destruct (Hresp ltac:(by eexists)) as [r3 Hs3].
  cbn [lget rild_channel]. rewrite Hs3. erewrite bind_ok by done. erewrite bind_ok by done.
  erewrite bind_ok by done. split; [done|apply cleared, Hc|]. intros _. by eexists.
Qed.

Lemma runs_full command t prefix msec :
  prefix_ok t prefix →
  runs command_done
    (at_send_command_full unsol (Some onATTimeout) (Some onATReaderClosed) false command t prefix None msec).
Proof.
  intros Hp r Hr. unfold at_send_command_full. unfold mbind at 1, M_bind at 1.
  pose proof (runs_full_nolock command t prefix msec Hp r Hr) as Hn.
  destruct (at_send_command_full_nolock _ _ _ _ _ _ _ r) as [[[err o] r1]|]; [|done].
  destruct Hn as [Hd Hc Hresp]. destruct (err =? AT_ERROR_TIMEOUT) eqn:Ee.
  - pose proof (runs_timeout r1 Hc) as Ht. unfold mbind, M_bind.
    destruct (onATTimeout r1) as [[[] r2]|]; [|done]. destruct Ht as [Hd2 Hc2 _ _].
    split; [congruence|done|done].
  - by erewrite bind_ok by done.
Qed.

(** ** The tokens never fail *)

Definition total {S A} (op : M S A) : Prop := ∀ s, ∃ a s', op s = Ok (a, s').

Lemma total_bind {S A B} (op : M S A) (k : A → M S B) : total op → (∀ a, total (k a)) → total (op ≫= k).
Proof.
  intros H Hk s. destruct (H s) as (a & s' & E). destruct (Hk a s') as (b & s'' & E').
  exists b, s''. by erewrite bind_ok by exact E.
Qed.
Lemma total_ret {S A} (a : A) : total (S := S) (mret a).
Proof. intros s. by eexists _, _. Qed.
Lemma total_skip {S} : total (S := S) skip.
Proof. apply total_ret. Qed.
Lemma total_get {S} : total (S := S) get.
Proof. intros s. by eexists _, _. Qed.
Lemma total_modify {S} (f : S → S) : total (modify f).
Proof. intros s. by eexists _, _. Qed.
Lemma total_put {S} (x : S) : total (put x).
Proof. intros s. by eexists _, _. Qed.
Lemma total_gets {S A} (f : S → A) : total (gets f).
Proof. intros s. by eexists _, _. Qed.
Lemma total_zoom {W A B} `{Lens W A} (op : M A B) : total op → total (zoom op).
Proof. intros Hop w. destruct (Hop (lget w)) as (b & a & E). exists b, (lset a w). by apply zoom_ok. Qed.
Create HintDb total.
#[export] Hint Resolve total_ret total_skip total_get total_modify total_put total_gets total_zoom : total.

Ltac totals := repeat first
  [ progress auto with total
  | apply total_bind; [|intros ?]
  | match goal with
    | |- total (let '(_, _) := ?x in _) => destruct x
    | |- total (if ?b then _ else _) => destruct b
    | |- total (match ?x with _ => _ end) => destruct x
    end ].

Lemma total_nextTok : total nextTok.
Proof. unfold nextTok, skipWhiteSpace, skipNextComma. totals. Qed.
#[export] Hint Resolve total_nextTok : total.
Lemma total_nextint : total at_tok_nextint.
Proof. unfold at_tok_nextint, at_tok_nextint_base. totals. Qed.
#[export] Hint Resolve total_nextint : total.
Lemma total_nextbool : total at_tok_nextbool.
Proof. unfold at_tok_nextbool. totals. Qed.
Lemma total_nextstr : total at_tok_nextstr.
Proof. unfold at_tok_nextstr. totals. Qed.
Lemma total_start : total at_tok_start.
Proof. unfold at_tok_start. totals. Qed.
#[export] Hint Resolve total_nextbool total_nextstr total_start : total.

Lemma total_store_out {A} (f : A → RIL_Call → RIL_Call) o : total (store_out f o).
Proof. destruct o; apply total_modify || apply total_skip. Qed.
Lemma total_on_call f : total (on_call f).
Proof. apply total_modify. Qed.
#[export] Hint Resolve total_store_out total_on_call : total.

Lemma total_clcc : total callFromCLCCLine.
Proof. unfold callFromCLCCLine, then_tok, clcc_number, at_tok_hasmore. totals. Qed.

Lemma clcc_loop_total lines call calls b : ∃ cs b', clcc_loop lines call calls b = Ok (cs, b').
Proof.
  revert call calls b. induction lines as [|l lines IH]; intros call calls b; [by eexists _, _|].
  cbn [clcc_loop]. destruct (total_clcc (Clcc (Some l) call)) as (err & c & ->).
  cbn [mbind res_bind]. destruct (negb (err =? 0)); apply IH.
Qed.

(** ** Requests *)

Section once.
Variable request : Z.

(** The request [t] is answered, once and with what it asks for, or waits for
    the channel for ever. *)
Definition answers_once (t : Z) (op : MR unit) : Prop :=
  runs (λ r _ r', ∃ e d, answer_fits request e d = true ∧ answered r' = answered r ++ [(t, e, d)] ∧
    chan_ok (chan r')) op.

Lemma complete_once t e d : answer_fits request e d = true → answers_once t (complete t e d).
Proof. intros Hf r Hr. exists e, d. split_and!; [done| |done]. unfold answered. simpl. by rewrite omap_app. Qed.

Lemma framed_once {A} t (op : MR A) k :
  runs framed op → (∀ a, answers_once t (k a)) → answers_once t (op ≫= k).
Proof.
  intros Hop Hk r Hr. specialize (Hop r Hr). unfold mbind, M_bind.
  destruct (op r) as [[a r1]|]; [|done]. destruct Hop as [Hd Hc _ _].
  specialize (Hk a r1 Hc). destruct (k a r1) as [[[] r2]|]; [|done]. by setoid_rewrite Hd in Hk.
Qed.

Lemma once_framed t (op : MR unit) (k : MR unit) :
  answers_once t op → runs framed k → answers_once t (op;; k).
Proof.
  intros Hop Hk r Hr. specialize (Hop r Hr). unfold mbind, M_bind.
  destruct (op r) as [[[] r1]|]; [|done]. destruct Hop as (e & d & Hf & Hd & Hc).
  specialize (Hk r1 Hc). destruct (k r1) as [[[] r2]|]; [|done]. destruct Hk as [Hd2 Hc2 _ _].
  exists e, d. split_and!; [done|congruence|done].
Qed.

Lemma once_command t command type prefix k :
  prefix_ok type prefix →
  (∀ err o, (err = 0 → is_Some o) → answers_once t (k (err, o))) →
  answers_once t (at_send_command_full unsol (Some onATTimeout) (Some onATReaderClosed) false
                    command type prefix None 0 ≫= k).
Proof.
  intros Hp Hk r Hr. pose proof (runs_full command type prefix 0 Hp r Hr) as Hc. unfold mbind, M_bind.
  destruct (at_send_command_full _ _ _ _ _ _ _ _ _ r) as [[[err o] r1]|]; [|done].
  destruct Hc as [Hd Hc Ho]. specialize (Hk err o Ho r1 Hc).
  destruct (k (err, o) r1) as [[[] r2]|]; [|done]. by setoid_rewrite Hd in Hk.
Qed.

Lemma once_request_command t command :
  answer_fits request RIL_E_SUCCESS NoData = true → answers_once t (request_command command t).
Proof. intros Hf. apply once_command; [done|]. intros. by apply complete_once. Qed.
End once.

Create HintDb once.
#[export] Hint Resolve complete_once once_request_command : once.

Lemma once_current_calls t : answers_once 9 t (requestGetCurrentCalls t).
Proof.
  apply once_command; [by eexists|]. intros err o Ho. cbv beta iota.
  destruct o as [r0|].
  - destruct (negb (err =? 0) || (success r0 =? 0)); [auto with once|].
    destruct (clcc_loop_total (p_intermediates r0) zero_call [] false) as (cs & b & E). rewrite E.
    intros r Hr. erewrite bind_ok by done. cbv beta iota.
    apply (once_framed 9 t (complete t RIL_E_SUCCESS (Calls cs))); [auto with once|auto with runs|done].
  - destruct (Z.eqb_spec err 0) as [->|]; [by destruct (Ho eq_refl)|]. by apply complete_once.
Qed.

(** The data the framework passes with a request. *)
Definition data_fits (request : Z) (data : request_data) : Prop :=
  (request = 10 → ∃ a, data = Data_dial a) ∧
  (request = 12 ∨ request = 23 → ∃ n l, data = Data_ints (n :: l)).

Lemma once_power n l t : answers_once 23 t (requestRadioPower (Data_ints (n :: l)) t).
Proof.
  unfold requestRadioPower. assert (datalen (Data_ints (n :: l)) <? 4 = false) as ->.
  { apply Z.ltb_ge. unfold datalen. rewrite len_cons. pose proof (len_nonneg l). lia. }
  intros r Hr. erewrite bind_ok by done.
  apply (framed_once 23 t get); [auto with runs| |done]. intros r1.
  apply framed_once; [|intros; by apply complete_once].
  repeat match goal with |- context [if ?b then _ else _] => destruct b end; auto with runs.
Qed.

Lemma dispatch_once request data t :
  data_fits request data → request ≠ 46 → answers_once request t (dispatch_request request data t).
Proof.
  intros [Hd Hi] Hr.
  destruct (decide (request = 10)) as [->|].
  { destruct (Hd eq_refl) as [a ->]. intros r Hc. apply (once_request_command 10 t (dial_command a) eq_refl r Hc). }
  destruct (decide (request = 12)) as [->|].
  { destruct (Hi ltac:(by left)) as (x & l & ->). intros r Hc.
    apply (once_request_command 12 t (lit "AT+CHLD=1" ++ dec x) eq_refl r Hc). }
  destruct (decide (request = 23)) as [->|].
  { destruct (Hi ltac:(by right)) as (x & l & ->). apply once_power. }
  unfold dispatch_request. destruct request as [|p|p]; [by apply complete_once| |by apply complete_once].
  do 7 (destruct p as [p|p|]; try (by apply complete_once); try (by apply once_request_command);
    try (apply once_framed; [by apply complete_once|auto with runs]); try apply once_current_calls; try lia).
Qed.

(** Whether the radio is on, so that a request is handled. *)
Definition radio_on (r : rild) : bool :=
  negb (bool_decide (sState r = RADIO_STATE_UNAVAILABLE) || bool_decide (sState r = RADIO_STATE_OFF)).

(** What [onRequest] adds to the answers. *)
Lemma onRequest_answered request data t r :
  chan_ok (chan r) → data_fits request data →
  match onRequest request data t r with
  | Ok (_, r') =>
      if (request =? RIL_REQUEST_SET_NETWORK_SELECTION_AUTOMATIC) && radio_on r then answered r' = answered r
      else ∃ e d, answer_fits request e d = true ∧ answered r' = answered r ++ [(t, e, d)]
  | Err e => e = Blocked
  end.
Proof.
  intros Hr Hd. unfold onRequest. erewrite bind_ok by done.
  destruct ((request =? RIL_REQUEST_SET_NETWORK_SELECTION_AUTOMATIC) && radio_on r) eqn:Es.
  { apply andb_true_iff in Es as [->%Z.eqb_eq Hon]. unfold radio_on in Hon.
    apply negb_true_iff, orb_false_iff in Hon as [-> ->]. done. }
  assert (∃ e d, answer_fits request e d = true ∧ answered (Rild (chan r) (sState r) (s_closed r)
    (rout r ++ [OnRequestComplete t RIL_E_RADIO_NOT_AVAILABLE NoData])) = answered r ++ [(t, e, d)]) as Hoff.
  { exists RIL_E_RADIO_NOT_AVAILABLE, NoData. split; [done|]. unfold answered. cbn [rout]. by rewrite omap_app. }
  destruct (bool_decide (sState r = RADIO_STATE_UNAVAILABLE) && _) eqn:E1; [exact Hoff|].
  destruct (bool_decide (sState r = RADIO_STATE_OFF) && _) eqn:E2; [exact Hoff|]. clear Hoff.
  destruct (decide (request = 46)) as [->|Hn].
  { exfalso. unfold radio_on in Es. cbn [Z.eqb Pos.eqb negb andb orb] in Es, E1, E2. rewrite andb_true_r in E1, E2.
    rewrite E1 in Es. cbn [orb] in Es. rewrite E2 in Es. done. }
  pose proof (dispatch_once request data t Hd Hn r Hr) as H.
  destruct (dispatch_request request data t r) as [[[] r']|]; [|done].
  destruct H as (e & d & Hf & Ha & _). by exists e, d.
Qed.

(** C13: every request is answered exactly once.  Whatever the state of the
    radio, and whatever the channel does while a command waits for it - lines
    of any kind, its end, or that the time is over - a request ends with one
    completion, its own; or it waits for a response that never comes.  The
    request for the automatic choice of a network is the exception: it is
    never answered when the radio is on. *)
Theorem onRequest_answers request data t r :
  chan_ok (chan r) → data_fits request data →
  match onRequest request data t r with
  | Ok (_, r') =>
      completions r' = completions r ++
        (if (request =? RIL_REQUEST_SET_NETWORK_SELECTION_AUTOMATIC) && radio_on r then [] else [t])
  | Err e => e = Blocked
  end.
Proof.
  intros Hr Hd. pose proof (onRequest_answered request data t r Hr Hd) as H.
  destruct (onRequest request data t r) as [[[] r']|]; [|done]. unfold completions.
  destruct (_ && _); [by rewrite app_nil_r, H|]. destruct H as (e & d & _ & ->). by rewrite fmap_app.
Qed.

Lemma answered_short_type request d : answered_short request = Some d → ril_h_type request d = false.
Proof.
  unfold answered_short. destruct request as [|p|p]; [done| |done].
  do 7 (destruct p as [p|p|]; try done; try by intros [= <-]).
Qed.

(** C14: an answer has the type of its request.  What [onRequest] completes is
    the request itself.  With an error it comes with nothing; with success it
    comes with what ril.h says for the request - the status of the card with
    the applications it announces, the calls, the strings and numbers of the
    right count, or nothing - but for eight requests, which get less than
    ril.h says: those for the two states of registration four strings instead
    of 15 and 6, and those for a PIN nothing instead of the number of
    retries. *)
Theorem onRequest_typed request data t r r' a :
  chan_ok (chan r) → data_fits request data → onRequest request data t r = Ok (tt, r') →
  a ∈ drop (length (answered r)) (answered r') →
  a.1.1 = t ∧
  if a.1.2 =? RIL_E_SUCCESS then
    match answered_short request with
    | Some d => a.2 = d ∧ ril_h_type request d = false
    | None => ril_h_type request a.2 = true
    end
  else a.2 = NoData.
Proof.
  intros Hr Hd E Ha. pose proof (onRequest_answered request data t r Hr Hd) as H. rewrite E in H.
  destruct (_ && _).
  - rewrite H, drop_all in Ha. by apply elem_of_nil in Ha.
  - destruct H as (e & d & Hf & Heq). rewrite Heq, drop_app_length in Ha.
    apply list_elem_of_singleton in Ha as ->. split; [done|]. cbn [fst snd]. unfold answer_fits, answer_type in Hf.
    destruct (e =? RIL_E_SUCCESS); [|by destruct d].
    destruct (answered_short request) as [d'|] eqn:Es; [|done].
    assert (d = d') as ->.
    { destruct d', d; try done. by apply bool_decide_eq_true_1 in Hf as ->. }
    split; [done|by apply answered_short_type].
Qed.

(** ** The calls of the daemon *)

Definition the_call (rs : RIL_CallState) (dir : Z) (number : list Z) : RIL_Call :=
  mkRIL_Call rs 1 129 0 dir 1 (shown_number number).

Lemma clcc_wait dir state number evs r :
  sched (chan r) = Line (clcc_text dir state number) :: Line (lit "OK") :: Wake :: evs →
  sp_response (chan r) = Some at_response_new → s_smsPDU (chan r) = None →
  s_type (chan r) = MULTILINE → s_responsePrefix (chan r) = Some (lit "+CLCC:") →
  cond_wait unsol (Some onATReaderClosed) false (sched (chan r)) r =
    Ok (false, with_chan (set_sched evs (set_response
      (Some (mkATResponse 1 (Some (lit "OK")) [clcc_text dir state number])) (chan r))) r).
Proof.
  intros Hs Hr Hp Ht Hpre. rewrite Hs. cbn [cond_wait].
  destruct r as [[fd b bc rc ty pre pdu resp cl rds wr aw sc] st sc' o]. simpl in *. subst.
  erewrite bind_ok by reflexivity. by erewrite bind_ok by reflexivity.
Qed.

(** C33: the call the daemon has reaches the framework.  The radio layer asks
    for the calls, gets the line the daemon sends, and completes the request
    with that call; it asks again later while the call is not active. *)
Theorem current_calls_reported dir state number rs line evs t r :
  takes_bytes (chan r) → 0 ≤ s_fd (chan r) → s_readerClosed (chan r) = 0 → sp_response (chan r) = None →
  dir = 0 ∨ dir = 1 → clccStateToRILState state = Some rs → 34 ∉ number →
  clcc_reply dir state number = line ++ [10] →
  sched (chan r) = Line line :: Line (lit "OK") :: Wake :: evs → ∃ r',
  requestGetCurrentCalls t r = Ok (tt, r') ∧
  written (chan r') = written (chan r) ++ lit "AT+CLCC" ++ [13] ∧
  rout r' = rout r ++ OnRequestComplete t RIL_E_SUCCESS (Calls [the_call rs dir number]) ::
    (match rs with RIL_CALL_ACTIVE | RIL_CALL_HOLDING => [] | _ => [RequestTimedCallback cb_sendCallStateChanged] end).
Proof.
  intros Hw Hfd Hcl Hr Hdir Hst Hnum Hline Hs.
  rewrite clcc_reply_text in Hline. apply app_inj_tail in Hline as [<- _].
  set (c1 := set_command MULTILINE (Some (lit "+CLCC:")) None (Some at_response_new)
    (set_written (written (chan r) ++ lit "AT+CLCC" ++ [13]) (chan r))).
  set (c2 := set_sched evs (set_response
    (Some (mkATResponse 1 (Some (lit "OK")) [clcc_text dir state number])) c1)).
  set (c3 := set_command MULTILINE None None None (set_response None c2)).
  assert (at_send_command_multiline unsol (Some onATTimeout) (Some onATReaderClosed) false
    (lit "AT+CLCC") (lit "+CLCC:") r =
    Ok ((0, Some (mkATResponse 1 (Some (lit "OK")) [clcc_text dir state number])), with_chan c3 r)) as Ecmd.
  { unfold at_send_command_multiline, at_send_command_full. erewrite bind_ok.
    2:{ unfold at_send_command_full_nolock. erewrite bind_ok by done. cbn [lget rild_channel].
        rewrite Hr. erewrite bind_ok by (apply (zoom_ok _ r); by apply write_ended_ok).
        change (0 <? 0) with false. cbv iota.
        erewrite bind_ok by (by instantiate (1 := with_chan c1 r); instantiate (1 := tt)).
        erewrite bind_ok by done.
        erewrite (bind_ok _ _ _ false (with_chan c2 r)).
        2:{ cbn [lget rild_channel with_chan chan]. change (sched c1) with (sched (chan r)). rewrite Hs.
            cbn [length wait_response]. erewrite bind_ok by done. erewrite bind_ok by done.
            match goal with |- context [s_readerClosed ?x] =>
              change (s_readerClosed x) with (s_readerClosed (chan r)) end.
            rewrite Hcl. match goal with |- context [bool_decide ?P] => change (bool_decide P) with true end.
            cbn [andb Z.eqb].
            erewrite bind_ok.
            2:{ cbn [lget rild_channel]. apply (clcc_wait dir state number evs (with_chan c1 r)); done. }
            cbv iota. erewrite bind_ok by done. by erewrite bind_ok by done. }
        cbv iota. erewrite bind_ok by done. erewrite bind_ok by done. erewrite bind_ok by done.
        by erewrite bind_ok by done. }
    cbv iota beta. match goal with |- context [s_readerClosed ?x] =>
      change (s_readerClosed x) with (s_readerClosed (chan r)) end. rewrite Hcl. done. }
  unfold requestGetCurrentCalls. erewrite bind_ok by exact Ecmd. cbv iota beta.
  change (negb (0 =? 0) || (1 =? 0)) with false. cbn [success p_intermediates].
  change (negb (0 =? 0) || (1 =? 0)) with false. cbv iota.
  assert (clcc_loop [clcc_text dir state number] zero_call [] false =
    Ok ([the_call rs dir number], negb (match rs with RIL_CALL_ACTIVE | RIL_CALL_HOLDING => true | _ => false end)))
    as Eloop.
  { cbn [clcc_loop]. rewrite (clcc_line_ok dir state number rs zero_call Hdir Hst Hnum).
    by destruct rs. }
  rewrite Eloop. erewrite bind_ok by done. cbv iota beta. erewrite bind_ok by done.
  destruct rs; eexists; (split; [reflexivity|]); simpl; rewrite <-?app_assoc; done.
Qed.

(** ** The main loop *)

(** The radio layer after the reader of its channel has ended. *)
Definition channel_lost (fd : Z) (r : rild) : rild :=
  let c := set_command (s_type (chan r)) None None None (set_channel fd 0 (chan r)) in
  Rild (set_channel (-1) 1 c) RADIO_STATE_UNAVAILABLE 1
    (rout r ++ [RequestTimedCallback cb_initializeCallback] ++
     if decide (sState r = RADIO_STATE_UNAVAILABLE) then []
     else [OnUnsolicitedResponse RIL_UNSOL_RESPONSE_RADIO_STATE_CHANGED]).

(** The main loop tries until it has a socket, opens the channel on it and
    asks for its initialisation; when the reader of the channel ends, the radio
    is unavailable, the framework is told if it was not before, and the
    loop begins again. *)
Theorem mainLoop_reopens fds fd rest turns r :
  Forall (λ n, n < 0) fds → 0 ≤ fd →
  mainLoop (MainTurn (fds ++ [fd]) false (onReaderClosed (Some onATReaderClosed) :: rest) :: turns) r =
    mainLoop turns (channel_lost fd r).
Proof.
  intros Hf Hfd. cbn [mainLoop mt_fds mt_failed mt_others].
  assert (opened_fd (fds ++ [fd]) = Ok fd) as ->.
  { induction Hf as [|n fds Hn _ IH]; simpl; [by rewrite (proj2 (Z.ltb_ge _ _))|by rewrite (proj2 (Z.ltb_lt _ _))]. }
  rewrite bind_lift with (a := fd) by done.
  set (c := set_command (s_type (chan r)) None None None (set_channel fd 0 (chan r))).
  set (r1 := Rild c (sState r) 0 (rout r ++ [RequestTimedCallback cb_initializeCallback])).
  rewrite bind_ok with (a := true) (s' := r1) by done. cbn [negb]. cbv iota.
  set (r2 := Rild (set_channel (-1) 1 c) RADIO_STATE_UNAVAILABLE 1 (rout (channel_lost fd r))).
  assert (onReaderClosed (Some onATReaderClosed) r1 = Ok (tt, r2)) as E.
  { unfold r2, channel_lost. cbn [rout]. case_decide as Hs; [rewrite app_nil_r|rewrite app_assoc];
      destruct r as [ch st cl ro]; cbn [sState] in Hs; destruct st; done. }
  erewrite bind_ok; [reflexivity|]. cbn [waitForClose]. rewrite bind_get. cbn [s_closed r1 Z.eqb negb].
  rewrite (bind_ok _ _ _ _ _ E). cbn [waitForClose]. by destruct rest.
Qed.

(** ** Witnesses *)


Definition demo_rild (evs : list at_event) : rild := Rild (demo_channel evs) RADIO_STATE_SIM_READY 0 [].

Lemma demo_chan_ok evs : chan_ok (chan (demo_rild evs)).
Proof. split; [intros s _; apply Z.le_refl|]. by intros []. Qed.

Lemma onRequest_answers_witness :
  match onRequest 10 (Data_dial (lit "5550")) 7 (demo_rild [ReaderClosed; Wake]) with
  | Ok (_, r') => completions r' = [7]
  | Err e => e = Blocked
  end.
Proof.
  apply (onRequest_answers 10 (Data_dial (lit "5550")) 7 (demo_rild [ReaderClosed; Wake]) (demo_chan_ok _)).
  split; [intros _; by eexists|lia].
Defined.

Lemma onRequest_typed_witness :
  7 = 7 ∧ ril_h_type 22 (Strings [lit "Telephone"; lit "Telephone"; lit "46003"]) = true.
Proof.
  apply (onRequest_typed 22 Data_null 7 (demo_rild [])
    (Rild (demo_channel []) RADIO_STATE_SIM_READY 0
       [OnRequestComplete 7 0 (Strings [lit "Telephone"; lit "Telephone"; lit "46003"])])
    (7, 0, Strings [lit "Telephone"; lit "Telephone"; lit "46003"]) (demo_chan_ok _)); [split; lia|reflexivity|by left].
Defined.

Lemma current_calls_witness : ∃ r',
  requestGetCurrentCalls 7 (demo_rild [Line (clcc_text 1 4 (lit "5550")); Line (lit "OK"); Wake]) = Ok (tt, r') ∧
  rout r' = [OnRequestComplete 7 0 (Calls [the_call RIL_CALL_INCOMING 1 (lit "5550")]);
             RequestTimedCallback cb_sendCallStateChanged].
Proof.
  destruct (current_calls_reported 1 4 (lit "5550") RIL_CALL_INCOMING (clcc_text 1 4 (lit "5550")) [] 7
    (demo_rild [Line (clcc_text 1 4 (lit "5550")); Line (lit "OK"); Wake])) as (r' & E & _ & Ho);
    [intros s _; apply Z.le_refl|done|done|done|by right|done| |reflexivity|reflexivity|].
  - by apply (bool_decide_unpack _).
  - by exists r'.
Defined.

Lemma mainLoop_reopens_witness :
  mainLoop [MainTurn ([-1; -1] ++ [5]) false [onReaderClosed (Some onATReaderClosed)];
            MainTurn [6] true []] (demo_rild []) =
    Ok (tt, set_closed 0 (with_chan (set_command NO_RESULT None None None (set_channel 6 0 (chan (demo_rild []))))
      (channel_lost 5 (demo_rild [])))).
Proof.
  rewrite (mainLoop_reopens [-1; -1] 5 [] [MainTurn [6] true []] (demo_rild [])); [done|by repeat constructor|done].
Defined.
