(* ===== verification/Pcm.v ===== *)
(** * The PCM device: src/upil_audio/usb_audio_pcm.c

    A stream of the ALSA driver, by [read]/[write] ioctls or through a ring
    buffer that is shared with the driver.  [pcm] is the C struct, with what
    its pointers point to: the pages of status and control, of which the
    driver writes [hw_ptr] and the library [appl_ptr], and the ring buffer as
    its bytes.  The driver is a function [dev] from the requests it got so
    far, the present one included, to its answer.  The texts of the errors
    are not modelled.  [unsigned] and [unsigned long] have 32 bits. *)

From S2P Require Import Prelude CString.

Definition PCM_OUT : Z := 0.
Definition PCM_IN : Z := 0x10000000.
Definition PCM_MMAP : Z := 1.
Definition PCM_NOIRQ : Z := 2.

Definition PCM_STATE_RUNNING : Z := 3.
Definition PCM_STATE_XRUN : Z := 4.
Definition PCM_STATE_DRAINING : Z := 5.
Definition PCM_STATE_SUSPENDED : Z := 7.
Definition PCM_STATE_DISCONNECTED : Z := 8.

Definition PCM_FORMAT_S16_LE : Z := 0.
Definition PCM_FORMAT_S32_LE : Z := 1.

(** <errno.h> and <poll.h> *)
Definition EINTR : Z := 4.
Definition EIO : Z := 5.
Definition ENOMEM : Z := 12.
Definition ENODEV : Z := 19.
Definition EINVAL : Z := 22.
Definition EPIPE : Z := 32.
Definition ENOSYS : Z := 38.
Definition ENODATA : Z := 61.
Definition ESTRPIPE : Z := 86.
Definition POLLIN : Z := 1.
Definition POLLOUT : Z := 4.
Definition POLLERR : Z := 8.
Definition POLLNVAL : Z := 32.

(** A test of the bits of a mask: [flags & mask] as a condition. *)
Definition has (flags mask : Z) : bool := negb (Z.land flags mask =? 0).

(** ** Parameters of the hardware *)

(** The numbers of the parameters in <sound/asound.h>: masks, then intervals. *)
Definition SNDRV_PCM_HW_PARAM_FIRST_MASK : Z := 0.
Definition SNDRV_PCM_HW_PARAM_ACCESS : Z := 0.
Definition SNDRV_PCM_HW_PARAM_FORMAT : Z := 1.
Definition SNDRV_PCM_HW_PARAM_SUBFORMAT : Z := 2.
Definition SNDRV_PCM_HW_PARAM_LAST_MASK : Z := 2.
Definition SNDRV_PCM_HW_PARAM_FIRST_INTERVAL : Z := 8.
Definition SNDRV_PCM_HW_PARAM_SAMPLE_BITS : Z := 8.
Definition SNDRV_PCM_HW_PARAM_FRAME_BITS : Z := 9.
Definition SNDRV_PCM_HW_PARAM_CHANNELS : Z := 10.
Definition SNDRV_PCM_HW_PARAM_RATE : Z := 11.
Definition SNDRV_PCM_HW_PARAM_PERIOD_SIZE : Z := 13.
Definition SNDRV_PCM_HW_PARAM_PERIODS : Z := 15.
Definition SNDRV_PCM_HW_PARAM_LAST_INTERVAL : Z := 19.
Definition SNDRV_MASK_MAX : Z := 256.
Definition SNDRV_PCM_HW_PARAMS_NO_PERIOD_WAKEUP : Z := 4.
Definition SNDRV_PCM_FORMAT_S16_LE : Z := 2.
Definition SNDRV_PCM_FORMAT_S32_LE : Z := 10.
Definition SNDRV_PCM_SUBFORMAT_STD : Z := 0.
Definition SNDRV_PCM_ACCESS_MMAP_INTERLEAVED : Z := 0.
Definition SNDRV_PCM_ACCESS_RW_INTERLEAVED : Z := 3.
Definition SNDRV_PCM_TSTAMP_ENABLE : Z := 1.
Definition SNDRV_PCM_SYNC_PTR_HWSYNC : Z := 1.
Definition SNDRV_PCM_SYNC_PTR_APPL : Z := 2.

(** The fields the library reads or sets. *)
Record snd_interval := SndInterval {
  imin : Z;
  imax : Z;
  integer : bool;
}.

Record snd_pcm_hw_params := HwParams {
  hw_flags : Z;
  masks : list (list Z);           (* three masks of eight words *)
  intervals : list snd_interval;   (* twelve intervals *)
}.

Definition param_is_mask (p : Z) : bool :=
  (SNDRV_PCM_HW_PARAM_FIRST_MASK <=? p) && (p <=? SNDRV_PCM_HW_PARAM_LAST_MASK).
Definition param_is_interval (p : Z) : bool :=
  (SNDRV_PCM_HW_PARAM_FIRST_INTERVAL <=? p) && (p <=? SNDRV_PCM_HW_PARAM_LAST_INTERVAL).

Definition param_to_interval (p : snd_pcm_hw_params) (n : Z) : res snd_interval :=
  read_at (intervals p) (n - SNDRV_PCM_HW_PARAM_FIRST_INTERVAL).
Definition param_to_mask (p : snd_pcm_hw_params) (n : Z) : res (list Z) :=
  read_at (masks p) (n - SNDRV_PCM_HW_PARAM_FIRST_MASK).

Definition set_interval (p : snd_pcm_hw_params) (n : Z) (i : snd_interval) : res snd_pcm_hw_params :=
  l ← write_at (intervals p) (n - SNDRV_PCM_HW_PARAM_FIRST_INTERVAL) i;
  mret (HwParams (hw_flags p) (masks p) l).

Definition param_set_mask (p : snd_pcm_hw_params) (n bit : Z) : res snd_pcm_hw_params :=
  if SNDRV_MASK_MAX <=? bit then mret p else
  if param_is_mask n then
    m ← param_to_mask p n;
    m ← write_at m 0 0;
    m ← write_at m 1 0;
    w ← read_at m (Z.shiftr bit 5);
    m ← write_at m (Z.shiftr bit 5) (Z.lor w (Z.shiftl 1 (Z.land bit 31)));
    ms ← write_at (masks p) (n - SNDRV_PCM_HW_PARAM_FIRST_MASK) m;
    mret (HwParams (hw_flags p) ms (intervals p))
  else mret p.

Definition param_set_min (p : snd_pcm_hw_params) (n val : Z) : res snd_pcm_hw_params :=
  if param_is_interval n then
    i ← param_to_interval p n; set_interval p n (SndInterval val (imax i) (integer i))
  else mret p.
Definition param_set_max (p : snd_pcm_hw_params) (n val : Z) : res snd_pcm_hw_params :=
  if param_is_interval n then
    i ← param_to_interval p n; set_interval p n (SndInterval (imin i) val (integer i))
  else mret p.
Definition param_set_int (p : snd_pcm_hw_params) (n val : Z) : res snd_pcm_hw_params :=
  if param_is_interval n then set_interval p n (SndInterval val val true) else mret p.
Definition param_get_int (p : snd_pcm_hw_params) (n : Z) : res Z :=
  if param_is_interval n then
    i ← param_to_interval p n; mret (if integer i then imax i else 0)
  else mret 0.

(** Everything is allowed: two words of each mask, and all the intervals. *)
Definition param_init : snd_pcm_hw_params :=
  HwParams 0 (replicate 3 (replicate 2 (u32 (-1)) ++ replicate 6 0))
    (replicate 12 (SndInterval 0 (u32 (-1)) false)).

Record snd_pcm_sw_params := SwParams {
  sw_start_threshold : Z;
  sw_stop_threshold : Z;
  sw_avail_min : Z;
  sw_xfer_align : Z;
  sw_silence_threshold : Z;
  sw_boundary : Z;
}.

(** ** The stream *)

Record pcm_config := PcmConfig {
  channels : Z;
  rate : Z;
  period_size : Z;
  period_count : Z;
  format : Z;
  start_threshold : Z;
  stop_threshold : Z;
  silence_threshold : Z;
  avail_min : Z;
}.

(** The ioctls and calls of poll, with what they carry to the driver. *)
Inductive pcm_request : Type :=
  | Req_info
  | Req_hw_params (p : snd_pcm_hw_params)
  | Req_sw_params (p : snd_pcm_sw_params)
  | Req_prepare
  | Req_start
  | Req_drop
  | Req_writei (bytes : list Z)
  | Req_readi (frames : Z)
  | Req_sync (flags appl_ptr : Z)
  | Req_look (appl_ptr : Z)         (* the shared pages are looked at *)
  | Req_poll (timeout : Z).

(** The result and errno, and what the driver writes: the refined parameters,
    the bytes that were read, its status page, and the events of poll. *)
Record pcm_answer := PcmAnswer {
  ans_ret : Z;
  ans_errno : Z;
  ans_params : snd_pcm_hw_params;
  ans_data : list Z;
  ans_hw_ptr : Z;
  ans_state : Z;
  ans_tstamp : Z * Z;
  ans_revents : Z;
}.

Record pcm := Pcm {
  p_fd : Z;
  p_flags : Z;
  p_running : bool;
  underruns : Z;
  buffer_size : Z;
  boundary : Z;
  p_config : pcm_config;
  hw_ptr : Z;
  p_state : Z;
  p_tstamp : Z * Z;
  appl_ptr : Z;
  ctl_avail_min : Z;
  p_sync_ptr : bool;                (* sync_ptr is not NULL *)
  mmap_buffer : list Z;
  noirq_frames_per_msec : Z;
  wait_for_avail_min : bool;
  p_errno : Z;
  dev : list pcm_request → pcm_answer;
  requests : list pcm_request;
}.

Abbreviation MP := (M pcm).

Definition set_running (b : bool) (p : pcm) : pcm :=
  Pcm (p_fd p) (p_flags p) b (underruns p) (buffer_size p) (boundary p) (p_config p) (hw_ptr p)
    (p_state p) (p_tstamp p) (appl_ptr p) (ctl_avail_min p) (p_sync_ptr p) (mmap_buffer p)
    (noirq_frames_per_msec p) (wait_for_avail_min p) (p_errno p) (dev p) (requests p).
Definition set_underruns (n : Z) (p : pcm) : pcm :=
  Pcm (p_fd p) (p_flags p) (p_running p) n (buffer_size p) (boundary p) (p_config p) (hw_ptr p)
    (p_state p) (p_tstamp p) (appl_ptr p) (ctl_avail_min p) (p_sync_ptr p) (mmap_buffer p)
    (noirq_frames_per_msec p) (wait_for_avail_min p) (p_errno p) (dev p) (requests p).
Definition set_fd (fd : Z) (p : pcm) : pcm :=
  Pcm fd (p_flags p) (p_running p) (underruns p) (buffer_size p) (boundary p) (p_config p) (hw_ptr p)
    (p_state p) (p_tstamp p) (appl_ptr p) (ctl_avail_min p) (p_sync_ptr p) (mmap_buffer p)
    (noirq_frames_per_msec p) (wait_for_avail_min p) (p_errno p) (dev p) (requests p).
Definition set_status (a : pcm_answer) (p : pcm) : pcm :=
  Pcm (p_fd p) (p_flags p) (p_running p) (underruns p) (buffer_size p) (boundary p) (p_config p)
    (ans_hw_ptr a) (ans_state a) (ans_tstamp a) (appl_ptr p) (ctl_avail_min p) (p_sync_ptr p)
    (mmap_buffer p) (noirq_frames_per_msec p) (wait_for_avail_min p) (p_errno p) (dev p) (requests p).
Definition set_control (appl availmin : Z) (p : pcm) : pcm :=
  Pcm (p_fd p) (p_flags p) (p_running p) (underruns p) (buffer_size p) (boundary p) (p_config p)
    (hw_ptr p) (p_state p) (p_tstamp p) appl availmin (p_sync_ptr p) (mmap_buffer p)
    (noirq_frames_per_msec p) (wait_for_avail_min p) (p_errno p) (dev p) (requests p).
Definition set_sync_ptr (b : bool) (p : pcm) : pcm :=
  Pcm (p_fd p) (p_flags p) (p_running p) (underruns p) (buffer_size p) (boundary p) (p_config p)
    (hw_ptr p) (p_state p) (p_tstamp p) (appl_ptr p) (ctl_avail_min p) b (mmap_buffer p)
    (noirq_frames_per_msec p) (wait_for_avail_min p) (p_errno p) (dev p) (requests p).
Definition set_mmap_buffer (b : list Z) (p : pcm) : pcm :=
  Pcm (p_fd p) (p_flags p) (p_running p) (underruns p) (buffer_size p) (boundary p) (p_config p)
    (hw_ptr p) (p_state p) (p_tstamp p) (appl_ptr p) (ctl_avail_min p) (p_sync_ptr p) b
    (noirq_frames_per_msec p) (wait_for_avail_min p) (p_errno p) (dev p) (requests p).
Definition set_wait (b : bool) (p : pcm) : pcm :=
  Pcm (p_fd p) (p_flags p) (p_running p) (underruns p) (buffer_size p) (boundary p) (p_config p)
    (hw_ptr p) (p_state p) (p_tstamp p) (appl_ptr p) (ctl_avail_min p) (p_sync_ptr p) (mmap_buffer p)
    (noirq_frames_per_msec p) b (p_errno p) (dev p) (requests p).
Definition set_sizes (size bound : Z) (p : pcm) : pcm :=
  Pcm (p_fd p) (p_flags p) (p_running p) (underruns p) size bound (p_config p)
    (hw_ptr p) (p_state p) (p_tstamp p) (appl_ptr p) (ctl_avail_min p) (p_sync_ptr p) (mmap_buffer p)
    (noirq_frames_per_msec p) (wait_for_avail_min p) (p_errno p) (dev p) (requests p).
Definition set_config (c : pcm_config) (p : pcm) : pcm :=
  Pcm (p_fd p) (p_flags p) (p_running p) (underruns p) (buffer_size p) (boundary p) c
    (hw_ptr p) (p_state p) (p_tstamp p) (appl_ptr p) (ctl_avail_min p) (p_sync_ptr p) (mmap_buffer p)
    (noirq_frames_per_msec p) (wait_for_avail_min p) (p_errno p) (dev p) (requests p).
Definition set_noirq (n : Z) (p : pcm) : pcm :=
  Pcm (p_fd p) (p_flags p) (p_running p) (underruns p) (buffer_size p) (boundary p) (p_config p)
    (hw_ptr p) (p_state p) (p_tstamp p) (appl_ptr p) (ctl_avail_min p) (p_sync_ptr p) (mmap_buffer p)
    n (wait_for_avail_min p) (p_errno p) (dev p) (requests p).
Definition set_answered (errno : Z) (rs : list pcm_request) (p : pcm) : pcm :=
  Pcm (p_fd p) (p_flags p) (p_running p) (underruns p) (buffer_size p) (boundary p) (p_config p)
    (hw_ptr p) (p_state p) (p_tstamp p) (appl_ptr p) (ctl_avail_min p) (p_sync_ptr p) (mmap_buffer p)
    (noirq_frames_per_msec p) (wait_for_avail_min p) errno (dev p) rs.

(** A call of the driver; errno is what the last one that failed left. *)
Definition ask (r : pcm_request) : MP pcm_answer :=
  p ← get;
  let rs := requests p ++ [r] in
  let a := dev p rs in
  put (set_answered (if ans_ret a <? 0 then ans_errno a else p_errno p) rs p);;
  mret a.

Definition oops : MP Z := mret (-1).

Definition pcm_get_buffer_size (p : pcm) : Z := buffer_size p.

Definition pcm_format_to_alsa (format : Z) : Z :=
  if format =? PCM_FORMAT_S32_LE then SNDRV_PCM_FORMAT_S32_LE else SNDRV_PCM_FORMAT_S16_LE.
Definition pcm_format_to_bits (format : Z) : Z :=
  if format =? PCM_FORMAT_S32_LE then 32 else 16.

Definition frame_bytes (p : pcm) : Z :=
  u32 (channels (p_config p) * Z.shiftr (pcm_format_to_bits (format (p_config p))) 3).
Definition divide (a b : Z) : res Z := if b =? 0 then Err DivByZero else Ok (a / b).

Definition pcm_bytes_to_frames (p : pcm) (bytes : Z) : res Z := divide bytes (frame_bytes p).
Definition pcm_frames_to_bytes (p : pcm) (frames : Z) : Z :=
  u32 (frames * channels (p_config p) * Z.shiftr (pcm_format_to_bits (format (p_config p))) 3).

(** The status page is shared: it is as the driver left it at this call,
    whether it is asked for it or not. *)
Definition pcm_sync_ptr (flags : Z) : MP Z :=
  p ← get;
  if p_sync_ptr p then
    a ← ask (Req_sync flags (appl_ptr p));
    if ans_ret a <? 0 then mret (-1) else modify (set_status a);; mret 0
  else
    a ← ask (Req_look (appl_ptr p)); modify (set_status a);; mret 0.
