(* ===== verification/PcmIo.v ===== *)
(** * The operations of the PCM device: src/upil_audio/usb_audio_pcm.c

    Opening and closing a stream, the transfers by ioctl, and those through
    the ring buffer.  A loop that ends when the driver makes progress has the
    number of its turns as an argument. *)

From stdpp Require Import strings.
From S2P Require Import Prelude CString Pcm.

(** ** Status and control pages *)

(** What the system answers when a stream is opened: whether allocations
    succeed, the descriptor of a path, the ring buffer, and the two pages. *)
Record pcm_system := PcmSystem {
  sys_calloc : bool;
  sys_open : list Z → Z;
  sys_mmap : Z → option (list Z);
  sys_mmap_status : bool;
  sys_mmap_control : bool;
  sys_sync_alloc : bool;
  sys_driver : list pcm_request → pcm_answer;
}.

Definition control_avail_min : MP unit :=
  modify (λ p, set_control (appl_ptr p)
    (if has (p_flags p) PCM_MMAP then avail_min (p_config p) else 1) p).

(** Pages that cannot be mapped are replaced by a struct for ioctl. *)
Definition pcm_hw_mmap_status (sys : pcm_system) : MP Z :=
  p ← get;
  if p_sync_ptr p then mret 0 else
  if sys_mmap_status sys && sys_mmap_control sys then
    control_avail_min;; mret 0
  else if negb (sys_sync_alloc sys) then mret (- ENOMEM) else
    modify (set_sync_ptr true);;
    control_avail_min;;
    pcm_sync_ptr 0;;
    mret 0.

Definition pcm_hw_munmap_status : MP unit := modify (set_sync_ptr false).

(** ** Start and stop *)

Definition pcm_is_ready (p : pcm) : bool := 0 <=? p_fd p.

Definition pcm_start : MP Z :=
  a ← ask Req_prepare;
  if ans_ret a <? 0 then oops else
  p ← get;
  when (has (p_flags p) PCM_MMAP) (pcm_sync_ptr 0;; skip);;
  a ← ask Req_start;
  if ans_ret a <? 0 then oops else
  modify (set_running true);; mret 0.

Definition pcm_stop : MP Z :=
  a ← ask Req_drop;
  if ans_ret a <? 0 then oops else modify (set_running false);; mret 0.

Definition pcm_state : MP Z :=
  err ← pcm_sync_ptr 0;
  if err <? 0 then mret err else gets p_state.

Definition pcm_set_avail_min (n : Z) : MP Z :=
  p ← get;
  if negb (has (p_flags p) PCM_MMAP && has (p_flags p) PCM_NOIRQ) then mret (- ENOSYS) else
  let c := p_config p in
  modify (set_config (PcmConfig (channels c) (rate c) (period_size c) (period_count c) (format c)
    (start_threshold c) (stop_threshold c) (silence_threshold c) n));;
  mret 0.

(** ** Transfers by ioctl *)

(** The frames that [count] bytes are, and the bytes the driver takes. *)
Definition transfer_frames (p : pcm) (count : Z) : res Z :=
  divide count (u32 (channels (p_config p) * pcm_format_to_bits (format (p_config p))) / 8).

(** The loop: a stream that was not running is prepared, and the driver is
    tried again after a missed deadline only once, because the stream is then
    not running. *)
Fixpoint write_frames (fuel : nat) (bytes : list Z) : MP Z :=
  match fuel with
  | O => fail OutOfFuel
  | S f =>
      p ← get;
      if negb (p_running p) then
        a ← ask Req_prepare;
        if negb (ans_ret a =? 0) then oops else
        a ← ask (Req_writei bytes);
        if negb (ans_ret a =? 0) then oops else
        modify (set_running true);; mret 0
      else
        a ← ask (Req_writei bytes);
        if negb (ans_ret a =? 0) then
          modify (set_running false);;
          p ← get;
          if p_errno p =? EPIPE
          then modify (λ p, set_underruns (s32 (underruns p + 1)) p);; write_frames f bytes
          else oops
        else mret 0
  end.

Definition pcm_write (data : list Z) (count : Z) : MP Z :=
  p ← get;
  if has (p_flags p) PCM_IN then mret (- EINVAL) else
  frames ← lift (transfer_frames p count);
  bytes ← lift (slice data 0 (pcm_frames_to_bytes p frames));
  write_frames 2 bytes.

(** [Some bytes]: what the driver put into the buffer. *)
Fixpoint read_frames (fuel : nat) (frames : Z) : MP (Z * option (list Z)) :=
  match fuel with
  | O => fail OutOfFuel
  | S f =>
      p ← get;
      started ← (if p_running p then mret true else
                   a ← ask Req_prepare;
                   if negb (ans_ret a =? 0) then mret false else
                   a ← ask Req_start;
                   if negb (ans_ret a =? 0) then mret false else
                   modify (set_running true);; mret true);
      if negb started then mret (-1, None) else
      a ← ask (Req_readi frames);
      if negb (ans_ret a =? 0) then
        modify (set_running false);;
        p ← get;
        if p_errno p =? EPIPE
        then modify (λ p, set_underruns (s32 (underruns p + 1)) p);; read_frames f frames
        else mret (-1, None)
      else mret (0, Some (ans_data a))
  end.

(** The buffer with what was read in front. *)
Definition pcm_read (fuel : nat) (buffer : list Z) (count : Z) : MP (Z * list Z) :=
  p ← get;
  if negb (has (p_flags p) PCM_IN) then mret (- EINVAL, buffer) else
  frames ← lift (transfer_frames p count);
  r ← read_frames fuel frames;
  match r with
  | (ret, None) => mret (ret, buffer)
  | (ret, Some bytes) => b ← lift (blit buffer 0 bytes); mret (ret, b)
  end.

(** ** The ring buffer *)

Definition pcm_mmap_playback_avail (p : pcm) : Z :=
  let avail := s32 (hw_ptr p + buffer_size p - appl_ptr p) in
  if avail <? 0 then s32 (avail + boundary p)
  else if s32 (boundary p) <? avail then s32 (avail - boundary p) else avail.

Definition pcm_mmap_capture_avail (p : pcm) : Z :=
  let avail := s32 (hw_ptr p - appl_ptr p) in
  if avail <? 0 then s32 (avail + boundary p) else avail.

Definition pcm_mmap_avail : MP Z :=
  pcm_sync_ptr SNDRV_PCM_SYNC_PTR_HWSYNC;;
  gets (λ p, if has (p_flags p) PCM_IN then pcm_mmap_capture_avail p else pcm_mmap_playback_avail p).

Definition pcm_avail_update : MP Z := pcm_sync_ptr 0;; pcm_mmap_avail.

Definition pcm_mmap_appl_forward (frames : Z) : MP unit :=
  modify (λ p,
    let a := u32 (appl_ptr p + frames) in
    set_control (if boundary p <? a then u32 (a - boundary p) else a) (ctl_avail_min p) p).

(** The offset, and the number of frames that can be copied there. *)
Definition pcm_mmap_begin (frames : Z) : MP (Z * Z) :=
  p ← get;
  offset ← lift (if buffer_size p =? 0 then Err DivByZero else Ok (appl_ptr p mod buffer_size p));
  avail ← pcm_mmap_avail;
  let avail := Z.min (u32 avail) (buffer_size p) in
  let continuous := u32 (buffer_size p - offset) in
  mret (offset, Z.min (Z.min frames avail) continuous).

Definition pcm_mmap_commit (frames : Z) : MP Z :=
  pcm_mmap_appl_forward frames;; pcm_sync_ptr 0;; mret (s32 frames).

Definition pcm_areas_copy (pcm_offset : Z) (src : list Z) (src_offset frames : Z) : MP Z :=
  p ← get;
  bytes ← lift (slice src (s32 (pcm_frames_to_bytes p src_offset)) (s32 (pcm_frames_to_bytes p frames)));
  b ← lift (blit (mmap_buffer p) (s32 (pcm_frames_to_bytes p pcm_offset)) bytes);
  modify (set_mmap_buffer b);; mret 0.

(** The result is a negative error or the number of frames. *)
Fixpoint pcm_mmap_write_areas (fuel : nat) (src : list Z) (offset size count : Z) : MP Z :=
  if size <=? 0 then mret (s32 count) else
  match fuel with
  | O => fail OutOfFuel
  | S f =>
      r ← pcm_mmap_begin size;
      let '(pcm_offset, frames) := r in
      pcm_areas_copy pcm_offset src offset frames;;
      commit ← pcm_mmap_commit frames;
      if commit <? 0 then oops;; mret commit else
      pcm_mmap_write_areas f src (u32 (offset + commit)) (u32 (size - commit)) (u32 (count + commit))
  end.

(** The result, and what is stored through the two pointers. *)
Definition pcm_get_htimestamp : MP (Z * option Z * option (Z * Z)) :=
  p ← get;
  if negb (pcm_is_ready p) then mret (-1, None, None) else
  rc ← pcm_sync_ptr (Z.lor SNDRV_PCM_SYNC_PTR_APPL SNDRV_PCM_SYNC_PTR_HWSYNC);
  if rc <? 0 then mret (-1, None, None) else
  p ← get;
  if negb (p_state p =? PCM_STATE_RUNNING) && negb (p_state p =? PCM_STATE_DRAINING)
  then mret (-1, None, None) else
  if ((p_tstamp p).1 =? 0) && ((p_tstamp p).2 =? 0) then mret (-1, None, Some (p_tstamp p)) else
  let frames := s32 (if has (p_flags p) PCM_IN then hw_ptr p - appl_ptr p
                     else hw_ptr p + buffer_size p - appl_ptr p) in
  let frames := if frames <? 0 then s32 (frames + boundary p)
                else if s32 (boundary p) <? frames then s32 (frames - boundary p) else frames in
  mret (0, Some (u32 frames), Some (p_tstamp p)).

(** One turn per return of poll. *)
Fixpoint pcm_wait (fuel : nat) (timeout : Z) : MP Z :=
  match fuel with
  | O => fail OutOfFuel
  | S f =>
      a ← ask (Req_poll timeout);
      p ← get;
      let again := if has (ans_revents a) (Z.lor POLLIN POLLOUT) then mret 1 else pcm_wait f timeout in
      if ans_ret a <? 0 then mret (- p_errno p)
      else if ans_ret a =? 0 then mret 0
      else if p_errno p =? - EINTR then again
      else if has (ans_revents a) (Z.lor POLLERR POLLNVAL) then
        state ← pcm_state;
        mret (if state =? PCM_STATE_XRUN then - EPIPE
              else if state =? PCM_STATE_SUSPENDED then - ESTRPIPE
              else if state =? PCM_STATE_DISCONNECTED then - ENODEV
              else - EIO)
      else again
  end.

(** The part of a turn that may wait: [None] goes on with the transfer,
    [Some err] is the result of [pcm_wait]. *)
Definition mmap_wait (fuel : nat) (count avail : Z) : MP (option Z) :=
  p ← get;
  if negb (p_running p) then mret None else
  when (negb (wait_for_avail_min p) && (u32 avail <? count)) (modify (set_wait true));;
  p ← get;
  if wait_for_avail_min p && (avail <? avail_min (p_config p)) then
    modify (set_wait false);;
    time ← lift (if has (p_flags p) PCM_NOIRQ
                 then t ← divide (u32 (avail_min (p_config p) - avail)) (noirq_frames_per_msec p);
                      mret (s32 t)
                 else mret (-1));
    err ← pcm_wait fuel time;
    when (err <? 0)
      (modify (set_running false);;
       modify (λ p, set_control 0 (ctl_avail_min p) p));;
    mret (Some err)
  else mret None.

(** [Some err]: the stream could not be started. *)
Definition mmap_start (avail : Z) : MP (option Z) :=
  p ← get;
  if negb (p_running p) && (start_threshold (p_config p) <=? u32 (buffer_size p - avail)) then
    r ← pcm_start;
    if r <? 0 then p ← get; mret (Some (- p_errno p))
    else modify (set_wait false);; mret None
  else mret None.

Fixpoint mmap_write_loop (fuel : nat) (buffer : list Z) (offset count err : Z) : MP Z :=
  if count <=? 0 then mret 0 else
  match fuel with
  | O => fail OutOfFuel
  | S f =>
      avail ← pcm_avail_update;
      if avail <? 0 then mret err else
      started ← mmap_start avail;
      match started with
      | Some e => mret e
      | None =>
          waited ← mmap_wait fuel count avail;
          match waited with
          | Some e => if e <? 0 then mret e else mmap_write_loop f buffer offset count e
          | None =>
              let frames := Z.min (s32 count) avail in
              if frames =? 0 then mret 0 else
              frames ← pcm_mmap_write_areas fuel buffer offset (u32 frames) 0;
              if frames <? 0 then mret frames else
              mmap_write_loop f buffer (u32 (offset + frames)) (u32 (count - frames)) err
          end
      end
  end.

Definition pcm_mmap_write (fuel : nat) (buffer : list Z) (bytes : Z) : MP Z :=
  if bytes =? 0 then mret 0 else
  p ← get;
  count ← lift (pcm_bytes_to_frames p bytes);
  mmap_write_loop fuel buffer 0 count 0.

(** ** Opening and closing *)

(** [pcm->boundary] is doubled while it fits; an [unsigned] can be doubled at
    most 32 times before it wraps. *)
Fixpoint grow_boundary (fuel : nat) (bound size : Z) : res Z :=
  match fuel with
  | O => Err OutOfFuel
  | S f =>
      if u32 (bound * 2) <=? u32 (LONG_MAX - size)
      then grow_boundary f (u32 (bound * 2)) size else Ok bound
  end.

Definition pcm_path (card device flags : Z) : list Z :=
  lit "/dev/snd/pcmC" ++ dec card ++ lit "D" ++ dec device ++
  [if has flags PCM_IN then 99 else 112].

(** The parameters that are asked for. *)
Definition open_params (flags : Z) (c : pcm_config) : res snd_pcm_hw_params :=
  let bits := pcm_format_to_bits (format c) in
  p ← param_set_mask param_init SNDRV_PCM_HW_PARAM_FORMAT (pcm_format_to_alsa (format c));
  p ← param_set_mask p SNDRV_PCM_HW_PARAM_SUBFORMAT SNDRV_PCM_SUBFORMAT_STD;
  p ← param_set_int p SNDRV_PCM_HW_PARAM_SAMPLE_BITS bits;
  p ← param_set_int p SNDRV_PCM_HW_PARAM_FRAME_BITS (u32 (bits * channels c));
  p ← param_set_int p SNDRV_PCM_HW_PARAM_CHANNELS (channels c);
  p ← param_set_int p SNDRV_PCM_HW_PARAM_RATE (rate c);
  p ← (if has flags PCM_IN then mret p else
         p ← param_set_min p SNDRV_PCM_HW_PARAM_PERIOD_SIZE (period_size c);
         param_set_int p SNDRV_PCM_HW_PARAM_PERIODS (period_count c));
  let p := if has flags PCM_NOIRQ
           then HwParams (Z.lor (hw_flags p) SNDRV_PCM_HW_PARAMS_NO_PERIOD_WAKEUP) (masks p) (intervals p)
           else p in
  param_set_mask p SNDRV_PCM_HW_PARAM_ACCESS
    (if has flags PCM_MMAP then SNDRV_PCM_ACCESS_MMAP_INTERLEAVED else SNDRV_PCM_ACCESS_RW_INTERLEAVED).

(** The thresholds: the configuration of the stream, and the parameters of
    the software, from the configuration [c] of the caller. *)
Definition open_thresholds (flags : Z) (p : pcm) (c : pcm_config) (bound : Z)
  : pcm_config * snd_pcm_sw_params :=
  let k := p_config p in
  let total := u32 (period_count c * period_size c) in
  let start := if start_threshold c =? 0 then total / 2 else start_threshold c in
  let stop := if stop_threshold c =? 0
              then if has flags PCM_IN then u32 (total * 10) else total
              else stop_threshold c in
  let amin := if avail_min k =? 0
              then if has flags PCM_MMAP then period_size k else 1
              else u32 (avail_min c) in
  (PcmConfig (channels k) (rate k) (period_size k) (period_count k) (format k)
     (if start_threshold c =? 0 then start else start_threshold k)
     (if stop_threshold c =? 0 then stop else stop_threshold k)
     (silence_threshold k)
     (if avail_min k =? 0 then s32 amin else avail_min k),
   SwParams start stop amin (period_size c / 2) (silence_threshold c) bound).

(** What is open is closed again. *)
Definition open_failed : MP unit := modify (set_fd (-1)).

(** The stream after the descriptor was opened, and the configuration of the
    caller with the sizes the driver chose. *)
Definition pcm_configure (sys : pcm_system) (flags : Z) (c : pcm_config) : MP pcm_config :=
  a ← ask Req_info;
  if negb (ans_ret a =? 0) then open_failed;; mret c else
  params ← lift (open_params flags c);
  if has flags PCM_NOIRQ && negb (has flags PCM_MMAP) then open_failed;; mret c else
  when (has flags PCM_NOIRQ) (modify (set_noirq (rate c / 1000)));;
  a ← ask (Req_hw_params params);
  if negb (ans_ret a =? 0) then open_failed;; mret c else
  psize ← lift (param_get_int (ans_params a) SNDRV_PCM_HW_PARAM_PERIOD_SIZE);
  pcount ← lift (param_get_int (ans_params a) SNDRV_PCM_HW_PARAM_PERIODS);
  let c := PcmConfig (channels c) (rate c) psize pcount (format c) (start_threshold c)
             (stop_threshold c) (silence_threshold c) (avail_min c) in
  let size := u32 (pcount * psize) in
  modify (set_sizes size 0);;
  p ← get;
  let mapped := sys_mmap sys (pcm_frames_to_bytes p size) in
  if has flags PCM_MMAP && negb (bool_decide (is_Some mapped)) then open_failed;; mret c else
  when (has flags PCM_MMAP) (modify (set_mmap_buffer (default [] mapped)));;
  let '(k, sparams) := open_thresholds flags p c size in
  modify (set_config k);;
  bound ← lift (grow_boundary 33 size size);
  modify (set_sizes size bound);;
  a ← ask (Req_sw_params sparams);
  if negb (ans_ret a =? 0) then open_failed;; mret c else
  rc ← pcm_hw_mmap_status sys;
  if rc <? 0 then open_failed;; mret c else
  modify (set_underruns 0);; mret c.

(** What calloc leaves, with the configuration of the caller. *)
Definition new_pcm (sys : pcm_system) (flags fd : Z) (c : pcm_config) : pcm :=
  Pcm fd flags false 0 0 0 c 0 0 (0, 0) 0 0 false [] 0 false 0 (sys_driver sys) [].

(** [None] is the address of [bad_pcm]; any other failure gives a stream
    whose descriptor is negative. *)
Definition pcm_open (sys : pcm_system) (card device flags : Z) (config : option pcm_config)
  : res (option pcm * option pcm_config) :=
  match config with
  | None => Ok (None, None)
  | Some c =>
      if negb (sys_calloc sys) then Ok (None, Some c) else
      let fd := sys_open sys (pcm_path card device flags) in
      let p := new_pcm sys flags fd c in
      if fd <? 0 then Ok (Some p, Some c) else
      match pcm_configure sys flags c p with
      | Ok (c', p') => Ok (Some p', Some c')
      | Err e => Err e
      end
  end.

(** The struct is released at the end; what it last was is the result. *)
Definition pcm_close (p : option pcm) : res (option pcm) :=
  match p with
  | None => Ok None
  | Some p =>
      let close : MP unit :=
        pcm_hw_munmap_status;;
        p ← get;
        when (has (p_flags p) PCM_MMAP) (pcm_stop;; modify (set_mmap_buffer []));;
        modify (set_running false);;
        modify (set_sizes 0 0);;
        modify (set_fd (-1)) in
      match close p with Ok (_, p') => Ok (Some p') | Err e => Err e end
  end.
