(* ===== verification/PcmProofs.v ===== *)
(** * Properties of the PCM device

    The ring buffer that is shared with the driver, against counters that do
    not wrap: the library has written [A] frames, frame [n] of the stream has
    its place in the buffer at [n] modulo its size, and the pointer of the
    library is [A] modulo the boundary. *)

From S2P Require Import Prelude CString Pcm PcmIo.

(** ** The ring *)

(** [F] bytes are a frame, [A] frames were written. *)
Record ring_ok (p : pcm) (F A : Z) : Prop := {
  ring_size : 0 < buffer_size p;
  ring_double : 2 * buffer_size p ≤ boundary p;
  ring_mult : (buffer_size p | boundary p);
  ring_max : boundary p + buffer_size p ≤ LONG_MAX;
  ring_appl : 0 ≤ appl_ptr p ≤ boundary p;
  ring_pos : appl_ptr p mod boundary p = A mod boundary p;
  ring_frame : channels (p_config p) * Z.shiftr (pcm_format_to_bits (format (p_config p))) 3 = F;
  ring_bytes : 0 < F ∧ buffer_size p * F ≤ INT_MAX;
  ring_mem : len (mmap_buffer p) = buffer_size p * F;
}.

(** The frames that are written and not yet played. *)
Definition fill (p : pcm) : Z := (appl_ptr p - hw_ptr p) mod boundary p.

(** What the driver is shown of the pointer of the library. *)
Definition shows (r : pcm_request) : option Z :=
  match r with Req_sync _ a | Req_look a => Some a | _ => None end.

(** The driver plays: its pointer moves on, and not past the one it is
    shown. *)
Definition driver_plays (N : Z) (d : list pcm_request → pcm_answer) : Prop :=
  ∀ rs r1 a1 rs2 r2 a2, shows r1 = Some a1 → shows r2 = Some a2 →
    Forall (λ r, shows r = None) rs2 →
    let s1 := d (rs ++ [r1]) in let s2 := d ((rs ++ r1 :: rs2) ++ [r2]) in
    0 ≤ ans_ret s2 ∧ 0 ≤ ans_hw_ptr s2 < N ∧
    (a2 - ans_hw_ptr s2) mod N ≤ (a2 - ans_hw_ptr s1) mod N.

(** The pointer of the driver is the one it last gave. *)
Definition synced (p : pcm) : Prop :=
  0 ≤ hw_ptr p < boundary p ∧ ∃ rs r a rs2,
  requests p = rs ++ r :: rs2 ∧ shows r = Some a ∧ Forall (λ r, shows r = None) rs2 ∧
  hw_ptr p = ans_hw_ptr (dev p (rs ++ [r])).

(** Beside the status and the log nothing has changed. *)
Record same_ring (p p' : pcm) : Prop := {
  same_flags : p_flags p' = p_flags p;
  same_size : buffer_size p' = buffer_size p;
  same_boundary : boundary p' = boundary p;
  same_config : p_config p' = p_config p;
  same_appl : appl_ptr p' = appl_ptr p;
  same_mem : mmap_buffer p' = mmap_buffer p;
  same_dev : dev p' = dev p;
}.

Lemma ring_same p p' F A : same_ring p p' → ring_ok p F A → ring_ok p' F A.
Proof.
  intros [Hf Hs Hb Hc Ha Hm Hd] []. split; rewrite ?Hs, ?Hb, ?Hc, ?Ha, ?Hm; done.
Qed.

Lemma ring_pos' p F A : ring_ok p F A → 0 < boundary p.
Proof. intros []. lia. Qed.

Lemma sync_ok flags p F A :
  ring_ok p F A → synced p → driver_plays (boundary p) (dev p) → ∃ p',
  pcm_sync_ptr flags p = Ok (0, p') ∧ same_ring p p' ∧ synced p' ∧ fill p' ≤ fill p.
Proof.
  intros Hr (Hhw & rs & r & a & rs2 & Hreq & Hs & Hn & Hp) Hd.
  unfold pcm_sync_ptr, mbind, M_bind, get. simpl.
  assert (∀ q, shows q = Some (appl_ptr p) →
    let s := dev p (requests p ++ [q]) in
    0 ≤ ans_ret s ∧ 0 ≤ ans_hw_ptr s < boundary p ∧ (appl_ptr p - ans_hw_ptr s) mod boundary p ≤ fill p) as Hq.
  { intros q Eq. unfold fill. rewrite Hp, Hreq. by eapply Hd. }
  assert (∀ q e, shows q = Some (appl_ptr p) →
    let a := dev p (requests p ++ [q]) in
    let p' := set_status a (set_answered e (requests p ++ [q]) p) in
    same_ring p p' ∧ synced p' ∧ fill p' ≤ fill p) as Hset.
  { intros q e Eq. destruct (Hq q Eq) as (H1 & H2 & H3). simpl in H1, H2, H3.
    repeat split; simpl; try done; try lia.
    exists (requests p), q, (appl_ptr p), []. done. }
  destruct (p_sync_ptr p).
  - unfold ask, mbind, M_bind, get, put. simpl.
    destruct (Hq (Req_sync flags (appl_ptr p)) eq_refl) as (H1 & _). simpl in H1.
    rewrite (proj2 (Z.ltb_ge _ _) H1). eexists. split; [reflexivity|]. by apply Hset.
  - unfold ask, mbind, M_bind, get, put. simpl. eexists. split; [reflexivity|]. by apply Hset.
Qed.

(** ** The space in the ring *)

Lemma avail_ok p F A :
  ring_ok p F A → 0 ≤ hw_ptr p < boundary p → fill p ≤ buffer_size p →
  pcm_mmap_playback_avail p =
    (if hw_ptr p + buffer_size p - appl_ptr p =? boundary p
     then boundary p else buffer_size p - fill p) ∧
  (hw_ptr p + buffer_size p - appl_ptr p = boundary p → fill p = buffer_size p).
Proof.
  intros [] Hhw. unfold fill, pcm_mmap_playback_avail, LONG_MAX in *.
  set (N := boundary p) in *. set (B := buffer_size p) in *. set (h := hw_ptr p) in *.
  set (a := appl_ptr p) in *.
  pose proof (Z.div_mod (a - h) N ltac:(lia)) as Ediv.
  pose proof (Z.mod_pos_bound (a - h) N ltac:(lia)) as Emod.
  set (f := (a - h) mod N) in *. set (q := (a - h) / N) in *. intros Hf.
  assert (q = -1 ∨ q = 0 ∨ q = 1) as Hq by nia.
  rewrite (s32_small (h + B - a)) by (unfold INT_MIN, INT_MAX; lia).
  rewrite (s32_small N) by (unfold INT_MIN, INT_MAX; lia).
  destruct Hq as [-> | [-> | ->]];
    (destruct (Z.ltb_spec (h + B - a) 0); [|destruct (Z.ltb_spec N (h + B - a))]);
    rewrite ?s32_small by (unfold INT_MIN, INT_MAX; lia);
    destruct (Z.eqb_spec (h + B - a) N); split; lia.
Qed.

(** ** Copies into the ring *)

Lemma frames_bytes p F A n :
  ring_ok p F A → 0 ≤ n ≤ buffer_size p → pcm_frames_to_bytes p n = n * F ∧ s32 (n * F) = n * F.
Proof.
  intros [] Hn. unfold pcm_frames_to_bytes, INT_MAX in *.
  rewrite <-Z.mul_assoc, ring_frame0. assert (0 ≤ n * F ≤ buffer_size p * F) by nia.
  rewrite u32_small, s32_small by (unfold INT_MIN, INT_MAX; lia). done.
Qed.

(** The place of byte [j] of the stream. *)
Definition place (p : pcm) (F j : Z) : Z := j mod (buffer_size p * F).

Lemma place_frame p F A o j :
  ring_ok p F A → o = appl_ptr p mod buffer_size p → 0 ≤ j < (buffer_size p - o) * F →
  place p F (A * F + j) = o * F + j.
Proof.
  intros [] -> Hj. unfold place. pose proof (Z.mod_pos_bound (appl_ptr p) (buffer_size p) ltac:(lia)).
  destruct ring_mult0 as [k Ek].
  assert (A mod buffer_size p = appl_ptr p mod buffer_size p) as EA.
  { rewrite (Znumtheory.Zmod_div_mod (buffer_size p) (boundary p) A),
      (Znumtheory.Zmod_div_mod (buffer_size p) (boundary p) (appl_ptr p)) by (lia || by exists k).
    by rewrite ring_pos0. }
  rewrite Z.add_mod, Z.mul_mod_distr_r, EA by lia. rewrite (Z.mod_small j) by nia.
  rewrite Z.mod_small; nia.
Qed.

Lemma place_ne p F x d : 0 < d < buffer_size p * F → place p F (x + d) ≠ place p F x.
Proof.
  unfold place. intros Hd E. set (M := buffer_size p * F) in *.
  pose proof (Z.div_mod (x + d) M ltac:(lia)). pose proof (Z.div_mod x M ltac:(lia)).
  set (k := (x + d) / M - x / M) in *. assert (d = M * k) by (unfold k; lia).
  assert (k ≤ 0 ∨ 1 ≤ k) as [] by lia; nia.
Qed.

(** [mem'] is [mem] with the bytes of [src] from [off] on in the places of
    the bytes of the stream from [from] on. *)
Definition ring_written (p : pcm) (F from n : Z) (src : list Z) (off : Z) (mem mem' : list Z) : Prop :=
  (∀ j, 0 ≤ j < n → mem' !! Z.to_nat (place p F (from + j)) = src !! Z.to_nat (off + j)) ∧
  (∀ i, 0 ≤ i → (∀ j, 0 ≤ j < n → i ≠ place p F (from + j)) → mem' !! Z.to_nat i = mem !! Z.to_nat i).

Lemma ring_written_nil p F from src off mem : ring_written p F from (0 * F) src off mem mem.
Proof. split; [intros; lia|done]. Qed.

Lemma ring_written_app p F from n1 n2 src off mem mem1 mem2 :
  0 < buffer_size p * F → 0 ≤ n1 → 0 ≤ n2 → n1 + n2 ≤ buffer_size p * F →
  ring_written p F from n1 src off mem mem1 →
  ring_written p F (from + n1) n2 src (off + n1) mem1 mem2 →
  ring_written p F from (n1 + n2) src off mem mem2.
Proof.
  intros HM H1 H2 Hn [W1 K1] [W2 K2]. split.
  - intros j Hj. destruct (decide (j < n1)).
    + rewrite K2; [by apply W1; lia|by apply Z.mod_pos_bound|].
      intros j' Hj'. apply not_eq_sym.
      replace (from + n1 + j') with (from + j + (n1 + j' - j)) by lia. apply place_ne. lia.
    + replace (from + j) with (from + n1 + (j - n1)) by lia. rewrite W2 by lia. f_equal. lia.
  - intros i Hi Hne. rewrite K2; [apply K1; [done|]|done|].
    + intros j Hj. apply Hne. lia.
    + intros j Hj. replace (from + n1 + j) with (from + (n1 + j)) by lia. apply Hne. lia.
Qed.

Lemma areas_copy_ok p F A o src off k :
  ring_ok p F A → o = appl_ptr p mod buffer_size p → 0 ≤ k ≤ buffer_size p - o →
  0 ≤ off → off + k ≤ buffer_size p → (off + k) * F ≤ len src → ∃ mem',
  pcm_areas_copy o src off k p = Ok (0, set_mmap_buffer mem' p) ∧ len mem' = len (mmap_buffer p) ∧
  ring_written p F (A * F) (k * F) src (off * F) (mmap_buffer p) mem'.
Proof.
  intros Hr Eo Hk Hoff Hmax Hlen. pose proof Hr as [].
  pose proof (Z.mod_pos_bound (appl_ptr p) (buffer_size p) ltac:(lia)) as Ho.
  unfold pcm_areas_copy, mbind, M_bind, get, lift. simpl.
  rewrite !(λ n H, proj1 (frames_bytes p F A n Hr H)), !(λ n H, proj2 (frames_bytes p F A n Hr H)) by lia.
  assert (slice src (off * F) (k * F) = Ok (take (Z.to_nat (k * F)) (drop (Z.to_nat (off * F)) src))) as Es
    by (apply slice_ok; nia).
  rewrite Es. pose proof (slice_len _ _ _ _ Es) as El. set (bytes := take _ _) in *.
  assert (∃ b, blit (mmap_buffer p) (o * F) bytes = Ok b) as [b Eb].
  { rewrite blit_ok by nia. by eexists. }
  rewrite Eb. simpl. exists b. split; [done|]. split; [by eapply blit_len|].
  assert (∀ j, 0 ≤ j < k * F → place p F (A * F + j) = o * F + j) as Hpl.
  { intros j Hj. eapply place_frame; [done..|nia]. }
  split.
  - intros j Hj. rewrite Hpl by done. rewrite (blit_lookup _ _ _ _ _ Eb) by nia.
    rewrite decide_True by lia. rewrite <-(slice_lookup _ _ _ _ _ Es Hj). f_equal. lia.
  - intros i Hi Hne. rewrite (blit_lookup _ _ _ _ _ Eb) by done.
    rewrite decide_False; [done|]. intros Hin. apply (Hne (i - o * F)); [lia|]. rewrite Hpl; lia.
Qed.

(** ** A turn of the transfer *)

Lemma synced_same p p' :
  same_ring p p' → requests p' = requests p → hw_ptr p' = hw_ptr p → synced p → synced p'.
Proof.
  intros [] Er Eh (Hh & rs & r & a & rs2 & H1 & H2 & H3 & H4).
  split; [congruence|]. exists rs, r, a, rs2. rewrite Er, Eh, same_dev0. done.
Qed.

Lemma mmap_begin_ok p F A n :
  ring_ok p F A → synced p → driver_plays (boundary p) (dev p) → has (p_flags p) PCM_IN = false →
  0 < n ≤ buffer_size p - fill p → ∃ p' k,
  let o := appl_ptr p mod buffer_size p in
  pcm_mmap_begin n p = Ok ((o, k), p') ∧ same_ring p p' ∧ synced p' ∧ fill p' ≤ fill p ∧
  0 < k ≤ n ∧ k ≤ buffer_size p - o.
Proof.
  intros Hr Hs Hd Hin Hn. destruct (sync_ok SNDRV_PCM_SYNC_PTR_HWSYNC p F A Hr Hs Hd) as (p' & E & Hsame & Hs' & Hf).
  pose proof Hr as []. pose proof (Z.mod_pos_bound (appl_ptr p) (buffer_size p) ltac:(lia)) as Ho.
  pose proof (Z.mod_pos_bound (appl_ptr p') (boundary p')). unfold LONG_MAX in *.
  exists p', (Z.min (Z.min n (buffer_size p - fill p')) (buffer_size p - appl_ptr p mod buffer_size p)).
  assert (0 ≤ fill p').
  { unfold fill. apply Z.mod_pos_bound. rewrite (same_boundary _ _ Hsame). lia. }
  split; [|split_and!; try done; lia].
  unfold pcm_mmap_begin. unfold mbind at 1, M_bind at 1, get. simpl.
  destruct (Z.eqb_spec (buffer_size p) 0); [lia|].
  unfold lift at 1. unfold mbind at 1, M_bind at 1.
  erewrite bind_ok. 2:{ unfold pcm_mmap_avail. rewrite (bind_ok _ _ _ _ _ E). reflexivity. }
  rewrite (same_flags _ _ Hsame), Hin.
  destruct (avail_ok p' F A (ring_same _ _ _ _ Hsame Hr) (proj1 Hs')) as [-> Hfull].
  { rewrite (same_size _ _ Hsame). lia. }
  rewrite (same_size _ _ Hsame), (same_boundary _ _ Hsame) in *.
  destruct (Z.eqb_spec (hw_ptr p' + buffer_size p - appl_ptr p') (boundary p)) as [Eq|_].
  { specialize (Hfull Eq). lia. }
  rewrite !u32_small by lia. unfold mret, M_ret. do 4 f_equal. lia.
Qed.

Lemma commit_ok p F A k :
  ring_ok p F A → synced p → driver_plays (boundary p) (dev p) → 0 < k ≤ buffer_size p - fill p → ∃ p',
  pcm_mmap_commit k p = Ok (k, p') ∧ ring_ok p' F (A + k) ∧ synced p' ∧ fill p' ≤ fill p + k ∧
  mmap_buffer p' = mmap_buffer p ∧ buffer_size p' = buffer_size p ∧ boundary p' = boundary p ∧
  dev p' = dev p ∧ p_flags p' = p_flags p.
Proof.
  intros Hr Hs Hd Hk. pose proof Hr as []. unfold LONG_MAX in *.
  assert (0 ≤ fill p) by (unfold fill; apply Z.mod_pos_bound; lia).
  set (a := if boundary p <? u32 (appl_ptr p + k) then u32 (u32 (appl_ptr p + k) - boundary p)
            else u32 (appl_ptr p + k)).
  set (p1 := set_control a (ctl_avail_min p) p).
  assert (0 ≤ a ≤ boundary p ∧ (a = appl_ptr p + k ∨ a = appl_ptr p + k - boundary p)) as [Ha Ea].
  { unfold a. rewrite (u32_small (appl_ptr p + k)) by lia.
    destruct (Z.ltb_spec (boundary p) (appl_ptr p + k)); rewrite ?u32_small by lia; lia. }
  assert (∀ x, (a + x) mod boundary p = (appl_ptr p + k + x) mod boundary p) as Em.
  { intros x. destruct Ea as [-> | ->]; [done|].
    replace (appl_ptr p + k - boundary p + x) with (appl_ptr p + k + x + (-1) * boundary p) by lia.
    apply Z_mod_plus_full. }
  assert (fill p1 = fill p + k) as Ef.
  { unfold fill, p1. simpl. change (a - hw_ptr p) with (a + - hw_ptr p). rewrite Em.
    replace (appl_ptr p + k + - hw_ptr p) with (appl_ptr p - hw_ptr p + k) by lia.
    rewrite <-Z.add_mod_idemp_l by lia. fold (fill p). apply Z.mod_small. lia. }
  assert (ring_ok p1 F (A + k)) as Hr1.
  { split; simpl; try done. rewrite <-(Z.add_0_r a), Em, Z.add_0_r.
    rewrite <-Z.add_mod_idemp_l, ring_pos0, Z.add_mod_idemp_l by lia. done. }
  assert (synced p1) as Hs1 by exact Hs.
  destruct (sync_ok 0 p1 F (A + k) Hr1 Hs1 Hd) as (p' & E & Hsame & Hs' & Hf).
  exists p'. split.
  { unfold pcm_mmap_commit. erewrite bind_ok. 2:{ reflexivity. } fold p1.
    rewrite (bind_ok _ _ _ _ _ E). unfold mret, M_ret. rewrite s32_small; [done|].
    unfold INT_MIN, INT_MAX. lia. }
  split; [by eapply ring_same|]. split; [done|]. split; [lia|]. destruct Hsame. done.
Qed.

Lemma place_size p p' F j : buffer_size p' = buffer_size p → place p' F j = place p F j.
Proof. unfold place. by intros ->. Qed.

Lemma written_size p p' F from n src off mem mem' :
  buffer_size p' = buffer_size p →
  ring_written p' F from n src off mem mem' → ring_written p F from n src off mem mem'.
Proof.
  intros E [W K]. split.
  - intros j Hj. rewrite <-(place_size p p') by done. by apply W.
  - intros i Hi Hne. apply K; [done|]. intros j Hj. rewrite (place_size p p') by done. by apply Hne.
Qed.

Lemma ring_set_mem p F A mem :
  len mem = len (mmap_buffer p) → ring_ok p F A → ring_ok (set_mmap_buffer mem p) F A.
Proof. intros E []. split; simpl; try done. by rewrite E. Qed.

Lemma write_areas_ok fuel p F A src off n count :
  ring_ok p F A → synced p → driver_plays (boundary p) (dev p) → has (p_flags p) PCM_IN = false →
  0 ≤ n ≤ buffer_size p - fill p → 0 ≤ off → off + n ≤ buffer_size p → (off + n) * F ≤ len src →
  0 ≤ count → count + n ≤ buffer_size p → (Z.to_nat n ≤ fuel)%nat → ∃ p',
  pcm_mmap_write_areas fuel src off n count p = Ok (count + n, p') ∧
  ring_ok p' F (A + n) ∧ synced p' ∧ fill p' ≤ fill p + n ∧ buffer_size p' = buffer_size p ∧
  ring_written p F (A * F) (n * F) src (off * F) (mmap_buffer p) (mmap_buffer p').
Proof.
  revert p A off n count.
  induction fuel as [|fuel IH]; intros p A off n count Hr Hs Hd Hin Hn Hoff Hmax Hlen Hc Hcn Hfuel;
    pose proof Hr as []; unfold LONG_MAX in *.
  - assert (n = 0) as -> by lia. simpl. exists p. rewrite !Z.add_0_r.
    split; [unfold mret, M_ret; rewrite s32_small by (unfold INT_MIN, INT_MAX; lia); done|].
    split_and!; try done; try lia; apply ring_written_nil.
  - destruct (decide (n = 0)) as [->|Hn0].
    { simpl. exists p. rewrite !Z.add_0_r.
      split; [unfold mret, M_ret; rewrite s32_small by (unfold INT_MIN, INT_MAX; lia); done|].
      split_and!; try done; try lia; apply ring_written_nil. }
    destruct (mmap_begin_ok p F A n Hr Hs Hd Hin ltac:(lia)) as (p1 & k & E1 & Hs1 & Hy1 & Hf1 & Hk & Hko).
    pose proof (ring_same _ _ _ _ Hs1 Hr) as Hr1.
    assert (appl_ptr p1 mod buffer_size p1 = appl_ptr p mod buffer_size p) as Eo.
    { by rewrite (same_appl _ _ Hs1), (same_size _ _ Hs1). }
    pose proof (same_size _ _ Hs1) as Es1.
    destruct (areas_copy_ok p1 F A (appl_ptr p mod buffer_size p) src off k Hr1)
      as (mem1 & E2 & Hl & W1); [by rewrite Eo|lia..|nia|].
    assert (0 ≤ fill p1).
    { unfold fill. apply Z.mod_pos_bound. rewrite (same_boundary _ _ Hs1). lia. }
    destruct (commit_ok (set_mmap_buffer mem1 p1) F A k) as (p3 & E3 & Hr3 & Hy3 & Hf3 & Em3 & Es3 & Eb3 & Ed3 & Ef3).
    { by apply ring_set_mem. }
    { exact Hy1. }
    { simpl. by rewrite (same_boundary _ _ Hs1), (same_dev _ _ Hs1). }
    { simpl. change (fill (set_mmap_buffer mem1 p1)) with (fill p1). lia. }
    change (fill (set_mmap_buffer mem1 p1)) with (fill p1) in Hf3. simpl in Es3, Eb3, Ed3, Ef3, Em3.
    destruct (IH p3 (A + k) (off + k) (n - k) (count + k)) as (p' & E4 & Hr4 & Hy4 & Hf4 & Es4 & W4); try done; try lia.
    { rewrite Eb3, Ed3, (same_boundary _ _ Hs1), (same_dev _ _ Hs1). done. }
    { by rewrite Ef3, (same_flags _ _ Hs1). }
    exists p'. split.
    { cbn [pcm_mmap_write_areas]. destruct (Z.leb_spec n 0); [lia|].
      rewrite (bind_ok _ _ _ _ _ E1). cbv iota beta. rewrite (bind_ok _ _ _ _ _ E2).
      rewrite (bind_ok _ _ _ _ _ E3). destruct (Z.ltb_spec k 0); [lia|].
      rewrite !u32_small by lia. rewrite E4. do 2 f_equal. lia. }
    replace (A + n) with (A + k + (n - k)) by lia. split; [done|]. split; [done|].
    split; [lia|]. split; [lia|].
    replace (n * F) with (k * F + (n - k) * F) by lia.
    apply (ring_written_app _ _ _ _ _ _ _ _ mem1); [nia..| | ].
    + rewrite <-(same_mem _ _ Hs1). by apply (written_size p p1).
    + apply (written_size p p3); [lia|]. rewrite <-Em3.
      replace (A * F + k * F) with ((A + k) * F) by lia. by replace (off * F + k * F) with ((off + k) * F) by lia.
Qed.

(** ** Opening *)

Lemma grow_ok fuel b size :
  0 < size → size ≤ b → b + size ≤ LONG_MAX → LONG_MAX < 2 ^ Z.of_nat fuel * b → ∃ k,
  let N := b * 2 ^ Z.of_nat k in
  grow_boundary fuel b size = Ok N ∧ N + size ≤ LONG_MAX ∧ LONG_MAX < 2 * N + size.
Proof.
  unfold LONG_MAX. revert b. induction fuel as [|fuel IH]; intros b Hs Hb Hmax Hf.
  { change (2 ^ Z.of_nat 0) with 1 in Hf. lia. }
  simpl grow_boundary. rewrite !u32_small by (unfold LONG_MAX; lia). unfold LONG_MAX at 1.
  destruct (Z.leb_spec (b * 2) (2147483647 - size)).
  - destruct (IH (b * 2)) as (k & E & H1 & H2); [lia..| |].
    { rewrite Nat2Z.inj_succ, Z.pow_succ_r in Hf by lia. lia. }
    exists (S k). rewrite Nat2Z.inj_succ, Z.pow_succ_r by lia.
    replace (b * (2 * 2 ^ Z.of_nat k)) with (b * 2 * 2 ^ Z.of_nat k) by lia. done.
  - exists 0%nat. change (2 ^ Z.of_nat 0) with 1. rewrite Z.mul_1_r. split; [done|lia].
Qed.

Lemma boundary_ok size :
  0 < size ≤ LONG_MAX / 3 → ∃ N, grow_boundary 33 size size = Ok N ∧
  (size | N) ∧ 2 * size ≤ N ∧ N + size ≤ LONG_MAX ∧ LONG_MAX < 2 * N + size.
Proof.
  intros Hs. assert (LONG_MAX / 3 = 715827882) as E3 by done. rewrite E3 in Hs.
  destruct (grow_ok 33 size size) as (k & E & H1 & H2); unfold LONG_MAX in *;
    [lia..|change (2 ^ Z.of_nat 33) with 8589934592; lia|].
  exists (size * 2 ^ Z.of_nat k). split; [done|]. split; [by exists (2 ^ Z.of_nat k); lia|].
  split; [|lia]. destruct k.
  - change (2 ^ Z.of_nat 0) with 1 in *. lia.
  - rewrite Nat2Z.inj_succ, Z.pow_succ_r by lia. pose proof (Z.pow_pos_nonneg 2 (Z.of_nat k)). nia.
Qed.

(** The boundary of the pointers is a multiple of the size of the buffer
    by a power of two, as large as fits, and the loop that finds it ends;
    but when the driver gives no size it does not. *)
Theorem boundary_found size :
  0 ≤ size ≤ LONG_MAX / 3 →
  if size =? 0 then ∀ fuel, grow_boundary fuel size size = Err OutOfFuel
  else ∃ N, grow_boundary 33 size size = Ok N ∧ (size | N) ∧ 2 * size ≤ N ∧
    N + size ≤ LONG_MAX ∧ LONG_MAX < 2 * N + size.
Proof.
  intros Hs. destruct (Z.eqb_spec size 0) as [->|]; [|apply boundary_ok; lia].
  intros fuel. induction fuel; [done|exact IHfuel].
Qed.

(** The space the library sees in the ring is the frames that are not
    waiting to be played, also when the pointers have wrapped; but when the
    ring is full and only the pointer of the library has wrapped, it sees
    more space than there is in the ring. *)
Theorem playback_avail_counts p F A :
  ring_ok p F A → 0 ≤ hw_ptr p < boundary p → fill p ≤ buffer_size p →
  if hw_ptr p + buffer_size p - appl_ptr p =? boundary p
  then fill p = buffer_size p ∧ buffer_size p < pcm_mmap_playback_avail p
  else pcm_mmap_playback_avail p = buffer_size p - fill p.
Proof.
  intros Hr Hh Hf. destruct (avail_ok p F A Hr Hh Hf) as [-> Hfull]. pose proof Hr as [].
  destruct (Z.eqb_spec (hw_ptr p + buffer_size p - appl_ptr p) (boundary p)); [|done].
  split; [auto|lia].
Qed.

(** C19: frames that fit are written into the ring: the transfer ends, the
    bytes of the source are in the places of the next frames of the stream,
    wherever the ring and the pointers wrap, and no other byte of the ring
    has changed; so the frames that wait to be played are not overwritten. *)
Theorem mmap_write_fills_ring p F A src n :
  ring_ok p F A → synced p → driver_plays (boundary p) (dev p) → has (p_flags p) PCM_IN = false →
  0 ≤ n ≤ buffer_size p - fill p → n * F ≤ len src → ∃ p',
  pcm_mmap_write_areas (Z.to_nat n) src 0 n 0 p = Ok (n, p') ∧
  ring_ok p' F (A + n) ∧ synced p' ∧ fill p' ≤ fill p + n ∧
  ring_written p F (A * F) (n * F) src 0 (mmap_buffer p) (mmap_buffer p').
Proof.
  intros Hr Hs Hd Hin Hn Hlen. pose proof Hr as []. pose proof (Z.mod_pos_bound (appl_ptr p - hw_ptr p) (boundary p)).
  destruct (write_areas_ok (Z.to_nat n) p F A src 0 n 0) as (p' & E & H1 & H2 & H3 & _ & H4); try done;
    unfold fill in *; try lia.
  by exists p'.
Qed.

(** ** Transfers by ioctl *)

(** The data the driver has taken in a run of requests. *)
Fixpoint writes_done (d : list pcm_request → pcm_answer) (past rs : list pcm_request) : list (list Z) :=
  match rs with
  | [] => []
  | r :: rs' =>
      (match r with Req_writei b => if ans_ret (d (past ++ [r])) =? 0 then [b] else [] | _ => [] end) ++
      writes_done d (past ++ [r]) rs'
  end.

Lemma pcm_write_once p data count frames bytes :
  has (p_flags p) PCM_IN = false → transfer_frames p count = Ok frames →
  slice data 0 (pcm_frames_to_bytes p frames) = Ok bytes → ∃ ret p' rs,
  pcm_write data count p = Ok (ret, p') ∧ (ret = 0 ∨ ret = -1) ∧
  requests p' = requests p ++ rs ∧ (length rs ≤ 3)%nat ∧
  writes_done (dev p) (requests p) rs = (if ret =? 0 then [bytes] else []) ∧
  p_running p' = (ret =? 0).
Proof.
  intros Hin Hf Hb.
  cbv beta iota zeta delta [pcm_write write_frames ask oops mbind M_bind get put lift modify mret M_ret].
  rewrite Hin, Hf, Hb. simpl. destruct (p_running p) eqn:Hrun; simpl.
  - destruct (ans_ret (dev p (requests p ++ [Req_writei bytes])) =? 0) eqn:E1; simpl.
    { eexists 0, _, [Req_writei bytes]. split_and!; auto; simpl; by rewrite ?E1. }
    destruct (_ =? EPIPE) eqn:Ee; simpl.
    2: { eexists (-1), _, [Req_writei bytes]. split_and!; auto; simpl; by rewrite E1. }
    destruct (ans_ret (dev p ((requests p ++ [Req_writei bytes]) ++ [Req_prepare])) =? 0) eqn:E2; simpl.
    2: { eexists (-1), _, [Req_writei bytes; Req_prepare].
         split_and!; auto; simpl; rewrite ?E1, <-?app_assoc; simpl; auto. }
    destruct (ans_ret (dev p (((requests p ++ [Req_writei bytes]) ++ [Req_prepare]) ++ [Req_writei bytes])) =? 0)
      eqn:E3; simpl.
    + eexists 0, _, [Req_writei bytes; Req_prepare; Req_writei bytes].
      split_and!; auto; simpl; rewrite ?E1, ?E3, <-?app_assoc; simpl; auto.
    + eexists (-1), _, [Req_writei bytes; Req_prepare; Req_writei bytes].
      split_and!; auto; simpl; rewrite ?E1, ?E3, <-?app_assoc; simpl; auto.
  - destruct (ans_ret (dev p (requests p ++ [Req_prepare])) =? 0) eqn:E2; simpl.
    2: { eexists (-1), _, [Req_prepare]. split_and!; auto. }
    destruct (ans_ret (dev p ((requests p ++ [Req_prepare]) ++ [Req_writei bytes])) =? 0) eqn:E3; simpl.
    + eexists 0, _, [Req_prepare; Req_writei bytes].
      split_and!; auto; simpl; rewrite ?E3, <-?app_assoc; simpl; auto.
    + eexists (-1), _, [Req_prepare; Req_writei bytes].
      split_and!; auto; simpl; rewrite ?E3, <-?app_assoc; simpl; auto.
Qed.

(** C30: [pcm_write] gives the data to the driver exactly once when it returns
    0, also after a missed deadline, and not at all when it returns -1; it
    tries at most twice. *)
Theorem pcm_write_exactly_once p data count frames bytes :
  has (p_flags p) PCM_IN = false → transfer_frames p count = Ok frames →
  slice data 0 (pcm_frames_to_bytes p frames) = Ok bytes → ∃ ret p' rs,
  pcm_write data count p = Ok (ret, p') ∧ (ret = 0 ∨ ret = -1) ∧
  requests p' = requests p ++ rs ∧ (length rs ≤ 3)%nat ∧
  writes_done (dev p) (requests p) rs = (if ret =? 0 then [bytes] else []) ∧
  p_running p' = (ret =? 0).
Proof. apply pcm_write_once. Qed.

(** The parameters have the sizes of the struct, so that they are set
    without a fault. *)
Record params_ok (p : snd_pcm_hw_params) : Prop := {
  params_masks : len (masks p) = 3;
  params_words : Forall (λ m, len m = 8) (masks p);
  params_intervals : len (intervals p) = 12;
}.

Lemma set_interval_ok p n i :
  params_ok p → param_is_interval n = true → ∃ p', set_interval p n i = Ok p' ∧ params_ok p'.
Proof.
  intros [] Hn. unfold param_is_interval, SNDRV_PCM_HW_PARAM_FIRST_INTERVAL, SNDRV_PCM_HW_PARAM_LAST_INTERVAL in Hn.
  unfold set_interval, SNDRV_PCM_HW_PARAM_FIRST_INTERVAL, write_at.
  destruct (blit (intervals p) (n - 8) [i]) as [l|] eqn:E.
  - simpl. eexists. split; [reflexivity|]. split; simpl; [done..|]. by rewrite (blit_len _ _ _ _ E).
  - exfalso. rewrite blit_ok in E; [done|lia|]. change (len [i]) with 1. lia.
Qed.

Lemma param_set_int_ok p n v : params_ok p → ∃ p', param_set_int p n v = Ok p' ∧ params_ok p'.
Proof.
  intros Hp. unfold param_set_int. destruct (param_is_interval n) eqn:E; [|by exists p].
  by apply set_interval_ok.
Qed.

Lemma param_set_min_ok p n v : params_ok p → ∃ p', param_set_min p n v = Ok p' ∧ params_ok p'.
Proof.
  intros Hp. unfold param_set_min. destruct (param_is_interval n) eqn:E; [|by exists p].
  unfold param_to_interval. unfold mbind at 1, res_bind at 1.
  destruct (read_at (intervals p) _) eqn:Er; [by apply set_interval_ok|]. exfalso.
  unfold param_is_interval, SNDRV_PCM_HW_PARAM_FIRST_INTERVAL, SNDRV_PCM_HW_PARAM_LAST_INTERVAL in *.
  destruct Hp. unfold len in *. unfold read_at in Er. rewrite decide_True in Er by lia.
  destruct (lookup_lt_is_Some_2 (intervals p) (Z.to_nat (n - 8))) as [x Hx]; [lia|]. by rewrite Hx in Er.
Qed.

Lemma write_word (m : list Z) i w : len m = 8 → 0 ≤ i < 8 → ∃ m', write_at m i w = Ok m' ∧ len m' = 8.
Proof.
  intros Hm Hi. unfold write_at. destruct (blit m i [w]) as [l|] eqn:E.
  - exists l. split; [done|]. by rewrite (blit_len _ _ _ _ E).
  - exfalso. rewrite blit_ok in E; [done|lia|]. change (len [w]) with 1. lia.
Qed.

Lemma read_ok {A} (l : list A) i : 0 ≤ i < len l → ∃ x, read_at l i = Ok x ∧ l !! Z.to_nat i = Some x.
Proof.
  intros Hi. unfold len in Hi. destruct (lookup_lt_is_Some_2 l (Z.to_nat i)) as [x Hx]; [lia|].
  exists x. split; [|done]. apply read_at_lookup; [lia|done].
Qed.

Lemma param_set_mask_ok p n bit :
  params_ok p → 0 ≤ bit → ∃ p', param_set_mask p n bit = Ok p' ∧ params_ok p'.
Proof.
  intros Hp Hb. unfold param_set_mask. destruct (Z.leb_spec SNDRV_MASK_MAX bit) as [|Hm]; [by exists p|].
  destruct (param_is_mask n) eqn:E; [|by exists p]. destruct Hp as [H1 H2 H3].
  unfold param_is_mask, SNDRV_PCM_HW_PARAM_FIRST_MASK, SNDRV_PCM_HW_PARAM_LAST_MASK, SNDRV_MASK_MAX in *.
  unfold param_to_mask, SNDRV_PCM_HW_PARAM_FIRST_MASK.
  assert (0 ≤ Z.shiftr bit 5 < 8) as Hs.
  { rewrite Z.shiftr_div_pow2 by lia. change (2 ^ 5) with 32.
    split; [apply Z.div_pos; lia|apply Z.div_lt_upper_bound; lia]. }
  destruct (read_ok (masks p) (n - 0)) as (m & Em & Lm); [lia|]. rewrite Em. simpl.
  assert (len m = 8) as Hm8 by (by eapply (Forall_lookup_1 _ _ _ _ H2)).
  destruct (write_word m 0 0) as (m1 & E1 & L1); [lia..|]. rewrite E1. simpl.
  destruct (write_word m1 1 0) as (m2 & E2 & L2); [lia..|]. rewrite E2. simpl.
  destruct (read_ok m2 (Z.shiftr bit 5)) as (w & Ew & _); [lia|]. rewrite Ew. simpl.
  destruct (write_word m2 (Z.shiftr bit 5) (Z.lor w (Z.shiftl 1 (Z.land bit 31)))) as (m3 & E3 & L3); [lia..|].
  rewrite E3. simpl. unfold write_at. destruct (blit (masks p) (n - 0) [m3]) as [ms|] eqn:Eb.
  - simpl. eexists. split; [reflexivity|]. split; simpl; [by rewrite (blit_len _ _ _ _ Eb)| |done].
    unfold blit in Eb. case_decide; [|done]. injection Eb as <-.
    apply Forall_app. split; [by apply Forall_take|]. constructor; [done|by apply Forall_drop].
  - exfalso. rewrite blit_ok in Eb; [done|lia|]. change (len [m3]) with 1. lia.
Qed.

Lemma open_params_ok flags c : ∃ p, open_params flags c = Ok p.
Proof.
  unfold open_params.
  assert (params_ok param_init) as H0 by (split; [done|by repeat constructor|done]).
  assert (0 ≤ pcm_format_to_alsa (format c)) by (unfold pcm_format_to_alsa; by case_match).
  destruct (param_set_mask_ok _ SNDRV_PCM_HW_PARAM_FORMAT (pcm_format_to_alsa (format c)) H0) as (p1 & -> & P1); [done|]. simpl.
  destruct (param_set_mask_ok _ SNDRV_PCM_HW_PARAM_SUBFORMAT SNDRV_PCM_SUBFORMAT_STD P1) as (p2 & -> & P2); [done|]. simpl.
  destruct (param_set_int_ok _ SNDRV_PCM_HW_PARAM_SAMPLE_BITS (pcm_format_to_bits (format c)) P2) as (p3 & -> & P3). simpl.
  destruct (param_set_int_ok _ SNDRV_PCM_HW_PARAM_FRAME_BITS (u32 (pcm_format_to_bits (format c) * channels c)) P3)
    as (p4 & -> & P4). simpl.
  destruct (param_set_int_ok _ SNDRV_PCM_HW_PARAM_CHANNELS (channels c) P4) as (p5 & -> & P5). simpl.
  destruct (param_set_int_ok _ SNDRV_PCM_HW_PARAM_RATE (rate c) P5) as (p6 & -> & P6). simpl.
  assert (∃ p7, (if has flags PCM_IN then mret p6 else
     p ← param_set_min p6 SNDRV_PCM_HW_PARAM_PERIOD_SIZE (period_size c);
     param_set_int p SNDRV_PCM_HW_PARAM_PERIODS (period_count c)) = Ok p7 ∧ params_ok p7) as (p7 & -> & P7).
  { destruct (has flags PCM_IN); [by exists p6|].
    destruct (param_set_min_ok _ SNDRV_PCM_HW_PARAM_PERIOD_SIZE (period_size c) P6) as (q & -> & Q).
    by apply param_set_int_ok. }
  simpl. set (p8 := if has flags PCM_NOIRQ then _ else _).
  assert (params_ok p8) as P8 by (unfold p8; destruct (has flags PCM_NOIRQ); [by destruct P7|done]).
  destruct (param_set_mask_ok p8 SNDRV_PCM_HW_PARAM_ACCESS (if has flags PCM_MMAP
    then SNDRV_PCM_ACCESS_MMAP_INTERLEAVED else SNDRV_PCM_ACCESS_RW_INTERLEAVED) P8) as (p9 & E & _).
  { by destruct (has flags PCM_MMAP). }
  by exists p9.
Qed.

(** A driver that accepts. *)
Lemma bind_ask {B} d r (k : pcm_answer → MP B) p :
  (∀ rs, ans_ret (d rs) = 0) → dev p = d →
  (ask r ≫= k) p = k (d (requests p ++ [r])) (set_answered (p_errno p) (requests p ++ [r]) p).
Proof. intros H <-. unfold ask, mbind, M_bind, get, put. simpl. by rewrite H. Qed.

(** The configuration with the sizes the driver chose. *)
Definition set_period (psize pcount : Z) (c : pcm_config) : pcm_config :=
  PcmConfig (channels c) (rate c) psize pcount (format c) (start_threshold c)
    (stop_threshold c) (silence_threshold c) (avail_min c).

Section opening.
Context (sys : pcm_system) (card device : Z) (c : pcm_config) (q : snd_pcm_hw_params).
Context (psize pcount : Z) (mem : list Z) (F : Z).
Context (Hdriver : ∀ rs, let a := sys_driver sys rs in ans_ret a = 0 ∧ ans_params a = q).
Context (Hpages : sys_mmap_status sys = true ∧ sys_mmap_control sys = true).
Context (Hpsize : param_get_int q SNDRV_PCM_HW_PARAM_PERIOD_SIZE = Ok psize).
Context (Hpcount : param_get_int q SNDRV_PCM_HW_PARAM_PERIODS = Ok pcount).
Context (Hsize : 0 < pcount * psize ≤ LONG_MAX / 3).
Context (Hframe : channels c * Z.shiftr (pcm_format_to_bits (format c)) 3 = F).
Context (Hbytes : 0 < F ∧ pcount * psize * F ≤ INT_MAX).
Context (Hmmap : sys_mmap sys (pcount * psize * F) = Some mem ∧ len mem = pcount * psize * F).

(** The stream when it is open. *)
Definition opened (k : pcm_config) (N : Z) (rs : list pcm_request) (p : pcm) : pcm :=
  set_underruns 0 (set_control 0 (avail_min k) (set_answered 0 rs
    (set_sizes (pcount * psize) N (set_config k (set_mmap_buffer mem p))))).

Lemma configure_ok fd N :
  grow_boundary 33 (pcount * psize) (pcount * psize) = Ok N → ∃ k rs,
  pcm_configure sys PCM_MMAP c (new_pcm sys PCM_MMAP fd c) =
    Ok (set_period psize pcount c, opened k N rs (new_pcm sys PCM_MMAP fd c)) ∧
  channels k = channels c ∧ format k = format c.
Proof using All.
  intros EN. set (p0 := new_pcm sys PCM_MMAP fd c). set (size := pcount * psize) in *.
  assert (LONG_MAX / 3 = 715827882) as E3 by done. rewrite E3 in Hsize.
  assert (∀ rs, ans_ret (sys_driver sys rs) = 0) as Hret by (intros rs; apply Hdriver).
  assert (∀ rs, ans_params (sys_driver sys rs) = q) as Hpar by (intros rs; apply Hdriver).
  destruct (open_params_ok PCM_MMAP c) as [params Eparams], Hpages as [Hst Hct], Hmmap as [Hmm Hmem].
  set (r1 := [Req_info; Req_hw_params params]). set (c' := set_period psize pcount c).
  assert (u32 size = size) as Eu by (apply u32_small; lia).
  assert (pcm_frames_to_bytes p0 size = size * F) as Eb.
  { unfold pcm_frames_to_bytes. simpl. rewrite <-Z.mul_assoc, Hframe. apply u32_small. unfold INT_MAX in *. lia. }
  destruct (open_thresholds PCM_MMAP (set_sizes size 0 (set_answered 0 r1 p0)) c' size) as [k sparams] eqn:Eth.
  exists k, (r1 ++ [Req_sw_params sparams]).
  split; [|unfold open_thresholds in Eth; by injection Eth as <- _].
  unfold pcm_configure. rewrite (bind_ask _ _ _ _ Hret), Hret by done.
  change (negb (0 =? 0)) with false. cbv iota. rewrite (bind_lift _ _ _ _ Eparams).
  change (has PCM_MMAP PCM_NOIRQ) with false. change (has PCM_MMAP PCM_MMAP) with true.
  rewrite andb_false_l. cbv iota. rewrite bind_when, (bind_ask _ _ _ _ Hret), Hret, Hpar by done.
  change (negb (0 =? 0)) with false. cbv iota.
  rewrite (bind_lift _ _ _ _ Hpsize), (bind_lift _ _ _ _ Hpcount). fold size. rewrite Eu.
  fold (set_period psize pcount c). fold c'. rewrite bind_modify, bind_get.
  change (pcm_frames_to_bytes (set_sizes _ _ _) size) with (pcm_frames_to_bytes p0 size). rewrite Eb, Hmm.
  change (true && negb (bool_decide (is_Some (Some mem)))) with false. cbv iota.
  rewrite bind_when, bind_modify. simpl default.
  match goal with |- context [set_sizes size 0 ?s] => change s with (set_answered 0 r1 p0) end.
  rewrite Eth, bind_modify, (bind_lift _ _ _ _ EN), bind_modify, (bind_ask _ _ _ _ Hret), Hret by done.
  change (negb (0 =? 0)) with false. cbv iota. unfold pcm_hw_mmap_status, control_avail_min.
  unfold mbind, M_bind, get, modify, mret, M_ret. cbn -[set_underruns set_control].
  by rewrite Hst, Hct.
Qed.

(** C31: a stream for playback through the ring that the driver accepts is
    opened with an empty ring of the size the driver chose, and the
    configuration of the caller has the sizes. *)
Theorem pcm_open_makes_ring :
  sys_calloc sys = true → 0 ≤ sys_open sys (pcm_path card device PCM_MMAP) → ∃ p,
  pcm_open sys card device PCM_MMAP (Some c) = Ok (Some p, Some (set_period psize pcount c)) ∧
  ring_ok p F 0 ∧ fill p = 0 ∧ buffer_size p = pcount * psize ∧ pcm_is_ready p = true.
Proof using All.
  intros Hc Ho. destruct (boundary_ok _ Hsize) as (N & EN & H1 & H2 & H3 & _).
  unfold pcm_open. rewrite Hc. simpl. set (fd := sys_open _ _) in *. destruct (Z.ltb_spec fd 0); [lia|].
  destruct (configure_ok fd N EN) as (k & rs & -> & Ek1 & Ek2).
  exists (opened k N rs (new_pcm sys PCM_MMAP fd c)). split; [done|].
  split; [|split_and!; [by unfold fill; simpl; rewrite Z.mod_0_l by lia|done|]].
  - split; simpl; rewrite ?Ek1, ?Ek2; try done; try lia; apply Hmmap.
  - unfold pcm_is_ready. simpl. by apply Z.leb_le.
Qed.
End opening.

(** ** Examples *)

Definition demo_config : pcm_config := PcmConfig 1 8000 2 2 PCM_FORMAT_S16_LE 0 0 0 0.
(** The driver gives two periods of two frames, and does not move. *)
Definition demo_params : snd_pcm_hw_params :=
  HwParams 0 [] (replicate 12 (SndInterval 2 2 true)).
Definition demo_driver (h : Z) (_ : list pcm_request) : pcm_answer :=
  PcmAnswer 0 0 demo_params [] h PCM_STATE_RUNNING (0, 0) 0.
Definition demo_system : pcm_system :=
  PcmSystem true (λ _, 5) (λ n, Some (replicate (Z.to_nat n) 0)) true true true (demo_driver 0).
(** Three frames before the end of the ring's pointers: the ring is empty. *)
Definition demo_bound : Z := 1073741824.
Definition demo_ring : pcm :=
  Pcm 5 PCM_MMAP true 0 4 demo_bound demo_config (demo_bound - 1) 3 (0, 0) (demo_bound - 1) 2 false
    [10; 11; 12; 13; 14; 15; 16; 17] 0 false 0 (demo_driver (demo_bound - 1)) [Req_look 0].

Lemma demo_ring_ok : ring_ok demo_ring 2 (demo_bound - 1).
Proof. split; simpl; unfold LONG_MAX, INT_MAX, demo_bound; try done; try lia. by exists 268435456. Qed.
Lemma demo_synced : synced demo_ring.
Proof. split; [done|]. by exists [], (Req_look 0), 0, []. Qed.
Lemma demo_plays : driver_plays (boundary demo_ring) (dev demo_ring).
Proof. by intros rs r1 a1 rs2 r2 a2 _ _ _. Qed.

Lemma boundary_found_witness :
  ∃ N, grow_boundary 33 12 12 = Ok N ∧ (12 | N) ∧ 2 * 12 ≤ N ∧ N + 12 ≤ LONG_MAX ∧ LONG_MAX < 2 * N + 12.
Proof. apply (boundary_found 12). by vm_compute. Defined.

Lemma playback_avail_counts_witness : pcm_mmap_playback_avail demo_ring = 4 - fill demo_ring.
Proof. apply (playback_avail_counts demo_ring 2 (demo_bound - 1) demo_ring_ok); by vm_compute. Defined.

Lemma mmap_write_fills_ring_witness : ∃ p',
  pcm_mmap_write_areas 2 [1; 2; 3; 4] 0 2 0 demo_ring = Ok (2, p') ∧
  ring_ok p' 2 (demo_bound - 1 + 2) ∧ synced p' ∧ fill p' ≤ fill demo_ring + 2 ∧
  ring_written demo_ring 2 ((demo_bound - 1) * 2) (2 * 2) [1; 2; 3; 4] 0 (mmap_buffer demo_ring) (mmap_buffer p').
Proof.
  apply (mmap_write_fills_ring demo_ring 2 (demo_bound - 1) [1; 2; 3; 4] 2 demo_ring_ok demo_synced demo_plays);
    by vm_compute.
Defined.

Lemma pcm_write_exactly_once_witness :
  let p := Pcm 5 PCM_OUT true 0 4 demo_bound demo_config 0 3 (0, 0) 0 2 false [] 0 false 0 (demo_driver 0) [] in
  ∃ ret p' rs, pcm_write [1; 2; 3; 4; 5] 5 p = Ok (ret, p') ∧ (ret = 0 ∨ ret = -1) ∧
  requests p' = requests p ++ rs ∧ (length rs ≤ 3)%nat ∧
  writes_done (dev p) (requests p) rs = (if ret =? 0 then [[1; 2; 3; 4]] else []) ∧
  p_running p' = (ret =? 0).
Proof. intros p. by apply (pcm_write_exactly_once p [1; 2; 3; 4; 5] 5 2). Defined.

Lemma pcm_open_makes_ring_witness : ∃ p,
  pcm_open demo_system 1 0 PCM_MMAP (Some demo_config) =
    Ok (Some p, Some (PcmConfig 1 8000 2 2 PCM_FORMAT_S16_LE 0 0 0 0)) ∧
  ring_ok p 2 0 ∧ fill p = 0 ∧ buffer_size p = 4 ∧ pcm_is_ready p = true.
Proof.
  apply (pcm_open_makes_ring demo_system 1 0 demo_config demo_params 2 2 (replicate 8 0) 2); try done; by vm_compute.
Defined.
