(* ===== verification/Mixer.v ===== *)
(** * Mixer controls: src/upil_audio/mixer.c

    The controls of a sound card, found and set by ioctl.  The card is a
    function [mdev] from the requests it got so far, the present one
    included, to its answer; the heap is the answers of the coming
    allocations and the number of blocks that are allocated; the descriptors
    that are closed are logged.  The union of a control's description is its
    two first words, as all its members see them. *)

From stdpp Require Import strings.
From S2P Require Import Prelude CString Pcm.

(** <sound/asound.h> *)
Definition SNDRV_CTL_ELEM_TYPE_BOOLEAN : Z := 1.
Definition SNDRV_CTL_ELEM_TYPE_INTEGER : Z := 2.
Definition SNDRV_CTL_ELEM_TYPE_ENUMERATED : Z := 3.
Definition SNDRV_CTL_ELEM_TYPE_BYTES : Z := 4.
Definition SNDRV_CTL_ELEM_TYPE_IEC958 : Z := 5.
Definition SNDRV_CTL_ELEM_TYPE_INTEGER64 : Z := 6.

Record snd_ctl_elem_info := ElemInfo {
  numid : Z;
  id_name : list Z;        (* 44 characters *)
  type : Z;
  count : Z;
  word0 : Z;
  word1 : Z;
  item_name : list Z;      (* value.enumerated.name *)
}.

(** The members of the union. *)
Definition integer_min (ei : snd_ctl_elem_info) : Z := s32 (word0 ei).
Definition integer_max (ei : snd_ctl_elem_info) : Z := s32 (word1 ei).
Definition enumerated_items (ei : snd_ctl_elem_info) : Z := u32 (word0 ei).

Inductive mixer_ctl_type : Type :=
  | MIXER_CTL_TYPE_BOOL
  | MIXER_CTL_TYPE_INT
  | MIXER_CTL_TYPE_ENUM
  | MIXER_CTL_TYPE_BYTE
  | MIXER_CTL_TYPE_IEC958
  | MIXER_CTL_TYPE_INT64
  | MIXER_CTL_TYPE_UNKNOWN
  | MIXER_CTL_TYPE_MAX.

(** The values of an element are the array of the union that its type
    selects. *)
Inductive mixer_request : Type :=
  | Mix_list (space : Z)
  | Mix_info (numid item : Z)
  | Mix_read (numid : Z)
  | Mix_write (numid : Z) (values : list Z).

Record mixer_answer := MixAnswer {
  mix_ret : Z;
  mix_count : Z;
  mix_ids : list Z;
  mix_info : snd_ctl_elem_info;
  mix_values : list Z;
}.

Record card := Card {
  mdev : list mixer_request → mixer_answer;
  mixed : list mixer_request;
  allocs : list bool;      (* at the end of the list they succeed *)
  allocated : Z;
  closed : list Z;
}.

Abbreviation MC := (M card).

Definition ioctl (r : mixer_request) : MC mixer_answer :=
  c ← get;
  let rs := mixed c ++ [r] in
  put (Card (mdev c) rs (allocs c) (allocated c) (closed c));;
  mret (mdev c rs).

Definition alloc : MC bool :=
  c ← get;
  let ok := default true (head (allocs c)) in
  put (Card (mdev c) (mixed c) (tail (allocs c)) (allocated c + if ok then 1 else 0) (closed c));;
  mret ok.

Definition free (n : Z) : MC unit :=
  modify (λ c, Card (mdev c) (mixed c) (allocs c) (allocated c - n) (closed c)).

Definition close (fd : Z) : MC unit :=
  modify (λ c, Card (mdev c) (mixed c) (allocs c) (allocated c) (closed c ++ [fd])).

(** A pointer to a control leads to the descriptor of its mixer. *)
Record mixer_ctl := MixerCtl {
  ctl_fd : Z;
  ctl_info : option snd_ctl_elem_info;
  ename : option (list (option (list Z)));
}.

(** [infos] and [ctls] are NULL when they could not be allocated. *)
Record mixer := Mixer {
  mixer_fd : Z;
  infos : option (list snd_ctl_elem_info);
  ctls : option (list mixer_ctl);
  mixer_count : Z;
}.

(** ** Closing *)

Definition is_some {A} (o : option A) : bool := match o with Some _ => true | None => false end.

(** The names that are not NULL are blocks of their own. *)
Definition names_blocks (es : list (option (list Z))) : Z := len (filter (λ o, is_some o = true) es).

Definition free_ctl (c : mixer_ctl) : MC unit :=
  match ename c with
  | None => skip
  | Some es =>
      ei ← lift (deref (ctl_info c));
      names ← lift (slice es 0 (enumerated_items ei));
      free (names_blocks names);;
      free 1
  end.

Fixpoint free_ctls (cs : list mixer_ctl) : MC unit :=
  match cs with
  | [] => skip
  | c :: cs' => free_ctl c;; free_ctls cs'
  end.

Definition mixer_close (m : option mixer) : MC unit :=
  match m with
  | None => skip
  | Some m =>
      when (0 <=? mixer_fd m) (close (mixer_fd m));;
      match ctls m with
      | None => skip
      | Some cs => cs ← lift (slice cs 0 (mixer_count m)); free_ctls cs;; free 1
      end;;
      when (is_some (infos m)) (free 1);;
      free 1
  end.

(** ** Opening *)

(** What calloc leaves. *)
Definition blank_info (n : Z) : snd_ctl_elem_info := ElemInfo n (replicate 44 0) 0 0 0 0 (replicate 64 0).
Definition blank_ctl (fd : Z) : mixer_ctl := MixerCtl fd None None.

(** The names from the [m]-th on: whether all were read, and the names, NULL
    after the first that was not. *)
Fixpoint read_names (left : nat) (numid m : Z) : MC (bool * list (option (list Z))) :=
  match left with
  | O => mret (true, [])
  | S l =>
      a ← ioctl (Mix_info numid m);
      if mix_ret a <? 0 then mret (false, replicate left None) else
      name ← lift (cstr (item_name (mix_info a)));
      ok ← alloc;
      if negb ok then mret (false, replicate left None) else
      r ← read_names l numid (m + 1);
      mret (r.1, Some name :: r.2)
  end.

Definition open_elem (fd numid : Z) : MC (bool * (snd_ctl_elem_info * mixer_ctl)) :=
  a ← ioctl (Mix_info numid 0);
  if mix_ret a <? 0 then mret (false, (blank_info numid, blank_ctl fd)) else
  let ei := mix_info a in
  if type ei =? SNDRV_CTL_ELEM_TYPE_ENUMERATED then
    ok ← alloc;
    if negb ok then mret (false, (ei, MixerCtl fd (Some ei) None)) else
    r ← read_names (Z.to_nat (enumerated_items ei)) (Mixer.numid ei) 0;
    mret (r.1, (ei, MixerCtl fd (Some ei) (Some r.2)))
  else mret (true, (ei, MixerCtl fd (Some ei) None)).

(** The elements after the first that failed are left as calloc made them. *)
Fixpoint open_elems (fd : Z) (ids : list Z) : MC (bool * list (snd_ctl_elem_info * mixer_ctl)) :=
  match ids with
  | [] => mret (true, [])
  | n :: ids' =>
      r ← open_elem fd n;
      if negb r.1 then mret (false, r.2 :: ((λ _, (blank_info 0, blank_ctl fd)) <$> ids')) else
      rs ← open_elems fd ids';
      mret (rs.1, r.2 :: rs.2)
  end.

Definition mixer_path (card : Z) : list Z := lit "/dev/snd/controlC" ++ dec card.

Definition mixer_failed (m : mixer) : MC (option mixer) := mixer_close (Some m);; mret None.

(** From the second ioctl on, with the list of identifiers allocated. *)
Definition open_listed (fd n : Z) (m : mixer) : MC (option mixer) :=
  a ← ioctl (Mix_list n);
  if mix_ret a <? 0 then free 1;; mixer_failed m else
  eid ← lift (blit (replicate (Z.to_nat n) 0) 0 (mix_ids a));
  r ← open_elems fd eid;
  let m := Mixer fd (Some (fst <$> r.2)) (Some (snd <$> r.2)) n in
  free 1;;
  if negb r.1 then mixer_failed m else mret (Some m).

(** [open_fd] is the answer of open for a path. *)
Definition mixer_open (open_fd : list Z → Z) (card : Z) : MC (option mixer) :=
  let fd := open_fd (mixer_path card) in
  if fd <? 0 then mret None else
  a ← ioctl (Mix_list 0);
  if mix_ret a <? 0 then close fd;; mret None else
  let n := mix_count a in
  ok ← alloc;
  if negb ok then close fd;; mret None else
  ok1 ← alloc;
  ok2 ← alloc;
  let cs := if (ok1 : bool) then Some (replicate (Z.to_nat n) (blank_ctl fd)) else None in
  let es := if (ok2 : bool) then Some (replicate (Z.to_nat n) (blank_info 0)) else None in
  if negb ok1 || negb ok2 then mixer_failed (Mixer 0 es cs 0) else
  ok3 ← alloc;
  if negb ok3 then mixer_failed (Mixer 0 es cs 0) else
  open_listed fd n (Mixer fd es cs n).

(** ** Finding a control *)

Definition mixer_get_num_ctls (m : option mixer) : Z :=
  match m with None => 0 | Some m => mixer_count m end.

Definition mixer_get_ctl (m : option mixer) (id : Z) : res (option mixer_ctl) :=
  match m with
  | None => Ok None
  | Some m =>
      if id <? mixer_count m
      then cs ← deref (ctls m); c ← read_at cs id; mret (Some c)
      else Ok None
  end.

(** The first control of that name. *)
Fixpoint find_name (name : list Z) (l : list snd_ctl_elem_info) (n : Z) : res (option Z) :=
  match l with
  | [] => Ok None
  | ei :: l' =>
      s ← cstr (id_name ei);
      if strcmp_eq name s then mret (Some n) else find_name name l' (n + 1)
  end.

Definition mixer_get_ctl_by_name (m : option mixer) (name : list Z) : res (option mixer_ctl) :=
  match m with
  | None => Ok None
  | Some x =>
      l ← deref (infos x);
      l ← slice l 0 (mixer_count x);
      n ← find_name name l 0;
      match n with Some n => mixer_get_ctl m n | None => mret None end
  end.

(** ** What a control is *)

(** [strncpy]: the string and NULs up to [n] characters; no NUL is put after
    a string that is as long. *)
Definition strncpy (dst src : list Z) (n : Z) : res (list Z) :=
  blit dst 0 (take (Z.to_nat n) (src ++ replicate (Z.to_nat n) 0)).

(** The result and what [name] points to. *)
Definition mixer_ctl_get_name (ctl : option mixer_ctl) (name : option (list Z)) (size : Z)
  : res (Z * option (list Z)) :=
  match ctl, name with
  | Some c, Some buf =>
      if size =? 0 then Ok (- EINVAL, name) else
      ei ← deref (ctl_info c);
      s ← cstr (id_name ei);
      b ← strncpy buf s size;
      mret (0, Some b)
  | _, _ => Ok (- EINVAL, name)
  end.

Definition type_of (t : Z) : mixer_ctl_type :=
  if t =? SNDRV_CTL_ELEM_TYPE_BOOLEAN then MIXER_CTL_TYPE_BOOL
  else if t =? SNDRV_CTL_ELEM_TYPE_INTEGER then MIXER_CTL_TYPE_INT
  else if t =? SNDRV_CTL_ELEM_TYPE_ENUMERATED then MIXER_CTL_TYPE_ENUM
  else if t =? SNDRV_CTL_ELEM_TYPE_BYTES then MIXER_CTL_TYPE_BYTE
  else if t =? SNDRV_CTL_ELEM_TYPE_IEC958 then MIXER_CTL_TYPE_IEC958
  else if t =? SNDRV_CTL_ELEM_TYPE_INTEGER64 then MIXER_CTL_TYPE_INT64
  else MIXER_CTL_TYPE_UNKNOWN.

Definition mixer_ctl_get_type (ctl : option mixer_ctl) : res mixer_ctl_type :=
  match ctl with
  | None => Ok MIXER_CTL_TYPE_UNKNOWN
  | Some c => ei ← deref (ctl_info c); mret (type_of (type ei))
  end.

Definition type_string (t : Z) : list Z :=
  if t =? SNDRV_CTL_ELEM_TYPE_BOOLEAN then lit "BOOL"
  else if t =? SNDRV_CTL_ELEM_TYPE_INTEGER then lit "INT"
  else if t =? SNDRV_CTL_ELEM_TYPE_ENUMERATED then lit "ENUM"
  else if t =? SNDRV_CTL_ELEM_TYPE_BYTES then lit "BYTE"
  else if t =? SNDRV_CTL_ELEM_TYPE_IEC958 then lit "IEC958"
  else if t =? SNDRV_CTL_ELEM_TYPE_INTEGER64 then lit "INT64"
  else lit "Unknown".

Definition mixer_ctl_get_type_string (ctl : option mixer_ctl) : res (list Z) :=
  match ctl with
  | None => Ok []
  | Some c => ei ← deref (ctl_info c); mret (type_string (type ei))
  end.

Definition mixer_ctl_get_num_values (ctl : option mixer_ctl) : res Z :=
  match ctl with None => Ok 0 | Some c => ei ← deref (ctl_info c); mret (count ei) end.

Definition mixer_ctl_get_num_enums (ctl : option mixer_ctl) : res Z :=
  match ctl with None => Ok 0 | Some c => ei ← deref (ctl_info c); mret (enumerated_items ei) end.

(** ** Values *)

Definition percent_to_int (ei : snd_ctl_elem_info) (percent : Z) : Z :=
  let percent := if 100 <? percent then 100 else if percent <? 0 then 0 else percent in
  let range := s32 (integer_max ei - integer_min ei) in
  s32 (integer_min ei + Z.quot (s32 (range * percent)) 100).

Definition int_to_percent (ei : snd_ctl_elem_info) (value : Z) : Z :=
  let range := s32 (integer_max ei - integer_min ei) in
  if range =? 0 then 0 else s32 (Z.quot (s32 (value - integer_min ei)) range * 100).

(** [!!x] *)
Definition truth (x : Z) : Z := if x =? 0 then 0 else 1.

Definition mixer_ctl_get_value (ctl : option mixer_ctl) (id : Z) : MC Z :=
  match ctl with
  | None => mret (- EINVAL)
  | Some c =>
      ei ← lift (deref (ctl_info c));
      if count ei <=? id then mret (- EINVAL) else
      a ← ioctl (Mix_read (numid ei));
      if mix_ret a <? 0 then mret (mix_ret a) else
      if type ei =? SNDRV_CTL_ELEM_TYPE_BOOLEAN
      then v ← lift (read_at (mix_values a) id); mret (truth v)
      else if (type ei =? SNDRV_CTL_ELEM_TYPE_INTEGER) || (type ei =? SNDRV_CTL_ELEM_TYPE_ENUMERATED)
      then v ← lift (read_at (mix_values a) id); mret (s32 v)
      else if type ei =? SNDRV_CTL_ELEM_TYPE_BYTES
      then v ← lift (read_at (mix_values a) id); mret (u8 v)
      else mret (- EINVAL)
  end.

Definition mixer_ctl_set_value (ctl : option mixer_ctl) (id value : Z) : MC Z :=
  match ctl with
  | None => mret (- EINVAL)
  | Some c =>
      ei ← lift (deref (ctl_info c));
      if count ei <=? id then mret (- EINVAL) else
      a ← ioctl (Mix_read (numid ei));
      if mix_ret a <? 0 then mret (mix_ret a) else
      let write v :=
        vs ← lift (write_at (mix_values a) id v);
        a ← ioctl (Mix_write (numid ei) vs); mret (mix_ret a) in
      if type ei =? SNDRV_CTL_ELEM_TYPE_BOOLEAN then write (truth value)
      else if type ei =? SNDRV_CTL_ELEM_TYPE_INTEGER then write value
      else if type ei =? SNDRV_CTL_ELEM_TYPE_ENUMERATED then write (u32 value)
      else mret (- EINVAL)
  end.

(** The guard of the operations on one type. *)
Definition typed (ctl : option mixer_ctl) (t : Z) : res (option (mixer_ctl * snd_ctl_elem_info)) :=
  match ctl with
  | None => Ok None
  | Some c => ei ← deref (ctl_info c); mret (if type ei =? t then Some (c, ei) else None)
  end.

Definition mixer_ctl_get_percent (ctl : option mixer_ctl) (id : Z) : MC Z :=
  t ← lift (typed ctl SNDRV_CTL_ELEM_TYPE_INTEGER);
  match t with
  | None => mret (- EINVAL)
  | Some (_, ei) => v ← mixer_ctl_get_value ctl id; mret (int_to_percent ei v)
  end.

Definition mixer_ctl_set_percent (ctl : option mixer_ctl) (id percent : Z) : MC Z :=
  t ← lift (typed ctl SNDRV_CTL_ELEM_TYPE_INTEGER);
  match t with
  | None => mret (- EINVAL)
  | Some (_, ei) => mixer_ctl_set_value ctl id (percent_to_int ei percent)
  end.

(** The element is read before, and what is read is not used. *)
Definition mixer_ctl_get_range_min (ctl : option mixer_ctl) : MC Z :=
  t ← lift (typed ctl SNDRV_CTL_ELEM_TYPE_INTEGER);
  match t with
  | None => mret (- EINVAL)
  | Some (_, ei) =>
      a ← ioctl (Mix_read (numid ei));
      if mix_ret a <? 0 then mret (mix_ret a) else mret (integer_min ei)
  end.

Definition mixer_ctl_get_range_max (ctl : option mixer_ctl) : MC Z :=
  t ← lift (typed ctl SNDRV_CTL_ELEM_TYPE_INTEGER);
  match t with
  | None => mret (- EINVAL)
  | Some (_, ei) =>
      a ← ioctl (Mix_read (numid ei));
      if mix_ret a <? 0 then mret (mix_ret a) else mret (integer_max ei)
  end.

(** ** Names of items *)

(** A name, of which the pointer may be NULL. *)
Definition nth_name (c : mixer_ctl) (i : Z) : res (list Z) :=
  es ← deref (ename c); o ← read_at es i; deref o.

Definition mixer_ctl_get_enum_string (ctl : option mixer_ctl) (enum_id : Z) (string : list Z) (size : Z)
  : MC (Z * list Z) :=
  t ← lift (typed ctl SNDRV_CTL_ELEM_TYPE_ENUMERATED);
  match t with
  | None => mret (- EINVAL, string)
  | Some (c, ei) =>
      if enumerated_items ei <=? enum_id then mret (- EINVAL, string) else
      a ← ioctl (Mix_read (numid ei));
      if mix_ret a <? 0 then mret (mix_ret a, string) else
      s ← lift (nth_name c enum_id);
      b ← lift (strncpy string s size);
      mret (0, b)
  end.

(** The first item of that name from [i] on. *)
Fixpoint find_enum (left : nat) (c : mixer_ctl) (string : list Z) (i : Z) : res (option Z) :=
  match left with
  | O => Ok None
  | S l => s ← nth_name c i; if strcmp_eq string s then mret (Some i) else find_enum l c string (i + 1)
  end.

(** The values of an element that is all zero but for the first. *)
Definition first_value (v : Z) : list Z := v :: replicate 127 0.

Definition mixer_ctl_set_enum_by_string (ctl : option mixer_ctl) (string : list Z) : MC Z :=
  t ← lift (typed ctl SNDRV_CTL_ELEM_TYPE_ENUMERATED);
  match t with
  | None => mret (- EINVAL)
  | Some (c, ei) =>
      i ← lift (find_enum (Z.to_nat (enumerated_items ei)) c string 0);
      match i with
      | None => mret (- EINVAL)
      | Some i =>
          a ← ioctl (Mix_write (numid ei) (first_value i));
          if mix_ret a <? 0 then mret (mix_ret a) else mret 0
      end
  end.
