(* ===== verification/MixerProofs.v ===== *)
(** * Properties of the mixer controls

    The blocks of memory and the descriptor of a mixer over its life, and
    the values of controls, on a card that keeps what is written to it. *)

From stdpp Require Import strings.
From S2P Require Import Prelude CString Pcm Mixer.

(** ** The life of a mixer *)

(** A card that answers within what it is given. *)
Record card_sane (d : list mixer_request → mixer_answer) : Prop := {
  sane_list : ∀ rs n, let a := d (rs ++ [Mix_list n]) in 0 ≤ mix_count a ∧ (0 ≤ n → len (mix_ids a) ≤ n);
  sane_name : ∀ rs n m, ∃ s, cstr (item_name (mix_info (d (rs ++ [Mix_info n m])))) = Ok s;
}.

(** A control has its items when it has names. *)
Definition ctl_ok (c : mixer_ctl) : Prop :=
  match ename c with
  | None => True
  | Some es => ∃ ei, ctl_info c = Some ei ∧ len es = enumerated_items ei
  end.

Definition ctl_blocks (c : mixer_ctl) : Z :=
  match ename c with None => 0 | Some es => 1 + names_blocks es end.

Fixpoint blocks (cs : list mixer_ctl) : Z :=
  match cs with [] => 0 | c :: cs' => ctl_blocks c + blocks cs' end.

(** From [c] to [c'], [n] blocks were allocated and [fds] were closed. *)
Record heap_step (n : Z) (fds : list Z) (c c' : card) : Prop := {
  step_dev : mdev c' = mdev c;
  step_allocated : allocated c' = allocated c + n;
  step_closed : closed c' = closed c ++ fds;
}.

Lemma heap_step_trans n1 n2 fds c c1 c2 :
  heap_step n1 [] c c1 → heap_step n2 fds c1 c2 → heap_step (n1 + n2) fds c c2.
Proof.
  intros [D1 A1 C1] [D2 A2 C2]. rewrite app_nil_r in C1.
  split; [congruence|lia|by rewrite C2, C1].
Qed.

Lemma ioctl_step r c : ∃ c', ioctl r c = Ok (mdev c (mixed c ++ [r]), c') ∧ heap_step 0 [] c c' ∧ allocs c' = allocs c.
Proof.
  unfold ioctl. rewrite bind_get. eexists. split; [reflexivity|].
  split; [|done]. split; simpl; [done|lia|by rewrite app_nil_r].
Qed.

Lemma ioctl_ok r c : ∃ c', ioctl r c = Ok (mdev c (mixed c ++ [r]), c') ∧ heap_step 0 [] c c'.
Proof. destruct (ioctl_step r c) as (c' & E & H & _). by exists c'. Qed.

(** Whether the allocation succeeds before which [i] others are made. *)
Definition alloc_at (c : card) (i : nat) : bool := default true (allocs c !! i).

Lemma alloc_step c : ∃ c', alloc c = Ok (alloc_at c 0, c') ∧ heap_step (if alloc_at c 0 then 1 else 0) [] c c' ∧
  ∀ i, alloc_at c' i = alloc_at c (S i).
Proof.
  unfold alloc, alloc_at. rewrite bind_get. assert (head (allocs c) = allocs c !! 0%nat) as -> by (by destruct (allocs c)).
  eexists. split; [reflexivity|].
  split; [|by destruct (allocs c)]. split; simpl; [done|done|by rewrite app_nil_r].
Qed.

Lemma alloc_ok c : ∃ (b : bool) c', alloc c = Ok (b, c') ∧ heap_step (if b then 1 else 0) [] c c'.
Proof. destruct (alloc_step c) as (c' & E & H & _). by eexists _, c'. Qed.

Lemma free_step n c : ∃ c', free n c = Ok (tt, c') ∧ heap_step (- n) [] c c'.
Proof. eexists. split; [reflexivity|]. split; simpl; [done|lia|by rewrite app_nil_r]. Qed.

Lemma slice_all {A} (l : list A) : slice l 0 (len l) = Ok l.
Proof.
  rewrite slice_ok; pose proof (len_nonneg l); [|lia..].
  unfold len. rewrite Nat2Z.id. simpl. by rewrite drop_0, take_ge.
Qed.

Lemma free_ctl_ok x c : ctl_ok x → ∃ c', free_ctl x c = Ok (tt, c') ∧ heap_step (- ctl_blocks x) [] c c'.
Proof.
  unfold ctl_ok, ctl_blocks, free_ctl. destruct (ename x) as [es|].
  - intros (ei & -> & E). rewrite (bind_lift _ _ _ ei) by done. rewrite <-E.
    rewrite (bind_lift _ _ _ _ (slice_all es)). eexists. split; [reflexivity|].
    split; simpl; [done|lia|by rewrite app_nil_r].
  - intros _. exists c. split; [done|]. split; simpl; [done|lia|by rewrite app_nil_r].
Qed.

Lemma free_ctls_ok cs c :
  Forall ctl_ok cs → ∃ c', free_ctls cs c = Ok (tt, c') ∧ heap_step (- blocks cs) [] c c'.
Proof.
  intros H. revert c. induction H as [|x cs Hx _ IH]; intros c.
  { exists c. split; [done|]. split; simpl; [done|lia|by rewrite app_nil_r]. }
  destruct (free_ctl_ok x c Hx) as (c1 & E1 & H1). destruct (IH c1) as (c2 & E2 & H2).
  exists c2. cbn [free_ctls]. rewrite (bind_ok _ _ _ _ _ E1). split; [done|]. simpl blocks.
  replace (- (ctl_blocks x + blocks cs)) with (- ctl_blocks x + - blocks cs) by lia.
  by apply (heap_step_trans _ _ _ _ c1).
Qed.

(** The blocks of a mixer beside its controls' names. *)
Definition opt_block {A} (o : option A) : Z := if is_some o then 1 else 0.

Definition mixer_ok (m : mixer) : Prop :=
  match ctls m with None => mixer_count m = 0 | Some cs => Forall ctl_ok cs ∧ 0 ≤ mixer_count m ≤ len cs end.

Definition mixer_blocks (m : mixer) : Z :=
  1 + opt_block (ctls m) + opt_block (infos m) +
  match ctls m with None => 0 | Some cs => blocks (take (Z.to_nat (mixer_count m)) cs) end.

Lemma mixer_close_ok m c :
  mixer_ok m → ∃ c', mixer_close (Some m) c = Ok (tt, c') ∧
  heap_step (- mixer_blocks m) (if 0 <=? mixer_fd m then [mixer_fd m] else []) c c'.
Proof.
  intros Hm. unfold mixer_close.
  set (c0 := if 0 <=? mixer_fd m then Card (mdev c) (mixed c) (allocs c) (allocated c) (closed c ++ [mixer_fd m]) else c).
  assert (when (0 <=? mixer_fd m) (close (mixer_fd m)) c = Ok (tt, c0)) as E0 by (by unfold c0; destruct (0 <=? _)).
  rewrite (bind_ok _ _ _ _ _ E0).
  assert (mdev c0 = mdev c ∧ allocated c0 = allocated c ∧
    closed c0 = closed c ++ (if 0 <=? mixer_fd m then [mixer_fd m] else [])) as (D0 & A0 & C0).
  { unfold c0. destruct (0 <=? mixer_fd m); by rewrite ?app_nil_r. }
  unfold mixer_ok, mixer_blocks in *. destruct (ctls m) as [cs|]; simpl opt_block.
  - destruct Hm as [Hcs Hn]. set (cs' := take _ cs).
    assert (slice cs 0 (mixer_count m) = Ok cs') as Es by (apply slice_ok; lia).
    destruct (free_ctls_ok cs' c0) as (c1 & E1 & [D1 A1 C1]); [by apply Forall_take|].
    erewrite bind_ok.
    2:{ rewrite (bind_lift _ _ _ _ Es), (bind_ok _ _ _ _ _ E1). reflexivity. }
    rewrite app_nil_r in C1. rewrite bind_when. destruct (infos m); simpl;
      (eexists; split; [reflexivity|]); split; simpl; unfold opt_block; simpl; try lia; congruence.
  - rewrite bind_ok with (a := tt) (s' := c0), bind_when by done.
    destruct (infos m); simpl; (eexists; split; [reflexivity|]); split; simpl; unfold opt_block; simpl; try lia; congruence.
Qed.

(** ** Opening *)

Lemma names_blocks_cons o es : names_blocks (o :: es) = opt_block o + names_blocks es.
Proof.
  unfold names_blocks, opt_block. rewrite filter_cons. destruct o; simpl; [|done].
  by rewrite len_cons.
Qed.

Lemma names_blocks_none n : names_blocks (replicate n None) = 0.
Proof. induction n; [done|]. simpl replicate. by rewrite names_blocks_cons, IHn. Qed.

Lemma read_names_ok left numid m c :
  card_sane (mdev c) → ∃ b es c', read_names left numid m c = Ok ((b, es), c') ∧
  len es = Z.of_nat left ∧ heap_step (names_blocks es) [] c c'.
Proof.
  revert m c. induction left as [|l IH]; intros m c Hd.
  { eexists true, [], c. split; [done|]. split; [done|]. split; [done|unfold names_blocks; simpl; unfold len; simpl; lia|by rewrite app_nil_r]. }
  cbn [read_names]. destruct (ioctl_ok (Mix_info numid m) c) as (c1 & E1 & H1). rewrite (bind_ok _ _ _ _ _ E1).
  assert (∀ n c2, heap_step 0 [] c c2 → ∃ b es c', mret (M := M card) (false, replicate n (@None (list Z))) c2 = Ok ((b, es), c') ∧
    len es = Z.of_nat n ∧ heap_step (names_blocks es) [] c c') as Hstop.
  { intros n c2 H2. eexists false, _, c2. split; [done|]. by rewrite len_replicate, names_blocks_none. }
  destruct (mix_ret _ <? 0); [by apply (Hstop (S l))|].
  destruct (sane_name _ Hd (mixed c) numid m) as [s Es]. rewrite (bind_lift _ _ _ _ Es).
  destruct (alloc_ok c1) as (b & c2 & E2 & H2). rewrite (bind_ok _ _ _ _ _ E2).
  pose proof (heap_step_trans _ _ _ _ _ _ H1 H2) as H12.
  destruct b; cbn [negb]; [|by apply (Hstop (S l))].
  destruct (IH (m + 1) c2) as (b & es & c3 & E3 & Hl & H3); [by rewrite (step_dev _ _ _ _ H12)|].
  rewrite (bind_ok _ _ _ _ _ E3). eexists b, (Some s :: es), c3. split; [done|].
  split; [rewrite len_cons; lia|]. rewrite names_blocks_cons. by apply (heap_step_trans _ _ _ _ c2).
Qed.

Lemma open_elem_ok fd n c :
  card_sane (mdev c) → ∃ b ei x c', open_elem fd n c = Ok ((b, (ei, x)), c') ∧
  ctl_ok x ∧ heap_step (ctl_blocks x) [] c c'.
Proof.
  intros Hd. unfold open_elem. destruct (ioctl_ok (Mix_info n 0) c) as (c1 & E1 & H1).
  rewrite (bind_ok _ _ _ _ _ E1).
  destruct (mix_ret _ <? 0); [by eexists false, _, _, c1|].
  destruct (type _ =? _); [|by eexists true, _, _, c1].
  destruct (alloc_ok c1) as (b & c2 & E2 & H2). rewrite (bind_ok _ _ _ _ _ E2).
  pose proof (heap_step_trans _ _ _ _ _ _ H1 H2) as H12.
  destruct b; cbn [negb]; [|by eexists false, _, _, c2].
  set (ei := mix_info _).
  destruct (read_names_ok (Z.to_nat (enumerated_items ei)) (numid ei) 0 c2) as (b & es & c3 & E3 & Hl & H3);
    [by rewrite (step_dev _ _ _ _ H12)|].
  rewrite (bind_ok _ _ _ _ _ E3). eexists b, ei, _, c3. split; [done|].
  split; [|by apply (heap_step_trans _ _ _ _ c2)].
  unfold ctl_ok. simpl. exists ei. split; [done|]. rewrite Hl, Z2Nat.id; [done|]. apply u32_range.
Qed.

Lemma open_elems_ok fd ids c :
  card_sane (mdev c) → ∃ b l c', open_elems fd ids c = Ok ((b, l), c') ∧ len l = len ids ∧
  Forall ctl_ok (snd <$> l) ∧ heap_step (blocks (snd <$> l)) [] c c'.
Proof.
  revert c. induction ids as [|n ids IH]; intros c Hd.
  { eexists true, [], c. split; [done|]. split; [done|]. split; [constructor|].
    split; simpl; [done|lia|by rewrite app_nil_r]. }
  cbn [open_elems]. destruct (open_elem_ok fd n c Hd) as (b & ei & x & c1 & E1 & Hx & H1).
  rewrite (bind_ok _ _ _ _ _ E1). destruct b; cbn [negb fst snd].
  - destruct (IH c1) as (b & l & c2 & E2 & Hl & Hok & H2); [by rewrite (step_dev _ _ _ _ H1)|].
    rewrite (bind_ok _ _ _ _ _ E2). eexists b, ((ei, x) :: l), c2. split; [done|].
    split; [rewrite !len_cons; lia|]. split; [by constructor|]. by apply (heap_step_trans _ _ _ _ c1).
  - eexists false, _, c1. split; [done|]. split; [by rewrite !len_cons, len_fmap|].
    assert (∀ k : list Z, Forall ctl_ok (snd <$> ((λ _, (blank_info 0, blank_ctl fd)) <$> k)) ∧
      blocks (snd <$> ((λ _, (blank_info 0, blank_ctl fd)) <$> k)) = 0) as Hk.
    { intros k. induction k as [|? k [IH1 IH2]]; simpl; [by split|]. by split; [constructor|]. }
    destruct (Hk ids) as [Hk1 Hk2]. rewrite fmap_cons. cbn [blocks fst snd]. rewrite Hk2, Z.add_0_r.
    by split; [constructor|].
Qed.

Lemma mixer_failed_ok m c c1 :
  mixer_ok m → heap_step (mixer_blocks m) [] c c1 → ∃ c', mixer_failed m c1 = Ok (None, c') ∧
  allocated c' = allocated c ∧ closed c' = closed c ++ (if 0 <=? mixer_fd m then [mixer_fd m] else []).
Proof.
  intros Hm H1. destruct (mixer_close_ok m c1 Hm) as (c2 & E2 & H2).
  pose proof (heap_step_trans _ _ _ _ _ _ H1 H2) as [D A C].
  exists c2. unfold mixer_failed. rewrite (bind_ok _ _ _ _ _ E2). split_and!; [done|lia|done].
Qed.

Lemma blank_ctls n fd :
  blocks (replicate n (blank_ctl fd)) = 0 ∧ Forall ctl_ok (replicate n (blank_ctl fd)).
Proof. induction n as [|n [IH1 IH2]]; [by split|]. split; [done|by constructor]. Qed.

(** A mixer of which no element was opened. *)
Lemma blank_mixer_ok (fd : Z) f es n k :
  0 ≤ n ≤ Z.of_nat k →
  let m cs := Mixer fd es cs n in
  mixer_ok (m (Some (replicate k (blank_ctl f)))) ∧
  mixer_blocks (m (Some (replicate k (blank_ctl f)))) = 2 + opt_block es.
Proof.
  intros Hn m. unfold mixer_ok, mixer_blocks. simpl. rewrite len_replicate, take_replicate.
  destruct (blank_ctls (Z.to_nat n `min` k) f) as [-> _], (blank_ctls k f) as [_ H].
  unfold opt_block. simpl. split; [by split|]. lia.
Qed.

Lemma open_listed_ok fd n m c c1 :
  card_sane (mdev c) → 0 ≤ fd → mixer_ok m → mixer_blocks m = 3 → mixer_fd m = fd → 0 ≤ n →
  heap_step 4 [] c c1 → ∃ r c2, open_listed fd n m c1 = Ok (r, c2) ∧
  match r with
  | None => allocated c2 = allocated c ∧ closed c2 = closed c ++ [fd]
  | Some m' => heap_step (mixer_blocks m') [] c c2 ∧ mixer_ok m' ∧ mixer_fd m' = fd
  end.
Proof.
  intros Hd Hfd Hm Hb Hmfd Hn H1. unfold open_listed.
  assert (∀ m c4, mixer_ok m → heap_step (mixer_blocks m) [] c c4 → mixer_fd m = fd → ∃ r c2,
    mixer_failed m c4 = Ok (r, c2) ∧
    match r with
    | None => allocated c2 = allocated c ∧ closed c2 = closed c ++ [fd]
    | Some m' => heap_step (mixer_blocks m') [] c c2 ∧ mixer_ok m' ∧ mixer_fd m' = fd
    end) as Hfail.
  { intros m' c4 Hm' H4 Hf. destruct (mixer_failed_ok m' c c4 Hm' H4) as (c5 & E5 & A5 & C5).
    exists None, c5. rewrite Hf, (proj2 (Z.leb_le 0 fd) Hfd) in C5. done. }
  destruct (ioctl_ok (Mix_list n) c1) as (c2 & E2 & H2). rewrite (bind_ok _ _ _ _ _ E2).
  pose proof (heap_step_trans _ _ _ _ _ _ H1 H2) as H12.
  destruct (mix_ret _ <? 0).
  { destruct (free_step 1 c2) as (c3 & E3 & H3). rewrite (bind_ok _ _ _ _ _ E3).
    apply Hfail; [done| |done]. rewrite Hb. by apply (heap_step_trans _ _ _ _ _ _ H12 H3). }
  destruct (blit _ 0 _) as [eid|] eqn:Eid.
  2:{ exfalso. rewrite blit_ok in Eid; [done|lia|]. rewrite len_replicate, (step_dev _ _ _ _ H1).
      destruct (sane_list _ Hd (mixed c1) n) as [_ Hl]. specialize (Hl Hn). lia. }
  apply blit_len in Eid as Hlen. rewrite len_replicate in Hlen. rewrite (bind_lift _ _ _ _ eq_refl).
  destruct (open_elems_ok fd eid c2) as (b & l & c3 & E3 & Hl & Hok & H3); [by rewrite (step_dev _ _ _ _ H12)|].
  rewrite (bind_ok _ _ _ _ _ E3).
  destruct (free_step 1 c3) as (c4 & E4 & H4). rewrite (bind_ok _ _ _ _ _ E4). cbn [fst snd].
  pose proof (heap_step_trans _ _ _ _ _ _ (heap_step_trans _ _ _ _ _ _ H12 H3) H4) as H14.
  set (m' := Mixer fd _ _ n).
  assert (mixer_ok m') as Hm' by (split; [done|]; simpl; rewrite len_fmap; lia).
  assert (mixer_blocks m' = 3 + blocks (snd <$> l)) as Hb'.
  { unfold mixer_blocks, opt_block. simpl. rewrite take_ge; [lia|]. rewrite length_fmap. unfold len in *. lia. }
  assert (heap_step (mixer_blocks m') [] c c4) as Hstep.
  { rewrite Hb'. by replace (3 + blocks (snd <$> l)) with (4 + 0 + blocks (snd <$> l) + - (1)) by lia. }
  destruct b; cbn [negb]; [|by apply Hfail]. by exists (Some m'), c4.
Qed.

(** The card lists its elements and the mixer is allocated, but not one of the
    arrays that are allocated before the mixer gets its descriptor. *)
Definition fails_without_fd (c : card) : bool :=
  (0 <=? mix_ret (mdev c (mixed c ++ [Mix_list 0]))) && alloc_at c 0 &&
  negb (alloc_at c 1 && alloc_at c 2 && alloc_at c 3).

(** Opening a mixer ends with all memory released, or with a mixer that
    can be closed. *)
Lemma mixer_open_ok open_fd n c :
  card_sane (mdev c) → let fd := open_fd (mixer_path n) in ∃ r c1,
  mixer_open open_fd n c = Ok (r, c1) ∧
  match r with
  | None => allocated c1 = allocated c ∧
      closed c1 = closed c ++ (if fd <? 0 then [] else if fails_without_fd c then [0] else [fd])
  | Some m => 0 ≤ fd ∧ heap_step (mixer_blocks m) [] c c1 ∧ mixer_ok m ∧ mixer_fd m = fd
  end.
Proof.
  intros Hd fd. unfold mixer_open, fails_without_fd. fold fd.
  destruct (Z.ltb_spec fd 0) as [|Hfd]; [eexists None, c; by rewrite app_nil_r|].
  destruct (ioctl_step (Mix_list 0) c) as (c1 & E1 & H1 & A1). rewrite (bind_ok _ _ _ _ _ E1).
  destruct (sane_list _ Hd (mixed c) 0) as [Hcount _]. set (k := mix_count _) in *.
  assert (∀ i, alloc_at c1 i = alloc_at c i) as B1 by (intros i; unfold alloc_at; by rewrite A1).
  destruct (Z.ltb_spec (mix_ret (mdev c (mixed c ++ [Mix_list 0]))) 0) as [Hlt|Hge].
  { exists None. eexists. split; [reflexivity|]. destruct H1 as [? A C]. simpl.
    by rewrite C, app_nil_r, A, Z.add_0_r, (proj2 (Z.leb_gt _ _) Hlt). }
  rewrite (proj2 (Z.leb_le _ _) Hge), andb_true_l.
  destruct (alloc_step c1) as (c2 & E2 & H2 & A2). rewrite (bind_ok _ _ _ _ _ E2). rewrite B1 in E2, H2 |- *.
  pose proof (heap_step_trans _ _ _ _ _ _ H1 H2) as H12.
  destruct (alloc_at c 0) eqn:Ea0; cbn [negb andb].
  2:{ exists None. eexists. split; [reflexivity|]. destruct H12 as [? A C]. simpl. by rewrite C, app_nil_r, A, Z.add_0_r. }
  destruct (alloc_step c2) as (c3 & E3 & H3 & A3). rewrite (bind_ok _ _ _ _ _ E3). rewrite A2, B1 in H3 |- *.
  destruct (alloc_step c3) as (c4 & E4 & H4 & A4). rewrite (bind_ok _ _ _ _ _ E4). rewrite A3, A2, B1 in H4 |- *.
  pose proof (heap_step_trans _ _ _ _ _ _ (heap_step_trans _ _ _ _ _ _ H12 H3) H4) as H14.
  (* an allocation fails: the mixer has no descriptor yet *)
  assert (∀ m c5, mixer_ok m → heap_step (mixer_blocks m) [] c c5 → mixer_fd m = 0 → ∃ c',
    mixer_failed m c5 = Ok (None, c') ∧ allocated c' = allocated c ∧ closed c' = closed c ++ [0]) as Hfail.
  { intros m c5 Hm H5 Hf. destruct (mixer_failed_ok m c c5 Hm H5) as (c' & E & A & C). rewrite Hf in C. eauto. }
  destruct (blank_mixer_ok 0 fd (Some (replicate (Z.to_nat k) (blank_info 0))) 0 (Z.to_nat k)) as [O0 B0]; [lia|].
  destruct (alloc_at c 1), (alloc_at c 2); cbn [negb orb andb];
    try (match goal with |- context [mixer_failed ?m] => destruct (Hfail m c4) as (c' & -> & A & C) end;
         [try done; by apply blank_mixer_ok; lia|done|done|]; eexists None, c'; by auto).
  destruct (alloc_step c4) as (c5 & E5 & H5 & _). rewrite (bind_ok _ _ _ _ _ E5). rewrite A4, A3, A2, B1 in H5 |- *.
  pose proof (heap_step_trans _ _ _ _ _ _ H14 H5) as H15.
  destruct (alloc_at c 3); cbn [negb].
  2:{ destruct (Hfail _ c5 O0) as (c' & -> & A & C); [by rewrite B0|done|]. eexists None, c'. by auto. }
  destruct (blank_mixer_ok fd fd (Some (replicate (Z.to_nat k) (blank_info 0))) k (Z.to_nat k)) as [O1 B2]; [lia|].
  destruct (open_listed_ok fd k _ c c5 Hd Hfd O1 B2) as (r & c6 & -> & Hr); [done..|].
  exists r, c6. split; [done|]. destruct r as [m|]; [done|by destruct Hr; auto].
Qed.

(** C32: whatever fails, opening a mixer ends with all memory released, or
    with a mixer that closing releases; the descriptor is closed once, except
    that exactly when one of the three arrays cannot be allocated, before the
    mixer knows its descriptor, descriptor 0 is closed instead and the one
    that was opened stays open. *)
Theorem mixer_open_balanced open_fd n c :
  card_sane (mdev c) → let fd := open_fd (mixer_path n) in ∃ r c1,
  mixer_open open_fd n c = Ok (r, c1) ∧
  match r with
  | None => allocated c1 = allocated c ∧
      closed c1 = closed c ++ (if fd <? 0 then [] else if fails_without_fd c then [0] else [fd])
  | Some m => 0 ≤ fd ∧ closed c1 = closed c ∧ ∃ c2, mixer_close r c1 = Ok (tt, c2) ∧
      allocated c2 = allocated c ∧ closed c2 = closed c ++ [fd]
  end.
Proof.
  intros Hd fd. destruct (mixer_open_ok open_fd n c Hd) as (r & c1 & E & Hr). fold fd in Hr.
  exists r, c1. split; [done|]. destruct r as [m|]; [|done].
  destruct Hr as (Hfd & H6 & Hm & Hf). destruct (mixer_close_ok m c1 Hm) as (c7 & E7 & H7).
  destruct (heap_step_trans _ _ _ _ _ _ H6 H7) as [_ A C], H6 as [_ _ C6].
  rewrite app_nil_r in C6. rewrite Hf, (proj2 (Z.leb_le 0 fd) Hfd) in C. eauto 10 with lia.
Qed.

(** ** Values *)

(** The card keeps what is written. *)
Record card_stores (d : list mixer_request → mixer_answer) : Prop := {
  stores_len : ∀ rs n, len (mix_values (d (rs ++ [Mix_read n]))) = 128;
  stores_value : ∀ rs n vs, 0 ≤ mix_ret (d (rs ++ [Mix_write n vs])) →
    let a := d ((rs ++ [Mix_write n vs]) ++ [Mix_read n]) in 0 ≤ mix_ret a ∧ mix_values a = vs;
}.

Lemma write_at_value {A} (l : list A) i v :
  0 ≤ i < len l → ∃ l', write_at l i v = Ok l' ∧ read_at l' i = Ok v ∧ len l' = len l.
Proof.
  intros Hi. unfold write_at. destruct (blit l i [v]) as [l'|] eqn:E.
  2:{ rewrite blit_ok in E; [done|lia|]. change (len [v]) with 1. lia. }
  exists l'. split; [done|]. split; [|by eapply blit_len]. apply read_at_lookup; [lia|].
  rewrite (blit_lookup _ _ _ _ _ E) by lia. change (len [v]) with 1. rewrite decide_True by lia.
  by replace (i - i) with 0 by lia.
Qed.

Lemma write_at_other {A} (l l' : list A) i j v :
  write_at l i v = Ok l' → 0 ≤ j → j ≠ i → read_at l' j = read_at l j.
Proof.
  intros E Hj Hne. unfold read_at. rewrite !decide_True by done.
  rewrite (blit_lookup _ _ _ _ _ E) by done. change (len [v]) with 1. by rewrite decide_False by lia.
Qed.

(** What a control of the type keeps of a value. *)
Definition kept (t v : Z) : Z := if t =? SNDRV_CTL_ELEM_TYPE_BOOLEAN then truth v else v.

Definition settable (t : Z) : Prop :=
  t = SNDRV_CTL_ELEM_TYPE_BOOLEAN ∨ t = SNDRV_CTL_ELEM_TYPE_INTEGER ∨ t = SNDRV_CTL_ELEM_TYPE_ENUMERATED.

(** What is written for a value. *)
Definition stored (t v : Z) : Z :=
  if t =? SNDRV_CTL_ELEM_TYPE_BOOLEAN then truth v
  else if t =? SNDRV_CTL_ELEM_TYPE_ENUMERATED then u32 v else v.

Lemma s32_u32 v : s32 (u32 v) = s32 v.
Proof. unfold wrapS, wrapU. by rewrite Z.add_mod_idemp_l. Qed.

Lemma get_stored c x ei rs id v vs n :
  ctl_info x = Some ei → settable (type ei) → 0 ≤ id < count ei → INT_MIN ≤ v ≤ INT_MAX →
  card_stores (mdev c) → mixed c = rs ++ [Mix_write (numid ei) vs] → 0 ≤ mix_ret (mdev c (mixed c)) →
  read_at vs id = Ok (stored (type ei) v) → n = numid ei →
  ∃ c', mixer_ctl_get_value (Some x) id c = Ok (kept (type ei) v, c').
Proof.
  intros Hi Ht Hid Hv Hd Hm Hr Hvs ->. unfold mixer_ctl_get_value.
  rewrite (bind_lift _ _ _ ei) by (by rewrite Hi). destruct (Z.leb_spec (count ei) id); [lia|].
  destruct (ioctl_ok (Mix_read (numid ei)) c) as (c1 & E1 & _). rewrite (bind_ok _ _ _ _ _ E1).
  rewrite Hm in *. destruct (stores_value _ Hd _ _ _ Hr) as [Hr2 ->].
  rewrite (proj2 (Z.ltb_ge _ _) Hr2). unfold kept, stored in *.
  destruct Ht as [Et|[Et|Et]]; rewrite Et in *; simpl in *; rewrite (bind_lift _ _ _ _ Hvs);
    eexists; (split || f_equal); unfold mret, M_ret; do 2 f_equal.
  - unfold truth. by destruct (v =? 0).
  - by apply s32_small.
  - rewrite s32_u32. by apply s32_small.
Qed.

(** A control whose type has values of 32 bits can be set. *)
Lemma set_value_ok c x ei id v :
  ctl_info x = Some ei → settable (type ei) → 0 ≤ id < count ei → count ei ≤ 128 → card_stores (mdev c) →
  ∃ r c1, mixer_ctl_set_value (Some x) id v c = Ok (r, c1) ∧ mdev c1 = mdev c ∧
  (0 ≤ r → ∃ vs, mixed c1 = (mixed c ++ [Mix_read (numid ei)]) ++ [Mix_write (numid ei) vs] ∧
     r = mix_ret (mdev c1 (mixed c1)) ∧ read_at vs id = Ok (stored (type ei) v) ∧
     write_at (mix_values (mdev c (mixed c ++ [Mix_read (numid ei)]))) id (stored (type ei) v) = Ok vs).
Proof.
  intros Hi Ht Hid Hc Hd. unfold mixer_ctl_set_value.
  rewrite (bind_lift _ _ _ ei) by (by rewrite Hi). destruct (Z.leb_spec (count ei) id); [lia|].
  destruct (ioctl_ok (Mix_read (numid ei)) c) as (c1 & E1 & H1). rewrite (bind_ok _ _ _ _ _ E1).
  set (a := mdev c _). destruct (Z.ltb_spec (mix_ret a) 0).
  { eexists _, c1. split; [done|]. split; [apply H1|lia]. }
  pose proof (stores_len _ Hd (mixed c) (numid ei)) as Hl. fold a in Hl.
  assert (∃ r c2, (vs ← lift (write_at (mix_values a) id (stored (type ei) v));
      a ← ioctl (Mix_write (numid ei) vs); mret (mix_ret a)) c1 = Ok (r, c2) ∧ mdev c2 = mdev c ∧
    (0 ≤ r → ∃ vs, mixed c2 = (mixed c ++ [Mix_read (numid ei)]) ++ [Mix_write (numid ei) vs] ∧
       r = mix_ret (mdev c2 (mixed c2)) ∧ read_at vs id = Ok (stored (type ei) v) ∧
       write_at (mix_values a) id (stored (type ei) v) = Ok vs)) as Hw.
  { destruct (write_at_value (mix_values a) id (stored (type ei) v)) as (vs & Ew & Er & _); [lia|].
    rewrite (bind_lift _ _ _ _ Ew). unfold ioctl. unfold mbind, M_bind, get, put, mret, M_ret. simpl.
    assert (mixed c1 = mixed c ++ [Mix_read (numid ei)]) as Hm1.
    { unfold ioctl in E1. rewrite bind_get in E1. by injection E1 as <-. }
    eexists _, _. split; [reflexivity|]. split; [apply H1|]. intros _. exists vs.
    simpl. rewrite Hm1. split_and!; [done..|exact Er|exact Ew]. }
  unfold stored in Hw. destruct Ht as [Et|[Et|Et]]; rewrite Et in *; exact Hw.
Qed.

(** A value that was set is read back, a switch as 0 or 1. *)
Theorem value_round_trip c x ei id v :
  ctl_info x = Some ei → settable (type ei) → 0 ≤ id < count ei → count ei ≤ 128 →
  INT_MIN ≤ v ≤ INT_MAX → card_stores (mdev c) → ∃ r c1,
  mixer_ctl_set_value (Some x) id v c = Ok (r, c1) ∧
  (0 ≤ r → ∃ c2, mixer_ctl_get_value (Some x) id c1 = Ok (kept (type ei) v, c2)).
Proof.
  intros Hi Ht Hid Hc Hv Hd. destruct (set_value_ok c x ei id v) as (r & c1 & E & Hd1 & H); [done..|].
  exists r, c1. split; [done|]. intros Hr. destruct (H Hr) as (vs & Hm & -> & Hvs & _).
  eapply get_stored; try done. by rewrite Hd1.
Qed.

(** ** Percentages *)

Lemma percent_in_range ei p :
  let range := integer_max ei - integer_min ei in
  0 < range ≤ 21474836 → 0 ≤ p ≤ 100 →
  percent_to_int ei p = integer_min ei + range * p / 100 ∧ 0 ≤ range * p / 100 ≤ range ∧
  (range * p / 100 = range ↔ p = 100).
Proof.
  intros range Hr Hp. pose proof (s32_range (word0 ei)) as H0. pose proof (s32_range (word1 ei)) as H1.
  unfold INT_MIN, INT_MAX in *. unfold percent_to_int. fold range.
  destruct (Z.ltb_spec 100 p); [lia|]. destruct (Z.ltb_spec p 0); [lia|].
  rewrite (s32_small range), (s32_small (range * p)) by (unfold INT_MIN, INT_MAX; nia).
  rewrite Z.quot_div_nonneg by nia.
  assert (0 ≤ range * p / 100) by (apply Z.div_pos; nia).
  assert (range * p / 100 ≤ range) by (apply Z.div_le_upper_bound; nia).
  rewrite s32_small. 2:{ unfold INT_MIN, INT_MAX. unfold range, integer_min, integer_max in *. lia. }
  split; [done|]. split; [lia|]. pose proof (Z.div_mod (range * p) 100 ltac:(lia)).
  pose proof (Z.mod_pos_bound (range * p) 100 ltac:(lia)).
  split; [nia|]. intros ->. apply Z.div_mul. lia.
Qed.

Lemma int_to_percent_whole ei d :
  let range := integer_max ei - integer_min ei in
  0 < range ≤ 21474836 → 0 ≤ d ≤ range →
  int_to_percent ei (integer_min ei + d) = if d =? range then 100 else 0.
Proof.
  intros range Hr Hd. unfold int_to_percent. fold range. rewrite (s32_small range) by (unfold INT_MIN, INT_MAX; lia).
  destruct (Z.eqb_spec range 0); [lia|]. replace (integer_min ei + d - integer_min ei) with d by lia.
  rewrite (s32_small d) by (unfold INT_MIN, INT_MAX; lia).
  destruct (Z.eqb_spec d range) as [->|].
  - by rewrite Z.quot_same.
  - by rewrite Z.quot_small by lia.
Qed.

(** A percentage that is set gives a value in the range of the control,
    but what is read back is 0 for everything below 100. *)
Theorem percent_round_trip c x ei id p :
  let range := integer_max ei - integer_min ei in
  ctl_info x = Some ei → type ei = SNDRV_CTL_ELEM_TYPE_INTEGER → 0 ≤ id < count ei → count ei ≤ 128 →
  0 < range ≤ 21474836 → 0 ≤ p ≤ 100 → card_stores (mdev c) →
  integer_min ei ≤ percent_to_int ei p ≤ integer_max ei ∧ ∃ r c1,
  mixer_ctl_set_percent (Some x) id p c = Ok (r, c1) ∧
  (0 ≤ r → ∃ c2, mixer_ctl_get_percent (Some x) id c1 = Ok (if p =? 100 then 100 else 0, c2)).
Proof.
  intros range Hi Ht Hid Hc Hr Hp Hd. destruct (percent_in_range ei p Hr Hp) as (Ep & Hin & Hfull). fold range in Ep, Hin, Hfull.
  split; [unfold range in *; lia|].
  destruct (set_value_ok c x ei id (percent_to_int ei p)) as (r & c1 & E & Hd1 & H); try done; [by right; left|].
  assert (typed (Some x) SNDRV_CTL_ELEM_TYPE_INTEGER = Ok (Some (x, ei))) as Ety by (unfold typed; simpl; by rewrite Hi; simpl; rewrite Ht).
  exists r, c1. split; [unfold mixer_ctl_set_percent; by rewrite (bind_lift _ _ _ _ Ety)|].
  intros Hr0. destruct (H Hr0) as (vs & Hm & -> & Hvs & _).
  destruct (get_stored c1 x ei (mixed c ++ [Mix_read (numid ei)]) id (percent_to_int ei p) vs (numid ei)) as (c2 & E2); try done.
  { by right; left. }
  { pose proof (s32_range (word0 ei)). pose proof (s32_range (word1 ei)). unfold range, integer_min, integer_max in *. lia. }
  { by rewrite Hd1. }
  exists c2. unfold mixer_ctl_get_percent. rewrite (bind_lift _ _ _ _ Ety), (bind_ok _ _ _ _ _ E2).
  unfold kept. rewrite Ht. simpl. rewrite Ep, int_to_percent_whole by done. fold range.
  unfold mret, M_ret. do 2 f_equal. destruct (Z.eqb_spec (range * p / 100) range), (Z.eqb_spec p 100); tauto.
Qed.

(** ** Items *)

Lemma nth_name_ok x names i s :
  ename x = Some (Some <$> names) → names !! i = Some s → nth_name x (Z.of_nat i) = Ok s.
Proof.
  intros Hx Hi. unfold nth_name. rewrite Hx. simpl.
  rewrite (read_at_lookup _ _ (Some s)); [done|lia|]. by rewrite Nat2Z.id, list_lookup_fmap, Hi.
Qed.

Lemma find_enum_ok x names string n k :
  ename x = Some (Some <$> names) → (k + n = length names)%nat →
  (∀ j, (j < k)%nat → names !! j ≠ Some string) →
  (find_enum n x string (Z.of_nat k) = Ok None ∧ string ∉ names) ∨
  (∃ i, find_enum n x string (Z.of_nat k) = Ok (Some (Z.of_nat i)) ∧ names !! i = Some string ∧
    ∀ j, (j < i)%nat → names !! j ≠ Some string).
Proof.
  intros Hx. revert k. induction n as [|n IH]; intros k Hk Hno.
  { left. split; [done|]. intros [j Hj]%list_elem_of_lookup. apply (Hno j); [|done].
    apply lookup_lt_Some in Hj. lia. }
  destruct (lookup_lt_is_Some_2 names k) as [s Hs]; [lia|].
  cbn [find_enum]. rewrite (nth_name_ok _ _ _ _ Hx Hs). cbn [mbind res_bind].
  destruct (strcmp_eq string s) eqn:E.
  - apply strcmp_eq_spec in E as <-. right. by exists k.
  - replace (Z.of_nat k + 1) with (Z.of_nat (S k)) by lia. apply IH; [lia|].
    intros j Hj. destruct (decide (j = k)) as [->|]; [|apply Hno; lia].
    intros E2. rewrite Hs in E2. injection E2 as ->.
    by rewrite (proj2 (strcmp_eq_spec string string) eq_refl) in E.
Qed.

(** An enumerated control is set by the name of an item: the value that
    is read back is the first item of that name, and a name that no item has
    is refused without a request. *)
Theorem enum_round_trip c x ei names string :
  ctl_info x = Some ei → type ei = SNDRV_CTL_ELEM_TYPE_ENUMERATED → 0 < count ei →
  ename x = Some (Some <$> names) → len names = enumerated_items ei → enumerated_items ei ≤ INT_MAX →
  card_stores (mdev c) →
  if decide (string ∈ names) then ∃ i r c1,
    mixer_ctl_set_enum_by_string (Some x) string c = Ok (r, c1) ∧ r ≤ 0 ∧
    names !! i = Some string ∧ (∀ j, (j < i)%nat → names !! j ≠ Some string) ∧
    (r = 0 → ∃ c2, mixer_ctl_get_value (Some x) 0 c1 = Ok (Z.of_nat i, c2))
  else mixer_ctl_set_enum_by_string (Some x) string c = Ok (- EINVAL, c).
Proof.
  intros Hi Ht Hcount Hx Hlen Hmax Hd.
  assert (typed (Some x) SNDRV_CTL_ELEM_TYPE_ENUMERATED = Ok (Some (x, ei))) as Ety by (unfold typed; simpl; by rewrite Hi; simpl; rewrite Ht).
  unfold mixer_ctl_set_enum_by_string. rewrite (bind_lift _ _ _ _ Ety).
  replace (Z.to_nat (enumerated_items ei)) with (length names) by (unfold len in Hlen; lia).
  destruct (find_enum_ok x names string (length names) 0 Hx eq_refl) as [[E Hno]|(i & E & Hin & Hfirst)]; [lia| |];
    change (Z.of_nat 0) with 0 in E; rewrite (bind_lift _ _ _ _ E).
  { by rewrite decide_False. }
  rewrite decide_True by (by apply list_elem_of_lookup_2 in Hin).
  destruct (ioctl_ok (Mix_write (numid ei) (first_value (Z.of_nat i))) c) as (c1 & E1 & H1).
  rewrite (bind_ok _ _ _ _ _ E1). set (a := mdev c _).
  exists i, (if mix_ret a <? 0 then mix_ret a else 0), c1.
  split; [by destruct (mix_ret a <? 0)|]. destruct (Z.ltb_spec (mix_ret a) 0); [split_and!; [lia|done..|lia]|].
  split_and!; [done..|]. intros _. assert (mixed c1 = mixed c ++ [Mix_write (numid ei) (first_value (Z.of_nat i))]) as Hm.
  { unfold ioctl in E1. rewrite bind_get in E1. by injection E1 as <-. }
  pose proof (lookup_lt_Some _ _ _ Hin). unfold len, INT_MAX in *.
  destruct (get_stored c1 x ei (mixed c) 0 (Z.of_nat i) (first_value (Z.of_nat i)) (numid ei)) as (c2 & E2); try done.
  - by right; right.
  - unfold INT_MIN, INT_MAX. lia.
  - by rewrite (step_dev _ _ _ _ H1).
  - rewrite Hm, (step_dev _ _ _ _ H1). done.
  - unfold stored. rewrite Ht. simpl. rewrite u32_small by lia. by apply read_at_lookup.
  - exists c2. rewrite E2. unfold kept. by rewrite Ht.
Qed.

(** ** Examples *)

(** A card that keeps what is written, if it is as long as the array. *)
Definition demo_writes (r : mixer_request) (n : Z) : option (list Z) :=
  match r with Mix_write n' vs => if (n' =? n) && (len vs =? 128) then Some vs else None | _ => None end.

Fixpoint demo_values (rs : list mixer_request) (n : Z) (vs : list Z) : list Z :=
  match rs with
  | [] => vs
  | r :: rs' => demo_values rs' n (default vs (demo_writes r n))
  end.

(** One control with two items. *)
Definition demo_info : snd_ctl_elem_info :=
  ElemInfo 7 (lit "Route" ++ [0]) SNDRV_CTL_ELEM_TYPE_ENUMERATED 1 2 0 (lit "Item" ++ [0]).

Definition demo_card (rs : list mixer_request) : mixer_answer :=
  match last rs with
  | Some (Mix_read n) => MixAnswer 0 0 [] demo_info (demo_values rs n (replicate 128 0))
  | Some (Mix_write n vs) => MixAnswer (if len vs =? 128 then 0 else -1) 0 [] demo_info []
  | Some (Mix_list n) => MixAnswer 0 1 (if 1 <=? n then [7] else []) demo_info []
  | _ => MixAnswer 0 0 [] demo_info []
  end.

Lemma demo_values_len rs n vs : len vs = 128 → len (demo_values rs n vs) = 128.
Proof.
  revert vs. induction rs as [|r rs IH]; intros vs H; [done|]. simpl. apply IH.
  destruct r as [| | |n' vs']; simpl; try done. destruct (n' =? n); simpl; [|done].
  by destruct (Z.eqb_spec (len vs') 128).
Qed.

Lemma demo_values_app rs1 rs2 n vs : demo_values (rs1 ++ rs2) n vs = demo_values rs2 n (demo_values rs1 n vs).
Proof. revert vs. induction rs1 as [|r rs1 IH]; intros vs; [done|]. simpl. apply IH. Qed.

Lemma demo_card_stores : card_stores demo_card.
Proof.
  split; [intros rs n; unfold demo_card; rewrite last_snoc; by apply demo_values_len|].
  intros rs n vs. unfold demo_card. rewrite !last_snoc. cbn [mix_ret mix_values].
  destruct (Z.eqb_spec (len vs) 128) as [E|]; [|lia]. intros _. split; [done|].
  rewrite !demo_values_app. simpl. by rewrite Z.eqb_refl, E.
Qed.

Lemma demo_card_sane : card_sane demo_card.
Proof.
  split; intros rs n.
  - unfold demo_card. rewrite last_snoc. cbn [mix_count mix_ids]. split; [lia|].
    intros Hn. destruct (Z.leb_spec 1 n); unfold len; simpl; lia.
  - intros m. unfold demo_card. rewrite last_snoc. by eexists.
Qed.

Definition demo_mixer : card := Card demo_card [] [] 10 [].

(** Memory for the mixer and for its controls, but not for their elements. *)
Definition short_mixer : card := Card demo_card [] [true; true; false] 10 [].

Lemma mixer_open_balanced_witness : ∃ r c1,
  mixer_open (λ _, 3) 0 short_mixer = Ok (r, c1) ∧
  match r with
  | None => allocated c1 = 10 ∧ closed c1 = [] ++ (if 3 <? 0 then [] else if fails_without_fd short_mixer then [0] else [3])
  | Some m => 0 ≤ 3 ∧ closed c1 = [] ∧ ∃ c2, mixer_close r c1 = Ok (tt, c2) ∧
      allocated c2 = 10 ∧ closed c2 = [] ++ [3]
  end.
Proof. apply (mixer_open_balanced (λ _, 3) 0 short_mixer demo_card_sane). Defined.

Definition demo_switch : snd_ctl_elem_info := ElemInfo 3 [0] SNDRV_CTL_ELEM_TYPE_BOOLEAN 2 0 1 [0].
Definition demo_volume : snd_ctl_elem_info := ElemInfo 4 [0] SNDRV_CTL_ELEM_TYPE_INTEGER 2 0 44 [0].

Lemma value_round_trip_witness :
  let x := MixerCtl 3 (Some demo_switch) None in ∃ r c1,
  mixer_ctl_set_value (Some x) 1 9 demo_mixer = Ok (r, c1) ∧
  (0 ≤ r → ∃ c2, mixer_ctl_get_value (Some x) 1 c1 = Ok (1, c2)).
Proof.
  apply (value_round_trip demo_mixer (MixerCtl 3 (Some demo_switch) None) demo_switch 1 9);
    [done|by left|done|done|done|exact demo_card_stores].
Defined.

Lemma percent_round_trip_witness :
  let x := MixerCtl 3 (Some demo_volume) None in
  0 ≤ percent_to_int demo_volume 50 ≤ 44 ∧ ∃ r c1,
  mixer_ctl_set_percent (Some x) 0 50 demo_mixer = Ok (r, c1) ∧
  (0 ≤ r → ∃ c2, mixer_ctl_get_percent (Some x) 0 c1 = Ok (0, c2)).
Proof.
  apply (percent_round_trip demo_mixer (MixerCtl 3 (Some demo_volume) None) demo_volume 0 50);
    try done; exact demo_card_stores.
Defined.

Lemma enum_round_trip_witness :
  let names := [lit "Left"; lit "Right"] in
  let x := MixerCtl 3 (Some demo_info) (Some (Some <$> names)) in ∃ i r c1,
  mixer_ctl_set_enum_by_string (Some x) (lit "Right") demo_mixer = Ok (r, c1) ∧ r ≤ 0 ∧
  names !! i = Some (lit "Right") ∧ (∀ j, (j < i)%nat → names !! j ≠ Some (lit "Right")) ∧
  (r = 0 → ∃ c2, mixer_ctl_get_value (Some x) 0 c1 = Ok (Z.of_nat i, c2)).
Proof.
  apply (enum_round_trip demo_mixer (MixerCtl 3 (Some demo_info) (Some [Some (lit "Left"); Some (lit "Right")]))
    demo_info [lit "Left"; lit "Right"] (lit "Right")); try done; exact demo_card_stores.
Defined.
