(* ===== verification/MixerTool.v ===== *)
(** * The mixer from the command line: src/upil_tools/host_audio/tinymix.c

    The program lists the controls of a card, shows one, or sets one, by the
    operations of Mixer.  What it prints is its output; a buffer that was
    never written has no value. *)

From stdpp Require Import strings.
From S2P Require Import Prelude CString EventLoop Pcm Mixer MixerProofs.

Record tinymix := Tinymix {
  tx_card : card;
  tx_out : list Z;             (* the text on stdout *)
  tx_err : list (list Z);      (* the messages on stderr *)
}.

#[export] Instance tinymix_card : Lens tinymix card := {|
  lget := tx_card; lset c t := Tinymix c (tx_out t) (tx_err t) |}.

Abbreviation MT := (M tinymix).

Definition printf (s : list Z) : MT unit :=
  modify (λ t, Tinymix (tx_card t) (tx_out t ++ s) (tx_err t)).
Definition complain (s : list Z) : MT unit :=
  modify (λ t, Tinymix (tx_card t) (tx_out t) (tx_err t ++ [s])).

(** [%s] of a buffer, [%-40s] and [%02x]. *)
Definition buffer_text (b : option (list Z)) : res (list Z) :=
  match b with Some b => cstr b | None => Err Uninit end.
Definition pad40 (s : list Z) : list Z := s ++ replicate (40 - length s) 32.

Fixpoint hex_digits (fuel : nat) (n : Z) (acc : list Z) : list Z :=
  match fuel with
  | O => acc
  | S f =>
      let d := n mod 16 in
      let acc := (if d <? 10 then 48 + d else 87 + d) :: acc in
      if n <? 16 then acc else hex_digits f (n / 16) acc
  end.
Definition hex02 (v : Z) : list Z :=
  let d := hex_digits 8 (u32 v) [] in replicate (2 - length d) 48 ++ d.

Definition tab : list Z := [9].
Definition newline_text : list Z := [10].

(** ** Showing *)

Definition BUFFER_SIZE : Z := 256.

(** The items from [i] on, with [buffer] as the item before left it. *)
Fixpoint print_enums (left : nat) (ctl : option mixer_ctl) (print_all : bool) (i : Z) (buffer : option (list Z))
    : MT unit :=
  match left with
  | O => skip
  | S l =>
      '(r, b) ← zoom (mixer_ctl_get_enum_string ctl i (default (replicate (Z.to_nat BUFFER_SIZE) 0) buffer) BUFFER_SIZE);
      let buffer := if r =? 0 then Some b else buffer in
      v ← zoom (mixer_ctl_get_value ctl 0);
      (if print_all then
         text ← lift (buffer_text buffer);
         printf (tab ++ (if v =? i then lit ">" else []) ++ text)
       else if v =? i then
         text ← lift (buffer_text buffer); printf (lit " " ++ text)
       else skip);;
      print_enums l ctl print_all (i + 1) buffer
  end.

Definition tinymix_print_enum (ctl : option mixer_ctl) (print_all : bool) : MT unit :=
  num_enums ← lift (mixer_ctl_get_num_enums ctl);
  print_enums (Z.to_nat num_enums) ctl print_all 0 None.

Definition print_value (ctl : option mixer_ctl) (type : mixer_ctl_type) (print_all : bool) (i : Z) : MT unit :=
  match type with
  | MIXER_CTL_TYPE_INT => v ← zoom (mixer_ctl_get_value ctl i); printf (lit " " ++ dec v)
  | MIXER_CTL_TYPE_BOOL =>
      v ← zoom (mixer_ctl_get_value ctl i);
      printf (lit " " ++ (if v =? 0 then lit "Off" else lit "On"))
  | MIXER_CTL_TYPE_ENUM => tinymix_print_enum ctl print_all
  | MIXER_CTL_TYPE_BYTE => v ← zoom (mixer_ctl_get_value ctl i); printf (lit " 0x" ++ hex02 v)
  | _ => printf (lit " unknown")
  end.

Fixpoint print_values (left : nat) (ctl : option mixer_ctl) (type : mixer_ctl_type) (print_all : bool) (i : Z)
    : MT unit :=
  match left with
  | O => skip
  | S l => print_value ctl type print_all i;; print_values l ctl type print_all (i + 1)
  end.

(** The name is copied to an array of [BUFFER_SIZE], which it fills with
    NULs. *)
Definition name_text (ctl : option mixer_ctl) : res (list Z) :=
  '(_, b) ← mixer_ctl_get_name ctl (Some (replicate (Z.to_nat BUFFER_SIZE) 0)) BUFFER_SIZE;
  buffer_text b.

Definition tinymix_detail_control (m : option mixer) (id : Z) (print_all : bool) : MT unit :=
  if mixer_get_num_ctls m <=? id then complain (lit "Invalid mixer control") else
  ctl ← lift (mixer_get_ctl m id);
  name ← lift (name_text ctl);
  type ← lift (mixer_ctl_get_type ctl);
  num_values ← lift (mixer_ctl_get_num_values ctl);
  when print_all (printf (name ++ lit ":"));;
  print_values (Z.to_nat num_values) ctl type print_all 0;;
  (if print_all && match type with MIXER_CTL_TYPE_INT => true | _ => false end then
     min ← zoom (mixer_ctl_get_range_min ctl);
     max ← zoom (mixer_ctl_get_range_max ctl);
     printf (lit " (range " ++ dec min ++ lit "->" ++ dec max ++ lit ")")
   else skip);;
  printf newline_text.

Fixpoint list_from (left : nat) (m : option mixer) (i : Z) : MT unit :=
  match left with
  | O => skip
  | S l =>
      ctl ← lift (mixer_get_ctl m i);
      name ← lift (name_text ctl);
      type ← lift (mixer_ctl_get_type_string ctl);
      num_values ← lift (mixer_ctl_get_num_values ctl);
      printf (dec i ++ tab ++ type ++ tab ++ dec num_values ++ tab ++ pad40 name);;
      tinymix_detail_control m i false;;
      list_from l m (i + 1)
  end.

Definition tinymix_list_controls (m : option mixer) : MT unit :=
  let num_ctls := mixer_get_num_ctls m in
  printf (lit "Number of controls: " ++ dec num_ctls ++ newline_text);;
  printf (lit "ctl" ++ tab ++ lit "type" ++ tab ++ lit "num" ++ tab ++ pad40 (lit "name") ++ lit " value" ++ newline_text);;
  list_from (Z.to_nat num_ctls) m 0.

(** ** Setting *)

Fixpoint set_all (left : nat) (ctl : option mixer_ctl) (i value : Z) : MT unit :=
  match left with
  | O => skip
  | S l =>
      r ← zoom (mixer_ctl_set_value ctl i value);
      if negb (r =? 0) then complain (lit "Error: invalid value") else set_all l ctl (i + 1) value
  end.

Definition tinymix_set_value (m : option mixer) (id : Z) (string : list Z) : MT unit :=
  ctl ← lift (mixer_get_ctl m id);
  type ← lift (mixer_ctl_get_type ctl);
  num_values ← lift (mixer_ctl_get_num_values ctl);
  if match string with c :: _ => isdigit c | [] => false end then
    set_all (Z.to_nat num_values) ctl 0 (atoi string)
  else if match type with MIXER_CTL_TYPE_ENUM => true | _ => false end then
    r ← zoom (mixer_ctl_set_enum_by_string ctl string);
    when (negb (r =? 0)) (complain (lit "Error: invalid enum value"))
  else complain (lit "Error: only enum types can be set with strings").

(** ** main *)

(** The exit status; [argv] has the name of the program first. *)
Definition tinymix_main (open_fd : list Z → Z) (argv : list (list Z)) : MT Z :=
  m ← zoom (mixer_open open_fd 0);
  match m with
  | None => complain (lit "Failed to open mixer");; mret 1
  | Some _ =>
      match argv with
      | [_] => tinymix_list_controls m
      | [_; id] => tinymix_detail_control m (u32 (atoi id)) true
      | [_; id; value] => tinymix_set_value m (u32 (atoi id)) value
      | _ => printf (lit "Usage: tinymix [control id] [value to set]" ++ newline_text)
      end;;
      zoom (mixer_close m);;
      mret 0
  end.

(** ** What is set *)

Section set.
Context (x : mixer_ctl) (ei : snd_ctl_elem_info) (v : Z).
Context (Hi : ctl_info x = Some ei) (Ht : settable (type ei)) (Hc : 0 ≤ count ei ≤ 128) (Hv : INT_MIN ≤ v ≤ INT_MAX).

(** The last request has written the first [i] values. *)
Definition written_up_to (i : Z) (c : card) : Prop :=
  i = 0 ∨ ∃ rs vs, mixed c = rs ++ [Mix_write (numid ei) vs] ∧ mix_ret (mdev c (mixed c)) = 0 ∧
    ∀ j, 0 ≤ j < i → read_at vs j = Ok (stored (type ei) v).

Lemma written_next i c :
  card_stores (mdev c) → 0 ≤ i < count ei → written_up_to i c → ∃ r c1,
  mixer_ctl_set_value (Some x) i v c = Ok (r, c1) ∧ mdev c1 = mdev c ∧ (r = 0 → written_up_to (i + 1) c1).
Proof using Hi Ht Hc.
  intros Hd Hin Hw. destruct (set_value_ok c x ei i v Hi Ht Hin ltac:(lia) Hd) as (r & c1 & E & Hd1 & H).
  exists r, c1. split; [done|]. split; [done|]. intros ->. destruct (H ltac:(lia)) as (vs & Hm & Hr & Hvs & Hwr).
  right. eexists _, vs. split; [exact Hm|]. split; [done|]. intros j Hj.
  destruct (decide (j = i)) as [->|Hne]; [done|]. rewrite (write_at_other _ _ _ _ _ Hwr) by lia.
  destruct Hw as [->|(rs & vs0 & Hm0 & Hr0 & Hall)]; [lia|]. rewrite Hm0 in *.
  destruct (stores_value _ Hd rs (numid ei) vs0 ltac:(lia)) as [_ ->]. apply Hall. lia.
Qed.

Lemma written_read c : card_stores (mdev c) → written_up_to (count ei) c → ∀ j, 0 ≤ j < count ei →
  ∃ c2, mixer_ctl_get_value (Some x) j c = Ok (kept (type ei) v, c2).
Proof using Hi Ht Hv.
  intros Hd [H0|(rs & vs & Hm & Hr & Hall)] j Hj; [lia|].
  eapply (get_stored c x ei rs j v vs (numid ei)); try done; [by rewrite Hr|by apply Hall].
Qed.

Lemma set_all_ok out err left : ∀ i c,
  card_stores (mdev c) → 0 ≤ i → i + Z.of_nat left = count ei → written_up_to i c → ∃ c',
  mdev c' = mdev c ∧
  (set_all left (Some x) i v (Tinymix c out err) = Ok (tt, Tinymix c' out err) ∧ written_up_to (count ei) c' ∨
   set_all left (Some x) i v (Tinymix c out err) = Ok (tt, Tinymix c' out (err ++ [lit "Error: invalid value"]))).
Proof using Hi Ht Hc.
  induction left as [|left IH]; intros i c Hd Hi0 Hl Hw.
  { exists c. split; [done|]. left. split; [done|]. by replace (count ei) with i by lia. }
  destruct (written_next i c Hd ltac:(lia) Hw) as (r & c1 & E & Hd1 & Hw1). cbn [set_all].
  assert (zoom (A := card) (mixer_ctl_set_value (Some x) i v) (Tinymix c out err) = Ok (r, Tinymix c1 out err)) as Ez.
  { unfold zoom. cbn [lget lset tinymix_card tx_card tx_out tx_err]. by rewrite E. }
  rewrite (bind_ok _ _ _ _ _ Ez). destruct (Z.eqb_spec r 0) as [->|Hr]; cbn [negb].
  - destruct (IH (i + 1) c1) as (c' & Hd' & H'); [by rewrite Hd1|lia|lia|by apply Hw1|].
    exists c'. split; [congruence|done].
  - exists c1. split; [done|]. by right.
Qed.
End set.

(** A number that is given for a control is the value of all its channels,
    as the control keeps it, or an error is reported. *)
Theorem tinymix_sets c x ei m id d string out err :
  let v := atoi (d :: string) in
  mixer_get_ctl m id = Ok (Some x) → ctl_info x = Some ei → settable (type ei) → 0 ≤ count ei ≤ 128 →
  isdigit d = true → INT_MIN ≤ v ≤ INT_MAX → card_stores (mdev c) → ∃ c',
  (tinymix_set_value m id (d :: string) (Tinymix c out err) = Ok (tt, Tinymix c' out err) ∧
    ∀ j, 0 ≤ j < count ei → ∃ c2, mixer_ctl_get_value (Some x) j c' = Ok (kept (type ei) v, c2)) ∨
  tinymix_set_value m id (d :: string) (Tinymix c out err) =
    Ok (tt, Tinymix c' out (err ++ [lit "Error: invalid value"])).
Proof.
  intros v Hm Hi Ht Hc Hdig Hv Hd.
  assert (tinymix_set_value m id (d :: string) (Tinymix c out err) =
    set_all (Z.to_nat (count ei)) (Some x) 0 v (Tinymix c out err)) as ->.
  { unfold tinymix_set_value. rewrite (bind_lift _ _ _ _ Hm).
    rewrite bind_lift with (a := type_of (type ei)) by (simpl; by rewrite Hi).
    rewrite bind_lift with (a := count ei) by (simpl; by rewrite Hi). by rewrite Hdig. }
  destruct (set_all_ok x ei v Hi Ht Hc out err (Z.to_nat (count ei)) 0 c Hd) as (c' & Hd' & [[E Hw]|E]);
    [done|lia|by left| |]; exists c'; [left|by right].
  split; [done|]. apply (written_read x ei v Hi Ht Hv); [by rewrite Hd'|done].
Qed.

(** ** Examples *)

Definition demo_switches : mixer :=
  Mixer 3 (Some [demo_switch]) (Some [MixerCtl 3 (Some demo_switch) None]) 1.

Lemma tinymix_sets_witness : ∃ c',
  (tinymix_set_value (Some demo_switches) 0 (lit "1") (Tinymix demo_mixer [] []) = Ok (tt, Tinymix c' [] []) ∧
    ∀ j, 0 ≤ j < 2 → ∃ c2, mixer_ctl_get_value (Some (MixerCtl 3 (Some demo_switch) None)) j c' = Ok (1, c2)) ∨
  tinymix_set_value (Some demo_switches) 0 (lit "1") (Tinymix demo_mixer [] []) =
    Ok (tt, Tinymix c' [] ([] ++ [lit "Error: invalid value"])).
Proof.
  apply (tinymix_sets demo_mixer (MixerCtl 3 (Some demo_switch) None) demo_switch (Some demo_switches) 0 49 [] [] []);
    [done|done|by left|simpl; lia|done|done|exact demo_card_stores].
Defined.

(** The control as it is shown then. *)
Lemma tinymix_shows :
  match (tinymix_set_value (Some demo_switches) 0 (lit "1");; tinymix_detail_control (Some demo_switches) 0 true)
    (Tinymix demo_mixer [] []) with
  | Ok (_, t) => tx_out t = lit ": On On" ++ [10]
  | Err _ => False
  end.
Proof. by vm_compute. Qed.
