(* ===== verification/Resampler.v ===== *)
(** * The resampler: src/upil_audio/audio_utils/resampler.c

    The resampler of the library speex, with the input it keeps and the
    provider of its input.  Speex is a parameter, [speex]; the provider is
    what the client installed, and works on the client's state [P], in which
    the output buffer is, too.  Samples are counted in frames of
    [channel_count] samples; memory from realloc is not initialised.
    Allocations succeed, as the code assumes. *)

From S2P Require Import Prelude CString Pcm.

Definition RESAMPLER_QUALITY_MIN : Z := 0.
Definition RESAMPLER_QUALITY_MAX : Z := 10.
Definition RESAMPLER_QUALITY_VOIP : Z := 3.

(** ** Speex *)

(** What a call takes and gives: the new state, the frames it consumed, and
    the samples it wrote. *)
Record speex_result (Sp : Type) := SpeexResult {
  sp_state : Sp;
  sp_consumed : Z;
  sp_out : list Z;
}.
Arguments SpeexResult {Sp}.
Arguments sp_state {Sp}.
Arguments sp_consumed {Sp}.
Arguments sp_out {Sp}.

(** The functions of <speex/speex_resampler.h>.  The two that process take
    samples and the capacity of the output in frames. *)
Record speex (Sp : Type) := Speex {
  speex_resampler_init : Z → Z → Z → Z → option Sp;
  speex_resampler_process_int : Sp → list Z → Z → speex_result Sp;
  speex_resampler_process_interleaved_int : Sp → list Z → Z → speex_result Sp;
  speex_resampler_reset_mem : Sp → Sp;
  speex_resampler_get_input_latency : Sp → Z;
  speex_resampler_get_output_latency : Sp → Z;
}.
Arguments speex_resampler_init {Sp}.
Arguments speex_resampler_process_int {Sp}.
Arguments speex_resampler_process_interleaved_int {Sp}.
Arguments speex_resampler_reset_mem {Sp}.
Arguments speex_resampler_get_input_latency {Sp}.
Arguments speex_resampler_get_output_latency {Sp}.

(** ** The resampler *)

Abbreviation cells := (list (option Z)).

Record resampler (Sp : Type) := Resampler {
  speex_resampler : option Sp;
  has_provider : bool;
  in_sample_rate : Z;
  out_sample_rate : Z;
  channel_count : Z;
  in_buf : cells;
  in_buf_size : Z;
  frames_in : Z;
  frames_rq : Z;
  frames_needed : Z;
  speex_delay_ns : Z;
}.
Arguments Resampler {Sp}.
Arguments speex_resampler {Sp}.
Arguments has_provider {Sp}.
Arguments in_sample_rate {Sp}.
Arguments out_sample_rate {Sp}.
Arguments channel_count {Sp}.
Arguments in_buf {Sp}.
Arguments in_buf_size {Sp}.
Arguments frames_in {Sp}.
Arguments frames_rq {Sp}.
Arguments frames_needed {Sp}.
Arguments speex_delay_ns {Sp}.

(** [get_next_buffer] is given the number of frames that are wanted, and
    gives the memory from [raw] on, NULL when there is nothing, and the
    number of frames. *)
Record provider (P : Type) := Provider {
  get_next_buffer : Z → M P (option cells * Z);
  release_buffer : Z → M P unit;
}.
Arguments Provider {P}.
Arguments get_next_buffer {P}.
Arguments release_buffer {P}.

Section resampler.
Context {Sp P : Type} (sx : speex Sp).

Abbreviation R := (resampler Sp).

Definition set_request (rq needed : Z) (r : R) : R :=
  Resampler (speex_resampler r) (has_provider r) (in_sample_rate r) (out_sample_rate r)
    (channel_count r) (in_buf r) (in_buf_size r) (frames_in r) rq needed (speex_delay_ns r).
Definition set_input (buf : cells) (size n : Z) (r : R) : R :=
  Resampler (speex_resampler r) (has_provider r) (in_sample_rate r) (out_sample_rate r)
    (channel_count r) buf size n (frames_rq r) (frames_needed r) (speex_delay_ns r).
Definition set_speex (s : Sp) (r : R) : R :=
  Resampler (Some s) (has_provider r) (in_sample_rate r) (out_sample_rate r)
    (channel_count r) (in_buf r) (in_buf_size r) (frames_in r) (frames_rq r) (frames_needed r) (speex_delay_ns r).

(** The pointer is used before it is tested. *)
Definition resampler_reset (r : option R) : res R :=
  r ← deref r;
  let r := set_request 0 (frames_needed r) (set_input (in_buf r) (in_buf_size r) 0 r) in
  mret (match speex_resampler r with
        | Some s => set_speex (speex_resampler_reset_mem sx s) r
        | None => r
        end).

Definition resampler_delay_ns (r : R) : res Z :=
  d ← divide (1000000000 * frames_in r) (in_sample_rate r);
  mret (s32 (s32 d + speex_delay_ns r)).

(** The state of the client, of which the output is a part. *)
Abbreviation MR := (M (R * P)).

Definition on_client {A} (m : M P A) : MR A := λ s,
  match m s.2 with Ok (a, p) => Ok (a, (s.1, p)) | Err e => Err e end.
Definition own : MR R := gets fst.
Definition update (f : R → R) : MR unit := modify (λ s, (f s.1, s.2)).

(** What realloc gives: the old cells, and new ones. *)
Definition realloc (l : cells) (n : Z) : cells := take (Z.to_nat n) (l ++ replicate (Z.to_nat n) None).

(** A call of speex for the frames of the input buffer. *)
Definition process (r : R) (s : Sp) (samples : list Z) (cap : Z) : speex_result Sp :=
  if channel_count r =? 1 then speex_resampler_process_int sx s samples cap
  else speex_resampler_process_interleaved_int sx s samples cap.

(** The input buffer is filled up to what is needed; [false]: the provider
    has nothing. *)
Definition fill_input (pv : provider P) : MR bool :=
  r ← own;
  if frames_in r <? frames_needed r then
    when (in_buf_size r <? frames_needed r)
      (update (set_input (realloc (in_buf r) (frames_needed r * channel_count r)) (frames_needed r) (frames_in r)));;
    b ← on_client (get_next_buffer pv (frames_needed r - frames_in r));
    match b with
    | (None, _) => mret false
    | (Some raw, count) =>
        samples ← lift (slice raw 0 (count * channel_count r));
        r ← own;
        buf ← lift (blit (in_buf r) (frames_in r * channel_count r) samples);
        update (set_input buf (in_buf_size r) (u32 (frames_in r + count)));;
        on_client (release_buffer pv count);;
        mret true
    end
  else mret true.

(** [out]: how samples are stored at an offset of the output.  The results
    are the frames written and those consumed by the last call of speex. *)
Fixpoint provider_loop (fuel : nat) (pv : provider P) (out : Z → list Z → M P unit)
    (rq wr last : Z) : MR (Z * Z) :=
  if rq <=? wr then mret (wr, last) else
  match fuel with
  | O => fail OutOfFuel
  | S f =>
      filled ← fill_input pv;
      if negb filled then mret (wr, last) else
      r ← own;
      s ← lift (deref (speex_resampler r));
      cs ← lift (slice (in_buf r) 0 (frames_in r * channel_count r));
      samples ← lift (defined cs);
      let o := process r s samples (rq - wr) in
      on_client (out (wr * channel_count r) (sp_out o));;
      update (set_speex (sp_state o));;
      update (λ r, set_input (in_buf r) (in_buf_size r) (u32 (frames_in r - sp_consumed o)) r);;
      provider_loop f pv out rq (wr + len (sp_out o) / channel_count r) (sp_consumed o)
  end.

(** The input that is left is moved to the front. *)
Definition keep_rest (last : Z) : MR unit :=
  r ← own;
  if frames_in r =? 0 then skip else
  rest ← lift (slice (in_buf r) (last * channel_count r) (frames_in r * channel_count r));
  buf ← lift (blit (in_buf r) 0 rest);
  update (set_input buf (in_buf_size r) (frames_in r)).

(** The result and [*outFrameCount]. *)
Definition resampler_resample_from_provider (fuel : nat) (pv : provider P)
    (out : option (Z → list Z → M P unit)) (count : Z) : MR (Z * Z) :=
  match out with
  | None => mret (- EINVAL, count)
  | Some out =>
      r ← own;
      if negb (has_provider r) then mret (- ENOSYS, 0) else
      when (negb (count =? frames_rq r))
        (q ← lift (divide (u32 (count * out_sample_rate r)) (in_sample_rate r));
         update (set_request count (u32 (q + 1))));;
      w ← provider_loop fuel pv out count 0 0;
      keep_rest w.2;;
      mret (0, w.1)
  end.

(** The result, the frames consumed and the samples written. *)
Definition resampler_resample_from_input (r : R) (input : option cells) (count cap : Z)
  : res (Z * Z * Z * list Z * R) :=
  match input with
  | None => Ok (- EINVAL, count, cap, [], r)
  | Some input =>
      if has_provider r then Ok (- ENOSYS, count, 0, [], r) else
      s ← deref (speex_resampler r);
      cs ← slice input 0 (count * channel_count r);
      samples ← defined cs;
      let o := process r s samples cap in
      mret (0, sp_consumed o, len (sp_out o) / channel_count r, sp_out o, set_speex (sp_state o) r)
  end.

(** The result and what [*resampler] is. *)
Definition create_resampler (inRate outRate chans quality : Z) (prov : bool) : res (Z * option R) :=
  if (quality <=? RESAMPLER_QUALITY_MIN) || (RESAMPLER_QUALITY_MAX <=? quality) then Ok (- EINVAL, None) else
  match speex_resampler_init sx chans inRate outRate quality with
  | None => Ok (- ENODEV, None)
  | Some s =>
      r ← resampler_reset (Some (Resampler (Some s) prov inRate outRate chans [] 0 0 0 0 0));
      s ← deref (speex_resampler r);
      d1 ← divide (1000000000 * speex_resampler_get_input_latency sx s) inRate;
      d2 ← divide (1000000000 * speex_resampler_get_output_latency sx s) outRate;
      mret (0, Some (Resampler (speex_resampler r) prov inRate outRate chans (in_buf r) (in_buf_size r)
                       (frames_in r) (frames_rq r) (frames_needed r) (s32 (s32 d1 + s32 d2))))
  end.

(** The memory is released, and the state of speex destroyed: it is the
    result. *)
Definition release_resampler (r : option R) : option Sp := r ≫= speex_resampler.
End resampler.
