(* ===== verification/ResamplerProofs.v ===== *)
(** * Properties of the resampler

    What speex and a provider promise, and what the resampler promises on
    top of them: no sample is lost, repeated or reordered on the way from the
    provider to speex, and no memory is used outside its bounds or before it
    is written. *)

From S2P Require Import Prelude CString Pcm Resampler.

(** ** What is relied on *)

(** Speex on a stream of [ch] channels: it consumes all it is given unless
    the output is full.  [fed s] are the samples it has consumed. *)
Record speex_ok {Sp} (sx : speex Sp) (ch : Z) (fed : Sp → list Z) : Prop := {
  speex_runs : ∀ s samples cap n, len samples = n * ch → 0 ≤ n → 0 < cap →
    let o := if ch =? 1 then speex_resampler_process_int sx s samples cap
             else speex_resampler_process_interleaved_int sx s samples cap in
    0 ≤ sp_consumed o ≤ n ∧
    fed (sp_state o) = fed s ++ take (Z.to_nat (sp_consumed o * ch)) samples ∧
    ∃ k, len (sp_out o) = k * ch ∧ 0 ≤ k ≤ cap ∧ (sp_consumed o < n → k = cap);
}.

(** What a provider and an output promise.  [supply p] are the samples that
    are still to come, [sunk p] those that were stored, of which there is
    place for [room] frames. *)
Class Provides {P} (pv : provider P) (out : Z → list Z → M P unit) (ch room : Z) := {
  supply : P → list Z;
  sunk : P → list Z;
  provides_inv : P → Prop;
  provides_next : ∀ p n, provides_inv p → 0 < n →
    match supply p with
    | [] => ∃ k, get_next_buffer pv n p = Ok ((None, k), p)
    | _ => ∃ raw k p1 p2, get_next_buffer pv n p = Ok ((Some raw, k), p1) ∧ 0 < k ≤ n ∧
        slice raw 0 (k * ch) = Ok (Some <$> take (Z.to_nat (k * ch)) (supply p)) ∧
        release_buffer pv k p1 = Ok (tt, p2) ∧ provides_inv p2 ∧
        supply p2 = drop (Z.to_nat (k * ch)) (supply p) ∧ sunk p2 = sunk p ∧ k * ch ≤ len (supply p)
    end;
  provides_out : ∀ p l, provides_inv p → len (sunk p) + len l ≤ room * ch →
    ∃ p', out (len (sunk p)) l p = Ok (tt, p') ∧ provides_inv p' ∧
      sunk p' = sunk p ++ l ∧ supply p' = supply p;
}.

Section resampler.
Context {Sp P : Type} (sx : speex Sp) (pv : provider P) (out : Z → list Z → M P unit).
Context (ch room : Z) (fed : Sp → list Z).
Context (Hch : 0 < ch) (Hsx : speex_ok sx ch fed) `{!Provides pv out ch room}.

Abbreviation R := (resampler Sp).

(** [l] are the samples that wait in the input buffer, [s] is speex. *)
Record holds (r : R) (s : Sp) (l : list Z) : Prop := {
  holds_speex : speex_resampler r = Some s;
  holds_channels : channel_count r = ch;
  holds_size : len (in_buf r) = in_buf_size r * ch;
  holds_frames : 0 ≤ frames_in r ≤ in_buf_size r;
  holds_max : in_buf_size r < 4294967296;
  holds_data : take (Z.to_nat (frames_in r * ch)) (in_buf r) = Some <$> l;
}.

Lemma holds_len r s l : holds r s l → len l = frames_in r * ch.
Proof.
  intros []. rewrite <-(len_fmap Some l), <-holds_data0, len_take. nia.
Qed.

Lemma realloc_len l n : 0 ≤ n → len (realloc l n) = n.
Proof. intros. unfold realloc. rewrite len_take, len_app, len_replicate. pose proof (len_nonneg l). lia. Qed.

Lemma realloc_take l n k : 0 ≤ k ≤ len l → k ≤ n → take (Z.to_nat k) (realloc l n) = take (Z.to_nat k) l.
Proof.
  intros Hk Hn. unfold realloc. rewrite take_take, Nat.min_l by lia. rewrite take_app_le; [done|].
  unfold len in *. lia.
Qed.

(** The fields that a call does not change. *)
Definition same_params (r r' : R) : Prop :=
  frames_needed r' = frames_needed r ∧ frames_rq r' = frames_rq r ∧ has_provider r' = has_provider r ∧
  in_sample_rate r' = in_sample_rate r ∧ out_sample_rate r' = out_sample_rate r.

Lemma grow_input r s l n :
  holds r s l → in_buf_size r ≤ n < 4294967296 →
  holds (set_input (realloc (in_buf r) (n * channel_count r)) n (frames_in r) r) s l.
Proof using Hch.
  intros Hh Hn. pose proof Hh as []. split; simpl; try done; try lia.
  - rewrite realloc_len; rewrite holds_channels0; nia.
  - rewrite <-holds_data0, holds_channels0. apply realloc_take; nia.
Qed.

Lemma fill_append_ok r s l new k :
  holds r s l → len new = k * ch → 0 ≤ k → frames_in r + k ≤ in_buf_size r → ∃ buf,
  blit (in_buf r) (frames_in r * channel_count r) (Some <$> new) = Ok buf ∧
  holds (set_input buf (in_buf_size r) (u32 (frames_in r + k)) r) s (l ++ new).
Proof using Hch.
  intros Hh Hl Hk Hfit. pose proof Hh as [].
  assert (0 ≤ frames_in r * ch) by nia.
  assert (frames_in r * ch + k * ch ≤ in_buf_size r * ch) by nia.
  destruct (blit (in_buf r) (frames_in r * channel_count r) (Some <$> new)) as [buf|] eqn:Hb.
  2:{ rewrite holds_channels0, blit_ok in Hb; [done..|]. by rewrite len_fmap, Hl, holds_size0. }
  exists buf. split; [done|]. rewrite (u32_small (frames_in r + k)) by lia.
  split; simpl; try done; try lia; [by rewrite (blit_len _ _ _ _ Hb)|].
  rewrite holds_channels0, blit_ok in Hb; [|done|by rewrite len_fmap, Hl, holds_size0]. injection Hb as <-.
  rewrite fmap_app, <-holds_data0, app_assoc. apply take_app_length'.
  rewrite length_app, length_take, length_fmap. simpl. rewrite Z.mul_add_distr_r. unfold len in *. lia.
Qed.

Lemma fill_ok r s l p :
  holds r s l → provides_inv p → 0 < frames_needed r < 4294967296 → ∃ b r1 p1 new,
  fill_input pv (r, p) = Ok (b, (r1, p1)) ∧ same_params r r1 ∧ holds r1 s (l ++ new) ∧ provides_inv p1 ∧
  supply p = new ++ supply p1 ∧ sunk p1 = sunk p ∧ in_buf_size r ≤ in_buf_size r1 ∧
  (if b : bool then 0 < frames_in r1 ∧ (new = [] → frames_needed r ≤ frames_in r) else new = [] ∧ supply p1 = []).
Proof using Hch.
  intros Hh Hp Hn. pose proof Hh as []. unfold fill_input, own. rewrite bind_gets. cbn [fst snd].
  destruct (Z.ltb_spec (frames_in r) (frames_needed r)).
  2:{ exists true, r, p, []. rewrite app_nil_r. split_and!; try done. lia. }
  set (r1 := if in_buf_size r <? frames_needed r
    then set_input (realloc (in_buf r) (frames_needed r * channel_count r)) (frames_needed r) (frames_in r) r else r).
  assert (holds r1 s l ∧ same_params r r1 ∧ frames_in r1 = frames_in r ∧
    frames_needed r ≤ in_buf_size r1 ∧ in_buf_size r ≤ in_buf_size r1) as (Hh1 & Hs1 & Hf1 & Hfit & Hgrow).
  { unfold r1. destruct (Z.ltb_spec (in_buf_size r) (frames_needed r)); [|done].
    split_and!; try done; [apply grow_input; [done|lia]|simpl; lia]. }
  rewrite (bind_ok _ _ _ tt (r1, p)) by (unfold r1; by destruct (_ <? _)).
  pose proof (provides_next p (frames_needed r - frames_in r) Hp ltac:(lia)) as Hnext.
  destruct (supply p) as [|x xs] eqn:Es.
  - destruct Hnext as [k E]. rewrite (bind_ok _ _ _ (None, k) (r1, p)) by (unfold on_client; simpl; by rewrite E).
    exists false, r1, p, []. rewrite app_nil_r, Es. by split_and!.
  - destruct Hnext as (raw & k & p1 & p2 & E & Hk & Hraw & Hrel & Hp2 & Hsup & Hsunk & Hlk).
    rewrite <-Es in *. set (new := take (Z.to_nat (k * ch)) (supply p)) in *.
    assert (len new = k * ch) as Hnew by (unfold new; rewrite len_take; nia).
    rewrite (bind_ok _ _ _ (Some raw, k) (r1, p1)) by (unfold on_client; simpl; by rewrite E).
    rewrite (bind_lift _ _ _ (Some <$> new)) by (by rewrite holds_channels0).
    rewrite bind_gets. cbn [fst snd].
    destruct (fill_append_ok r1 s l new k Hh1 Hnew ltac:(lia) ltac:(lia)) as (buf & Hb & Ha).
    rewrite (bind_lift _ _ _ _ Hb). unfold update at 1. rewrite bind_modify. cbn [fst snd].
    rewrite (bind_ok _ _ _ tt (set_input buf (in_buf_size r1) (u32 (frames_in r1 + k)) r1, p2))
      by (unfold on_client; cbn [fst snd]; by rewrite Hrel).
    eexists true, _, p2, new. split; [reflexivity|].
    split; [exact Hs1|]. split; [done|]. split; [done|]. split; [by rewrite Hsup; symmetry; apply take_drop|].
    split; [done|]. split; [done|]. destruct Hh1. split.
    + simpl. rewrite u32_small by lia. lia.
    + intros E0. rewrite E0 in Hnew. change (len []) with 0 in Hnew. nia.
Qed.
(** What is left of the input lies after the [last] frames. *)
Record rests (r : R) (s : Sp) (last : Z) (l : list Z) : Prop := {
  rests_speex : speex_resampler r = Some s;
  rests_channels : channel_count r = ch;
  rests_size : len (in_buf r) = in_buf_size r * ch;
  rests_frames : 0 ≤ last ∧ 0 ≤ frames_in r ∧ last + frames_in r ≤ in_buf_size r;
  rests_max : in_buf_size r < 4294967296;
  rests_data : slice (in_buf r) (last * ch) (frames_in r * ch) = Ok (Some <$> l);
}.

Lemma holds_slice r s l : holds r s l → slice (in_buf r) 0 (frames_in r * ch) = Ok (Some <$> l).
Proof using Hch.
  intros []. rewrite slice_ok by nia. by rewrite drop_0, holds_data0.
Qed.

Lemma holds_rests r s l : holds r s l → rests r s 0 l.
Proof using Hch.
  intros Hh. pose proof Hh as []. split; try done. rewrite Z.mul_0_l. by eapply holds_slice.
Qed.

Lemma rests_nil r s last : rests r s last [] → holds r s [].
Proof using Hch.
  intros []. apply slice_len in rests_data0 as Hl. change (len (Some <$> [])) with 0 in Hl.
  split; try done; [lia|]. replace (frames_in r * ch) with 0 by done. done.
Qed.

Lemma rests_len r s last l : rests r s last l → len l = frames_in r * ch.
Proof using. intros []. apply slice_len in rests_data0. by rewrite len_fmap in rests_data0. Qed.

(** A call of speex. *)
Lemma process_ok r s l cap :
  holds r s l → 0 < cap →
  let o := process sx r s l cap in
  let r' := set_input (in_buf r) (in_buf_size r) (u32 (frames_in r - sp_consumed o)) (set_speex (sp_state o) r) in
  let l' := drop (Z.to_nat (sp_consumed o * ch)) l in
  rests r' (sp_state o) (sp_consumed o) l' ∧ fed (sp_state o) ++ l' = fed s ++ l ∧
  ∃ k, len (sp_out o) = k * ch ∧ 0 ≤ k ≤ cap ∧ (l' ≠ [] → k = cap).
Proof using Hch Hsx.
  intros Hh Hcap o r' l'. pose proof Hh as []. pose proof (holds_len _ _ _ Hh) as Hl.
  destruct (speex_runs _ _ _ Hsx s l cap (frames_in r) Hl ltac:(lia) Hcap) as (Hc & Hfed & k & Hk & Hkb & Hfull).
  assert (o = if ch =? 1 then speex_resampler_process_int sx s l cap
              else speex_resampler_process_interleaved_int sx s l cap) as Eo
    by (unfold o, process; by rewrite holds_channels0).
  rewrite <-Eo in *. set (c := sp_consumed o) in *.
  split; [|split].
  - split; simpl; try done; rewrite ?u32_small by lia; try lia.
    rewrite slice_ok by nia. f_equal. unfold l'. rewrite fmap_drop, <-holds_data0.
    rewrite take_drop_commute. f_equal. f_equal. rewrite Z.mul_sub_distr_r. nia.
  - rewrite Hfed, <-app_assoc. f_equal. apply take_drop.
  - exists k. split_and!; try done; try lia. intros Hne. apply Hfull.
    destruct (decide (c < frames_in r)); [done|]. destruct Hne. unfold l'. apply drop_ge. unfold len in Hl. nia.
Qed.

Lemma rests_empty r s last : holds r s [] → 0 ≤ last ≤ in_buf_size r → rests r s last [].
Proof using Hch.
  intros Hh Hl. pose proof (holds_len _ _ _ Hh) as E. change (len []) with 0 in E. destruct Hh.
  assert (frames_in r = 0) as E0 by nia.
  split; try done; [lia|]. rewrite E0, Z.mul_0_l, slice_ok by nia. done.
Qed.

(** The turns still to come, at most. *)
Definition turns (r : R) (p : P) : nat :=
  length (supply p) + (if (frames_needed r <=? frames_in r)%Z then 1 else 0).

Ltac stop_turn wr last0 r s l p := exists wr, last0, r, s, l, p; split_and!; done || (intros; lia).

Lemma loop_ok fuel r s l p rq wr last0 :
  rests r s last0 l → (wr < rq → holds r s l ∧ (l = [] ∨ last0 = 0) ∧ (turns r p < fuel)%nat ∧
    0 < frames_needed r < 4294967296) →
  provides_inv p → 0 ≤ wr ≤ rq → rq ≤ room → len (sunk p) = wr * ch →
  ∃ n last r' s' l' p',
  provider_loop sx fuel pv out rq wr last0 (r, p) = Ok ((n, last), (r', p')) ∧
  same_params r r' ∧ rests r' s' last l' ∧ provides_inv p' ∧
  wr ≤ n ≤ rq ∧ len (sunk p') = n * ch ∧ (n < rq → supply p' = []) ∧
  fed s' ++ l' ++ supply p' = fed s ++ l ++ supply p.
Proof using Hch Hsx.
  revert r s l p wr last0. induction fuel as [|fuel IH]; intros r s l p wr last0 Hr0 Hgo Hp Hwr Hroom Hsunk;
    cbn [provider_loop]; destruct (Z.leb_spec rq wr) as [|Hlt];
    [stop_turn wr last0 r s l p| |stop_turn wr last0 r s l p|].
  { destruct (Hgo Hlt) as (_ & _ & Hf & _). lia. }
  destruct (Hgo Hlt) as (Hh & Hlast & Hfuel & Hn). unfold turns in *.
  destruct (fill_ok r s l p Hh Hp Hn) as (b & r1 & p1 & new & E1 & Hs1 & Hh1 & Hp1 & Hsup & Hsunk1 & Hgrow & Hb).
  rewrite (bind_ok _ _ _ _ _ E1). destruct b; cbn [negb].
  2:{ destruct Hb as [-> Hnil]. rewrite app_nil_r in Hh1.
      exists wr, last0, r1, s, l, p1. split_and!; try done; try lia; [|congruence|by rewrite Hsup].
      destruct Hlast as [->| ->]; [|by apply holds_rests]. apply rests_empty; [done|]. destruct Hr0. lia. }
  unfold own at 1. rewrite bind_gets. cbn [fst]. pose proof (holds_len _ _ _ Hh1) as Hl1.
  rewrite (bind_lift _ _ _ s) by (by rewrite (holds_speex _ _ _ Hh1)).
  rewrite (holds_channels _ _ _ Hh1), (bind_lift _ _ _ _ (holds_slice _ _ _ Hh1)), (bind_lift _ _ _ _ (defined_some _)).
  destruct (process_ok r1 s (l ++ new) (rq - wr) Hh1 ltac:(lia)) as (Hr & Hcons & k & Hk & Hkb & Hfull).
  set (o := process sx r1 s (l ++ new) (rq - wr)) in *.
  destruct (provides_out p1 (sp_out o) Hp1) as (p2 & Eo & Hp2 & Hsunk2 & Hsup2); [rewrite Hsunk1, Hsunk, Hk; nia|].
  rewrite (bind_ok _ _ _ tt (r1, p2)) by (unfold on_client; cbn [fst snd]; rewrite <-Hsunk, <-Hsunk1; by rewrite Eo).
  unfold update at 1 2. rewrite !bind_modify. cbn [fst snd]. rewrite Hk, Z.div_mul by lia.
  change (set_input _ _ _ (set_speex (sp_state o) r1))
    with (set_input (in_buf r1) (in_buf_size r1) (u32 (frames_in r1 - sp_consumed o)) (set_speex (sp_state o) r1)).
  set (r2 := set_input _ _ _ _) in *. set (l2 := drop _ _) in *.
  assert (same_params r r2) as Hs2 by exact Hs1.
  destruct (IH r2 (sp_state o) l2 p2 (wr + k) (sp_consumed o)) as
    (n & last & r' & s' & l' & p' & E & Hs' & Hr' & Hp' & Hn' & Hsunk' & Hdry & Hall); try done; try lia.
  { intros Hlt2. assert (l2 = []) as E2 by (destruct l2; [done|]; assert (k = rq - wr) by (by apply Hfull); lia).
    rewrite E2 in *. split; [by eapply rests_nil|]. split; [by left|].
    pose proof (rests_len _ _ _ _ Hr) as E0. change (len []) with 0 in E0.
    assert (frames_in r2 = 0) as -> by nia. rewrite (proj1 Hs2), Hsup2. split; [|done].
    rewrite (proj2 (Z.leb_gt _ _)) by lia. rewrite Hsup, length_app in Hfuel.
    destruct new as [|y new]; simpl in Hfuel; [|lia].
    rewrite (proj2 (Z.leb_le _ _)) in Hfuel by (by apply Hb). lia. }
  { rewrite Hsunk2, len_app, Hsunk1, Hsunk, Hk. lia. }
  exists n, last, r', s', l', p'. split; [done|]. split_and!; try done; try lia.
  - unfold same_params in *. destruct Hs2 as (?&?&?&?&?), Hs' as (?&?&?&?&?). split_and!; congruence.
  - rewrite Hall, app_assoc, Hcons, Hsup2, Hsup. by rewrite <-!app_assoc.
Qed.

Lemma keep_rest_ok r s last l (p : P) :
  rests r s last l → ∃ r', keep_rest last (r, p) = Ok (tt, (r', p : P)) ∧ same_params r r' ∧ holds r' s l.
Proof using Hch.
  intros Hr. pose proof (rests_len _ _ _ _ Hr) as Hl. pose proof Hr as [].
  unfold keep_rest, own. rewrite bind_gets. cbn [fst]. destruct (Z.eqb_spec (frames_in r) 0) as [E|].
  { exists r. split; [done|]. split; [done|]. rewrite E in Hl. destruct l; [by eapply rests_nil|]. unfold len in Hl. simpl in Hl. lia. }
  rewrite rests_channels0, (bind_lift _ _ _ _ rests_data0).
  assert (0 + len (Some <$> l) ≤ len (in_buf r)) as Hfit by (rewrite len_fmap, Hl, rests_size0; nia).
  rewrite (bind_lift _ _ _ _ (blit_ok _ 0 (Some <$> l) ltac:(lia) Hfit)).
  eexists. split; [reflexivity|]. split; [done|].
  assert (len (Some <$> l) = frames_in r * ch) as Hl' by (by rewrite len_fmap).
  split; simpl; try done; [|lia|].
  - rewrite !len_app, len_drop, Hl', rests_size0. nia.
  - apply take_app_length'. unfold len in Hl'. lia.
Qed.

(** A resampler between two calls. *)
Record resampler_ok (r : R) (s : Sp) (l : list Z) : Prop := {
  ok_holds : holds r s l;
  ok_provider : has_provider r = true;
  ok_rates : 1 < in_sample_rate r;
  ok_needed : frames_rq r = 0 ∨ 0 < frames_needed r < 4294967296;
}.

(** C20: however the provider deals out its samples, they go to speex each
    once and in order, also over several calls: what speex has consumed,
    what waits and what is to come are together always the same stream.  The
    call ends, writes no more than was asked for, and writes less only when
    the provider has nothing left. *)
Theorem from_provider_conserves fuel r s l p count :
  resampler_ok r s l → provides_inv p → sunk p = [] → 0 ≤ count ≤ room →
  (S (length (supply p)) < fuel)%nat → ∃ n r' s' l' p',
  resampler_resample_from_provider sx fuel pv (Some out) count (r, p) = Ok ((0, n), (r', p')) ∧
  resampler_ok r' s' l' ∧ provides_inv p' ∧
  0 ≤ n ≤ count ∧ len (sunk p') = n * ch ∧ (n < count → supply p' = []) ∧
  fed s' ++ l' ++ supply p' = fed s ++ l ++ supply p.
Proof using Hch Hsx.
  intros [Hh Hprov Hrate Hneed] Hp Hsunk Hcount Hfuel.
  unfold resampler_resample_from_provider, own. rewrite bind_gets. cbn [fst]. rewrite Hprov. cbn [negb].
  set (q := u32 (u32 (count * out_sample_rate r) / in_sample_rate r + 1)).
  set (r1 := if count =? frames_rq r then r else set_request count q r).
  rewrite (bind_ok _ _ _ tt (r1, p)).
  2:{ unfold r1, divide. destruct (count =? frames_rq r); [done|]. cbn [negb when].
      destruct (Z.eqb_spec (in_sample_rate r) 0); [lia|]. done. }
  assert (0 < q < 4294967296) as Hq.
  { unfold q. pose proof (u32_range (count * out_sample_rate r)) as Hu.
    set (x := u32 (count * out_sample_rate r)) in *. assert (0 ≤ x / in_sample_rate r) by (apply Z.div_pos; lia).
    assert (x / in_sample_rate r ≤ 2147483648) by (apply Z.div_le_upper_bound; nia).
    rewrite u32_small; lia. }
  assert (holds r1 s l ∧ has_provider r1 = true ∧ 1 < in_sample_rate r1 ∧ frames_rq r1 = count ∧
    (count = 0 ∨ 0 < frames_needed r1 < 4294967296)) as (Hh1 & Hprov1 & Hrate1 & Hrq1 & Hneed1).
  { unfold r1. destruct (Z.eqb_spec count (frames_rq r)) as [->|]; [done|].
    split_and!; try done; [|by right]. destruct Hh. by split. }
  destruct (loop_ok fuel r1 s l p count 0 0) as (n & last & r2 & s2 & l2 & p2 & E & Hs2 & Hr2 & Hp2 & Hn & Hk & Hdry & Hall);
    try done; try lia.
  { by apply holds_rests. }
  { intros Hlt. split; [done|]. split; [by right|]. unfold turns.
    split; [destruct (_ <=? _); lia|]. destruct Hneed1; [lia|done]. }
  { by rewrite Hsunk. }
  rewrite (bind_ok _ _ _ _ _ E). cbn [fst snd].
  destruct (keep_rest_ok r2 s2 last l2 p2 Hr2) as (r3 & E3 & Hs3 & Hh3). rewrite (bind_ok _ _ _ _ _ E3).
  exists n, r3, s2, l2, p2. split; [done|]. split; [|split_and!; first [done|lia]].
  destruct Hs2 as (A1 & A2 & A3 & A4 & _), Hs3 as (B1 & B2 & B3 & B4 & _).
  split; [done|congruence|congruence|]. rewrite B1, A1, B2, A2, Hrq1. done.
Qed.
End resampler.

(** ** Examples *)

(** A resampler that changes nothing, on one channel; its state is what it
    was fed. *)
Definition copy_frames (s : list Z) (samples : list Z) (cap : Z) : speex_result (list Z) :=
  let l := take (Z.to_nat cap) samples in SpeexResult (s ++ l) (len l) l.
Definition copy_speex : speex (list Z) :=
  Speex _ (λ _ _ _ _, Some []) copy_frames copy_frames id (λ _, 0) (λ _, 0).

Lemma copy_speex_ok : speex_ok copy_speex 1 id.
Proof.
  split. intros s samples cap n Hl Hn Hcap. simpl. rewrite Z.mul_1_r in Hl. subst n.
  pose proof (len_take (Z.to_nat cap) samples) as Ht. split; [lia|]. split.
  - unfold id. f_equal. rewrite Z.mul_1_r, Ht. destruct (Z.le_gt_cases cap (len samples)).
    + f_equal. lia.
    + rewrite !take_ge; [done|unfold len in *; lia..].
  - exists (len (take (Z.to_nat cap) samples)). rewrite Z.mul_1_r. split; [done|]. lia.
Qed.

(** A list of samples, and what was stored. *)
Definition list_provider : provider (list Z * list Z) :=
  Provider
    (λ n s, Ok (match s.1 with [] => (None, 0) | _ => (Some (Some <$> s.1), Z.min n (len s.1)) end, s))
    (λ n s, Ok (tt, (drop (Z.to_nat n) s.1, s.2))).
Definition list_out (off : Z) (l : list Z) : M (list Z * list Z) unit :=
  λ s, Ok (tt, (s.1, take (Z.to_nat off) s.2 ++ l)).

#[export] Instance list_provides room : Provides list_provider list_out 1 room.
Proof.
  refine {| supply := fst; sunk := snd; provides_inv := λ _, True |}.
  - intros [sup snk] n _ Hn. simpl. destruct sup as [|x sup]; [by exists 0|]. set (l := x :: sup).
    assert (0 < len l) by (unfold len, l; simpl; lia).
    exists (Some <$> l), (Z.min n (len l)), (l, snk), (drop (Z.to_nat (Z.min n (len l))) l, snk).
    rewrite Z.mul_1_r. split_and!; try done; try lia.
    rewrite slice_ok by (rewrite ?len_fmap; lia). by rewrite drop_0, fmap_take.
  - intros [sup snk] l _ Hl. exists (sup, snk ++ l). split_and!; try done. unfold list_out. simpl.
    do 3 f_equal. unfold len. rewrite Nat2Z.id. by rewrite firstn_all.
Defined.

Lemma from_provider_conserves_witness :
  let r := Resampler (Some []) true 8000 8000 1 [] 0 0 0 0 0 in ∃ n r' s' l' p',
  resampler_resample_from_provider copy_speex 7 list_provider (Some list_out) 3 (r, ([5; 6; 7; 8; 9], [])) =
    Ok ((0, n), (r', p')) ∧
  resampler_ok 1 r' s' l' ∧ True ∧ 0 ≤ n ≤ 3 ∧ len p'.2 = n * 1 ∧ (n < 3 → p'.1 = []) ∧
  s' ++ l' ++ p'.1 = [] ++ [] ++ [5; 6; 7; 8; 9].
Proof.
  intros r.
  refine (from_provider_conserves copy_speex list_provider list_out 1 3 id ltac:(lia) copy_speex_ok
    (Provides0 := list_provides 3) 7 r [] [] ([5; 6; 7; 8; 9], []) 3 _ I eq_refl _ _); [|lia|simpl; lia].
  split; try done; by left.
Defined.
