(* ===== verification/EchoReference.v ===== *)
(** * The echo reference: src/upil_audio/audio_utils/echo_reference.c

    What is played is written into a buffer, converted to the format of the
    capture, and read back aligned in time with what is captured.  Buffers
    are their samples; memory from realloc is not initialised, and an empty
    buffer is NULL.  Allocations succeed, as the code assumes.  A writer may
    run while a reader waits: [during] is what other threads do then.  The
    reader moves frames within its buffer by memcpy, which is undefined when
    the two places overlap: that is the fault [Overlap]. *)

From S2P Require Import Prelude CString Pcm Resampler.

Definition ECHOREF_IDLE : Z := 0.
Definition ECHOREF_READING : Z := 1.
Definition ECHOREF_WRITING : Z := 2.
Definition AUDIO_FORMAT_PCM_16_BIT : Z := 1.
Definition MIN_DELAY_UPDATE_NS : Z := 62500.

Abbreviation s64 := (wrapS 64).

(** What [wr_src_buf] points to: nothing, [wr_buf], or the caller's buffer. *)
Inductive src_buf : Type :=
  | Src_null
  | Src_wr_buf
  | Src_raw (l : cells).

Record echo_buffer := EchoBuffer {
  raw : cells;
  frame_count : Z;
  delay_ns : Z;
  time_stamp : Z * Z;
}.

Record echo_reference (Sp : Type) := EchoReference {
  er_state : Z;
  rd_channel_count : Z;
  rd_sampling_rate : Z;
  wr_channel_count : Z;
  wr_sampling_rate : Z;
  buffer : cells;
  buf_size : Z;
  er_frames_in : Z;
  wr_buf : cells;
  wr_buf_size : Z;
  wr_frames_in : Z;
  wr_src_buf : src_buf;
  wr_render_time : Z * Z;
  playback_delay : Z;
  down_sampler : option (resampler Sp);
}.
Arguments EchoReference {Sp}.
Arguments er_state {Sp}.
Arguments rd_channel_count {Sp}.
Arguments rd_sampling_rate {Sp}.
Arguments wr_channel_count {Sp}.
Arguments wr_sampling_rate {Sp}.
Arguments buffer {Sp}.
Arguments buf_size {Sp}.
Arguments er_frames_in {Sp}.
Arguments wr_buf {Sp}.
Arguments wr_buf_size {Sp}.
Arguments wr_frames_in {Sp}.
Arguments wr_src_buf {Sp}.
Arguments wr_render_time {Sp}.
Arguments playback_delay {Sp}.
Arguments down_sampler {Sp}.

Section echo.
Context {Sp : Type} (sx : speex Sp).

Abbreviation E := (echo_reference Sp).
Abbreviation ME := (M E).

Definition set_er_state (n : Z) (e : E) : E :=
  EchoReference n (rd_channel_count e) (rd_sampling_rate e) (wr_channel_count e) (wr_sampling_rate e)
    (buffer e) (buf_size e) (er_frames_in e) (wr_buf e) (wr_buf_size e) (wr_frames_in e) (wr_src_buf e)
    (wr_render_time e) (playback_delay e) (down_sampler e).
Definition set_buffer (l : cells) (size n : Z) (e : E) : E :=
  EchoReference (er_state e) (rd_channel_count e) (rd_sampling_rate e) (wr_channel_count e) (wr_sampling_rate e)
    l size n (wr_buf e) (wr_buf_size e) (wr_frames_in e) (wr_src_buf e)
    (wr_render_time e) (playback_delay e) (down_sampler e).
Definition set_wr_buf (l : cells) (size : Z) (e : E) : E :=
  EchoReference (er_state e) (rd_channel_count e) (rd_sampling_rate e) (wr_channel_count e) (wr_sampling_rate e)
    (buffer e) (buf_size e) (er_frames_in e) l size (wr_frames_in e) (wr_src_buf e)
    (wr_render_time e) (playback_delay e) (down_sampler e).
Definition set_source (n : Z) (s : src_buf) (e : E) : E :=
  EchoReference (er_state e) (rd_channel_count e) (rd_sampling_rate e) (wr_channel_count e) (wr_sampling_rate e)
    (buffer e) (buf_size e) (er_frames_in e) (wr_buf e) (wr_buf_size e) n s
    (wr_render_time e) (playback_delay e) (down_sampler e).
Definition set_render (t : Z * Z) (delay : Z) (e : E) : E :=
  EchoReference (er_state e) (rd_channel_count e) (rd_sampling_rate e) (wr_channel_count e) (wr_sampling_rate e)
    (buffer e) (buf_size e) (er_frames_in e) (wr_buf e) (wr_buf_size e) (wr_frames_in e) (wr_src_buf e)
    t delay (down_sampler e).
Definition set_down (r : option (resampler Sp)) (e : E) : E :=
  EchoReference (er_state e) (rd_channel_count e) (rd_sampling_rate e) (wr_channel_count e) (wr_sampling_rate e)
    (buffer e) (buf_size e) (er_frames_in e) (wr_buf e) (wr_buf_size e) (wr_frames_in e) (wr_src_buf e)
    (wr_render_time e) (playback_delay e) r.

(** ** The provider of the resampler *)

Definition src_cells (e : E) : cells :=
  match wr_src_buf e with Src_null => [] | Src_wr_buf => wr_buf e | Src_raw l => l end.

(** The place of the next frame is counted from the end of [wr_buf],
    whatever the length of the source. *)
Definition echo_reference_get_next_buffer (n : Z) : ME (option cells * Z) :=
  e ← get;
  match wr_src_buf e with
  | Src_null => mret (None, 0)
  | _ =>
      if wr_frames_in e =? 0 then mret (None, 0) else
      let count := if wr_frames_in e <? n then wr_frames_in e else n in
      let off := u32 (wr_buf_size e - wr_frames_in e) * rd_channel_count e in
      if len (src_cells e) <? off then fail Overrun else
      mret (Some (drop (Z.to_nat off) (src_cells e)), count)
  end.

Definition echo_reference_release_buffer (n : Z) : ME unit :=
  modify (λ e, set_source (u32 (wr_frames_in e - n)) (wr_src_buf e) e).

Definition echo_provider : provider E :=
  Provider echo_reference_get_next_buffer echo_reference_release_buffer.

(** [wr_buf] as the output. *)
Definition wr_out (off : Z) (l : list Z) : ME unit :=
  e ← get;
  b ← lift (blit (wr_buf e) off (Some <$> l));
  put (set_wr_buf b (wr_buf_size e) e).

(** ** Writing *)

Definition echo_reference_reset_l (e : E) : E :=
  set_render (0, 0) (playback_delay e) (set_wr_buf [] 0 (set_buffer [] 0 0 e)).

(** The mean of two samples. *)
Fixpoint mono (l : list Z) : list Z :=
  match l with
  | a :: b :: l' => wrapS 16 (Z.shiftr (a + b) 1) :: mono l'
  | _ => []
  end.

Definition zero_time (t : Z * Z) : bool := (t.1 =? 0) && (t.2 =? 0).

Definition grow_wr_buf (count : Z) : ME unit :=
  modify (λ e, if wr_buf_size e <? count
               then set_wr_buf (realloc (wr_buf e) (count * rd_channel_count e)) count e else e).

(** Stereo to mono: always two channels to one. *)
Definition mix_down (b : echo_buffer) : ME unit :=
  e ← get;
  cs ← lift (slice (raw b) 0 (2 * frame_count b));
  samples ← lift (defined cs);
  w ← lift (blit (wr_buf e) 0 (Some <$> mono samples));
  put (set_wr_buf w (wr_buf_size e) e).

(** [false]: there is no resampler. *)
Definition ensure_resampler : ME bool :=
  e ← get;
  match down_sampler e with
  | Some _ => mret true
  | None =>
      rc ← lift (create_resampler sx (wr_sampling_rate e) (rd_sampling_rate e) (rd_channel_count e)
                   RESAMPLER_QUALITY_VOIP true);
      if negb (rc.1 =? 0) then mret false else put (set_down rc.2 e);; mret true
  end.

(** The resampler works on the state, of which it is a part. *)
Definition run_resampler (fuel : nat) (r : resampler Sp) (out : option (Z → list Z → ME unit)) (count : Z)
  : ME Z := λ e,
  match resampler_resample_from_provider sx fuel echo_provider out count (r, e) with
  | Ok ((_, n), (r', e')) => Ok (n, set_down (Some r') e')
  | Err x => Err x
  end.

(** The number of frames that were produced. *)
Definition down_sample (fuel : nat) (b : echo_buffer) : ME Z :=
  e ← get;
  r ← lift (deref (down_sampler e));
  put (set_source (frame_count b)
         (if rd_channel_count e =? wr_channel_count e then Src_raw (raw b)
          else match wr_buf e with [] => Src_null | _ => Src_wr_buf end) e);;
  run_resampler fuel r (match wr_buf e with [] => None | _ => Some wr_out end) (frame_count b).

(** The frames to add in the format of the capture; [None]: there is no
    resampler. *)
Definition convert (fuel : nat) (b : echo_buffer) : ME (option (cells * Z)) :=
  e ← get;
  let chans := negb (rd_channel_count e =? wr_channel_count e) in
  let rates := negb (wr_sampling_rate e =? rd_sampling_rate e) in
  if chans || rates then
    grow_wr_buf (frame_count b);;
    when chans (mix_down b);;
    if rates then
      ok ← ensure_resampler;
      if negb ok then mret None else
      n ← down_sample fuel b;
      e ← get; mret (Some (wr_buf e, n))
    else e ← get; mret (Some (wr_buf e, frame_count b))
  else mret (Some (raw b, frame_count b)).

Definition append_frames (src : cells) (n : Z) : ME unit :=
  e ← get;
  let total := u32 (er_frames_in e + n) in
  let '(buf, size) := if buf_size e <? total
                      then (realloc (buffer e) (total * rd_channel_count e), total)
                      else (buffer e, buf_size e) in
  cs ← lift (slice src 0 (n * rd_channel_count e));
  buf ← lift (blit buf (er_frames_in e * rd_channel_count e) cs);
  put (set_buffer buf size total e).

Definition start_write : ME unit :=
  e ← get;
  if Z.land (er_state e) ECHOREF_WRITING =? 0 then
    match down_sampler e with
    | Some r => r ← lift (resampler_reset sx (Some r)); put (set_down (Some r) e)
    | None => skip
    end;;
    modify (λ e, set_er_state (Z.lor (er_state e) ECHOREF_WRITING) e)
  else skip.

Definition echo_reference_write (fuel : nat) (b : option echo_buffer) : ME Z :=
  match b with
  | None =>
      modify (λ e, echo_reference_reset_l (set_er_state (Z.land (er_state e) (Z.lnot ECHOREF_WRITING)) e));;
      mret 0
  | Some b =>
      e ← get;
      if zero_time (time_stamp b) && zero_time (wr_render_time e) then mret 0 else
      start_write;;
      e ← get;
      if Z.land (er_state e) ECHOREF_READING =? 0 then mret 0 else
      modify (set_render (time_stamp b) (delay_ns b));;
      c ← convert fuel b;
      match c with
      | None => mret (- ENODEV)
      | Some (src, n) => append_frames src n;; mret 0
      end
  end.

(** ** Reading *)

(** [memcpy(buf, buf + off, n)] *)
Definition memcpy_down (buf : cells) (off n : Z) : res cells :=
  if off <? n then Err Overlap else cs ← slice buf off n; blit buf 0 cs.

(** The time from what was rendered to what is captured. *)
Definition time_diff (rd wr : Z * Z) : Z :=
  let '(s, ns) := if rd.2 <? wr.2
                  then (s32 (rd.1 - wr.1 - 1), s32 (1000000000 + rd.2 - wr.2))
                  else (s32 (rd.1 - wr.1), s32 (rd.2 - wr.2)) in
  s64 (s * 1000000000 + ns).

(** [abs] takes an [int]. *)
Definition c_abs (x : Z) : Z := s32 (Z.abs (s32 x)).

(** The buffer is brought to the delay that is expected: silence is added at
    its end, or its oldest frames are dropped; [n] frames are going to be
    read. *)
Definition align (n expected : Z) : ME unit :=
  e ← get;
  let ch := rd_channel_count e in
  let previous := er_frames_in e in
  have ← lift (divide (previous * 1000000000) (rd_sampling_rate e));
  let delay := s64 (have - expected) in
  if c_abs delay <? MIN_DELAY_UPDATE_NS then skip else
  let target := Z.quot (s64 (expected * rd_sampling_rate e)) 1000000000 in
  if delay <? 0 then
    let frames := u32 target in
    let offset := s32 (frames - previous) in
    let '(buf, size) := if buf_size e <? frames then (realloc (buffer e) (frames * ch), frames)
                        else (buffer e, buf_size e) in
    buf ← lift (if 0 <? offset then blit buf (previous * ch) (replicate (Z.to_nat (offset * ch)) (Some 0)) else Ok buf);
    put (set_buffer buf size frames e)
  else
    let framesInInt := s32 target in
    let offset := s32 (previous - framesInInt) in
    if framesInInt <? s32 n then
      buf ← lift (if 0 <? framesInInt
                  then blit (buffer e) (framesInInt * ch) (replicate (Z.to_nat ((n - framesInInt) * ch)) (Some 0))
                  else Ok (buffer e));
      put (set_buffer buf (buf_size e) n e)
    else
      buf ← lift (if 0 <? offset
                  then memcpy_down (buffer e) (offset * ch) (framesInInt * ch)
                  else Ok (buffer e));
      put (set_buffer buf (buf_size e) (u32 framesInInt) e).

Definition expected_delay (e : E) (b : echo_buffer) : Z :=
  s64 (s32 (playback_delay e + delay_ns b) - time_diff (time_stamp b) (wr_render_time e)).

(** The frames are given out, and the others moved to the front. *)
Definition take_frames (b : echo_buffer) (n : Z) : ME echo_buffer :=
  e ← get;
  let ch := rd_channel_count e in
  cs ← lift (slice (buffer e) 0 (n * ch));
  out ← lift (blit (raw b) 0 cs);
  let left := u32 (er_frames_in e - n) in
  buf ← lift (memcpy_down (buffer e) (n * ch) (left * ch));
  put (set_buffer buf (buf_size e) left e);;
  mret (EchoBuffer out n 0 (time_stamp b)).

(** How long a reader waits, in milliseconds. *)
Definition read_timeout (e : E) (count : Z) : res Z :=
  t ← divide (u32 (1000 * count)) (rd_sampling_rate e); mret (t / 2).

Definition echo_reference_read (during : ME unit) (b : option echo_buffer) : ME (Z * option echo_buffer) :=
  match b with
  | None =>
      modify (λ e, set_er_state (Z.land (er_state e) (Z.lnot ECHOREF_READING)) e);; mret (0, None)
  | Some b =>
      modify (λ e, if Z.land (er_state e) ECHOREF_READING =? 0
                   then set_er_state (Z.lor (er_state e) ECHOREF_READING) (echo_reference_reset_l e) else e);;
      e ← get;
      if Z.land (er_state e) ECHOREF_WRITING =? 0 then
        out ← lift (blit (raw b) 0 (replicate (Z.to_nat (rd_channel_count e * frame_count b)) (Some 0)));
        mret (0, Some (EchoBuffer out (frame_count b) 0 (time_stamp b)))
      else
      n ← (if er_frames_in e <? frame_count b then
             lift (read_timeout e (frame_count b));;
             during;;
             gets (λ e, if er_frames_in e <? frame_count b then er_frames_in e else frame_count b)
           else mret (frame_count b));
      e ← get;
      (if zero_time (wr_render_time e) || zero_time (time_stamp b) then skip
       else let expected := expected_delay e b in
            if 0 <? expected then align n expected else skip);;
      b ← take_frames b n;
      mret (0, Some b)
  end.

(** ** Creation *)

(** The result and what [*echo_reference] is. *)
Definition create_echo_reference (rdFormat rdChans rdRate wrFormat wrChans wrRate : Z) : Z * option E :=
  if negb (rdFormat =? AUDIO_FORMAT_PCM_16_BIT) || negb (rdFormat =? wrFormat) then (- EINVAL, None) else
  if (negb (rdChans =? 1) && negb (rdChans =? 2)) || negb (wrChans =? 2) then (- EINVAL, None) else
  if wrRate <? rdRate then (- EINVAL, None) else
  (0, Some (EchoReference ECHOREF_IDLE rdChans rdRate wrChans wrRate [] 0 0 [] 0 0 Src_null (0, 0) 0 None)).

(** The state of speex that is destroyed. *)
Definition release_echo_reference (e : option E) : option Sp :=
  match e with
  | None => None
  | Some e =>
      let e := echo_reference_reset_l e in
      match down_sampler e with Some r => release_resampler (Some r) | None => None end
  end.
End echo.
