(* ===== verification/EchoProofs.v ===== *)
(** * Properties of the echo reference

    The buffer is a queue of frames: what is written is added to it in the
    format of the capture, and what is read is the queue as [aligned] brings
    it to the delay that is expected. *)

From S2P Require Import Prelude CString Pcm Resampler ResamplerProofs EchoReference.

(** ** The queue *)

Section echo.
Context {Sp : Type} (sx : speex Sp).

Abbreviation E := (echo_reference Sp).

(** [q] are the samples of the queue. *)
Record echo_ok (e : E) (q : list Z) : Prop := {
  echo_channels : rd_channel_count e = 1 ∨ rd_channel_count e = 2;
  echo_written : wr_channel_count e = 2;
  echo_rates : 0 < rd_sampling_rate e ≤ wr_sampling_rate e ∧ wr_sampling_rate e < 4294967296;
  echo_size : len (buffer e) = buf_size e * rd_channel_count e;
  echo_frames : 0 ≤ er_frames_in e ∧ buf_size e ≤ INT_MAX;
  echo_len : len q = er_frames_in e * rd_channel_count e;
  echo_data : ∃ rest, buffer e = (Some <$> q) ++ rest;
  echo_wr_size : 0 ≤ wr_buf_size e ∧ len (wr_buf e) = wr_buf_size e * rd_channel_count e;
}.

Lemma echo_fits e q : echo_ok e q → er_frames_in e ≤ buf_size e.
Proof.
  intros []. destruct echo_data0 as [rest Hb]. rewrite Hb, len_app, len_fmap in echo_size0.
  pose proof (len_nonneg rest). destruct echo_channels0 as [Hc|Hc]; rewrite Hc in *; lia.
Qed.

Lemma realloc_grow {A : Type} (l : cells) n : len l ≤ n → ∃ rest, realloc l n = l ++ rest ∧ len (realloc l n) = n.
Proof.
  intros H. unfold realloc. exists (replicate (Z.to_nat n - length l) None).
  assert (take (Z.to_nat n) (l ++ replicate (Z.to_nat n) None) = l ++ replicate (Z.to_nat n - length l) None) as ->.
  { rewrite take_app_ge by (unfold len in *; lia). f_equal. rewrite take_replicate. f_equal. unfold len in *. lia. }
  split; [done|]. rewrite len_app, len_replicate. unfold len in *. lia.
Qed.

Lemma append_ok e q src n l :
  echo_ok e q → 0 ≤ n → er_frames_in e + n ≤ INT_MAX → len l = n * rd_channel_count e →
  slice src 0 (n * rd_channel_count e) = Ok (Some <$> l) → ∃ e',
  append_frames src n e = Ok (tt, e') ∧ echo_ok e' (q ++ l) ∧
  (∃ b s, e' = set_buffer b s (er_frames_in e + n) e).
Proof.
  intros Hok Hn Hmax Hl Hs. pose proof (echo_fits _ _ Hok) as Hfit. pose proof Hok as [].
  unfold append_frames. rewrite bind_get. rewrite (u32_small (_ + n)) by (unfold INT_MAX in *; lia).
  set (total := er_frames_in e + n) in *. destruct echo_data0 as [rest Hb].
  assert (∃ buf size, (if buf_size e <? total then (realloc (buffer e) (total * rd_channel_count e), total)
      else (buffer e, buf_size e)) = (buf, size) ∧ len buf = size * rd_channel_count e ∧
      (∃ rest', buf = (Some <$> q) ++ rest') ∧ total ≤ size ≤ INT_MAX) as (buf & size & -> & Hlen & [rest' Hb'] & Hsz).
  { destruct (Z.ltb_spec (buf_size e) total); eexists _, _; (split; [reflexivity|]).
    - destruct (realloc_grow (A := Z) (buffer e) (total * rd_channel_count e)) as (r & Er & Hr).
      { rewrite echo_size0. destruct echo_channels0 as [Hc|Hc]; rewrite Hc; lia. }
      split; [done|]. split; [|unfold total; lia]. exists (rest ++ r). by rewrite Er, Hb, app_assoc.
    - split; [done|]. split; [by exists rest|lia]. }
  rewrite (bind_lift _ _ _ _ Hs). rewrite Hb' in *.
  assert (er_frames_in e * rd_channel_count e = len (Some <$> q)) as -> by (by rewrite len_fmap, echo_len0).
  assert (len (Some <$> l) ≤ len rest') as Hroom.
  { rewrite len_app, !len_fmap in Hlen. rewrite len_fmap.
    destruct echo_channels0 as [Hc|Hc]; rewrite Hc in *; unfold total in *; lia. }
  rewrite (bind_lift _ _ _ _ (blit_prefix _ _ _ Hroom)).
  eexists. split; [reflexivity|]. split; [|by eexists _, _].
  split; simpl; try done; try lia.
  - rewrite !len_app, len_drop, !len_fmap in *. unfold len in *. rewrite length_fmap. lia.
  - rewrite len_app, Hl, echo_len0. lia.
  - rewrite fmap_app. by eexists.
Qed.

(** ** Writing *)

Lemma mono_len n l : length l = (2 * n)%nat → length (mono l) = n.
Proof.
  revert l. induction n as [|n IH]; intros l Hl.
  - by destruct l.
  - destruct l as [|a [|b l]]; simpl in *; try lia. f_equal. apply IH. lia.
Qed.

(** What is added to the queue for the stereo samples [l]. *)
Definition converted (e : E) (l : list Z) : list Z := if rd_channel_count e =? 2 then l else mono l.

(** The stream is open for reading, at the rate of the writer. *)
Definition open_read (e : E) : Prop :=
  Z.land (er_state e) ECHOREF_READING ≠ 0 ∧ wr_sampling_rate e = rd_sampling_rate e ∧ down_sampler e = None.

Lemma convert_ok fuel e q b l n :
  echo_ok e q → wr_sampling_rate e = rd_sampling_rate e → frame_count b = n → 0 ≤ n ≤ INT_MAX →
  slice (raw b) 0 (2 * n) = Ok (Some <$> l) → ∃ src e',
  convert sx fuel b e = Ok (Some (src, n), e') ∧ echo_ok e' q ∧
  slice src 0 (n * rd_channel_count e) = Ok (Some <$> converted e l) ∧
  len (converted e l) = n * rd_channel_count e ∧ (∃ w s, e' = set_wr_buf w s e).
Proof.
  intros Hok Hrate Hn Hn0 Hl. pose proof (slice_len _ _ _ _ Hl) as Hlen. rewrite len_fmap in Hlen.
  pose proof Hok as []. unfold convert, converted. rewrite bind_get, echo_written0, Hrate, Z.eqb_refl.
  rewrite orb_false_r, Hn.
  destruct echo_channels0 as [Hc|Hc]; rewrite Hc.
  2:{ change (2 =? 2) with true. cbn [negb]. eexists (raw b), e. split; [reflexivity|].
      split; [done|]. rewrite Z.mul_comm. split; [done|]. split; [lia|].
      exists (wr_buf e), (wr_buf_size e). by destruct e. }
  change (1 =? 2) with false. cbn [negb]. unfold grow_wr_buf at 1. rewrite bind_modify.
  set (e1 := if wr_buf_size e <? n then _ else e).
  assert (n ≤ wr_buf_size e1 ∧ len (wr_buf e1) = wr_buf_size e1 ∧ (∃ w s, e1 = set_wr_buf w s e)) as (Hs1 & Hl1 & w1 & s1 & Ee1).
  { unfold e1. destruct (Z.ltb_spec (wr_buf_size e) n).
    - simpl. rewrite Hc, Z.mul_1_r. split; [lia|]. split; [|by eexists _, _].
      destruct (realloc_grow (A := Z) (wr_buf e) n) as (r & _ & Hr); [rewrite Hc in *; lia|]. done.
    - rewrite Hc in *. split; [lia|]. split; [lia|]. exists (wr_buf e), (wr_buf_size e). by destruct e. }
  assert (echo_ok e1 q) as Hok1.
  { clearbody e1. subst e1. simpl in Hs1, Hl1. split; simpl; try done; [by left|]. rewrite Hc. lia. }
  assert (len (mono l) = n) as Hm.
  { unfold len in *. rewrite (mono_len (Z.to_nat n)); lia. }
  assert (∃ w, mix_down b e1 = Ok (tt, set_wr_buf w (wr_buf_size e1) e1) ∧ slice w 0 n = Ok (Some <$> mono l) ∧
    len w = wr_buf_size e1) as (w & Em & Hw & Hlw).
  { unfold mix_down. rewrite bind_get, Hn, (bind_lift _ _ _ _ Hl), (bind_lift _ _ _ _ (defined_some l)).
    assert (len (Some <$> mono l) ≤ len (wr_buf e1)) as Hfit by (rewrite len_fmap; lia).
    pose proof (blit_prefix [] (Some <$> mono l) (wr_buf e1) Hfit) as Hb. simpl in Hb. change (len []) with 0 in Hb.
    rewrite (bind_lift _ _ _ _ Hb). eexists. split; [reflexivity|].
    split; [rewrite <-Hm at 1; rewrite <-(len_fmap Some (mono l)); apply slice_prefix|].
    by rewrite (blit_len _ _ _ _ Hb). }
  rewrite bind_when, (bind_ok _ _ _ _ _ Em).
  eexists w, _. split; [reflexivity|]. rewrite Z.mul_1_r. change (1 =? 2) with false.
  split; [|split; [done|split; [done|]]].
  - clear Hok1 Em. clearbody e1. subst e1. simpl in *. split; simpl; try done; [by left|]. rewrite Hc. lia.
  - rewrite Ee1. by eexists _, _.
Qed.

(** The formats of a stream. *)
Definition same_formats (e e' : E) : Prop :=
  rd_channel_count e' = rd_channel_count e ∧ rd_sampling_rate e' = rd_sampling_rate e ∧
  wr_sampling_rate e' = wr_sampling_rate e.

Lemma land_lor_1 s a : Z.land (Z.lor s a) a = a.
Proof. apply Z.bits_inj'. intros n _. rewrite Z.land_spec, Z.lor_spec. destruct (Z.testbit s n), (Z.testbit a n); done. Qed.

Lemma land_lor_2 s : Z.land (Z.lor s ECHOREF_WRITING) ECHOREF_READING = Z.land s ECHOREF_READING.
Proof. rewrite Z.land_lor_distr_l. by rewrite Z.lor_0_r. Qed.

Lemma start_write_ok e q :
  echo_ok e q → open_read e → ∃ s, start_write sx e = Ok (tt, set_er_state s e) ∧
  Z.land s ECHOREF_WRITING ≠ 0 ∧ Z.land s ECHOREF_READING ≠ 0.
Proof.
  intros Hok (Hr & _ & Hd). unfold start_write. rewrite bind_get.
  destruct (Z.eqb_spec (Z.land (er_state e) ECHOREF_WRITING) 0).
  - rewrite Hd. exists (Z.lor (er_state e) ECHOREF_WRITING). split; [done|].
    rewrite land_lor_1, land_lor_2. done.
  - exists (er_state e). split; [by destruct e|done].
Qed.

(** C27: what is played is added to the queue whole and in order, as the
    capture wants it: unchanged, or each pair of samples as its mean.  This is
    so while a reader is active, the capture has the rate of what is played
    and the stream has no resampler, for a write with a time, or after one. *)
Theorem echo_write_appends fuel e q b l n :
  echo_ok e q → open_read e → frame_count b = n → 0 ≤ n → er_frames_in e + n ≤ INT_MAX →
  slice (raw b) 0 (2 * n) = Ok (Some <$> l) →
  zero_time (time_stamp b) && zero_time (wr_render_time e) = false → ∃ e',
  echo_reference_write sx fuel (Some b) e = Ok (0, e') ∧ echo_ok e' (q ++ converted e l) ∧
  open_read e' ∧ same_formats e e' ∧ Z.land (er_state e') ECHOREF_WRITING ≠ 0 ∧
  wr_render_time e' = time_stamp b ∧ playback_delay e' = delay_ns b.
Proof.
  intros Hok Hopen Hn Hn0 Hmax Hl Ht. unfold echo_reference_write. rewrite bind_get, Ht.
  destruct (start_write_ok e q Hok Hopen) as (s & Es & Hw & Hr). rewrite (bind_ok _ _ _ _ _ Es), bind_get.
  simpl (er_state _). destruct (Z.eqb_spec (Z.land s ECHOREF_READING) 0) as [|_]; [done|]. rewrite bind_modify.
  set (e1 := set_render _ _ _).
  assert (echo_ok e1 q) as Hok1 by (destruct Hok; by split).
  destruct Hopen as (_ & Hrate & Hd).
  destruct (convert_ok fuel e1 q b l n Hok1 Hrate Hn) as (src & e2 & Ec & Hok2 & Hsl & Hlen & w & sz & Ee2); [|done|].
  { destruct Hok. lia. }
  rewrite (bind_ok _ _ _ _ _ Ec). change (converted e1 l) with (converted e l) in *.
  destruct (append_ok e2 q src n (converted e l) Hok2 Hn0) as (e3 & Ea & Hok3 & b3 & s3 & Ee3); [by rewrite Ee2..|].
  rewrite (bind_ok _ _ _ _ _ Ea). exists e3. split; [done|]. split; [done|]. rewrite Ee3, Ee2. done.
Qed.

(** ** Reading *)

(** The queue [q] as a reader of [n] frames should have it, for a delay of
    [expected] nanoseconds. *)
Definition aligned (ch rate n expected : Z) (q : list Z) : list Z :=
  let frames := len q / ch in
  let target := expected * rate / 1000000000 in
  let delay := frames * 1000000000 / rate - expected in
  if Z.abs delay <? MIN_DELAY_UPDATE_NS then q
  else if delay <? 0 then q ++ replicate (Z.to_nat ((target - frames) * ch)) 0
  else if target <? n then
    if 0 <? target then take (Z.to_nat (target * ch)) q ++ replicate (Z.to_nat ((n - target) * ch)) 0
    else take (Z.to_nat (n * ch)) q
  else drop (Z.to_nat ((frames - target) * ch)) q.

(** The oldest frames of [q] are dropped, and the others moved to a place that
    overlaps with theirs. *)
Definition align_overlaps (ch rate n expected : Z) (q : list Z) : bool :=
  let frames := len q / ch in
  let target := expected * rate / 1000000000 in
  let delay := frames * 1000000000 / rate - expected in
  (MIN_DELAY_UPDATE_NS <=? Z.abs delay) && (0 <=? delay) && (n <=? target) && (0 <? frames - target) &&
  (frames - target <? target).

(** No number is too large. *)
Definition in_reach (rate frames expected : Z) : Prop :=
  Z.abs (frames * 1000000000 / rate - expected) ≤ INT_MAX ∧ expected * rate < 9223372036854775808 ∧
  expected * rate / 1000000000 ≤ INT_MAX.

Lemma set_queue e q q' buf size frames rest :
  echo_ok e q → len buf = size * rd_channel_count e → size ≤ INT_MAX → 0 ≤ frames →
  len q' = frames * rd_channel_count e → buf = (Some <$> q') ++ rest →
  echo_ok (set_buffer buf size frames e) q'.
Proof. intros [] H1 H2 H3 H4 H5. split; simpl; try done. by exists rest. Qed.

Lemma s64_small x : -9223372036854775808 ≤ x < 9223372036854775808 → s64 x = x.
Proof. unfold wrapS. intros. rewrite Z.mod_small; lia. Qed.

(** The buffer is long enough for more frames. *)
Lemma longer_ok e q frames :
  echo_ok e q → er_frames_in e ≤ frames ≤ INT_MAX → ∃ buf size rest,
  (if buf_size e <? frames then (realloc (buffer e) (frames * rd_channel_count e), frames)
   else (buffer e, buf_size e)) = (buf, size) ∧
  buf = (Some <$> q) ++ rest ∧ len buf = size * rd_channel_count e ∧ frames ≤ size ≤ INT_MAX.
Proof.
  intros Hok Hf. pose proof Hok as []. destruct echo_data0 as [rest Hb].
  destruct (Z.ltb_spec (buf_size e) frames).
  - destruct (realloc_grow (A := Z) (buffer e) (frames * rd_channel_count e)) as (r & Er & Hr).
    { rewrite echo_size0. destruct echo_channels0 as [Hc|Hc]; rewrite Hc; lia. }
    eexists _, _, (rest ++ r). split; [done|]. split; [by rewrite Er, Hb, app_assoc|]. split; [done|lia].
  - exists (buffer e), (buf_size e), rest. split_and!; try done; lia.
Qed.

(** Silence is added at the end. *)
Lemma align_pad e q frames :
  echo_ok e q → er_frames_in e ≤ frames ≤ INT_MAX →
  let ch := rd_channel_count e in let offset := s32 (frames - er_frames_in e) in
  ∃ buf size, (if buf_size e <? frames then (realloc (buffer e) (frames * ch), frames)
    else (buffer e, buf_size e)) = (buf, size) ∧ ∃ buf',
  (if 0 <? offset then blit buf (er_frames_in e * ch) (replicate (Z.to_nat (offset * ch)) (Some 0)) else Ok buf)
    = Ok buf' ∧
  echo_ok (set_buffer buf' size frames e) (q ++ replicate (Z.to_nat ((frames - er_frames_in e) * ch)) 0).
Proof.
  intros Hok Hf ch offset. destruct (longer_ok e q frames Hok Hf) as (buf & size & rest & E & Eb & Hl & Hs).
  exists buf, size. split; [done|]. pose proof Hok as []. fold ch in echo_channels0, echo_size0, echo_len0, Hl.
  assert (offset = frames - er_frames_in e) as -> by (unfold offset; apply s32_small; unfold INT_MIN, INT_MAX in *; lia).
  assert (0 < ch) as Hch by lia. set (k := frames - er_frames_in e) in *.
  destruct (Z.ltb_spec 0 k).
  - assert (er_frames_in e * ch = len (Some <$> q)) as -> by (by rewrite len_fmap, echo_len0).
    assert (len (replicate (Z.to_nat (k * ch)) (Some 0)) ≤ len rest) as Hroom.
    { rewrite Eb, len_app, len_fmap in Hl. rewrite len_replicate. nia. }
    rewrite Eb, (blit_prefix _ _ _ Hroom). eexists. split; [done|].
    eapply set_queue; [done|..]; fold ch; try lia.
    + rewrite !len_app, len_drop, len_fmap in *. rewrite <-Hl, Eb, len_app, len_fmap. unfold len in *. lia.
    + rewrite len_app, len_replicate, echo_len0. nia.
    + rewrite fmap_app, fmap_replicate. done.
  - assert (k = 0) as Ek by lia. rewrite Ek. exists buf. split; [done|]. simpl. rewrite app_nil_r.
    by eapply set_queue; try done; lia.
Qed.

(** The oldest frames are kept, and silence added up to [n]. *)
Lemma align_cut e q n target :
  echo_ok e q → 0 < target < n → n ≤ er_frames_in e →
  let ch := rd_channel_count e in ∃ buf,
  blit (buffer e) (target * ch) (replicate (Z.to_nat ((n - target) * ch)) (Some 0)) = Ok buf ∧
  echo_ok (set_buffer buf (buf_size e) n e)
    (take (Z.to_nat (target * ch)) q ++ replicate (Z.to_nat ((n - target) * ch)) 0).
Proof.
  intros Hok Ht Hn ch. pose proof (echo_fits _ _ Hok) as Hfit. pose proof Hok as [].
  fold ch in echo_channels0, echo_size0, echo_len0. assert (0 < ch) as Hch by lia.
  destruct echo_data0 as [rest Hb].
  assert (0 ≤ target * ch ∧ target * ch + (n - target) * ch ≤ len q) as [H1 H2] by nia.
  rewrite blit_ok; [|lia|rewrite len_replicate, Hb, len_app, len_fmap; pose proof (len_nonneg rest); nia].
  eexists. split; [done|].
  assert (take (Z.to_nat (target * ch)) (buffer e) = Some <$> take (Z.to_nat (target * ch)) q) as Etk.
  { rewrite Hb, fmap_take, take_app_le; [done|]. rewrite length_fmap. unfold len in *. lia. }
  rewrite Etk. eapply set_queue; [done|..]; fold ch; try lia.
  - rewrite !len_app, len_fmap, len_take, len_drop, len_replicate, echo_size0. nia.
  - rewrite len_app, len_take, len_replicate. nia.
  - by rewrite fmap_app, fmap_replicate, <-app_assoc.
Qed.

(** The oldest frames are dropped. *)
Lemma align_drop e q target :
  echo_ok e q → 0 ≤ target ≤ er_frames_in e →
  let ch := rd_channel_count e in let offset := s32 (er_frames_in e - target) in
  let moved := if 0 <? offset then memcpy_down (buffer e) (offset * ch) (target * ch) else Ok (buffer e) in
  if (0 <? er_frames_in e - target) && (er_frames_in e - target <? target) then moved = Err Overlap else ∃ buf,
  moved = Ok buf ∧ echo_ok (set_buffer buf (buf_size e) target e) (drop (Z.to_nat ((er_frames_in e - target) * ch)) q).
Proof.
  intros Hok Ht ch offset moved. pose proof (echo_fits _ _ Hok) as Hfit. pose proof Hok as [].
  fold ch in echo_channels0, echo_size0, echo_len0. assert (0 < ch) as Hch by lia.
  assert (offset = er_frames_in e - target) as Eoff by (unfold offset; apply s32_small; unfold INT_MIN, INT_MAX in *; lia).
  unfold moved. rewrite Eoff. clear moved Eoff offset.
  destruct echo_data0 as [rest Hb]. set (k := er_frames_in e - target) in *.
  assert (k * ch + target * ch = len q) as Ek by (unfold k; nia).
  assert (0 ≤ k * ch ∧ 0 ≤ target * ch) as [Hk0 Ht0] by (unfold k; nia).
  destruct (Z.ltb_spec 0 k); cbn [andb].
  - unfold memcpy_down. destruct (Z.ltb_spec k target); [by rewrite (proj2 (Z.ltb_lt _ _)) by nia|].
    rewrite (proj2 (Z.ltb_ge _ _)) by nia. set (q' := drop (Z.to_nat (k * ch)) q).
    assert (len q' = target * ch) as Hq' by (unfold q'; rewrite len_drop; lia).
    assert (slice (buffer e) (k * ch) (target * ch) = Ok (Some <$> q')) as Es.
    { pose proof (slice_middle (Some <$> take (Z.to_nat (k * ch)) q) (Some <$> q') rest) as Hs.
      rewrite app_assoc, <-fmap_app, !len_fmap, Hq' in Hs. unfold q' in Hs at 1. rewrite take_drop, len_take in Hs.
      rewrite Hb. by replace (Z.min (Z.of_nat (Z.to_nat (k * ch))) (len q)) with (k * ch) in Hs by lia. }
    rewrite Es. cbn [mbind res_bind].
    rewrite blit_ok; [|lia|rewrite len_fmap, Hb, len_app, len_fmap; pose proof (len_nonneg rest); lia].
    eexists. split; [done|]. eapply set_queue; [done|..|reflexivity]; fold ch; try lia.
    change (take (Z.to_nat 0) (buffer e)) with (@nil (option Z)).
    rewrite !len_app, !len_fmap, len_drop, echo_size0, len_nil. nia.
  - assert (k = 0) as Ek0 by lia. rewrite Ek0, Z.mul_0_l, drop_0. exists (buffer e). split; [done|].
    by eapply set_queue; try done; lia.
Qed.

Lemma queue_frames e q : echo_ok e q → len q / rd_channel_count e = er_frames_in e.
Proof. intros []. rewrite echo_len0. apply Z.div_mul. lia. Qed.

(** Only the queue changes. *)
Definition same_but_queue (e e' : E) : Prop := ∃ buf size n, e' = set_buffer buf size n e.

Lemma align_ok e q n expected :
  echo_ok e q → 0 ≤ n ≤ er_frames_in e → 0 < expected → in_reach (rd_sampling_rate e) (er_frames_in e) expected →
  if align_overlaps (rd_channel_count e) (rd_sampling_rate e) n expected q then align n expected e = Err Overlap
  else ∃ e', align n expected e = Ok (tt, e') ∧
  echo_ok e' (aligned (rd_channel_count e) (rd_sampling_rate e) n expected q) ∧
  n ≤ er_frames_in e' ∧ same_but_queue e e'.
Proof.
  intros Hok Hn Hexp (Hreach & Hmul & Htarget). pose proof (echo_fits _ _ Hok) as Hfit. pose proof Hok as [].
  unfold align, aligned, align_overlaps. rewrite bind_get, (queue_frames _ _ Hok).
  set (F := er_frames_in e) in *. set (rate := rd_sampling_rate e) in *. set (ch := rd_channel_count e) in *.
  unfold divide. destruct (Z.eqb_spec rate 0); [lia|]. rewrite bind_lift with (a := F * 1000000000 / rate) by done.
  set (have := F * 1000000000 / rate) in *. set (target := expected * rate / 1000000000) in *.
  pose proof (Z.div_mod (F * 1000000000) rate ltac:(lia)) as Ehave. fold have in Ehave.
  pose proof (Z.mod_pos_bound (F * 1000000000) rate ltac:(lia)) as Hhave.
  pose proof (Z.div_mod (expected * rate) 1000000000 ltac:(lia)) as Etarget. fold target in Etarget.
  pose proof (Z.mod_pos_bound (expected * rate) 1000000000 ltac:(lia)) as Hmod.
  assert (0 ≤ target) by (apply Z.div_pos; nia). unfold INT_MAX in *.
  rewrite (s64_small (have - expected)), (s64_small (expected * rate)) by nia.
  rewrite Z.quot_div_nonneg by nia. fold target.
  assert (c_abs (have - expected) = Z.abs (have - expected)) as ->.
  { unfold c_abs. rewrite (s32_small (have - expected)), s32_small; unfold INT_MIN, INT_MAX; lia. }
  rewrite Z.leb_antisym. destruct (Z.abs (have - expected) <? MIN_DELAY_UPDATE_NS); cbn [negb andb].
  { exists e. split; [done|]. split; [done|]. split; [lia|]. exists (buffer e), (buf_size e), F. by destruct e. }
  rewrite Z.leb_antisym. destruct (Z.ltb_spec (have - expected) 0); cbn [negb andb].
  - rewrite u32_small by lia. assert (F ≤ target) by nia.
    destruct (align_pad e q target Hok) as (buf & size & E1 & buf' & E2 & Hok'); [unfold INT_MAX; fold F; lia|].
    fold ch in E1. fold ch F in E2, Hok'. rewrite E1.
    rewrite (bind_lift _ _ _ _ E2). eexists. split; [reflexivity|]. split; [done|]. split; [simpl; lia|].
    by eexists _, _, _.
  - rewrite (s32_small target), (s32_small n) by (unfold INT_MIN, INT_MAX; lia). assert (target ≤ F) by nia.
    rewrite Z.leb_antisym. destruct (Z.ltb_spec target n); cbn [negb andb].
    + destruct (Z.ltb_spec 0 target).
      * destruct (align_cut e q n target Hok) as (buf & E2 & Hok'); [lia|fold F; lia|]. fold ch in E2, Hok'.
        rewrite (bind_lift _ _ _ _ E2). eexists. split; [reflexivity|]. split; [done|]. split; [done|]. by eexists _, _, _.
      * rewrite bind_lift with (a := buffer e) by done. eexists. split; [reflexivity|].
        split; [|split; [done|by eexists _, _, _]]. destruct echo_data0 as [rest Hb].
        eapply (set_queue e q _ _ _ _ ((Some <$> drop (Z.to_nat (n * ch)) q) ++ rest)); fold ch; try done; try (unfold INT_MAX; lia).
        { rewrite len_take. nia. }
        { by rewrite Hb, app_assoc, <-fmap_app, take_drop. }
    + pose proof (align_drop e q target Hok ltac:(fold F; lia)) as Hd. cbv zeta in Hd. fold ch F in Hd.
      destruct ((0 <? F - target) && (F - target <? target)).
      { apply bind_err. unfold lift. by rewrite Hd. }
      destruct Hd as (buf & E2 & Hok'). rewrite (bind_lift _ _ _ _ E2). eexists. split; [reflexivity|]. rewrite (u32_small target) by lia.
      split; [done|]. split; [simpl; lia|]. by eexists _, _, _.
Qed.

Lemma take_frames_ok e q b n :
  let k := Z.to_nat (n * rd_channel_count e) in
  echo_ok e q → 0 ≤ n ≤ er_frames_in e → n * rd_channel_count e ≤ len (raw b) →
  if (k <? length q - k)%nat then take_frames b n e = Err Overlap else ∃ out e',
  take_frames b n e = Ok (EchoBuffer out n 0 (time_stamp b), e') ∧
  out = (Some <$> take k q) ++ drop k (raw b) ∧ echo_ok e' (drop k q) ∧ same_but_queue e e'.
Proof.
  intros k Hok Hn Hraw. pose proof (echo_fits _ _ Hok) as Hfit. pose proof Hok as [].
  set (ch := rd_channel_count e) in *. assert (0 < ch) as Hch by lia. destruct echo_data0 as [rest Hb].
  assert (n * ch = len (take k q)) as E1 by (rewrite len_take; nia).
  unfold take_frames. rewrite bind_get. fold ch.
  assert (buffer e = (Some <$> take k q) ++ (Some <$> drop k q) ++ rest) as Hb'.
  { by rewrite app_assoc, <-fmap_app, take_drop. }
  assert (slice (buffer e) 0 (n * ch) = Ok (Some <$> take k q)) as Es1.
  { rewrite Hb', E1, <-(len_fmap Some). apply slice_prefix. }
  rewrite (bind_lift _ _ _ _ Es1), (bind_lift _ _ _ _ (blit_ok (raw b) 0 (Some <$> take k q) ltac:(lia)
    ltac:(rewrite len_fmap; lia))).
  rewrite (u32_small (_ - n)) by (unfold INT_MAX in *; lia).
  assert (Z.of_nat (length q) = er_frames_in e * ch ∧ Z.of_nat k = n * ch) as [Elq Ek] by (unfold len in *; nia).
  destruct (Nat.ltb_spec k (length q - k)).
  { apply bind_err. unfold lift, memcpy_down. by rewrite (proj2 (Z.ltb_lt _ _)) by nia. }
  unfold memcpy_down. rewrite (proj2 (Z.ltb_ge _ _)) by nia.
  assert (slice (buffer e) (n * ch) ((er_frames_in e - n) * ch) = Ok (Some <$> drop k q)) as Es2.
  { pose proof (slice_middle (Some <$> take k q) (Some <$> drop k q) rest) as Hs.
    rewrite <-Hb', !len_fmap, <-E1, len_drop in Hs. rewrite <-Hs. f_equal. nia. }
  rewrite Es2. cbn [mbind res_bind].
  assert (0 + len (Some <$> drop k q) ≤ len (buffer e)) as Hfit2.
  { rewrite Hb', !len_app, !len_fmap. pose proof (len_nonneg rest). pose proof (len_nonneg (take k q)). lia. }
  rewrite (bind_lift _ _ _ _ (blit_ok _ 0 _ ltac:(lia) Hfit2)).
  eexists _, _. split; [reflexivity|]. split.
  { rewrite Z.add_0_l, len_fmap, <-E1. done. }
  split; [|by eexists _, _, _].
  eapply set_queue; [done|..|reflexivity]; fold ch; try lia.
  - change (take (Z.to_nat 0) (buffer e)) with (@nil (option Z)).
    rewrite !len_app, len_drop, echo_size0, len_nil. rewrite echo_size0 in Hfit2. pose proof (len_nonneg (Some <$> drop k q)). lia.
  - rewrite len_drop. nia.
Qed.

(** The queue a reader gets. *)
Definition read_queue (e : E) (b : echo_buffer) (q : list Z) : list Z :=
  if zero_time (wr_render_time e) || zero_time (time_stamp b) then q
  else if 0 <? expected_delay e b
       then aligned (rd_channel_count e) (rd_sampling_rate e) (frame_count b) (expected_delay e b) q else q.

(** The first copy within the buffer overlaps. *)
Definition read_overlaps (e : E) (b : echo_buffer) (q : list Z) : bool :=
  negb (zero_time (wr_render_time e) || zero_time (time_stamp b)) && (0 <? expected_delay e b) &&
  align_overlaps (rd_channel_count e) (rd_sampling_rate e) (frame_count b) (expected_delay e b) q.

(** C26: a reader of [n] frames that are there gets the first [n] frames of
    the queue brought to the delay that is expected, and the rest stays for
    the next reader; no sample it gets was never written.  This is so when
    the frames that are moved to the front of the buffer, after old frames
    were dropped and after the read, are no more than those before them; if
    they are more, the code calls memcpy on places that overlap, and does
    nothing else wrong before.  The queue is in use by a writer and a reader,
    and the delay it has differs from the one that is expected by less than
    2^31 nanoseconds: the code takes the absolute value of an [int]. *)
Theorem echo_read_aligns e q b during :
  let n := frame_count b in let ch := rd_channel_count e in let k := Z.to_nat (n * ch) in
  let q' := read_queue e b q in
  echo_ok e q → Z.land (er_state e) ECHOREF_READING ≠ 0 → Z.land (er_state e) ECHOREF_WRITING ≠ 0 →
  0 ≤ n ≤ er_frames_in e → n * ch ≤ len (raw b) →
  in_reach (rd_sampling_rate e) (er_frames_in e) (expected_delay e b) →
  if read_overlaps e b q || (k <? length q' - k)%nat
  then echo_reference_read during (Some b) e = Err Overlap
  else ∃ out e',
    echo_reference_read during (Some b) e = Ok ((0, Some (EchoBuffer out n 0 (time_stamp b))), e') ∧
    out = (Some <$> take k q') ++ drop k (raw b) ∧ echo_ok e' (drop k q') ∧ same_but_queue e e'.
Proof.
  intros n ch k q' Hok Hr Hw Hn Hraw Hreach. unfold echo_reference_read. rewrite bind_modify.
  destruct (Z.eqb_spec (Z.land (er_state e) ECHOREF_READING) 0); [done|]. rewrite bind_get.
  destruct (Z.eqb_spec (Z.land (er_state e) ECHOREF_WRITING) 0); [done|].
  fold n. destruct (Z.ltb_spec (er_frames_in e) n); [lia|]. rewrite bind_ret, bind_get.
  set (aligning := if zero_time (wr_render_time e) || zero_time (time_stamp b) then skip
       else let expected := expected_delay e b in if 0 <? expected then align n expected else skip).
  assert (if read_overlaps e b q then aligning e = Err Overlap else ∃ e1, aligning e = Ok (tt, e1) ∧
    echo_ok e1 q' ∧ n ≤ er_frames_in e1 ∧ same_but_queue e e1) as Ha.
  { unfold aligning, q', read_queue, read_overlaps.
    assert (same_but_queue e e) by (exists (buffer e), (buf_size e), (er_frames_in e); by destruct e).
    destruct (_ || _); [exists e; by split_and!; try done; lia|]. cbn [negb andb].
    destruct (Z.ltb_spec 0 (expected_delay e b)); [|exists e; by split_and!; try done; lia].
    by apply align_ok. }
  destruct (read_overlaps e b q); cbn [orb]; [by rewrite (bind_err _ _ _ _ Ha)|].
  destruct Ha as (e1 & E1 & Hok1 & Hn1 & bf & sz & fr & Ee1). rewrite (bind_ok _ _ _ _ _ E1).
  assert (rd_channel_count e1 = ch) as Ech by (by rewrite Ee1).
  pose proof (take_frames_ok e1 q' b n Hok1 ltac:(lia) ltac:(by rewrite Ech)) as Ht. rewrite Ech in Ht. fold k in Ht.
  destruct (k <? length q' - k)%nat; [by rewrite (bind_err _ _ _ _ Ht)|].
  destruct Ht as (out & e2 & E2 & Hout & Hok2 & bf2 & sz2 & fr2 & Ee2).
  rewrite (bind_ok _ _ _ _ _ E2). exists out, e2. split_and!; try done.
  exists bf2, sz2, fr2. by rewrite Ee2, Ee1.
Qed.
End echo.

(** ** Examples *)

Definition stereo (l : list Z) : cells := Some <$> concat ((λ x, [x; x]) <$> l).
Definition frames_of (l : list Z) (t : Z * Z) : echo_buffer := EchoBuffer (stereo l) (len l) 0 t.
Definition demo_echo (ch rate : Z) : echo_reference (list Z) :=
  EchoReference ECHOREF_READING ch 8000 2 rate [] 0 0 [] 0 0 Src_null (0, 0) 0 None.

Lemma demo_echo_ok ch rate : (ch = 1 ∨ ch = 2) → 8000 ≤ rate < 4294967296 → echo_ok (demo_echo ch rate) [].
Proof. intros Hc Hr. split; simpl; try done; try lia. by exists []. Qed.

Lemma echo_write_appends_witness : ∃ e',
  echo_reference_write copy_speex 0 (Some (frames_of [1; 2; 3; 4] (1, 0))) (demo_echo 1 8000) = Ok (0, e') ∧
  echo_ok e' ([] ++ [1; 2; 3; 4]) ∧ open_read e' ∧ same_formats (demo_echo 1 8000) e' ∧
  Z.land (er_state e') ECHOREF_WRITING ≠ 0 ∧ wr_render_time e' = (1, 0) ∧ playback_delay e' = 0.
Proof.
  apply (echo_write_appends copy_speex 0 (demo_echo 1 8000) [] (frames_of [1; 2; 3; 4] (1, 0)) [1; 1; 2; 2; 3; 3; 4; 4] 4);
    try done. apply demo_echo_ok; [by left|lia].
Defined.

(** Four frames are waiting, and two are expected to be on their way. *)
Definition waiting_echo : echo_reference (list Z) :=
  EchoReference 3 1 8000 2 8000 [Some 1; Some 2; Some 3; Some 4; None] 5 4 [] 0 0 Src_null (1, 0) 250000 None.

Lemma echo_read_aligns_witness : ∃ out e',
  echo_reference_read skip (Some (EchoBuffer (replicate 3 None) 2 0 (1, 0))) waiting_echo =
    Ok ((0, Some (EchoBuffer out 2 0 (1, 0))), e') ∧
  out = [Some 3; Some 4; None] ∧ echo_ok e' [] ∧ same_but_queue waiting_echo e'.
Proof.
  apply (echo_read_aligns waiting_echo [1; 2; 3; 4] (EchoBuffer (replicate 3 None) 2 0 (1, 0)) skip); try done.
  split; simpl; try done; try lia; by exists [None].
Defined.

(** A reader of one of four frames: three are moved over one. *)
Theorem echo_short_read_overlaps :
  echo_reference_read skip (Some (EchoBuffer (replicate 3 None) 1 250000 (1, 0))) waiting_echo = Err Overlap.
Proof. vm_compute. reflexivity. Qed.

(** At another rate, a write that is shorter than an earlier one is not
    what is resampled: a capture in mono gets the end of the earlier write
    once more, and one in stereo reads past the end of the caller's buffer. *)
Theorem echo_short_write_stale :
  let writes := echo_reference_write copy_speex 9 (Some (frames_of [1; 2; 3; 4] (1, 0)));;
                echo_reference_write copy_speex 9 (Some (frames_of [11; 12] (1, 0)));;
                gets buffer in
  (∃ e, writes (demo_echo 1 16000) = Ok (Some <$> [1; 2; 3; 4; 3; 4], e)) ∧
  (∃ e, writes (demo_echo 1 8000) = Ok (Some <$> [1; 2; 3; 4; 11; 12], e)) ∧
  writes (demo_echo 2 16000) = Err Overrun.
Proof. split; [|split]; [eexists; vm_compute; reflexivity..|vm_compute; reflexivity]. Qed.

(** A delay that is wrong by a multiple of 2^32 ns is taken for one that
    is right, since [abs] sees its low half only: the queue is not touched. *)
Theorem echo_large_delay_missed {Sp} (e : echo_reference Sp) n expected k :
  0 < rd_sampling_rate e → 0 ≤ er_frames_in e < 4294967296 →
  er_frames_in e * 1000000000 / rd_sampling_rate e - expected = 4294967296 * k →
  -2147483648 < k < 2147483648 → align n expected e = Ok (tt, e).
Proof.
  intros Hr Hf Hk Hb. unfold align. rewrite bind_get.
  rewrite bind_lift with (a := er_frames_in e * 1000000000 / rd_sampling_rate e).
  2:{ unfold divide. by destruct (Z.eqb_spec (rd_sampling_rate e) 0); [lia|]. }
  rewrite Hk, s64_small by lia.
  assert (c_abs (4294967296 * k) = 0) as ->; [|done].
  unfold c_abs. assert (s32 (4294967296 * k) = 0) as ->; [|done].
  unfold wrapS. change (2 ^ (32 - 1)) with 2147483648. change (2 ^ 32) with 4294967296.
  replace (4294967296 * k + 2147483648) with (2147483648 + k * 4294967296) by lia. by rewrite Z_mod_plus_full.
Qed.

Lemma echo_large_delay_missed_witness :
  let e : echo_reference (list Z) :=
    EchoReference 3 1 8000 2 8000 [] 0 34360 [] 0 0 Src_null (1, 0) 0 None in
  align 2 32704 e = Ok (tt, e).
Proof. intros e. by apply (echo_large_delay_missed e 2 32704 1). Defined.
