(* ===== verification/UsbAudio.v ===== *)
(** * A USB sound card: the second half of src/upil_audio/usb_audio_pcm.c

    A stream of the PCM device with the mixer of its card, and, when the
    format of the client is another, conversions of the number of channels
    and of the sampling rate through three static buffers.  Buffers are
    their bytes; a sample is two bytes, the lower one first.

    The three arrays are fields of each stream here; in the code there is one
    of each for all streams, without a lock.  So a stream is modelled as it is
    while it is the only one that converts; what two of them, like the ones of
    a call, do to each other is not, but for the example
    [AudioThreadsProofs.streams_share_arrays]. *)

From stdpp Require Import strings.
From S2P Require Import Prelude CString Pcm PcmIo Mixer Resampler.

Definition MAX_BUF_SIZE : Z := 131072.

(** ** Samples *)

Definition sample_of (lo hi : Z) : Z := wrapS 16 (lo + 256 * hi).
Definition bytes_of (s : Z) : list Z := [u8 s; u8 (Z.shiftr s 8)].

Fixpoint samples_of (l : list Z) : list Z :=
  match l with
  | lo :: hi :: l' => sample_of lo hi :: samples_of l'
  | _ => []
  end.
Definition sample_bytes (l : list Z) : list Z := concat (bytes_of <$> l).

(** [int16_t *] into a buffer of bytes: reading and writing samples. *)
Definition read_samples (buf : list Z) (n : Z) : res (list Z) :=
  b ← slice buf 0 (2 * n); mret (samples_of b).
Definition write_samples (buf : list Z) (l : list Z) : res (list Z) := blit buf 0 (sample_bytes l).

(** Every second sample, from the first on. *)
Fixpoint stereo_to_mono (l : list Z) : list Z :=
  match l with
  | [] => []
  | [a] => [a]
  | a :: _ :: l' => a :: stereo_to_mono l'
  end.

Fixpoint mono_to_stereo (l : list Z) : list Z :=
  match l with
  | [] => []
  | a :: l' => a :: a :: mono_to_stereo l'
  end.

(** ** The card *)

Record usb_audio_pcm (Sp : Type) := UsbAudio {
  ua_pcm : pcm;
  ua_mixer : option mixer;
  ua_card : card;
  ua_resampler : option (resampler Sp);
  need_resample : bool;
  ua_flags : Z;
  source_channels : Z;
  target_channels : Z;
  buffer_resample : list Z;
  buffer_channels : list Z;
  buffer_read : list Z;
}.
Arguments UsbAudio {Sp}.
Arguments ua_pcm {Sp}.
Arguments ua_mixer {Sp}.
Arguments ua_card {Sp}.
Arguments ua_resampler {Sp}.
Arguments need_resample {Sp}.
Arguments ua_flags {Sp}.
Arguments source_channels {Sp}.
Arguments target_channels {Sp}.
Arguments buffer_resample {Sp}.
Arguments buffer_channels {Sp}.
Arguments buffer_read {Sp}.

Section usb.
Context {Sp : Type} (sx : speex Sp).

Abbreviation U := (usb_audio_pcm Sp).
Abbreviation MU := (M U).

#[export] Instance ua_pcm_lens : Lens U pcm := {
  lget := ua_pcm;
  lset p u := UsbAudio p (ua_mixer u) (ua_card u) (ua_resampler u) (need_resample u) (ua_flags u)
    (source_channels u) (target_channels u) (buffer_resample u) (buffer_channels u) (buffer_read u);
}.
#[export] Instance ua_card_lens : Lens U card := {
  lget := ua_card;
  lset c u := UsbAudio (ua_pcm u) (ua_mixer u) c (ua_resampler u) (need_resample u) (ua_flags u)
    (source_channels u) (target_channels u) (buffer_resample u) (buffer_channels u) (buffer_read u);
}.
Definition set_resampler (r : option (resampler Sp)) (need : bool) (u : U) : U :=
  UsbAudio (ua_pcm u) (ua_mixer u) (ua_card u) r need (ua_flags u)
    (source_channels u) (target_channels u) (buffer_resample u) (buffer_channels u) (buffer_read u).
Definition set_channels (source target : Z) (u : U) : U :=
  UsbAudio (ua_pcm u) (ua_mixer u) (ua_card u) (ua_resampler u) (need_resample u) (ua_flags u)
    source target (buffer_resample u) (buffer_channels u) (buffer_read u).
Definition set_buffers (r c rd : list Z) (u : U) : U :=
  UsbAudio (ua_pcm u) (ua_mixer u) (ua_card u) (ua_resampler u) (need_resample u) (ua_flags u)
    (source_channels u) (target_channels u) r c rd.

(** ** Opening and closing *)

(** [static struct pcm bad_pcm = { .fd = -1 }] *)
Definition bad_pcm : pcm :=
  Pcm (-1) 0 false 0 0 0 (PcmConfig 0 0 0 0 0 0 0 0 0) 0 0 (0, 0) 0 0 false [] 0 false 0
    (λ _, PcmAnswer (-1) 0 (HwParams 0 [] []) [] 0 0 (0, 0) 0) [].

(** [open_fd] opens the mixer.  The results are the card, NULL when there is
    none, the configuration with the sizes of the driver, and what the
    requests to the mixer have left. *)
Definition usb_audio_open (sys : pcm_system) (open_fd : list Z → Z) (n device flags : Z)
    (config : option pcm_config) (c : card) : res (option U * option pcm_config * card) :=
  o ← pcm_open sys n device flags config;
  let '(p, config) := o in
  let p := default bad_pcm p in
  match mixer_open open_fd n c with
  | Err e => Err e
  | Ok (None, c) => Ok (None, config, c)
  | Ok (Some m, c) =>
      match alloc c with
      | Ok (true, c) =>
          cfg ← deref config;
          let zeros := replicate (Z.to_nat MAX_BUF_SIZE) 0 in
          mret (Some (UsbAudio p (Some m) c None false flags (channels cfg) (channels cfg) zeros zeros zeros),
                config, c)
      | Ok (false, c) =>
          pcm_close (Some p);;
          match mixer_close (Some m) c with Ok (_, c) => Ok (None, config, c) | Err e => Err e end
      | Err e => Err e
      end
  end.

(** The results are the state of speex that is destroyed, and the card. *)
Definition usb_audio_close (u : U) : res (option Sp * card) :=
  let s := match ua_resampler u with Some r => release_resampler (Some r) | None => None end in
  pcm_close (Some (ua_pcm u));;
  match (mixer_close (ua_mixer u);; free 1) (ua_card u) with Ok (_, c) => Ok (s, c) | Err e => Err e end.

(** ** Conversions *)

(** The channels of [bytes] bytes are converted; the results are the buffer
    and the bytes in it. *)
Definition convert_channels (buf : list Z) (bytes : Z) : MU (list Z * Z) :=
  u ← get;
  if target_channels u =? source_channels u then mret (buf, bytes) else
  s ← lift (read_samples buf (bytes / 2));
  let s' := if target_channels u =? 1 then stereo_to_mono s else mono_to_stereo s in
  b ← lift (write_samples (buffer_channels u) s');
  modify (set_buffers (buffer_resample u) b (buffer_read u));;
  mret (b, len s' * 2).

(** A result of the resampler that is an error leaves both counts. *)
Definition convert_rate (buf : list Z) (bytes : Z) : MU (list Z * Z) :=
  u ← get;
  if negb (need_resample u) then mret (buf, bytes) else
  in_frames ← lift (pcm_bytes_to_frames (ua_pcm u) bytes);
  out_frames ← lift (pcm_bytes_to_frames (ua_pcm u) MAX_BUF_SIZE);
  r ← lift (deref (ua_resampler u));
  s ← lift (read_samples buf (in_frames * channel_count r));
  o ← lift (resampler_resample_from_input sx r (Some (Some <$> s)) in_frames out_frames);
  let '(_, _, out_frames, out, r') := o in
  b ← lift (write_samples (buffer_resample u) out);
  modify (set_buffers b (buffer_channels u) (buffer_read u));;
  modify (set_resampler (Some r') (need_resample u));;
  mret (b, pcm_frames_to_bytes (ua_pcm u) out_frames).

(** ** Transfers *)

(** The result and [data]. *)
Definition usb_audio_read (fuel : nat) (data : list Z) (data_size count : Z) : MU (Z * list Z) :=
  u ← get;
  let copy := need_resample u || negb (target_channels u =? source_channels u) in
  r ← zoom (pcm_read fuel (if copy then buffer_read u else data) count);
  let '(ret, buf) := r in
  (if copy then modify (set_buffers (buffer_resample u) (buffer_channels u) buf) else skip);;
  let data := if copy then data else buf in
  if negb (ret =? 0) then mret (-1, data) else
  r ← convert_rate buf count;
  r ← convert_channels r.1 r.2;
  let '(buf, bytes) := r in
  let n := if data_size <? bytes then data_size else bytes in
  data ← lift (if copy then b ← slice buf 0 n; blit data 0 b else Ok data);
  mret (s32 n, data).

Definition usb_audio_write (data : list Z) (count : Z) : MU Z :=
  r ← convert_channels data count;
  r ← convert_rate r.1 r.2;
  let '(buf, bytes) := r in
  ret ← zoom (pcm_write buf bytes);
  if negb (ret =? 0) then mret (-1) else mret (s32 bytes).

(** ** Settings *)

(** The channels of the client, the source of what is played and the target
    of what is captured. *)
Definition set_client_channels (chans : Z) : MU unit :=
  u ← get;
  let own := channels (p_config (ua_pcm u)) in
  if has (ua_flags u) PCM_IN then modify (set_channels own chans) else modify (set_channels chans own).

Definition usb_audio_set_resample (rate chans quality : Z) : MU Z :=
  u ← get;
  let k := p_config (ua_pcm u) in
  if bool_decide (ua_resampler u = None) && negb (rate =? Pcm.rate k) then
    r ← lift (if has (ua_flags u) PCM_IN
              then create_resampler sx (Pcm.rate k) rate (channels k) quality false
              else create_resampler sx rate (Pcm.rate k) (channels k) quality false);
    if negb (r.1 =? 0) then modify (set_resampler r.2 (need_resample u));; mret (-1) else
    modify (set_resampler r.2 true);; set_client_channels chans;; mret 0
  else set_client_channels chans;; mret 0.

Definition usb_audio_get_buffer_size (u : U) : Z := pcm_get_buffer_size (ua_pcm u).

Definition PCM_Playback_Volume_Ctrl : Z := 1.
Definition PCM_Playback_Volume_Min : Z := 0.
Definition PCM_Playback_Volume_Max : Z := 44.

(** The values from the [i]-th on, until one cannot be set. *)
Fixpoint set_values (left : nat) (ctl : option mixer_ctl) (i value : Z) : M card unit :=
  match left with
  | O => skip
  | S l =>
      ret ← mixer_ctl_set_value ctl i value;
      if negb (ret =? 0) then skip else set_values l ctl (i + 1) value
  end.

Definition usb_audio_mixer_set_value (m : option mixer) (id value : Z) : M card unit :=
  ctl ← lift (mixer_get_ctl m id);
  n ← lift (mixer_ctl_get_num_values ctl);
  set_values (Z.to_nat n) ctl 0 value.

Definition usb_audio_set_volume (volume : Z) : MU Z :=
  if (volume <? PCM_Playback_Volume_Min) || (PCM_Playback_Volume_Max <? volume) then mret (-1) else
  u ← get;
  zoom (usb_audio_mixer_set_value (ua_mixer u) PCM_Playback_Volume_Ctrl volume);;
  mret 0.
End usb.
