(* ===== verification/UsbAudioProofs.v ===== *)
(** * Properties of a USB sound card *)

From stdpp Require Import strings.
From S2P Require Import Prelude CString Pcm PcmIo PcmProofs Mixer MixerProofs Resampler.
From S2P Require Import ResamplerProofs UsbAudio.

(** ** Samples and channels *)

Definition int16 (s : Z) : Prop := -32768 ≤ s < 32768.

Lemma sample_round_trip s : int16 s → sample_of (u8 s) (u8 (Z.shiftr s 8)) = s.
Proof.
  unfold int16, sample_of, wrapU, wrapS. intros Hs. rewrite Z.shiftr_div_pow2 by lia.
  change (2 ^ 8) with 256. change (2 ^ (16 - 1)) with 32768. change (2 ^ 16) with 65536.
  pose proof (Z.div_mod s 256 ltac:(lia)). pose proof (Z.mod_pos_bound s 256 ltac:(lia)).
  pose proof (Z.div_mod (s / 256) 256 ltac:(lia)). pose proof (Z.mod_pos_bound (s / 256) 256 ltac:(lia)).
  set (q := s / 256) in *. set (q' := q / 256) in *.
  assert (q' = -1 ∨ q' = 0) as [E|E] by lia.
  - replace (s mod 256 + 256 * (q mod 256) + 32768) with (s + 32768 + 1 * 65536) by lia.
    rewrite Z_mod_plus_full, Z.mod_small; lia.
  - replace (s mod 256 + 256 * (q mod 256) + 32768) with (s + 32768) by lia. rewrite Z.mod_small; lia.
Qed.

Lemma samples_bytes l : Forall int16 l → samples_of (sample_bytes l) = l.
Proof.
  induction 1 as [|s l Hs _ IH]; [done|]. unfold sample_bytes in *. rewrite fmap_cons. cbn [concat bytes_of app samples_of].
  rewrite sample_round_trip by done. by rewrite IH.
Qed.

Lemma sample_bytes_len l : len (sample_bytes l) = 2 * len l.
Proof.
  induction l as [|s l IH]; [done|]. unfold sample_bytes in *. rewrite fmap_cons. cbn [concat bytes_of app].
  rewrite !len_cons, IH. lia.
Qed.

Lemma mono_to_stereo_len l : len (mono_to_stereo l) = 2 * len l.
Proof. induction l as [|a l IH]; [done|]. simpl. rewrite !len_cons, IH. lia. Qed.

Lemma mono_to_stereo_int16 l : Forall int16 l → Forall int16 (mono_to_stereo l).
Proof. induction 1; [constructor|]. simpl. by do 2 (constructor; [done|]). Qed.

Lemma stereo_mono_inv l : stereo_to_mono (mono_to_stereo l) = l.
Proof. induction l as [|a l IH]; [done|]. simpl. by rewrite IH. Qed.

(** Samples that are doubled for two channels and stored as bytes are,
    read back and with one channel taken, the same samples. *)
Theorem channels_round_trip l :
  Forall int16 l → stereo_to_mono (samples_of (sample_bytes (mono_to_stereo l))) = l.
Proof. intros H. rewrite samples_bytes by (by apply mono_to_stereo_int16). apply stereo_mono_inv. Qed.

(** ** Playback with a conversion of channels *)

Lemma read_samples_ok l rest n :
  Forall int16 l → n = len l → read_samples (sample_bytes l ++ rest) n = Ok l.
Proof.
  intros Hl ->. unfold read_samples. rewrite <-sample_bytes_len, slice_prefix. cbn [mbind res_bind].
  by rewrite samples_bytes.
Qed.

Section usb.
Context {Sp : Type} (sx : speex Sp).

(** One channel of samples that is played on a card with two goes to the
    driver exactly once, each sample for both channels; the result is the
    bytes the driver got. *)
Theorem usb_write_doubles (u : usb_audio_pcm Sp) l rest :
  let k := p_config (ua_pcm u) in
  Forall int16 l → 4 * len l ≤ len (buffer_channels u) → len (buffer_channels u) ≤ MAX_BUF_SIZE →
  source_channels u = 1 → target_channels u = 2 → need_resample u = false →
  channels k = 2 → format k = PCM_FORMAT_S16_LE → has (p_flags (ua_pcm u)) PCM_IN = false → ∃ ret u' rs,
  usb_audio_write sx (sample_bytes l ++ rest) (2 * len l) u = Ok (ret, u') ∧
  requests (ua_pcm u') = requests (ua_pcm u) ++ rs ∧
  ((ret = 4 * len l ∧ writes_done (dev (ua_pcm u)) (requests (ua_pcm u)) rs = [sample_bytes (mono_to_stereo l)]) ∨
   (ret = -1 ∧ writes_done (dev (ua_pcm u)) (requests (ua_pcm u)) rs = [])).
Proof.
  intros k Hl Hfit Hmax Hsrc Htgt Hneed Hch Hfmt Hout. unfold MAX_BUF_SIZE in *.
  set (out := sample_bytes (mono_to_stereo l)).
  assert (len out = 4 * len l) as Hlen by (unfold out; rewrite sample_bytes_len, mono_to_stereo_len; lia).
  assert (∃ tl, convert_channels (sample_bytes l ++ rest) (2 * len l) u =
    Ok ((out ++ tl, 4 * len l), set_buffers (buffer_resample u) (out ++ tl) (buffer_read u) u)) as [tl Ec].
  { unfold convert_channels. rewrite bind_get, Htgt, Hsrc. change (2 =? 1) with false. cbv iota.
    replace (2 * len l / 2) with (len l) by (rewrite Z.mul_comm, Z.div_mul; lia).
    rewrite (bind_lift _ _ _ _ (read_samples_ok l rest (len l) Hl eq_refl)).
    pose proof (blit_prefix [] out (buffer_channels u) ltac:(lia)) as Eb. simpl in Eb. change (len []) with 0 in Eb.
    unfold write_samples. fold out. rewrite (bind_lift _ _ _ _ Eb), bind_modify.
    rewrite mono_to_stereo_len. replace (2 * len l * 2) with (4 * len l) by lia. by eexists. }
  unfold usb_audio_write. rewrite (bind_ok _ _ _ _ _ Ec). cbn [fst snd].
  rewrite (bind_ok _ _ _ (out ++ tl, 4 * len l) (set_buffers (buffer_resample u) (out ++ tl) (buffer_read u) u)).
  2:{ unfold convert_rate. rewrite bind_get. cbn [need_resample set_buffers]. by rewrite Hneed. }
  pose proof (len_nonneg l). set (u1 := set_buffers _ _ _ u).
  destruct (pcm_write_once (ua_pcm u) (out ++ tl) (4 * len l) (len l) out) as (ret & p' & rs & E & Hret & Hrs & _ & Hdone & _).
  { done. }
  { unfold transfer_frames. fold k. rewrite Hch, Hfmt. change (u32 (2 * pcm_format_to_bits PCM_FORMAT_S16_LE) / 8) with 4.
    unfold divide. change (4 =? 0) with false. cbv iota. by rewrite Z.mul_comm, Z.div_mul. }
  { unfold pcm_frames_to_bytes. fold k. rewrite Hch, Hfmt. change (Z.shiftr (pcm_format_to_bits PCM_FORMAT_S16_LE) 3) with 2.
    rewrite u32_small by lia. replace (len l * 2 * 2) with (len out) by lia. apply slice_prefix. }
  assert (zoom (pcm_write (out ++ tl) (4 * len l)) u1 = Ok (ret, lset p' u1)) as Ez by (by apply zoom_ok).
  rewrite (bind_ok _ _ _ _ _ Ez).
  destruct Hret as [-> | ->]; simpl (negb _); cbv iota; (eexists _, _, rs; split; [reflexivity|]; split; [done|]).
  - left. split; [|done]. apply s32_small. unfold INT_MIN, INT_MAX. lia.
  - by right.
Qed.

(** A device that cannot be opened is not reported: the card is there,
    with a stream whose descriptor is negative. *)
Theorem usb_open_hides_failure sys open_fd n device flags config c m c1 c2 :
  sys_open sys (pcm_path n device flags) < 0 → sys_calloc sys = true →
  mixer_open open_fd n c = Ok (Some m, c1) → alloc c1 = Ok (true, c2) → ∃ u : usb_audio_pcm Sp,
  usb_audio_open sys open_fd n device flags (Some config) c = Ok (Some u, Some config, c2) ∧
  pcm_is_ready (ua_pcm u) = false.
Proof.
  intros Ho Hc Hm Ha. unfold usb_audio_open, pcm_open. rewrite Hc. cbn [negb].
  rewrite (proj2 (Z.ltb_lt _ _) Ho). cbn [mbind res_bind default]. rewrite Hm, Ha.
  eexists. split; [reflexivity|]. unfold pcm_is_ready. simpl. by apply Z.leb_gt.
Qed.

(** ** The volume *)

(** The card accepts every read and every write of a whole array. *)
Record card_accepts (d : list mixer_request → mixer_answer) : Prop := {
  accepts_read : ∀ rs n, mix_ret (d (rs ++ [Mix_read n])) = 0;
  accepts_write : ∀ rs n vs, len vs = 128 → mix_ret (d (rs ++ [Mix_write n vs])) = 0;
}.

(** The first [i] values of the array are [v]. *)
Definition all_set (vs : list Z) (i v : Z) : Prop := len vs = 128 ∧ ∀ j, 0 ≤ j < i → vs !! Z.to_nat j = Some v.

Lemma set_value_written c x ei vs0 i v :
  ctl_info x = Some ei → type ei = SNDRV_CTL_ELEM_TYPE_INTEGER → 0 ≤ i < count ei → count ei ≤ 128 →
  card_stores (mdev c) → card_accepts (mdev c) →
  (i = 0 ∨ ∃ rs, mixed c = rs ++ [Mix_write (numid ei) vs0] ∧ all_set vs0 i v) → ∃ c' rs vs,
  mixer_ctl_set_value (Some x) i v c = Ok (0, c') ∧ mdev c' = mdev c ∧
  mixed c' = rs ++ [Mix_write (numid ei) vs] ∧ all_set vs (i + 1) v.
Proof.
  intros Hi Ht Hin Hc Hs Ha Hprev. unfold mixer_ctl_set_value. rewrite (bind_lift _ _ _ ei) by (by rewrite Hi).
  destruct (Z.leb_spec (count ei) i); [lia|].
  destruct (ioctl_ok (Mix_read (numid ei)) c) as (c1 & E1 & [D1 _ _]). rewrite (bind_ok _ _ _ _ _ E1).
  rewrite (accepts_read _ Ha). change (0 <? 0) with false. cbv iota. rewrite Ht.
  change (SNDRV_CTL_ELEM_TYPE_INTEGER =? SNDRV_CTL_ELEM_TYPE_BOOLEAN) with false.
  change (SNDRV_CTL_ELEM_TYPE_INTEGER =? SNDRV_CTL_ELEM_TYPE_INTEGER) with true. cbv iota.
  set (a := mix_values _). pose proof (stores_len _ Hs (mixed c) (numid ei)) as Hl. fold a in Hl.
  assert (∀ j, 0 ≤ j < i → a !! Z.to_nat j = Some v) as Hold.
  { destruct Hprev as [->|(rs & Hm & Hlen & Hall)]; [lia|]. unfold a. rewrite Hm.
    destruct (stores_value _ Hs rs (numid ei) vs0) as [_ ->]; [by rewrite (accepts_write _ Ha)|done]. }
  destruct (blit a i [v]) as [vs|] eqn:Eb.
  2:{ rewrite blit_ok in Eb; [done|lia|]. change (len [v]) with 1. lia. }
  apply blit_len in Eb as Hlen. unfold write_at. rewrite (bind_lift _ _ _ _ Eb).
  destruct (ioctl_ok (Mix_write (numid ei) vs) c1) as (c2 & E2 & [D2 _ _]). rewrite (bind_ok _ _ _ _ _ E2).
  assert (mixed c2 = mixed c1 ++ [Mix_write (numid ei) vs]) as Hm2.
  { unfold ioctl in E2. rewrite bind_get in E2. by injection E2 as <-. }
  exists c2, (mixed c1), vs. rewrite D1, (accepts_write _ Ha) by lia.
  split; [done|]. split; [congruence|]. split; [done|]. split; [lia|].
  intros j Hj. rewrite (blit_lookup _ _ _ _ _ Eb) by lia. change (len [v]) with 1.
  destruct (decide (i ≤ j < i + 1)); [|apply Hold; lia]. by replace (j - i) with 0 by lia.
Qed.

Lemma set_values_ok left c x ei vs0 i v :
  ctl_info x = Some ei → type ei = SNDRV_CTL_ELEM_TYPE_INTEGER → 0 ≤ i → i + Z.of_nat left = count ei →
  count ei ≤ 128 → card_stores (mdev c) → card_accepts (mdev c) → (0 < left)%nat →
  (i = 0 ∨ ∃ rs, mixed c = rs ++ [Mix_write (numid ei) vs0] ∧ all_set vs0 i v) → ∃ c' rs vs,
  set_values left (Some x) i v c = Ok (tt, c') ∧
  mixed c' = rs ++ [Mix_write (numid ei) vs] ∧ all_set vs (count ei) v.
Proof.
  intros Hi Ht. revert c vs0 i. induction left as [|left IH]; intros c vs0 i H0 Hsum Hc Hs Ha Hpos Hprev; [lia|].
  destruct (set_value_written c x ei vs0 i v) as (c1 & rs & vs & E & D & Hm & Hall); try done; [lia|].
  cbn [set_values]. rewrite (bind_ok _ _ _ _ _ E). change (negb (0 =? 0)) with false. cbv iota.
  destruct left as [|left].
  - exists c1, rs, vs. split; [done|]. split; [done|]. by replace (count ei) with (i + 1) by lia.
  - apply (IH c1 vs (i + 1)); try lia; [by rewrite D..|]. right. by exists rs.
Qed.

(** A volume in the range of the card is written to all values of the
    control for the volume; any other is refused without a request. *)
Theorem set_volume_writes_all (u : usb_audio_pcm Sp) m cs x ei v :
  ua_mixer u = Some m → ctls m = Some cs → 1 < mixer_count m → cs !! 1%nat = Some x → ctl_info x = Some ei →
  type ei = SNDRV_CTL_ELEM_TYPE_INTEGER → 0 < count ei ≤ 128 →
  card_stores (mdev (ua_card u)) → card_accepts (mdev (ua_card u)) →
  if (0 <=? v) && (v <=? 44) then ∃ u' rs vs,
    usb_audio_set_volume v u = Ok (0, u') ∧
    mixed (ua_card u') = rs ++ [Mix_write (numid ei) vs] ∧ all_set vs (count ei) v
  else usb_audio_set_volume v u = Ok (-1, u).
Proof.
  intros Hm Hcs Hn Hx Hi Ht Hc Hs Ha. unfold usb_audio_set_volume, PCM_Playback_Volume_Min, PCM_Playback_Volume_Max.
  destruct (Z.leb_spec 0 v), (Z.leb_spec v 44); cbn [andb];
    destruct (Z.ltb_spec v 0), (Z.ltb_spec 44 v); try lia; cbn [orb]; try done.
  destruct (set_values_ok (Z.to_nat (count ei)) (ua_card u) x ei [] 0 v) as (c' & rs & vs & E & Hmx & Hall);
    try done; [lia..|by left|].
  rewrite bind_get, Hm.
  assert (usb_audio_mixer_set_value (Some m) PCM_Playback_Volume_Ctrl v (ua_card u) = Ok (tt, c')) as Ev.
  { unfold usb_audio_mixer_set_value, mixer_get_ctl, PCM_Playback_Volume_Ctrl. destruct (Z.ltb_spec 1 (mixer_count m)); [|lia].
    rewrite Hcs. cbn [deref mbind res_bind]. rewrite (read_at_lookup cs 1 x) by done.
    rewrite bind_lift with (a := Some x) by done. rewrite bind_lift with (a := count ei) by (simpl; by rewrite Hi).
    exact E. }
  assert (zoom (usb_audio_mixer_set_value (Some m) PCM_Playback_Volume_Ctrl v) u = Ok (tt, lset c' u)) as Ez
    by (by apply zoom_ok).
  rewrite (bind_ok _ _ _ _ _ Ez). eexists _, rs, vs. split; [reflexivity|]. done.
Qed.
End usb.

(** ** Examples *)

Lemma channels_round_trip_witness :
  stereo_to_mono (samples_of (sample_bytes (mono_to_stereo [3; -7; 32767]))) = [3; -7; 32767].
Proof. apply channels_round_trip. by repeat (constructor; [unfold int16; lia|]). Defined.

Definition demo_stream : pcm :=
  Pcm 5 PCM_OUT false 0 4 8 (PcmConfig 2 8000 2 2 PCM_FORMAT_S16_LE 0 0 0 0) 0 0 (0, 0) 0 1 false [] 0 false 0
    (demo_driver 0) [].
Definition demo_control : mixer_ctl := MixerCtl 3 (Some demo_volume) None.
Definition demo_controls : mixer :=
  Mixer 3 (Some [demo_switch; demo_volume]) (Some [MixerCtl 3 (Some demo_switch) None; demo_control]) 2.
Definition demo_usb : usb_audio_pcm (list Z) :=
  UsbAudio demo_stream (Some demo_controls) demo_mixer None false PCM_OUT 1 2
    (replicate 16 0) (replicate 16 0) (replicate 16 0).

Lemma usb_write_doubles_witness : ∃ ret u' rs,
  usb_audio_write copy_speex (sample_bytes [258; -1] ++ []) 4 demo_usb = Ok (ret, u') ∧
  requests (ua_pcm u') = [] ++ rs ∧
  ((ret = 8 ∧ writes_done (demo_driver 0) [] rs = [[2; 1; 2; 1; 255; 255; 255; 255]]) ∨
   (ret = -1 ∧ writes_done (demo_driver 0) [] rs = [])).
Proof.
  apply (usb_write_doubles copy_speex demo_usb [258; -1] []); try done.
  by repeat (constructor; [unfold int16; lia|]).
Defined.

Lemma usb_open_hides_failure_witness :
  let sys := PcmSystem true (λ _, -1) (λ _, None) true true true (demo_driver 0) in
  let m := Mixer 3 (Some [demo_info])
    (Some [MixerCtl 3 (Some demo_info) (Some [Some (lit "Item"); Some (lit "Item")])]) 1 in
  ∃ c1 c2 (u : usb_audio_pcm (list Z)),
  mixer_open (λ _, 3) 0 demo_mixer = Ok (Some m, c1) ∧
  usb_audio_open sys (λ _, 3) 0 0 PCM_OUT (Some demo_config) demo_mixer = Ok (Some u, Some demo_config, c2) ∧
  pcm_is_ready (ua_pcm u) = false.
Proof.
  intros sys m.
  set (c1 := match mixer_open (λ _, 3) 0 demo_mixer with Ok (_, c) => c | Err _ => demo_mixer end).
  set (c2 := match alloc c1 with Ok (_, c) => c | Err _ => demo_mixer end).
  assert (mixer_open (λ _, 3) 0 demo_mixer = Ok (Some m, c1)) as E1 by (vm_compute; reflexivity).
  assert (alloc c1 = Ok (true, c2)) as E2 by (vm_compute; reflexivity).
  destruct (usb_open_hides_failure (Sp := list Z) sys (λ _, 3) 0 0 PCM_OUT demo_config demo_mixer m c1 c2
    eq_refl eq_refl E1 E2) as (u & E & Hu).
  exists c1, c2, u. split; [exact E1|]. split; [exact E|exact Hu].
Defined.

Lemma demo_card_accepts : card_accepts demo_card.
Proof.
  split.
  - intros rs n. unfold demo_card. by rewrite last_snoc.
  - intros rs n vs E. unfold demo_card. by rewrite last_snoc, E.
Qed.

Lemma set_volume_writes_all_witness : ∃ (u' : usb_audio_pcm (list Z)) rs vs,
  usb_audio_set_volume 30 demo_usb = Ok (0, u') ∧
  mixed (ua_card u') = rs ++ [Mix_write 4 vs] ∧ all_set vs 2 30.
Proof.
  apply (set_volume_writes_all demo_usb demo_controls [MixerCtl 3 (Some demo_switch) None; demo_control]
    demo_control demo_volume 30); try done; [apply demo_card_stores|apply demo_card_accepts].
Defined.
