(* ===== verification/Wav.v ===== *)
(** * Recording and playing a wav file: src/upil_audio/uacap.c, uaplay.c

    The two command line programs.  A file is its bytes; [fwrite] may store
    less than it is given when the file has no more room.  An interrupt ends
    the recording: [turns] is how often the program sees that there was none
    yet. *)

From stdpp Require Import strings.
From S2P Require Import Prelude CString Pcm PcmIo Mixer Resampler UsbAudio.

Definition ID_RIFF : Z := 0x46464952.
Definition ID_WAVE : Z := 0x45564157.
Definition ID_FMT : Z := 0x20746d66.
Definition ID_DATA : Z := 0x61746164.
Definition FORMAT_PCM : Z := 1.

Record wav_header := WavHeader {
  riff_id : Z;
  riff_sz : Z;
  riff_fmt : Z;
  fmt_id : Z;
  fmt_sz : Z;
  audio_format : Z;         (* 16 bits *)
  num_channels : Z;         (* 16 bits *)
  sample_rate : Z;
  byte_rate : Z;
  block_align : Z;          (* 16 bits *)
  bits_per_sample : Z;      (* 16 bits *)
  data_id : Z;
  data_sz : Z;
}.

(** ** The header as bytes *)

Definition le16 (x : Z) : list Z := [u8 x; u8 (Z.shiftr x 8)].
Definition le32 (x : Z) : list Z := le16 x ++ le16 (Z.shiftr x 16).

Definition header_bytes (h : wav_header) : list Z :=
  le32 (riff_id h) ++ le32 (riff_sz h) ++ le32 (riff_fmt h) ++ le32 (fmt_id h) ++ le32 (fmt_sz h) ++
  le16 (audio_format h) ++ le16 (num_channels h) ++ le32 (sample_rate h) ++ le32 (byte_rate h) ++
  le16 (block_align h) ++ le16 (bits_per_sample h) ++ le32 (data_id h) ++ le32 (data_sz h).

Definition get16 (l : list Z) : option (Z * list Z) :=
  match l with a :: b :: l' => Some (a + 256 * b, l') | _ => None end.
Definition get32 (l : list Z) : option (Z * list Z) :=
  '(a, l) ← get16 l; '(b, l) ← get16 l; Some (a + 65536 * b, l).

(** [fread(&header, sizeof(struct wav_header), 1, file)]: the header and the
    rest of the file; after a short read the header is not initialised. *)
Definition read_header (l : list Z) : option (wav_header * list Z) :=
  '(a, l) ← get32 l; '(b, l) ← get32 l; '(c, l) ← get32 l; '(d, l) ← get32 l; '(e, l) ← get32 l;
  '(f, l) ← get16 l; '(g, l) ← get16 l; '(h, l) ← get32 l; '(i, l) ← get32 l;
  '(j, l) ← get16 l; '(k, l) ← get16 l; '(m, l) ← get32 l; '(n, l) ← get32 l;
  Some (WavHeader a b c d e f g h i j k m n, l).

Definition pcm_config_ua_in : pcm_config := PcmConfig 1 8000 512 2 PCM_FORMAT_S16_LE 0 0 0 0.
Definition pcm_config_ua_out : pcm_config := PcmConfig 2 48000 1024 4 PCM_FORMAT_S16_LE 0 0 0 0.

(** ** Arguments *)

Record wav_args := WavArgs {
  arg_device : Z;
  arg_channels : Z;
  arg_rate : Z;
  arg_bits : Z;
}.

(** An option at the end of the arguments makes [atoi] read NULL. *)
Fixpoint cap_args (argv : list (list Z)) (a : wav_args) : res wav_args :=
  match argv with
  | [] => Ok a
  | x :: rest =>
      let value k := match rest with [] => Err NullDeref | v :: rest' => cap_args rest' (k (u32 (atoi v))) end in
      if strcmp_eq x (lit "-d") then value (λ v, WavArgs v (arg_channels a) (arg_rate a) (arg_bits a))
      else if strcmp_eq x (lit "-c") then value (λ v, WavArgs (arg_device a) v (arg_rate a) (arg_bits a))
      else if strcmp_eq x (lit "-r") then value (λ v, WavArgs (arg_device a) (arg_channels a) v (arg_bits a))
      else if strcmp_eq x (lit "-b") then value (λ v, WavArgs (arg_device a) (arg_channels a) (arg_rate a) v)
      else cap_args rest a
  end.

Fixpoint play_args (argv : list (list Z)) (device : Z) : res Z :=
  match argv with
  | [] => Ok device
  | x :: rest =>
      if strcmp_eq x (lit "-d")
      then match rest with [] => Err NullDeref | v :: rest' => play_args rest' (u32 (atoi v)) end
      else play_args rest device
  end.

Section wav.
Context {Sp : Type} (sx : speex Sp).

Abbreviation U := (usb_audio_pcm Sp).
Abbreviation MU := (M U).

(** What the programs need of the system: the device, the mixer's path, and
    the card of the mixer. *)
Record wav_system := WavSystem {
  wav_pcm : pcm_system;
  wav_mixer : list Z → Z;
  wav_card : card;
}.

(** ** Recording *)

(** The bytes read, and the file.  [room]: how many bytes still fit. *)
Fixpoint capture_loop (turns fuel : nat) (buffer : list Z) (size room bytes : Z) (file : list Z)
  : MU (Z * list Z) :=
  match turns with
  | O => mret (bytes, file)
  | S t =>
      r ← usb_audio_read sx fuel buffer MAX_BUF_SIZE size;
      let '(n, buffer) := r in
      if n <? 0 then mret (bytes, file) else
      data ← lift (slice buffer 0 n);
      let stored := take (Z.to_nat room) data in
      if negb (len stored =? n) then mret (bytes, file ++ stored) else
      capture_loop t fuel buffer size (room - n) (u32 (bytes + n)) (file ++ stored)
  end.

(** The frames and the file; a failure to set the resampler is reported and
    the recording goes on. *)
Definition capture_sample (sys : wav_system) (turns fuel : nat) (room device chans rate bits : Z)
  : res (Z * list Z) :=
  o ← usb_audio_open (Sp := Sp) (wav_pcm sys) (wav_mixer sys) 1 device PCM_IN (Some pcm_config_ua_in) (wav_card sys);
  let '(u, _, _) := o in
  match u with
  | None => Ok (0, [])
  | Some u =>
      let record : MU (Z * list Z) :=
        usb_audio_set_resample sx rate chans 5;;
        size ← gets usb_audio_get_buffer_size;
        capture_loop turns fuel (replicate (Z.to_nat MAX_BUF_SIZE) 0) size room 0 [] in
      match record u with
      | Err e => Err e
      | Ok ((bytes, file), u) =>
          usb_audio_close u;;
          frames ← divide bytes (u32 (bits / 8 * chans));
          mret (frames, file)
      end
  end.

(** The fields have their widths; [riff_sz] is never set. *)
Definition cap_header (a : wav_args) (frames : Z) : wav_header :=
  let chans := wrapU 16 (arg_channels a) in
  let bits := wrapU 16 (arg_bits a) in
  let align := wrapU 16 (arg_channels a * (bits / 8)) in
  WavHeader ID_RIFF 0 ID_WAVE ID_FMT 16 FORMAT_PCM chans (arg_rate a)
    (u32 (bits / 8 * arg_channels a * arg_rate a)) align bits ID_DATA (u32 (frames * align)).

(** The exit status and the file; [None] when it could not be created. *)
Definition uacap_main (sys : wav_system) (turns fuel : nat) (created : bool) (room : Z) (argv : list (list Z))
  : res (Z * option (list Z)) :=
  match argv with
  | [] | [_] => Ok (1, None)
  | _ :: _ :: argv =>
      if negb created then Ok (1, None) else
      a ← cap_args argv (WavArgs 0 1 8000 16);
      let h := cap_header a 0 in
      r ← capture_sample sys turns fuel room (arg_device a) (num_channels h) (sample_rate h) (bits_per_sample h);
      let '(frames, data) := r in
      mret (0, Some (header_bytes (cap_header a frames) ++ data))
  end.

(** ** Playing *)

(** The file in pieces of [size] bytes; the result are the pieces that were
    played. *)
Fixpoint play_loop (fuel : nat) (size : Z) (file : list Z) : MU (list (list Z)) :=
  match fuel with
  | O => fail OutOfFuel
  | S f =>
      let piece := take (Z.to_nat size) file in
      if len piece =? 0 then mret [] else
      r ← usb_audio_write sx piece (len piece);
      if r <? 0 then mret [] else
      ps ← play_loop f size (drop (Z.to_nat size) file);
      mret (piece :: ps)
  end.

Definition play_sample (sys : wav_system) (fuel : nat) (allocated : bool) (file : list Z) (device chans rate : Z)
  : res (list (list Z)) :=
  o ← usb_audio_open (Sp := Sp) (wav_pcm sys) (wav_mixer sys) 1 device PCM_OUT (Some pcm_config_ua_out) (wav_card sys);
  let '(u, _, _) := o in
  match u with
  | None => Ok []
  | Some u =>
      let play : MU (list (list Z)) :=
        usb_audio_set_resample sx rate chans 5;;
        size ← gets (λ u, s32 (usb_audio_get_buffer_size u));
        if allocated then play_loop fuel size file else mret [] in
      match play u with
      | Err e => Err e
      | Ok (ps, u) => usb_audio_close u;; mret ps
      end
  end.

(** What the program takes for a file it can play. *)
Definition playable (h : wav_header) : bool :=
  (riff_id h =? ID_RIFF) && (riff_fmt h =? ID_WAVE) && (fmt_id h =? ID_FMT) &&
  (audio_format h =? FORMAT_PCM) && (fmt_sz h =? 16) && (bits_per_sample h =? 16).

(** The exit status and the pieces that were played. *)
Definition uaplay_main (sys : wav_system) (fuel : nat) (allocated : bool) (file : option (list Z))
    (argv : list (list Z)) : res (Z * list (list Z)) :=
  match argv, file with
  | [], _ | [_], _ | _, None => Ok (1, [])
  | _ :: _ :: argv, Some file =>
      device ← play_args argv 0;
      match read_header file with
      | None => Err Uninit
      | Some (h, data) =>
          if negb (playable h) then Ok (1, []) else
          ps ← play_sample sys fuel allocated data device (num_channels h) (sample_rate h);
          mret (0, ps)
      end
  end.
End wav.
