(* ===== verification/WavProofs.v ===== *)
(** * Properties of the wav programs *)

From stdpp Require Import strings.
From S2P Require Import Prelude CString Pcm PcmIo PcmProofs Mixer MixerProofs Resampler.
From S2P Require Import ResamplerProofs UsbAudio UsbAudioProofs Wav.

(** ** The header *)

Definition is16 (x : Z) : Prop := 0 ≤ x < 65536.
Definition is32 (x : Z) : Prop := 0 ≤ x < 4294967296.

Lemma get16_le16 x l : is16 x → get16 (le16 x ++ l) = Some (x, l).
Proof.
  unfold is16. intros Hx. simpl. do 2 f_equal. unfold wrapU. rewrite Z.shiftr_div_pow2 by lia. change (2 ^ 8) with 256.
  rewrite (Z.mod_small (x / 256)) by (split; [apply Z.div_pos; lia|apply Z.div_lt_upper_bound; lia]).
  pose proof (Z.div_mod x 256 ltac:(lia)). lia.
Qed.

Lemma le16_add r q : le16 (r + q * 65536) = le16 r.
Proof.
  unfold le16, wrapU. rewrite !Z.shiftr_div_pow2 by lia. change (2 ^ 8) with 256.
  replace (r + q * 65536) with (r + (q * 256) * 256) by lia. rewrite Z.div_add, Z_mod_plus_full by lia.
  by rewrite Z_mod_plus_full.
Qed.

Lemma le16_mod x : le16 x = le16 (x mod 65536).
Proof.
  rewrite <-(le16_add (x mod 65536) (x / 65536)). f_equal. pose proof (Z.div_mod x 65536 ltac:(lia)). lia.
Qed.

Lemma get32_le32 x l : is32 x → get32 (le32 x ++ l) = Some (x, l).
Proof.
  unfold is32. intros Hx. unfold get32, le32. rewrite <-app_assoc, le16_mod.
  rewrite get16_le16 by (apply Z.mod_pos_bound; lia). cbn [mbind option_bind].
  rewrite Z.shiftr_div_pow2 by lia. change (2 ^ 16) with 65536.
  rewrite get16_le16 by (split; [apply Z.div_pos; lia|apply Z.div_lt_upper_bound; lia]). cbn [mbind option_bind].
  do 2 f_equal. pose proof (Z.div_mod x 65536 ltac:(lia)). lia.
Qed.

(** The fields fit. *)
Record header_ok (h : wav_header) : Prop := {
  ok_ids : is32 (riff_id h) ∧ is32 (riff_sz h) ∧ is32 (riff_fmt h) ∧ is32 (fmt_id h) ∧ is32 (fmt_sz h);
  ok_format : is16 (audio_format h) ∧ is16 (num_channels h) ∧ is32 (sample_rate h) ∧ is32 (byte_rate h);
  ok_data : is16 (block_align h) ∧ is16 (bits_per_sample h) ∧ is32 (data_id h) ∧ is32 (data_sz h);
}.

Lemma read_header_bytes h rest : header_ok h → read_header (header_bytes h ++ rest) = Some (h, rest).
Proof.
  intros [(?&?&?&?&?) (?&?&?&?) (?&?&?&?)]. unfold read_header, header_bytes. rewrite <-!app_assoc.
  do 5 (rewrite get32_le32 by done; cbn [mbind option_bind]).
  do 2 (rewrite get16_le16 by done; cbn [mbind option_bind]).
  do 2 (rewrite get32_le32 by done; cbn [mbind option_bind]).
  do 2 (rewrite get16_le16 by done; cbn [mbind option_bind]).
  do 2 (rewrite get32_le32 by done; cbn [mbind option_bind]). by destruct h.
Qed.

Lemma wrapU_bounds w x : 0 < w → 0 ≤ wrapU w x < 2 ^ w.
Proof. intros. apply Z.mod_pos_bound, Z.pow_pos_nonneg; lia. Qed.

Lemma cap_header_ok a frames : is32 (arg_rate a) → header_ok (cap_header a frames).
Proof.
  intros Hr. split; simpl; split_and!; try done; try (apply (wrapU_bounds 16); lia); try (apply (wrapU_bounds 32); lia);
    unfold is32, is16, ID_RIFF, ID_WAVE, ID_FMT, ID_DATA, FORMAT_PCM; lia.
Qed.

(** A file that was recorded with 16 bits is one that can be played, with
    the channels and the rate of the recording and all of its samples; the
    size of the whole file in the header is 0. *)
Theorem recording_is_playable a frames data :
  is32 (arg_rate a) → wrapU 16 (arg_bits a) = 16 → ∃ h,
  read_header (header_bytes (cap_header a frames) ++ data) = Some (h, data) ∧ playable h = true ∧
  num_channels h = wrapU 16 (arg_channels a) ∧ sample_rate h = arg_rate a ∧ bits_per_sample h = 16 ∧ riff_sz h = 0.
Proof.
  intros Hr Hb. exists (cap_header a frames). split; [apply read_header_bytes; by apply cap_header_ok|].
  unfold playable, cap_header. simpl. by rewrite Hb.
Qed.

(** ** Playing the whole file *)

Section play.
Context {Sp : Type} (sx : speex Sp) (size : Z) (good : usb_audio_pcm Sp → Prop).
Context (Hsize : 0 < size).
Context (Hgood : ∀ u piece, good u → 0 < len piece ≤ size → ∃ r u',
  usb_audio_write sx piece (len piece) u = Ok (r, u') ∧ 0 ≤ r ∧ good u').

(** As long as the card takes what it is given, the whole file is played,
    in order, in pieces of the size of the buffer, and the program ends. *)
Theorem play_loop_plays_all file u fuel :
  good u → (length file < fuel)%nat → ∃ ps u',
  play_loop sx fuel size file u = Ok (ps, u') ∧ good u' ∧ concat ps = file ∧
  Forall (λ p, 0 < len p ≤ size) ps.
Proof using Hsize Hgood.
  revert file u. induction fuel as [|f IH]; intros file u Hu Hf; [lia|]. cbn [play_loop].
  set (piece := take (Z.to_nat size) file). pose proof (len_take (Z.to_nat size) file) as Hl. fold piece in Hl.
  destruct (Z.eqb_spec (len piece) 0) as [E|E].
  { exists [], u. split; [done|]. split; [done|]. split; [|constructor].
    destruct file; [done|]. unfold len in *. simpl length in *. lia. }
  pose proof (len_nonneg piece). destruct (Hgood u piece Hu) as (r & u1 & E1 & Hr & Hu1); [lia|].
  rewrite (bind_ok _ _ _ _ _ E1). destruct (Z.ltb_spec r 0); [lia|].
  destruct (IH (drop (Z.to_nat size) file) u1 Hu1) as (ps & u2 & E2 & Hu2 & Hcat & Hall).
  { rewrite length_drop. unfold len in *. lia. }
  rewrite (bind_ok _ _ _ _ _ E2). exists (piece :: ps), u2. split; [done|]. split; [done|].
  split; [simpl; rewrite Hcat; apply take_drop|]. constructor; [lia|done].
Qed.
End play.

(** ** Examples *)

Lemma recording_is_playable_witness : ∃ h,
  read_header (header_bytes (cap_header (WavArgs 0 1 8000 16) 2) ++ [1; 2; 3; 4]) = Some (h, [1; 2; 3; 4]) ∧
  playable h = true ∧ num_channels h = 1 ∧ sample_rate h = 8000 ∧ bits_per_sample h = 16 ∧ riff_sz h = 0.
Proof. by apply (recording_is_playable (WavArgs 0 1 8000 16) 2 [1; 2; 3; 4]). Defined.

(** A card that takes everything, in the format of the file. *)
Record plain_card (u : usb_audio_pcm (list Z)) : Prop := {
  plain_channels : target_channels u = source_channels u;
  plain_rate : need_resample u = false;
  plain_config : channels (p_config (ua_pcm u)) = 2 ∧ format (p_config (ua_pcm u)) = PCM_FORMAT_S16_LE;
  plain_out : has (p_flags (ua_pcm u)) PCM_IN = false;
  plain_driver : ∀ rs, ans_ret (dev (ua_pcm u) rs) = 0;
}.

(** The bytes that the driver was given. *)
Definition bytes_written (u : usb_audio_pcm (list Z)) : list Z :=
  concat (omap (λ r, match r with Req_writei b => Some b | _ => None end) (requests (ua_pcm u))).

Lemma plain_write u buffer n :
  plain_card u → 0 < n ≤ 4096 → n ≤ len buffer → ∃ u',
  usb_audio_write copy_speex buffer n u = Ok (n, u') ∧ plain_card u' ∧
  bytes_written u' = bytes_written u ++ take (Z.to_nat (n / 4 * 4)) buffer.
Proof.
  intros [Ht Hn [Hc Hf] Ho Hd] Hl Hb. unfold usb_audio_write.
  rewrite bind_ok with (a := (buffer, n)) (s' := u).
  2:{ unfold convert_channels. rewrite bind_get, Ht, Z.eqb_refl. done. }
  rewrite bind_ok with (a := (buffer, n)) (s' := u).
  2:{ unfold convert_rate. by rewrite bind_get, Hn. }
  set (bytes := take (Z.to_nat (n / 4 * 4)) buffer).
  assert (∃ p', pcm_write buffer n (ua_pcm u) = Ok (0, p') ∧ p_config p' = p_config (ua_pcm u) ∧
    p_flags p' = p_flags (ua_pcm u) ∧ dev p' = dev (ua_pcm u) ∧
    (requests p' = requests (ua_pcm u) ++ [Req_writei bytes] ∨
     requests p' = requests (ua_pcm u) ++ [Req_prepare; Req_writei bytes])) as (p' & E & E1 & E2 & E3 & E4).
  { unfold pcm_write. rewrite bind_get, Ho, bind_lift with (a := n / 4).
    2:{ unfold transfer_frames. by rewrite Hc, Hf. }
    assert (0 ≤ n / 4 * 4 ≤ n) as Hq.
    { pose proof (Z.div_mod n 4 ltac:(lia)). pose proof (Z.mod_pos_bound n 4 ltac:(lia)). lia. }
    rewrite bind_lift with (a := bytes).
    2:{ unfold pcm_frames_to_bytes. rewrite Hc, Hf. change (Z.shiftr (pcm_format_to_bits PCM_FORMAT_S16_LE) 3) with 2.
        replace (n / 4 * 2 * 2) with (n / 4 * 4) by lia. rewrite u32_small by lia.
        rewrite slice_ok by lia. done. }
    cbn [write_frames]. rewrite bind_get. destruct (p_running (ua_pcm u)); cbn [negb].
    - rewrite (bind_ask (dev (ua_pcm u))) by done. rewrite Hd. eexists. split_and!; [reflexivity|done..|by left].
    - rewrite (bind_ask (dev (ua_pcm u))) by done. rewrite Hd. change (negb (0 =? 0)) with false. cbv iota.
      rewrite (bind_ask (dev (ua_pcm u))) by done. rewrite Hd. eexists. split_and!; [reflexivity|done..|right].
      simpl. by rewrite <-app_assoc. }
  assert (zoom (pcm_write buffer n) u = Ok (0, lset p' u)) as Ez by (by apply zoom_ok).
  rewrite (bind_ok _ _ _ _ _ Ez). eexists. split; [|split].
  - change (negb (0 =? 0)) with false. cbv iota. rewrite s32_small by (unfold INT_MIN, INT_MAX; lia). reflexivity.
  - split; simpl; [done..|by rewrite E1|by rewrite E2|by rewrite E3].
  - unfold bytes_written. simpl. destruct E4 as [-> | ->]; rewrite omap_app, concat_app; simpl; by rewrite app_nil_r.
Qed.

Definition plain_usb : usb_audio_pcm (list Z) :=
  UsbAudio demo_stream None demo_mixer None false PCM_OUT 2 2 [] [] [].

Lemma play_loop_plays_all_witness : ∃ ps u',
  play_loop copy_speex 9 4 [1; 2; 3; 4; 5; 6; 7; 8] plain_usb = Ok (ps, u') ∧ plain_card u' ∧
  concat ps = [1; 2; 3; 4; 5; 6; 7; 8] ∧ Forall (λ p, 0 < len p ≤ 4) ps.
Proof.
  apply (play_loop_plays_all copy_speex 4 plain_card ltac:(lia)); [|by split|simpl; lia].
  intros u piece Hu Hl. destruct (plain_write u piece (len piece) Hu) as (u' & E & Hu' & _); [lia|lia|].
  exists (len piece), u'. split; [done|]. split; [lia|done].
Defined.
