(* ===== verification/HostAudio.v ===== *)
(** * The audio classes of Android: src/upil_audio/upil_audio.cpp, acap.cpp, aplay.cpp

    [AudioTrack] plays and [AudioRecord] captures on the host.  The classes
    are not part of the repository; what they answer is an argument, and what
    they are told is recorded.  Here are the functions that move data between
    a buffer of the program and one of the two classes. *)

From stdpp Require Import strings.
From S2P Require Import Prelude CString Pcm PcmIo Mixer Resampler UsbAudio Wav.

(** The results that the code distinguishes. *)
Inductive status_t := NO_ERROR | TIMED_OUT | WOULD_BLOCK | Failed.

#[export] Instance status_eq_dec : EqDecision status_t.
Proof. solve_decision. Defined.

(** What [obtainBuffer] gives: a status, the number of frames, and the memory
    [i8] of the buffer, whose length is the field [size]. *)
Record obtained := Obtained {
  ob_status : status_t;
  ob_frames : Z;
  ob_i8 : list Z;
}.

(** The answers of a track or of a record.  [obtain i n] is the answer to
    the [i]-th call of [obtainBuffer], for [n] frames. *)
Record host_env := HostEnv {
  getMinFrameCount : status_t * Z;
  set_status : status_t;
  frameSize : Z;
  obtain : nat → Z → obtained;
}.

(** What the classes are told, in order. *)
Inductive host_call :=
  | Track_start
  | Track_stop
  | Track_data (bytes : list Z)
  | Record_start
  | Record_stop.

Record host := Host {
  is_host_track_setup : bool;
  host_calls : list host_call;
}.

Definition no_host : host := Host false [].

Abbreviation MHost := (M host).

Definition host_call_add (k : host_call) : MHost unit :=
  modify (λ h, Host (is_host_track_setup h) (host_calls h ++ [k])).

Section host_audio.
Context (env : host_env).

(** ** Setting up *)

(** The size of the buffer; [None] when it fails. *)
Definition min_frames : option Z :=
  let '(status, frame_count) := getMinFrameCount env in
  if negb (bool_decide (status = NO_ERROR)) || (frame_count <=? 0) then None else Some frame_count.

Definition hosta_setup_track : MHost (option Z) :=
  match min_frames with
  | None => mret None
  | Some frame_count =>
      h ← get;
      if is_host_track_setup h then mret (Some frame_count)
      else if negb (bool_decide (set_status env = NO_ERROR)) then mret None
      else put (Host true (host_calls h));; mret (Some frame_count)
  end.

Definition hosta_setup_record : option Z :=
  match min_frames with
  | None => None
  | Some frame_count =>
      if negb (bool_decide (set_status env = NO_ERROR)) then None
      else Some (u32 (frame_count * frameSize env))
  end.

(** ** Moving data *)

(** The loop of [hosta_write_data]; [chances] is its value after [--chances]. *)
Fixpoint write_chances (chances i : nat) (data : list Z) (frame_count remain : Z) : MHost Z :=
  match chances with
  | O => mret (-1)
  | S c =>
      if remain <=? 0 then mret 0 else
      let b := obtain env i remain in
      match ob_status b with
      | NO_ERROR =>
          let offset := s32 ((frame_count - remain) * frameSize env) in
          bytes ← lift (slice data offset (len (ob_i8 b)));
          host_call_add (Track_data bytes);;
          write_chances c (S i) data frame_count (s32 (remain - ob_frames b))
      | TIMED_OUT | WOULD_BLOCK => write_chances c (S i) data frame_count remain
      | Failed => mret 0
      end
  end.

Definition hosta_write_data (data : list Z) (count : Z) : MHost Z :=
  n ← lift (divide count (frameSize env));
  let frame_count := s32 n in
  if frame_count <=? 0 then mret 0 else
  write_chances 99 0 data frame_count frame_count.

(** The same loop for a record; the results are the return value and
    [data]. *)
Fixpoint read_chances (chances i : nat) (data : list Z) (frame_count remain : Z) : res (Z * list Z) :=
  match chances with
  | O => Ok (-1, data)
  | S c =>
      if remain <=? 0 then Ok (0, data) else
      let b := obtain env i remain in
      match ob_status b with
      | NO_ERROR =>
          let offset := s32 ((frame_count - remain) * frameSize env) in
          data ← blit data offset (ob_i8 b);
          read_chances c (S i) data frame_count (s32 (remain - ob_frames b))
      | TIMED_OUT | WOULD_BLOCK => read_chances c (S i) data frame_count remain
      | Failed => Ok (-1, data)
      end
  end.

Definition hosta_read_data (data : list Z) (count : Z) : res (Z * list Z) :=
  n ← divide count (frameSize env);
  let frame_count := s32 n in
  if frame_count <=? 0 then Ok (0, data) else
  read_chances 99 0 data frame_count frame_count.

(** The programs aplay and acap have copies of the two functions. *)
Definition send_track_data : list Z → Z → MHost Z := hosta_write_data.
Definition recv_record_data : list Z → Z → res (Z * list Z) := hosta_read_data.
End host_audio.

(** ** The USB sound card *)

Section usba.
Context {Sp : Type} (sx : speex Sp).

Definition USB_AUDIO_CARD : Z := 1.
Definition USB_AUDIO_DEVICE : Z := 0.

(** [usb_audio_open] with one of the static configurations, which the driver
    changes; the results are the card and the configuration. *)
Definition open_usb (sys : wav_system) (flags : Z) (config : pcm_config)
  : res (option (usb_audio_pcm Sp) * pcm_config) :=
  o ← usb_audio_open (Sp := Sp) (wav_pcm sys) (wav_mixer sys) USB_AUDIO_CARD USB_AUDIO_DEVICE flags
        (Some config) (wav_card sys);
  let '(u, config', _) := o in mret (u, default config config').

(** The card that is set up and its buffer size. *)
Definition usba_setup_record (sys : wav_system) (config : pcm_config)
  : res (option (usb_audio_pcm Sp * Z) * pcm_config) :=
  o ← open_usb sys PCM_IN config;
  let '(record, config) := o in
  match record with
  | None => mret (None, config)
  | Some record =>
      r ← usb_audio_set_resample sx 44100 2 5 record;
      let '(ret, record) := r in
      if negb (ret =? 0) then usb_audio_close record;; mret (None, config)
      else mret (Some (record, usb_audio_get_buffer_size record), config)
  end.

Definition usba_setup_track (sys : wav_system) (config : pcm_config) (rate channel : Z)
  : res (option (usb_audio_pcm Sp * Z) * pcm_config) :=
  o ← open_usb sys PCM_OUT config;
  let '(track, config) := o in
  match track with
  | None => mret (None, config)
  | Some track =>
      r ← usb_audio_set_resample sx rate channel 5 track;
      let '(ret, track) := r in
      if negb (ret =? 0) then usb_audio_close track;; mret (None, config) else
      r ← usb_audio_set_volume 12 track;
      let '(ret, track) := r in
      if negb (ret =? 0) then usb_audio_close track;; mret (None, config)
      else mret (Some (track, usb_audio_get_buffer_size track), config)
  end.
End usba.
