(* ===== verification/HostAudioProofs.v ===== *)
(** * Properties of the transfers to and from the host *)

From stdpp Require Import strings.
From S2P Require Import Prelude Pcm HostAudio.

(** What the classes of Android promise: a buffer that is granted has frames,
    not more than were asked for, and their bytes. *)
Record host_grants (env : host_env) : Prop := {
  grants_size : 0 < frameSize env;
  grants_some : ∀ i n, 0 < n → ob_status (obtain env i n) = NO_ERROR →
    0 < ob_frames (obtain env i n) ≤ n ∧
    len (ob_i8 (obtain env i n)) = ob_frames (obtain env i n) * frameSize env;
}.

Section transfers.
Context (env : host_env) (Henv : host_grants env).
Abbreviation F := (frameSize env).

(** The bytes from frame [a] to frame [b]. *)
Definition frames_of (data : list Z) (a b : Z) : list Z :=
  take (Z.to_nat ((b - a) * F)) (drop (Z.to_nat (a * F)) data).

Lemma frames_app data a b c : 0 ≤ a ≤ b → b ≤ c → frames_of data a b ++ frames_of data b c = frames_of data a c.
Proof using Henv.
  intros Ha Hb. pose proof (grants_size _ Henv). unfold frames_of.
  replace (Z.to_nat (b * F)) with (Z.to_nat (a * F) + Z.to_nat ((b - a) * F))%nat by nia.
  rewrite <-drop_drop, take_take_drop. f_equal. nia.
Qed.

Lemma frames_nil data a : frames_of data a a = [].
Proof. unfold frames_of. by rewrite Z.sub_diag. Qed.

Lemma slice_frames data a b :
  0 ≤ a ≤ b → b * F ≤ len data → slice data (a * F) ((b - a) * F) = Ok (frames_of data a b).
Proof using Henv. intros Ha Hb. pose proof (grants_size _ Henv). apply slice_ok; nia. Qed.

Lemma len_frames data a b : 0 ≤ a ≤ b → b * F ≤ len data → len (frames_of data a b) = (b - a) * F.
Proof using Henv. intros Ha Hb. pose proof (grants_size _ Henv). unfold frames_of. rewrite len_take, len_drop. nia. Qed.

(** ** Writing *)

(** The result of the loop from frame [a] on: what was given to the track are
    the frames up to [b]. *)
Record written (h h' : host) (data : list Z) (a b : Z) : Prop := {
  written_setup : is_host_track_setup h' = is_host_track_setup h;
  written_calls : ∃ chunks, host_calls h' = host_calls h ++ (Track_data <$> chunks) ∧
    concat chunks = frames_of data a b;
}.

Lemma written_nil h data a : written h h data a a.
Proof. split; [done|]. exists []. by rewrite app_nil_r, frames_nil. Qed.

Lemma written_cons h h' data a b c :
  0 ≤ a ≤ b → b ≤ c →
  written (Host (is_host_track_setup h) (host_calls h ++ [Track_data (frames_of data a b)])) h' data b c →
  written h h' data a c.
Proof using Henv.
  intros Ha Hb [Hs (chunks & Hc & Hcat)]. split; [done|]. exists (frames_of data a b :: chunks).
  simpl in Hc. rewrite Hc, <-app_assoc. split; [done|]. simpl. by rewrite Hcat, frames_app.
Qed.

Lemma write_chances_ok c : ∀ i data n a h,
  0 ≤ a ≤ n → n * F ≤ len data → len data ≤ INT_MAX → ∃ r h' b,
  write_chances env c i data n (n - a) h = Ok (r, h') ∧ a ≤ b ≤ n ∧ written h h' data a b ∧
  ((r = 0 ∧ (b = n ∨ ∃ j m, 0 < m ∧ ob_status (obtain env j m) = Failed)) ∨
   (r = -1 ∧ ¬ (n - a < Z.of_nat c ∧ ∀ j m, 0 < m → ob_status (obtain env j m) = NO_ERROR))).
Proof using Henv.
  pose proof (grants_size _ Henv) as HF. unfold INT_MAX.
  induction c as [|c IH]; intros i data n a h Ha Hn Hd; cbn [write_chances].
  { exists (-1), h, a. split_and!; [done|lia..|apply written_nil|]. right. split; [done|]. intros [? _]. lia. }
  destruct (Z.leb_spec (n - a) 0) as [|Hr].
  { exists 0, h, a. split_and!; [done|lia..|apply written_nil|]. left. split; [done|]. left. lia. }
  set (b := obtain env i (n - a)). destruct (ob_status b) eqn:Es.
  - destruct (grants_some _ Henv i (n - a) Hr Es) as [Hb Hl]. fold b in Hb, Hl.
    rewrite (s32_small ((n - (n - a)) * F)) by (unfold INT_MIN, INT_MAX; nia).
    rewrite bind_lift with (a := frames_of data a (a + ob_frames b)).
    2:{ rewrite Hl. replace (n - (n - a)) with a by lia.
        replace (ob_frames b * F) with ((a + ob_frames b - a) * F) by lia. apply slice_frames; nia. }
    unfold host_call_add. rewrite bind_modify, s32_small by (unfold INT_MIN, INT_MAX; nia).
    replace (n - a - ob_frames b) with (n - (a + ob_frames b)) by lia.
    edestruct (IH (S i) data n (a + ob_frames b)) as (r & h' & e & E & He & Hw & Hres); [lia..|].
    exists r, h', e. split; [exact E|]. split; [lia|]. split; [eapply written_cons, Hw; lia|].
    destruct Hres as [?|[-> Hne]]; [by left|]. right. split; [done|]. intros [? ?]. apply Hne. split; [lia|done].
  - destruct (IH (S i) data n a h Ha Hn Hd) as (r & h' & e & E & He & Hw & Hres).
    exists r, h', e. split; [done|]. split; [done|]. split; [done|]. destruct Hres as [?|[-> _]]; [by left|].
    right. split; [done|]. intros [_ H]. specialize (H i (n - a) Hr). fold b in H. congruence.
  - destruct (IH (S i) data n a h Ha Hn Hd) as (r & h' & e & E & He & Hw & Hres).
    exists r, h', e. split; [done|]. split; [done|]. split; [done|]. destruct Hres as [?|[-> _]]; [by left|].
    right. split; [done|]. intros [_ H]. specialize (H i (n - a) Hr). fold b in H. congruence.
  - exists 0, h, a. split; [done|]. split; [lia|]. split; [apply written_nil|]. left. split; [done|].
    right. by exists i, (n - a).
Qed.

(** C24: what is written to the host arrives in order and without a gap: the
    track gets the frames of the data up to some frame, and all of them when
    the result is 0 and no call has failed.  The result is -1 only when the
    track has no room in some call or there are more than 98 frames. *)
Theorem hosta_write_delivers data count h :
  let n := count / F in
  0 ≤ count ≤ len data → len data ≤ INT_MAX → ∃ r h' b,
  hosta_write_data env data count h = Ok (r, h') ∧ 0 ≤ b ≤ n ∧ written h h' data 0 b ∧
  ((r = 0 ∧ (b = n ∨ ∃ j m, 0 < m ∧ ob_status (obtain env j m) = Failed)) ∨
   (r = -1 ∧ ¬ (n < 99 ∧ ∀ j m, 0 < m → ob_status (obtain env j m) = NO_ERROR))).
Proof using Henv.
  intros n Hc Hd. pose proof (grants_size _ Henv) as HF. unfold hosta_write_data, divide.
  destruct (Z.eqb_spec F 0); [lia|]. rewrite bind_lift with (a := n) by done.
  pose proof (Z.mul_div_le count F HF) as Hn. fold n in Hn.
  assert (0 ≤ n) by (apply Z.div_pos; lia). unfold INT_MAX in *.
  rewrite s32_small by (unfold INT_MIN, INT_MAX; nia).
  destruct (Z.leb_spec n 0).
  { exists 0, h, 0. split_and!; [done|lia..|apply written_nil|]. left. split; [done|]. left. lia. }
  destruct (write_chances_ok 99 0 data n 0 h) as (r & h' & b & E & Hb & Hw & Hres); [lia|nia|done|].
  rewrite Z.sub_0_r in *. by exists r, h', b.
Qed.

(** ** Reading *)

(** What the record grants in [c] calls, for [remain] frames. *)
Fixpoint granted (c i : nat) (remain : Z) : list Z :=
  match c with
  | O => []
  | S c =>
      if remain <=? 0 then [] else
      let b := obtain env i remain in
      match ob_status b with
      | NO_ERROR => ob_i8 b ++ granted c (S i) (remain - ob_frames b)
      | TIMED_OUT | WOULD_BLOCK => granted c (S i) remain
      | Failed => []
      end
  end.

Lemma read_chances_ok c : ∀ i front old n a,
  0 ≤ a ≤ n → len front = a * F → (n - a) * F ≤ len old → len front + len old ≤ INT_MAX →
  let got := granted c i (n - a) in ∃ r,
  read_chances env c i (front ++ old) n (n - a) = Ok (r, front ++ got ++ drop (length got) old) ∧
  len got ≤ (n - a) * F ∧ (r = -1 ∨ (r = 0 ∧ len got = (n - a) * F)).
Proof using Henv.
  pose proof (grants_size _ Henv) as HF. unfold INT_MAX.
  induction c as [|c IH]; intros i front old n a Ha Hf Ho Hd; cbn [read_chances granted].
  { exists (-1). split; [done|]. rewrite len_nil. split; [nia|by left]. }
  destruct (Z.leb_spec (n - a) 0) as [|Hr].
  { exists 0. split; [done|]. rewrite len_nil. split; [nia|right; split; [done|nia]]. }
  set (b := obtain env i (n - a)). destruct (ob_status b) eqn:Es.
  - destruct (grants_some _ Henv i (n - a) Hr Es) as [Hb Hl]. fold b in Hb, Hl.
    rewrite (s32_small ((n - (n - a)) * F)) by (unfold INT_MIN, INT_MAX; nia).
    replace ((n - (n - a)) * F) with (len front) by lia.
    rewrite blit_prefix by nia. cbn [mbind res_bind].
    rewrite s32_small by (unfold INT_MIN, INT_MAX; nia).
    replace (n - a - ob_frames b) with (n - (a + ob_frames b)) by lia.
    destruct (IH (S i) (front ++ ob_i8 b) (drop (length (ob_i8 b)) old) n (a + ob_frames b)) as (r & E & Hg & Hres);
      [lia|rewrite len_app; lia|rewrite len_drop; unfold len in *; nia|rewrite len_app, len_drop; unfold len in *; nia|].
    exists r. rewrite E, drop_drop, length_app, <-!app_assoc. split; [done|].
    rewrite len_app, Hl. split; [nia|]. destruct Hres as [->|[-> Hres]]; [by left|right]. split; [done|]. nia.
  - by apply IH.
  - by apply IH.
  - exists (-1). split; [done|]. rewrite len_nil. split; [nia|by left].
Qed.

(** What is read from the host is what the record has granted, in order, at
    the begin of the data; the result is 0 only when it is complete. *)
Theorem hosta_read_fills data count :
  let n := count / F in let got := granted 99 0 n in
  0 ≤ count ≤ len data → len data ≤ INT_MAX → ∃ r,
  hosta_read_data env data count = Ok (r, got ++ drop (length got) data) ∧
  (r = -1 ∨ (r = 0 ∧ len got = n * F)).
Proof using Henv.
  intros n got Hc Hd. subst got. pose proof (grants_size _ Henv) as HF. unfold hosta_read_data, divide.
  destruct (Z.eqb_spec F 0); [lia|]. cbn [mbind res_bind].
  pose proof (Z.mul_div_le count F HF) as Hn. fold n in Hn |- *.
  assert (0 ≤ n) by (apply Z.div_pos; lia). unfold INT_MAX in *.
  rewrite s32_small by (unfold INT_MIN, INT_MAX; nia).
  destruct (Z.leb_spec n 0).
  { assert (n = 0) as E0 by lia. assert (granted 99 0 n = []) as -> by (by rewrite E0).
    exists 0. split; [done|]. right. split; [done|]. by rewrite E0. }
  generalize 99%nat as c. intros c. destruct (read_chances_ok c 0 [] data n 0) as (r & E & _ & Hres); [lia|reflexivity|nia|exact Hd|].
  rewrite Z.sub_0_r in *. cbn [app] in E. exists r. split; [exact E|exact Hres].
Qed.
End transfers.

(** ** The last chance *)

(** A track that takes one frame of two bytes in each call. *)
Definition slow_track : host_env := HostEnv (NO_ERROR, 99) NO_ERROR 2 (λ _ _, Obtained NO_ERROR 1 [0; 0]).

(** When the last frame is taken in the 99th call, all was delivered and the
    result is -1. *)
Lemma last_chance_reported_lost : ∃ h',
  hosta_write_data slow_track (replicate 198 7) 198 no_host = Ok (-1, h') ∧
  host_calls h' = replicate 99 (Track_data [7; 7]).
Proof. eexists. split; vm_compute; reflexivity. Qed.

(** A track that fails: nothing is delivered and the result is 0. *)
Lemma failed_track_hidden :
  hosta_write_data (HostEnv (NO_ERROR, 99) NO_ERROR 2 (λ _ _, Obtained Failed 0 [])) [1; 2; 3; 4] 4 no_host =
  Ok (0, no_host).
Proof. vm_compute. reflexivity. Qed.

Lemma slow_track_grants : host_grants slow_track.
Proof. split; [done|]. intros i n Hn _. simpl. unfold len. simpl. lia. Qed.

Lemma hosta_write_delivers_witness : ∃ r h' b,
  hosta_write_data slow_track [1; 2; 3; 4; 5] 5 no_host = Ok (r, h') ∧ 0 ≤ b ≤ 2 ∧
  written slow_track no_host h' [1; 2; 3; 4; 5] 0 b ∧
  ((r = 0 ∧ (b = 2 ∨ ∃ j m, 0 < m ∧ ob_status (obtain slow_track j m) = Failed)) ∨
   (r = -1 ∧ ¬ (2 < 99 ∧ ∀ j m, 0 < m → ob_status (obtain slow_track j m) = NO_ERROR))).
Proof.
  apply (hosta_write_delivers slow_track slow_track_grants [1; 2; 3; 4; 5] 5 no_host); unfold len, INT_MAX; simpl; lia.
Defined.
