(* ===== verification/AudioThreads.v ===== *)
(** * The sound of a call: src/upil_audio/upil_audio.cpp

    Four threads copy sound: from the telephone to the host and back, from a
    file to the telephone, and from the telephone to a file.  A thread that
    starts the others, the caller, starts and stops them.  They share the
    static variables [s_audio_running] and [s_track_ready] without a lock.

    A turn of a thread is what it does from one access of [s_audio_running]
    up to the next, or to its end; between its turns the other threads and
    the caller have theirs, in any order.  So every interleaving of the
    accesses of the threads to [s_audio_running] is a sequence of [action]s;
    an access to [s_track_ready] is a part of the turn it is in. *)

From stdpp Require Import strings.
From S2P Require Import Prelude CString EventLoop Pcm PcmIo Mixer Resampler UsbAudio Wav HostAudio.

(** ** State *)

Section threads.
Context {Sp : Type} (sx : speex Sp).

Abbreviation U := (usb_audio_pcm Sp).

(** Where a thread is, with its local variables. *)
Inductive thread :=
  | In_start
  | In_loop (record : U) (buffer : list Z) (send_track_count : Z)
  | Out_start
  | Out_loop (track : U) (buffer : list Z) (buf_size : Z)
  | Play_start
  | Play_loop (track : U) (buffer : list Z) (buf_size : Z) (rest : list Z)
  | Play_closed                               (* before the test that guards s_play_endfunc *)
  | Record_start
  | Record_loop (record : U) (buffer : list Z) (data : list Z) (bytes_read : Z)
      (start : timeval) (diff : option timeval)
  | Record_closed (diff : option timeval)     (* before s_audio_running = 0 *)
  | Record_end (diff : option timeval)        (* after it *)
  | Clearing                                  (* the others, before s_audio_running = 0 *)
  | Exited.

(** Where the caller is, with the value of [try_count]. *)
Inductive caller_state :=
  | Returned (ret : Z)
  | Starting (try_count : nat)
  | Stopping (try_count : nat) (ret : Z).

Record memo := Memo {
  s_play_endfunc : option Z;
  s_play_filename : list Z;
  s_record_endfunc : option Z;
  s_record_filename : list Z;
  s_record_timeout : Z;
}.

(** The threads in [threads] are numbered in the order of their creation. *)
Record tids := Tids {
  s_tid_audio_in : option nat;
  s_tid_audio_out : option nat;
  s_tid_audio_play : option nat;
  s_tid_audio_record : option nat;
}.

(** Calls of the functions the caller has given, and files that were closed
    after writing. *)
Inductive audio_event :=
  | Endfunc (f : Z)
  | Saved (filename bytes : list Z).

Record audio := Audio {
  s_audio_running : bool;
  s_track_ready : bool;
  s_memo : memo;
  s_tids : tids;
  config_in : pcm_config;
  config_out : pcm_config;
  s_host : host;
  threads : list thread;
  caller : caller_state;
  audio_log : list audio_event;
  streams : Z;          (* cards that are open *)
  files : Z;            (* files that are open *)
}.

Definition no_audio : audio :=
  Audio false false (Memo None [] None [] 0) (Tids None None None None) pcm_config_ua_in pcm_config_ua_out
    no_host [] (Returned 0) [] 0 0.

Abbreviation MA := (M audio).

Definition set_running (b : bool) (a : audio) : audio :=
  Audio b (s_track_ready a) (s_memo a) (s_tids a) (config_in a) (config_out a) (s_host a) (threads a)
    (caller a) (audio_log a) (streams a) (files a).
Definition set_ready (b : bool) (a : audio) : audio :=
  Audio (s_audio_running a) b (s_memo a) (s_tids a) (config_in a) (config_out a) (s_host a) (threads a)
    (caller a) (audio_log a) (streams a) (files a).
Definition set_memo (m : memo) (a : audio) : audio :=
  Audio (s_audio_running a) (s_track_ready a) m (s_tids a) (config_in a) (config_out a) (s_host a) (threads a)
    (caller a) (audio_log a) (streams a) (files a).
Definition set_tids (t : tids) (a : audio) : audio :=
  Audio (s_audio_running a) (s_track_ready a) (s_memo a) t (config_in a) (config_out a) (s_host a) (threads a)
    (caller a) (audio_log a) (streams a) (files a).
Definition set_configs (i o : pcm_config) (a : audio) : audio :=
  Audio (s_audio_running a) (s_track_ready a) (s_memo a) (s_tids a) i o (s_host a) (threads a)
    (caller a) (audio_log a) (streams a) (files a).
Definition set_threads (ts : list thread) (a : audio) : audio :=
  Audio (s_audio_running a) (s_track_ready a) (s_memo a) (s_tids a) (config_in a) (config_out a) (s_host a) ts
    (caller a) (audio_log a) (streams a) (files a).
Definition set_caller (c : caller_state) (a : audio) : audio :=
  Audio (s_audio_running a) (s_track_ready a) (s_memo a) (s_tids a) (config_in a) (config_out a) (s_host a)
    (threads a) c (audio_log a) (streams a) (files a).
Definition add_event (e : audio_event) (a : audio) : audio :=
  Audio (s_audio_running a) (s_track_ready a) (s_memo a) (s_tids a) (config_in a) (config_out a) (s_host a)
    (threads a) (caller a) (audio_log a ++ [e]) (streams a) (files a).
Definition add_open (s f : Z) (a : audio) : audio :=
  Audio (s_audio_running a) (s_track_ready a) (s_memo a) (s_tids a) (config_in a) (config_out a) (s_host a)
    (threads a) (caller a) (audio_log a) (streams a + s) (files a + f).

#[export] Instance s_host_lens : Lens audio host := {
  lget := s_host;
  lset h a := Audio (s_audio_running a) (s_track_ready a) (s_memo a) (s_tids a) (config_in a) (config_out a) h
    (threads a) (caller a) (audio_log a) (streams a) (files a);
}.

(** ** What a turn finds outside *)

Record turn_env := TurnEnv {
  env_sys : wav_system;
  env_host : host_env;
  env_fuel : nat;                              (* for the waits of [usb_audio_read] *)
  env_files : list Z → option (list Z);        (* fopen(filename, "rb") *)
  env_created : bool;                          (* fopen(filename, "wb") *)
  env_room : Z;                                (* how many bytes [fwrite] stores *)
  env_now : timeval;
}.

(** The local array [buffer].  Its first values are never used. *)
Definition no_buffer : list Z := replicate (Z.to_nat MAX_BUF_SIZE) 0.

Definition close_usb (u : U) : MA unit :=
  lift (usb_audio_close u);; modify (add_open (-1) 0).

Definition setup_record (sys : wav_system) : MA (option (U * Z)) :=
  a ← get;
  r ← lift (usba_setup_record sx sys (config_in a));
  modify (set_configs r.2 (config_out a));;
  when (bool_decide (is_Some r.1)) (modify (add_open 1 0));;
  mret r.1.

Definition setup_track (sys : wav_system) (rate channel : Z) : MA (option (U * Z)) :=
  a ← get;
  r ← lift (usba_setup_track sx sys (config_out a) rate channel);
  modify (set_configs (config_in a) r.2);;
  when (bool_decide (is_Some r.1)) (modify (add_open 1 0));;
  mret r.1.

(** ** From the telephone to the host *)

Definition usba_to_hosta_setup (env : turn_env) : MA thread :=
  r ← setup_record (env_sys env);
  match r with
  | None => mret Exited
  | Some (usba_record, _) =>
      size_out ← zoom (hosta_setup_track (env_host env));
      match size_out with
      | None => mret Exited
      | Some _ =>
          zoom (host_call_add Track_start);;
          mret (In_loop usba_record no_buffer 0)
      end
  end.

Definition usba_to_hosta_end (usba_record : U) : MA thread :=
  close_usb usba_record;;
  zoom (host_call_add Track_stop);;
  mret Clearing.

Definition usba_to_hosta_turn (env : turn_env) (usba_record : U) (buffer : list Z) (send_track_count : Z)
  : MA thread :=
  a ← get;
  if negb (s_audio_running a) then usba_to_hosta_end usba_record else
  r ← lift (usb_audio_read sx (env_fuel env) buffer MAX_BUF_SIZE 1024 usba_record);
  let '((r_bytes, buffer), usba_record) := r in
  if r_bytes <? 0 then usba_to_hosta_end usba_record else
  w ← zoom (hosta_write_data (env_host env) buffer r_bytes);
  if w <? 0 then usba_to_hosta_end usba_record else
  if s_track_ready a then mret (In_loop usba_record buffer send_track_count) else
  let count := send_track_count + 1 in
  when (5 <=? count) (modify (set_ready true));;
  mret (In_loop usba_record buffer count).

(** ** From the host to the telephone *)

Definition hosta_to_usba_setup (env : turn_env) : MA thread :=
  match hosta_setup_record (env_host env) with
  | None => mret Exited
  | Some size_in =>
      r ← setup_track (env_sys env) 44100 2;
      match r with
      | None => mret Exited
      | Some (usba_track, size_out) =>
          let buf_size := if size_out <? size_in then size_out else size_in in
          zoom (host_call_add HostAudio.Record_start);;
          mret (Out_loop usba_track no_buffer buf_size)
      end
  end.

Definition hosta_to_usba_end (usba_track : U) : MA thread :=
  close_usb usba_track;;
  zoom (host_call_add Record_stop);;
  mret Clearing.

Definition hosta_to_usba_turn (env : turn_env) (usba_track : U) (buffer : list Z) (buf_size : Z) : MA thread :=
  a ← get;
  if negb (s_audio_running a) then hosta_to_usba_end usba_track else
  r ← lift (hosta_read_data (env_host env) buffer buf_size);
  let '(r, buffer) := r in
  if r <? 0 then hosta_to_usba_end usba_track else
  w ← lift (usb_audio_write sx buffer buf_size usba_track);
  let '(w, usba_track) := w in
  if w <? 0 then hosta_to_usba_end usba_track else
  mret (Out_loop usba_track buffer buf_size).

(** ** From a file to the telephone *)

(** The rest of the file, the rate and the channels. *)
Definition file_setup_record (file : option (list Z)) : MA (option (list Z * Z * Z)) :=
  match file with
  | None => mret None
  | Some file =>
      r ← lift (match read_header file with Some r => Ok r | None => Err Uninit end);
      let '(h, rest) := r in
      if negb (playable h) then mret None
      else modify (add_open 0 1);; mret (Some (rest, sample_rate h, num_channels h))
  end.

Definition file_to_usba_setup (env : turn_env) : MA thread :=
  a ← get;
  f ← file_setup_record (env_files env (s_play_filename (s_memo a)));
  match f with
  | None => mret Exited
  | Some (rest, rate, channel) =>
      r ← setup_track (env_sys env) rate channel;
      match r with
      | None => mret Exited
      | Some (usba_track, buf_size) => mret (Play_loop usba_track no_buffer buf_size rest)
      end
  end.

(** After the loop, up to the test for the call of [s_play_endfunc]. *)
Definition file_to_usba_end (usba_track : U) : MA thread :=
  close_usb usba_track;;
  modify (add_open 0 (-1));;
  mret Play_closed.

Definition file_to_usba_exit : MA thread :=
  a ← get;
  when (s_audio_running a) (f ← lift (deref (s_play_endfunc (s_memo a))); modify (add_event (Endfunc f)));;
  mret Clearing.

Definition file_to_usba_turn (env : turn_env) (usba_track : U) (buffer : list Z) (buf_size : Z) (rest : list Z)
  : MA thread :=
  a ← get;
  if negb (s_audio_running a) then file_to_usba_end usba_track else
  let piece := take (Z.to_nat buf_size) rest in
  let rest := drop (Z.to_nat buf_size) rest in
  buffer ← lift (blit buffer 0 piece);
  let r_bytes := len piece in
  if r_bytes =? 0 then file_to_usba_end usba_track else
  w ← lift (usb_audio_write sx buffer r_bytes usba_track);
  let '(w, usba_track) := w in
  if w <? 0 then file_to_usba_end usba_track else
  mret (Play_loop usba_track buffer buf_size rest).

(** ** From the telephone to a file *)

(** The header of [file_setup_track], with the size of the data. *)
Definition track_header (rate channels data_size : Z) : wav_header :=
  WavHeader ID_RIFF 0 ID_WAVE ID_FMT 16 FORMAT_PCM (wrapU 16 channels) rate
    (u32 (16 / 8 * channels * rate)) (wrapU 16 (channels * (16 / 8))) 16 ID_DATA data_size.

(** [None]: the return value is -1 and the result is not written. *)
Definition tim_subtract (x y : timeval) : option timeval :=
  if (tv_sec y <? tv_sec x) || ((tv_sec x =? tv_sec y) && (tv_usec y <? tv_usec x)) then None else
  let s := tv_sec y - tv_sec x in
  let u := tv_usec y - tv_usec x in
  Some (if u <? 0 then Timeval (s - 1) (u + 1000000) else Timeval s u).

Definition usba_to_file_setup (env : turn_env) : MA thread :=
  r ← setup_record (env_sys env);
  match r with
  | None => mret Exited
  | Some (usba_record, _) =>
      if negb (env_created env) then mret Exited
      else modify (add_open 0 1);; mret (Record_loop usba_record no_buffer [] 0 (env_now env) None)
  end.

(** After the loop, up to [s_audio_running = 0]. *)
Definition usba_to_file_end (usba_record : U) (data : list Z) (bytes_read : Z) (diff : option timeval)
  : MA thread :=
  close_usb usba_record;;
  a ← get;
  let data_sz := u32 (bytes_read / 4 * block_align (track_header 44100 2 0)) in
  modify (add_event (Saved (s_record_filename (s_memo a))
    (header_bytes (track_header 44100 2 data_sz) ++ data)));;
  modify (add_open 0 (-1));;
  mret (Record_closed diff).

(** [diff] is not initialised before the first [tim_subtract]. *)
Definition usba_to_file_exit (diff : option timeval) : MA thread :=
  a ← get;
  d ← lift (match diff with Some d => Ok d | None => Err Uninit end);
  when (s_record_timeout (s_memo a) <=? tv_sec d)
    (f ← lift (deref (s_record_endfunc (s_memo a))); modify (add_event (Endfunc f)));;
  mret Exited.

Definition usba_to_file_turn (env : turn_env) (usba_record : U) (buffer data : list Z) (bytes_read : Z)
    (start : timeval) (diff : option timeval) : MA thread :=
  a ← get;
  if negb (s_audio_running a) then usba_to_file_end usba_record data bytes_read diff else
  r ← lift (usb_audio_read sx (env_fuel env) buffer MAX_BUF_SIZE 1024 usba_record);
  let '((r_bytes, buffer), usba_record) := r in
  if r_bytes <? 0 then usba_to_file_end usba_record data bytes_read diff else
  piece ← lift (slice buffer 0 r_bytes);
  let stored := take (Z.to_nat (env_room env)) piece in
  let data := data ++ stored in
  if negb (len stored =? r_bytes) then usba_to_file_end usba_record data bytes_read diff else
  let bytes_read := u32 (bytes_read + r_bytes) in
  if 0 <? s_record_timeout (s_memo a) then
    let diff := match tim_subtract start (env_now env) with Some d => Some d | None => diff end in
    d ← lift (match diff with Some d => Ok d | None => Err Uninit end);
    if s_record_timeout (s_memo a) <=? tv_sec d then usba_to_file_end usba_record data bytes_read diff
    else mret (Record_loop usba_record buffer data bytes_read start diff)
  else mret (Record_loop usba_record buffer data bytes_read start diff).

(** ** Turns *)

Definition thread_turn (env : turn_env) (t : thread) : MA thread :=
  match t with
  | In_start => usba_to_hosta_setup env
  | In_loop u b n => usba_to_hosta_turn env u b n
  | Out_start => hosta_to_usba_setup env
  | Out_loop u b n => hosta_to_usba_turn env u b n
  | Play_start => file_to_usba_setup env
  | Play_loop u b n rest => file_to_usba_turn env u b n rest
  | Play_closed => file_to_usba_exit
  | Record_start => usba_to_file_setup env
  | Record_loop u b data n start diff => usba_to_file_turn env u b data n start diff
  | Record_closed diff => modify (set_running false);; mret (Record_end diff)
  | Record_end diff => usba_to_file_exit diff
  | Clearing => modify (set_running false);; mret Exited
  | Exited => fail Blocked
  end.

(** The thread with number [i]; there must be one that has not exited. *)
Definition turn (i : nat) (env : turn_env) : MA unit :=
  a ← get;
  t ← lift (match threads a !! i with Some t => Ok t | None => Err Blocked end);
  t' ← thread_turn env t;
  modify (λ a, set_threads (<[i := t']> (threads a)) a).

(** ** The caller *)

(** [pthread_create] with its result [rc]; the thread runs when it is 0. *)
Definition create (rc : Z) (t : thread) (keep : nat → tids → tids) : MA Z :=
  if rc <? 0 then mret (-1) else
  when (rc =? 0) (modify (λ a, set_tids (keep (length (threads a)) (s_tids a)) (set_threads (threads a ++ [t]) a)));;
  mret 0.

Definition start_sound_in_thread (rc : Z) : MA Z :=
  create rc In_start (λ n t, Tids (Some n) (s_tid_audio_out t) (s_tid_audio_play t) (s_tid_audio_record t)).
Definition start_sound_out_thread (rc : Z) : MA Z :=
  create rc Out_start (λ n t, Tids (s_tid_audio_in t) (Some n) (s_tid_audio_play t) (s_tid_audio_record t)).
Definition start_play_thread (rc : Z) : MA Z :=
  create rc Play_start (λ n t, Tids (s_tid_audio_in t) (s_tid_audio_out t) (Some n) (s_tid_audio_record t)).
Definition start_record_thread (rc : Z) : MA Z :=
  create rc Record_start (λ n t, Tids (s_tid_audio_in t) (s_tid_audio_out t) (s_tid_audio_play t) (Some n)).

Definition return_ (ret : Z) : MA unit := modify (set_caller (Returned ret)).

(** [upil_audio_stop] up to its loop; [ret] is what the caller returns after
    it, which is not 0 when [upil_audio_start] has called it. *)
Definition audio_stop (ret : Z) : MA unit :=
  modify (set_running false);; modify (set_caller (Stopping 30 ret)).
Definition upil_audio_stop : MA unit := audio_stop 0.

(** [!tid || pthread_kill(tid, 0)] *)
Definition thread_exited (ts : list thread) (tid : option nat) : bool :=
  match tid with
  | None => true
  | Some i => match ts !! i with Some Exited | None => true | Some _ => false end
  end.
Definition all_exited (a : audio) : bool :=
  let t := s_tids a in
  thread_exited (threads a) (s_tid_audio_in t) && thread_exited (threads a) (s_tid_audio_out t) &&
  thread_exited (threads a) (s_tid_audio_play t) && thread_exited (threads a) (s_tid_audio_record t).

(** A turn of the loop of [upil_audio_stop], with the rest after the last. *)
Definition stop_turn (try_count : nat) (ret : Z) : MA unit :=
  a ← get;
  let stopped := modify (set_tids (Tids None None None None));; return_ ret in
  match try_count with
  | O => stopped
  | S n => if all_exited a then stopped else modify (set_caller (Stopping n ret))
  end.

Definition upil_audio_start (rc : Z) : MA unit :=
  a ← get;
  if s_audio_running a then return_ 0 else
  modify (set_running true);;
  modify (set_ready false);;
  r ← start_sound_in_thread rc;
  if r <? 0 then modify (set_running false);; return_ (-1) else
  modify (set_caller (Starting 20)).

(** A turn of the loop that waits for the track, with the rest after the last. *)
Definition start_turn (try_count : nat) (rc : Z) : MA unit :=
  a ← get;
  let proceed :=
    r ← start_sound_out_thread rc;
    if r <? 0 then audio_stop (-1) else return_ 0 in
  match try_count with
  | O => proceed
  | S n => if s_track_ready a then proceed else modify (set_caller (Starting n))
  end.

(** [sprintf] into an array of 2048 bytes. *)
Definition keep_filename (filename : list Z) : res (list Z) :=
  name ← cstr filename; if len name <? 2048 then mret name else Err Overrun.

Definition upil_audio_play_file (filename : list Z) (func : option Z) (rc : Z) : MA unit :=
  a ← get;
  if s_audio_running a then return_ 0 else
  modify (set_running true);;
  name ← lift (keep_filename filename);
  let m := s_memo a in
  modify (set_memo (Memo func name (s_record_endfunc m) (s_record_filename m) (s_record_timeout m)));;
  r ← start_play_thread rc;
  if r <? 0 then modify (set_running false);; return_ (-1) else return_ 0.

Definition upil_audio_record_file (filename : list Z) (func : option Z) (timeout rc : Z) : MA unit :=
  a ← get;
  if s_audio_running a then return_ 0 else
  modify (set_running true);;
  name ← lift (keep_filename filename);
  let m := s_memo a in
  modify (set_memo (Memo (s_play_endfunc m) (s_play_filename m) func name timeout));;
  r ← start_record_thread rc;
  if r <? 0 then modify (set_running false);; return_ (-1) else return_ 0.

(** ** Runs *)

(** What happens next: a call, when the caller is not in one, the caller
    wakes up in a loop, or a thread has its turn. *)
Inductive action :=
  | Call_start (rc : Z)
  | Call_stop
  | Call_play (filename : list Z) (func : option Z) (rc : Z)
  | Call_record (filename : list Z) (func : option Z) (timeout rc : Z)
  | Wake (rc : Z)
  | Turn (i : nat) (env : turn_env).

Definition perform (x : action) : MA unit :=
  a ← get;
  match caller a, x with
  | _, Turn i env => turn i env
  | Returned _, Call_start rc => upil_audio_start rc
  | Returned _, Call_stop => upil_audio_stop
  | Returned _, Call_play f func rc => upil_audio_play_file f func rc
  | Returned _, Call_record f func timeout rc => upil_audio_record_file f func timeout rc
  | Starting n, Wake rc => start_turn n rc
  | Stopping n ret, Wake _ => stop_turn n ret
  | _, _ => fail Blocked
  end.

Fixpoint perform_all (xs : list action) : MA unit :=
  match xs with
  | [] => skip
  | x :: xs => perform x;; perform_all xs
  end.
End threads.
