(* ===== verification/AudioThreadsProofs.v ===== *)
(** * Properties of the threads of a call *)

From stdpp Require Import strings.
From S2P Require Import Prelude CString EventLoop Pcm PcmIo PcmProofs Mixer MixerProofs Resampler ResamplerProofs.
From S2P Require Import UsbAudio UsbAudioProofs Wav WavProofs HostAudio HostAudioProofs AudioThreads.

(** ** Closing a card *)

Section cards.
Context {Sp : Type} (sx : speex Sp).
Abbreviation U := (usb_audio_pcm Sp).

Lemma convert_channels_keeps buf bytes : leaves (ua_mixer (Sp := Sp)) (convert_channels buf bytes).
Proof. unfold convert_channels. leaves. Qed.
Lemma convert_rate_keeps buf bytes : leaves (ua_mixer (Sp := Sp)) (convert_rate sx buf bytes).
Proof. unfold convert_rate. leaves. Qed.
#[local] Hint Resolve convert_channels_keeps convert_rate_keeps : leaves.
Lemma usb_read_keeps fuel data size count : leaves (ua_mixer (Sp := Sp)) (usb_audio_read sx fuel data size count).
Proof. unfold usb_audio_read. leaves. Qed.
Lemma usb_write_keeps data count : leaves (ua_mixer (Sp := Sp)) (usb_audio_write sx data count).
Proof. unfold usb_audio_write. leaves. Qed.
Lemma set_resample_keeps rate chans q : leaves (ua_mixer (Sp := Sp)) (usb_audio_set_resample sx rate chans q).
Proof. unfold usb_audio_set_resample, set_client_channels. leaves. Qed.
Lemma set_volume_keeps v : leaves (ua_mixer (Sp := Sp)) (usb_audio_set_volume v).
Proof. unfold usb_audio_set_volume. leaves. Qed.

(** The mixer of the card can be closed. *)
Definition closable (u : U) : Prop := match ua_mixer u with Some m => mixer_ok m | None => True end.

Lemma ask_total r p : ∃ a p', ask r p = Ok (a, p').
Proof. unfold ask. rewrite bind_get. eexists _, _. reflexivity. Qed.

Lemma pcm_close_ok p : ∃ p', pcm_close p = Ok p'.
Proof.
  destruct p as [p|]; [|by eexists]. unfold pcm_close.
  set (m := (pcm_hw_munmap_status;; _)). assert (∃ p', m p = Ok (tt, p')) as [p' ->]; [|by eexists].
  unfold m, pcm_hw_munmap_status. rewrite bind_modify, bind_get.
  set (p1 := set_sync_ptr false p). assert (∃ r p', pcm_stop p1 = Ok (r, p')) as (r & p2 & E2).
  { unfold pcm_stop. destruct (ask_total Req_drop p1) as (a & p2 & E). rewrite (bind_ok _ _ _ _ _ E).
    destruct (_ <? 0); by eexists _, _. }
  rewrite bind_when. destruct (has _ _); [|by eexists].
  erewrite bind_ok; [by eexists|]. by rewrite (bind_ok _ _ _ _ _ E2).
Qed.

Lemma usb_close_ok u : closable u → ∃ s c, usb_audio_close u = Ok (s, c).
Proof.
  intros Hu. unfold usb_audio_close. destruct (pcm_close_ok (Some (ua_pcm u))) as [p ->]. cbn [mbind res_bind].
  assert (∃ c, mixer_close (ua_mixer u) (ua_card u) = Ok (tt, c)) as [c E].
  { unfold closable in Hu. destruct (ua_mixer u) as [m|]; [|by eexists].
    destruct (mixer_close_ok m (ua_card u) Hu) as (c & E & _). by exists c. }
  rewrite (bind_ok _ _ _ _ _ E). by eexists _, _.
Qed.

Lemma keeps_closable {A} (m : M U A) u a u' : leaves ua_mixer m → m u = Ok (a, u') → closable u → closable u'.
Proof. intros Hm E. unfold closable. by rewrite (Hm _ _ _ E). Qed.

Lemma open_closable sys open_fd n device flags config c u config' c' :
  card_sane (mdev c) →
  usb_audio_open sys open_fd n device flags config c = Ok (Some u, config', c') → closable u.
Proof.
  intros Hc. unfold usb_audio_open. cbv zeta. generalize (replicate (Z.to_nat MAX_BUF_SIZE) 0) as zeros. intros zeros.
  destruct (pcm_open _ _ _ _ _) as [[p k]|]; [|done]. cbn [mbind res_bind].
  destruct (mixer_open_ok open_fd n c Hc) as (r & c1 & -> & Hr). destruct r as [m|]; [|done].
  destruct Hr as (_ & _ & Hm & _). destruct (alloc c1) as [[[] c2]|]; [| |done].
  - destruct (deref k); cbn [mbind res_bind]; [|done]. by intros [= <- _ _].
  - destruct (pcm_close _); cbn [mbind res_bind]; [|done]. by destruct (mixer_close _ _) as [[]|].
Qed.

Definition env_sane (sys : wav_system) : Prop := card_sane (mdev (wav_card sys)).

Lemma open_usb_closable sys flags config u config' :
  env_sane sys → open_usb sys flags config = Ok (Some u, config') → closable u.
Proof.
  intros Hs. unfold open_usb. destruct (usb_audio_open _ _ _ _ _ _ _) as [[[o k] c]|] eqn:E; [|done].
  cbn [mbind res_bind]. intros [= -> _]. by apply open_closable in E.
Qed.

Lemma setup_record_closable sys config u n config' :
  env_sane sys → usba_setup_record sx sys config = Ok (Some (u, n), config') → closable u.
Proof.
  intros Hs. unfold usba_setup_record. destruct (open_usb _ _ _) as [[[u0|] k]|] eqn:E; cbn [mbind res_bind]; try done.
  apply open_usb_closable in E; [|done].
  destruct (usb_audio_set_resample _ _ _ _ _) as [[r u1]|] eqn:E1; cbn [mbind res_bind]; [|done].
  apply (keeps_closable _ _ _ _ (set_resample_keeps _ _ _)) in E1; [|done].
  destruct (negb _); [by destruct (usb_audio_close u1)|]. by intros [= <- _ _].
Qed.

Lemma setup_track_closable sys config rate channel u n config' :
  env_sane sys → usba_setup_track sx sys config rate channel = Ok (Some (u, n), config') → closable u.
Proof.
  intros Hs. unfold usba_setup_track. destruct (open_usb _ _ _) as [[[u0|] k]|] eqn:E; cbn [mbind res_bind]; try done.
  apply open_usb_closable in E; [|done].
  destruct (usb_audio_set_resample _ _ _ _ _) as [[r u1]|] eqn:E1; cbn [mbind res_bind]; [|done].
  apply (keeps_closable _ _ _ _ (set_resample_keeps _ _ _)) in E1; [|done].
  destruct (negb _); [by destruct (usb_audio_close u1)|].
  destruct (usb_audio_set_volume _ _) as [[r2 u2]|] eqn:E2; cbn [mbind res_bind]; [|done].
  apply (keeps_closable _ _ _ _ (set_volume_keeps _)) in E2; [|done].
  destruct (negb _); [by destruct (usb_audio_close u2)|]. by intros [= <- _ _].
Qed.
End cards.

(** ** After [s_audio_running = 0] *)

#[local] Opaque no_buffer.

Section threads.
Context {Sp : Type} (sx : speex Sp).
Abbreviation T := (@thread Sp).
Abbreviation A := (@audio Sp).

(** The cards and files that a thread has opened and will close. *)
Definition stream_of (t : T) : Z :=
  match t with In_loop _ _ _ | Out_loop _ _ _ | Play_loop _ _ _ _ | Record_loop _ _ _ _ _ _ => 1 | _ => 0 end.
Definition file_of (t : T) : Z :=
  match t with Play_loop _ _ _ _ | Record_loop _ _ _ _ _ _ => 1 | _ => 0 end.

Fixpoint total (f : T → Z) (ts : list T) : Z :=
  match ts with [] => 0 | t :: ts => f t + total f ts end.

Lemma total_insert f ts i t t' : ts !! i = Some t → total f (<[i:=t']> ts) = total f ts - f t + f t'.
Proof.
  revert i. induction ts as [|x ts IH]; intros [|i] Hi; simplify_eq/=; [lia|]. rewrite (IH i Hi). lia.
Qed.

Lemma total_app f ts t : total f (ts ++ [t]) = total f ts + f t.
Proof. induction ts as [|x ts IH]; simpl; lia. Qed.

(** The turns that a thread still has when it sees that it must stop. *)
Definition turns_left (t : T) : nat :=
  match t with
  | Exited => 0
  | Clearing | Record_end _ => 1
  | In_loop _ _ _ | Out_loop _ _ _ | Play_closed | Record_closed _ => 2
  | Play_loop _ _ _ _ | Record_loop _ _ _ _ _ _ | In_start | Out_start => 3
  | Play_start | Record_start => 4
  end.

(** A thread that is past its start and can end: a recording has been timed
    at least once, and does not call a function that is NULL. *)
Definition can_end (m : memo) (t : T) : Prop :=
  let timed diff := ∃ d, diff = Some d ∧ (s_record_timeout m ≤ tv_sec d → is_Some (s_record_endfunc m)) in
  match t with
  | In_loop u _ _ | Out_loop u _ _ | Play_loop u _ _ _ => closable u
  | Record_loop u _ _ _ _ diff => closable u ∧ timed diff
  | Record_closed diff | Record_end diff => timed diff
  | Play_closed | Clearing | Exited => True
  | In_start | Out_start | Play_start | Record_start => False
  end.

(** What a turn of one thread leaves to the others and to the caller. *)
Record same_callers (a a' : A) : Prop := {
  same_memo : s_memo a' = s_memo a;
  same_tids : s_tids a' = s_tids a;
  same_caller : caller a' = caller a;
  same_threads : threads a' = threads a;
}.

(** One turn of a thread after the stop. *)
Record stopping_turn (a a' : A) (t t' : T) : Prop := {
  stopping_same : same_callers a a';
  stopping_running : s_audio_running a' = false;
  stopping_fewer : (turns_left t' < turns_left t)%nat;
  stopping_end : can_end (s_memo a) t';
  stopping_streams : streams a' - stream_of t' = streams a - stream_of t;
  stopping_files : files a' - file_of t' = files a - file_of t;
}.

Lemma close_usb_ok (u : usb_audio_pcm Sp) a :
  closable u → close_usb u a = Ok (tt, add_open (-1) 0 a).
Proof.
  intros Hu. destruct (usb_close_ok u Hu) as (s & c & E). unfold close_usb.
  by rewrite (bind_lift _ _ _ _ E).
Qed.

Lemma turn_stopped env t a :
  s_audio_running a = false → can_end (s_memo a) t → t ≠ Exited → ∃ t' a',
  thread_turn sx env t a = Ok (t', a') ∧ stopping_turn a a' t t'.
Proof.
  intros Hr Hc Ht. destruct t; try done; cbn [thread_turn can_end] in *.
  - unfold usba_to_hosta_turn, usba_to_hosta_end. rewrite bind_get, Hr. cbn [negb].
    rewrite (bind_ok _ _ _ _ _ (close_usb_ok _ a Hc)). eexists _, _. split; [reflexivity|]. by split; simpl; try lia.
  - unfold hosta_to_usba_turn, hosta_to_usba_end. rewrite bind_get, Hr. cbn [negb].
    rewrite (bind_ok _ _ _ _ _ (close_usb_ok _ a Hc)). eexists _, _. split; [reflexivity|]. by split; simpl; try lia.
  - unfold file_to_usba_turn, file_to_usba_end. rewrite bind_get, Hr. cbn [negb].
    rewrite (bind_ok _ _ _ _ _ (close_usb_ok _ a Hc)), bind_modify.
    eexists _, _. split; [reflexivity|]. by split; simpl; try lia.
  - unfold file_to_usba_exit. rewrite bind_get, Hr. eexists _, _. split; [reflexivity|]. by split; simpl; try lia.
  - destruct Hc as [Hc Hd]. unfold usba_to_file_turn, usba_to_file_end. rewrite bind_get, Hr. cbn [negb].
    rewrite (bind_ok _ _ _ _ _ (close_usb_ok _ a Hc)), bind_get. eexists _, _. split; [reflexivity|].
    by split; simpl; try lia.
  - eexists _, _. split; [reflexivity|]. by split; simpl; try lia.
  - destruct Hc as (d & -> & Hd). unfold usba_to_file_exit. rewrite bind_get.
    rewrite bind_lift with (a := d) by done. rewrite bind_when. destruct (Z.leb_spec (s_record_timeout (s_memo a)) (tv_sec d)).
    + destruct (Hd ltac:(done)) as [f Hf]. erewrite bind_ok; [|rewrite bind_lift with (a := f) by (by rewrite Hf); reflexivity].
      eexists _, _. split; [reflexivity|]. by split; simpl; try lia.
    + eexists _, _. split; [reflexivity|]. by split; simpl; try lia.
  - eexists _, _. split; [reflexivity|]. by split; simpl; try lia.
Qed.

(** ** Every schedule ends *)

(** The threads have their turns as a scheduler chooses them; it does not
    choose one that has exited. *)
Fixpoint run_schedule (xs : list (nat * turn_env)) : M A unit :=
  match xs with
  | [] => skip
  | (i, env) :: xs =>
      a ← get;
      (match threads a !! i with Some Exited | None => skip | Some _ => turn sx i env end);;
      run_schedule xs
  end.

Definition stopped (a : A) : Prop :=
  s_audio_running a = false ∧ Forall (can_end (s_memo a)) (threads a).

Definition chosen (i : nat) (xs : list (nat * turn_env)) : nat := length (filter (λ x, x.1 = i) xs).

(** Between two states of a run after the stop. *)
Record stopping_run (a a' : A) : Prop := {
  run_stopped : stopped a';
  run_callers : s_tids a' = s_tids a ∧ caller a' = caller a;
  run_length : length (threads a') = length (threads a);
  run_streams : streams a' - total stream_of (threads a') = streams a - total stream_of (threads a);
  run_files : files a' - total file_of (threads a') = files a - total file_of (threads a);
}.

Definition left_at (a : A) (i : nat) : nat :=
  match threads a !! i with Some t => turns_left t | None => 0 end.

Lemma turn_after_stop a i env :
  stopped a → (∃ a', turn sx i env a = Ok (tt, a') ∧ stopping_run a a' ∧
    (left_at a' i < left_at a i)%nat ∧ ∀ j, j ≠ i → left_at a' j = left_at a j) ∨
  threads a !! i = None ∨ threads a !! i = Some Exited.
Proof.
  intros [Hr Hall]. destruct (threads a !! i) as [t|] eqn:Hi; [|by auto].
  destruct (decide (turns_left t = 0%nat)) as [|Hne]; [right; right; by destruct t|]. left.
  assert (can_end (s_memo a) t) as Hc by (by eapply Forall_lookup_1).
  destruct (turn_stopped env t a Hr Hc) as (t' & a1 & E & [[H1 H2 H3 H4] H5 H6 H7 H8 H9]); [by intros ->|].
  unfold turn. rewrite bind_get, Hi, bind_lift with (a := t) by done. rewrite (bind_ok _ _ _ _ _ E).
  eexists. split; [reflexivity|]. split; [split; simpl|split].
  - split; simpl; [done|]. rewrite H1, H4. by apply Forall_insert.
  - done.
  - by rewrite H4, length_insert.
  - rewrite H4, (total_insert _ _ _ _ _ Hi). lia.
  - rewrite H4, (total_insert _ _ _ _ _ Hi). lia.
  - unfold left_at. simpl. rewrite H4, Hi, list_lookup_insert_eq by (by eapply lookup_lt_Some). done.
  - intros j Hj. unfold left_at. simpl. by rewrite H4, list_lookup_insert_ne by done.
Qed.

Lemma stopping_run_trans a a1 a2 : stopping_run a a1 → stopping_run a1 a2 → stopping_run a a2.
Proof. intros [? [? ?] ? ? ?] [? [? ?] ? ? ?]. split; [done|split; congruence|congruence|lia|lia]. Qed.

Lemma run_schedule_ok xs a :
  stopped a → ∃ a', run_schedule xs a = Ok (tt, a') ∧ stopping_run a a' ∧
  ∀ i, (left_at a' i ≤ left_at a i - chosen i xs)%nat.
Proof.
  revert a. induction xs as [|[i env] xs IH]; intros a Ha.
  { exists a. split; [done|]. split; [by split|]. unfold chosen. simpl. lia. }
  cbn [run_schedule]. rewrite bind_get. assert (∀ j, chosen j ((i, env) :: xs) =
    ((if decide (i = j) then 1 else 0) + chosen j xs)%nat) as Hch.
  { intros j. unfold chosen. rewrite filter_cons. simpl. by destruct (decide (i = j)). }
  destruct (turn_after_stop a i env Ha) as [(a1 & E & H1 & Hi & Hj)|Hi].
  - assert (∃ t, threads a !! i = Some t ∧ t ≠ Exited) as (t & Et & Hne).
    { unfold left_at in Hi. destruct (threads a !! i) as [t|]; [|lia]. exists t. split; [done|].
      intros ->. simpl in Hi. lia. }
    destruct (IH a1 (run_stopped _ _ H1)) as (a2 & E2 & H2 & Hk).
    rewrite bind_ok with (a := tt) (s' := a1); [|by rewrite Et; destruct t]. exists a2. split; [done|].
    split; [by eapply stopping_run_trans|]. intros j. rewrite Hch. specialize (Hk j).
    destruct (decide (i = j)) as [<-|]; [lia|]. rewrite Hj in Hk by done. lia.
  - destruct (IH a Ha) as (a2 & E2 & H2 & Hk). exists a2.
    rewrite bind_ok with (a := tt) (s' := a); [|by destruct Hi as [-> | ->]]. split; [exact E2|]. split; [done|].
    intros j. rewrite Hch. specialize (Hk j). destruct (decide (i = j)) as [<-|]; [|lia].
    assert (left_at a i = 0%nat) by (unfold left_at; by destruct Hi as [-> | ->]). lia.
Qed.

(** C21: [upil_audio_stop] ends the threads that are past their start, in
    whatever order they have their turns, when a recording among them has had
    its time checked at least once and has a function to call, or its time
    is not up: after three turns of each, all have exited, every card and file
    that a thread had open is closed, and the caller's next look lets it
    return 0.  (A thread that is stopped at its start still opens its card,
    and a file that is played then needs four turns; a recording that is
    stopped before its first check reads a time that was never set, see
    [record_stopped_early].) *)
Theorem stop_ends_threads a ret xs rc :
  caller a = Returned ret → Forall (can_end (s_memo a)) (threads a) →
  (∀ i, (i < length (threads a))%nat → (3 ≤ chosen i xs)%nat) → ∃ a' a'',
  (perform sx Call_stop;; run_schedule xs) a = Ok (tt, a') ∧ Forall (λ t, t = Exited) (threads a') ∧
  streams a' = streams a - total stream_of (threads a) ∧ files a' = files a - total file_of (threads a) ∧
  perform sx (Wake rc) a' = Ok (tt, a'') ∧ caller a'' = Returned 0 ∧ s_tids a'' = Tids None None None None.
Proof.
  intros Hcall Hall Hx. set (a0 := set_caller (Stopping 30 0) (set_running false a)).
  assert (perform sx Call_stop a = Ok (tt, a0)) as E0 by (unfold perform; by rewrite bind_get, Hcall).
  destruct (run_schedule_ok xs a0) as (a' & E & [Hs [Ht Hc] Hl Hst Hf] & Hk); [by split|].
  assert (Forall (λ t, t = Exited) (threads a')) as Hex.
  { apply Forall_lookup. intros i t Hi. specialize (Hk i).
    assert (i < length (threads a))%nat as Hlt by (apply lookup_lt_Some in Hi; by rewrite Hl in Hi).
    specialize (Hx i Hlt). unfold left_at in Hk. rewrite Hi in Hk. simpl in Hk.
    destruct (threads a !! i) as [t0|] eqn:Hi0; [|by apply lookup_ge_None in Hi0; lia].
    assert (turns_left t0 ≤ 3)%nat; [|by destruct t; simpl in Hk; try lia].
    eapply Forall_lookup_1 in Hall; [|done]. destruct t0; simpl in *; try lia; done. }
  assert (∀ f, f Exited = 0 → total f (threads a') = 0) as Htot.
  { intros f Hf0. clear -Hex Hf0. induction Hex; simpl; [done|]. subst. lia. }
  exists a'. rewrite (bind_ok _ _ _ _ _ E0). eexists. split; [done|]. split; [done|].
  rewrite Htot in Hst by done. rewrite Htot in Hf by done. simpl in Hst, Hf. split; [lia|]. split; [lia|].
  unfold perform. rewrite bind_get, Hc. cbn [set_caller caller a0].
  unfold stop_turn. rewrite bind_get.
  assert (all_exited a' = true) as ->.
  { assert (∀ tid, thread_exited (threads a') tid = true) as H.
    { intros [i|]; [|done]. simpl. destruct (threads a' !! i) eqn:Hi; [|done].
      by rewrite (proj1 (Forall_lookup _ _) Hex i _ Hi). }
    unfold all_exited. by rewrite !H. }
  split; [reflexivity|]. done.
Qed.

(** ** Every reachable state *)

Definition can_close (t : T) : Prop :=
  match t with
  | In_loop u _ _ | Out_loop u _ _ | Play_loop u _ _ _ | Record_loop u _ _ _ _ _ => closable u
  | _ => True
  end.

(** A turn of [t] that makes it [t']. *)
Record turn_ok (a a' : A) (t t' : T) : Prop := {
  turn_same : same_callers a a';
  turn_close : can_close t';
  turn_streams : streams a - stream_of t ≤ streams a' - stream_of t';
  turn_files : files a - file_of t ≤ files a' - file_of t';
}.

Create HintDb closable.
Ltac turn_ok := split; [by split|try done; try (cbn [can_close]; by eauto with closable)|simpl; lia|simpl; lia].

Lemma close_usb_ends (u : usb_audio_pcm Sp) a Q : Q tt (add_open (-1) 0 a) → ends (close_usb u) a Q.
Proof. intros H. unfold close_usb. ends. done. Qed.

(** The result of a setup, with the card counted when there is one. *)
Lemma count_open (r : option (usb_audio_pcm Sp * Z)) (g : A → A) a Q :
  (r = None → Q None (g a)) → (∀ u n, r = Some (u, n) → Q r (add_open 1 0 (g a))) →
  ends (modify g;; when (bool_decide (is_Some r)) (modify (add_open 1 0));; mret r) a Q.
Proof. intros Hn Hs. destruct r as [[u n]|]; ends; try done; [by eapply Hs|by apply Hn]. Qed.

Lemma setup_record_ends sys a Q :
  env_sane sys → (∀ c, Q None (set_configs c (config_out a) a)) →
  (∀ c u n, closable u → Q (Some (u, n)) (add_open 1 0 (set_configs c (config_out a) a))) →
  ends (setup_record sx sys) a Q.
Proof.
  intros Hs Hn Hsome. unfold setup_record. apply ends_bind, ends_get, ends_bind, ends_lift. intros [r c] E.
  apply count_open; cbn [fst snd] in *; intros; subst; [done|]. apply Hsome. by eapply setup_record_closable.
Qed.

Lemma setup_track_ends sys rate channel a Q :
  env_sane sys → (∀ c, Q None (set_configs (config_in a) c a)) →
  (∀ c u n, closable u → Q (Some (u, n)) (add_open 1 0 (set_configs (config_in a) c a))) →
  ends (setup_track sx sys rate channel) a Q.
Proof.
  intros Hs Hn Hsome. unfold setup_track. apply ends_bind, ends_get, ends_bind, ends_lift. intros [r c] E.
  apply count_open; cbn [fst snd] in *; intros; subst; [done|]. apply Hsome. by eapply setup_track_closable.
Qed.

Lemma in_setup_ok env a : env_sane (env_sys env) → ends (usba_to_hosta_setup sx env) a (λ t' a', turn_ok a a' In_start t').
Proof.
  intros Hs. unfold usba_to_hosta_setup. apply ends_bind, setup_record_ends; [done|..]; intros; ends; simpl; turn_ok.
Qed.

Lemma out_setup_ok env a : env_sane (env_sys env) → ends (hosta_to_usba_setup sx env) a (λ t' a', turn_ok a a' Out_start t').
Proof.
  intros Hs. unfold hosta_to_usba_setup. destruct (hosta_setup_record _); [|ends; turn_ok].
  apply ends_bind, setup_track_ends; [done|..]; intros; ends; simpl; turn_ok.
Qed.

Lemma play_setup_ok env a : env_sane (env_sys env) → ends (file_to_usba_setup sx env) a (λ t' a', turn_ok a a' Play_start t').
Proof.
  intros Hs. unfold file_to_usba_setup, file_setup_record. ends; simplify_eq; try turn_ok.
  apply setup_track_ends; [done|..]; intros; ends; simpl; turn_ok.
Qed.

Lemma file_setup_ok env a : env_sane (env_sys env) → ends (usba_to_file_setup sx env) a (λ t' a', turn_ok a a' Record_start t').
Proof.
  intros Hs. unfold usba_to_file_setup. apply ends_bind, setup_record_ends; [done|..]; intros; ends; simpl; turn_ok.
Qed.

Lemma read_closable fuel data size count (u u' : usb_audio_pcm Sp) r :
  usb_audio_read sx fuel data size count u = Ok (r, u') → closable u → closable u'.
Proof. apply keeps_closable, usb_read_keeps. Qed.
Lemma write_closable data count (u u' : usb_audio_pcm Sp) r :
  usb_audio_write sx data count u = Ok (r, u') → closable u → closable u'.
Proof. apply keeps_closable, usb_write_keeps. Qed.
#[local] Hint Resolve read_closable write_closable : closable.

Lemma thread_turn_ok env a t :
  env_sane (env_sys env) → can_close t → ends (thread_turn sx env t) a (λ t' a', turn_ok a a' t t').
Proof.
  intros Hs Ht. destruct t; cbn [thread_turn can_close] in *.
  - by apply in_setup_ok.
  - unfold usba_to_hosta_turn, usba_to_hosta_end. ends; try (apply close_usb_ends; ends); simplify_eq; turn_ok.
  - by apply out_setup_ok.
  - unfold hosta_to_usba_turn, hosta_to_usba_end. ends; try (apply close_usb_ends; ends); simplify_eq; turn_ok.
  - by apply play_setup_ok.
  - unfold file_to_usba_turn, file_to_usba_end. ends; try (apply close_usb_ends; ends); simplify_eq; turn_ok.
  - unfold file_to_usba_exit. ends; turn_ok.
  - by apply file_setup_ok.
  - unfold usba_to_file_turn, usba_to_file_end. ends; try (apply close_usb_ends; ends); simplify_eq; turn_ok.
  - ends. turn_ok.
  - unfold usba_to_file_exit. ends; turn_ok.
  - ends. turn_ok.
  - ends.
Qed.

Definition tids_ok (n : nat) (t : tids) : Prop :=
  Forall (λ o, match o with Some i => (i < n)%nat | None => True end)
    [s_tid_audio_in t; s_tid_audio_out t; s_tid_audio_play t; s_tid_audio_record t].

Record audio_inv (a : A) : Prop := {
  inv_close : Forall can_close (threads a);
  inv_streams : total stream_of (threads a) ≤ streams a;
  inv_files : total file_of (threads a) ≤ files a;
  inv_tids : tids_ok (length (threads a)) (s_tids a);
}.

Lemma tids_ok_more n m t : (n ≤ m)%nat → tids_ok n t → tids_ok m t.
Proof. intros H Ht. eapply Forall_impl; [exact Ht|]. intros [i|]; [lia|done]. Qed.

(** The parts that the invariant is about. *)
Lemma inv_same a a' :
  threads a' = threads a → streams a' = streams a → files a' = files a → s_tids a' = s_tids a →
  audio_inv a → audio_inv a'.
Proof. intros Ht Hs Hf Hi [????]. split; by rewrite Ht, ?Hs, ?Hf, ?Hi. Qed.

Lemma create_inv rc t keep a Q :
  audio_inv a → can_close t → stream_of t = 0 → file_of t = 0 →
  (∀ n s, tids_ok n s → tids_ok (S n) (keep n s)) →
  (∀ r a', audio_inv a' → Q r a') → ends (create rc t keep) a Q.
Proof.
  intros [H1 H2 H3 H4] Ht Hs Hf Hk HQ. unfold create. ends; apply HQ; [by split| |by split].
  split; simpl; rewrite ?total_app, ?length_app; [apply Forall_app; by repeat constructor|lia|lia|].
  rewrite Nat.add_1_r. by apply Hk.
Qed.

Lemma keep_ok n (t : tids) :
  tids_ok n t → tids_ok (S n) (Tids (Some n) (s_tid_audio_out t) (s_tid_audio_play t) (s_tid_audio_record t)) ∧
  tids_ok (S n) (Tids (s_tid_audio_in t) (Some n) (s_tid_audio_play t) (s_tid_audio_record t)) ∧
  tids_ok (S n) (Tids (s_tid_audio_in t) (s_tid_audio_out t) (Some n) (s_tid_audio_record t)) ∧
  tids_ok (S n) (Tids (s_tid_audio_in t) (s_tid_audio_out t) (s_tid_audio_play t) (Some n)).
Proof.
  intros H%(tids_ok_more _ (S n)); [|lia]. unfold tids_ok in *. rewrite !Forall_cons in H. simpl in *.
  destruct H as (?&?&?&?&_). split_and!; repeat (constructor; [by try lia|]); constructor.
Qed.

Lemma turn_inv i env a : audio_inv a → env_sane (env_sys env) → ends (turn sx i env) a (λ _ a', audio_inv a').
Proof.
  intros [H1 H2 H3 H4] Hs. unfold turn. apply ends_bind, ends_get, ends_bind, ends_lift. intros t Ht.
  destruct (threads a !! i) as [t0|] eqn:Hi; simplify_eq. apply ends_bind. intros t' a1 E.
  apply thread_turn_ok in E as [[E1 E2 E3 E4] Hc Hst Hf]; [|done|by eapply Forall_lookup_1].
  apply ends_modify. split; simpl; rewrite ?E4, ?E2, ?length_insert; [by apply Forall_insert| | |done].
  all: rewrite (total_insert _ _ _ _ _ Hi); lia.
Qed.

Lemma perform_inv x a :
  audio_inv a → (∀ i env, x = Turn i env → env_sane (env_sys env)) → ends (perform sx x) a (λ _ a', audio_inv a').
Proof.
  intros Ha Hx. unfold perform. apply ends_bind, ends_get.
  assert (∀ b a1, audio_inv a1 → audio_inv (set_running b a1)) as Hrun by (intros b a1; by apply inv_same).
  assert (∀ b a1, audio_inv a1 → audio_inv (set_caller b a1)) as Hcall by (intros b a1; by apply inv_same).
  assert (∀ b a1, audio_inv a1 → audio_inv (set_memo b a1)) as Hmemo by (intros b a1; by apply inv_same).
  assert (∀ b a1, audio_inv a1 → audio_inv (set_ready b a1)) as Hready by (intros b a1; by apply inv_same).
  destruct x as [rc| |f func rc|f func timeout rc|rc|i env]; [..|destruct (caller a); by apply turn_inv, (Hx i)].
  all: destruct (caller a); try apply ends_fail.
  - unfold upil_audio_start, return_, start_sound_in_thread. ends; [by auto|].
    apply create_inv; [by auto|done..|by intros; apply keep_ok|]. intros r a1 H1. ends; auto.
  - unfold upil_audio_stop, audio_stop. ends. auto.
  - unfold upil_audio_play_file, return_, start_play_thread. ends; [by auto|].
    apply create_inv; [by auto|done..|by intros; apply keep_ok|]. intros r a1 H1. ends; auto.
  - unfold upil_audio_record_file, return_, start_record_thread. ends; [by auto|].
    apply create_inv; [by auto|done..|by intros; apply keep_ok|]. intros r a1 H1. ends; auto.
  - unfold start_turn, return_, audio_stop, start_sound_out_thread. ends; auto.
    all: apply create_inv; [by auto|done..|by intros; apply keep_ok|]. all: intros r a1 H1; ends; auto.
  - unfold stop_turn, return_. ends; auto; apply Hcall; destruct Ha; by split; try by repeat constructor.
Qed.

(** The runs from the start of the program, with cards whose mixer answers
    as a mixer does. *)
Inductive audio_run : A → Prop :=
  | audio_begin : audio_run no_audio
  | audio_step x a a' : audio_run a → (∀ i env, x = Turn i env → env_sane (env_sys env)) →
      perform sx x a = Ok (tt, a') → audio_run a'.

(** C25: in every interleaving of the threads and the caller, the cards and
    files that a thread still uses are open and can be closed, and the
    numbers of threads that the caller leaves are those of threads. *)
Theorem audio_run_accounts a :
  audio_run a → Forall can_close (threads a) ∧ total stream_of (threads a) ≤ streams a ∧
  total file_of (threads a) ≤ files a ∧ tids_ok (length (threads a)) (s_tids a).
Proof.
  intros H. assert (audio_inv a) as [????]; [|by split_and!].
  induction H as [|x a a' _ IH Hx E]; [split; simpl; [constructor|lia|lia|by repeat constructor]|].
  by eapply perform_inv.
Qed.

(** ** What a turn does to the others *)

(** A turn does not set [s_audio_running], and calls only the functions that
    the caller has given. *)
Record turn_polite (a a' : A) : Prop := {
  polite_memo : s_memo a' = s_memo a;
  polite_caller : caller a' = caller a;
  polite_running : s_audio_running a' = true → s_audio_running a = true;
  polite_log : ∃ es, audio_log a' = audio_log a ++ es ∧ ∀ f, Endfunc f ∈ es →
    s_play_endfunc (s_memo a) = Some f ∨ s_record_endfunc (s_memo a) = Some f;
}.

Lemma polite_refl a : turn_polite a a.
Proof. split; try done. exists []. rewrite app_nil_r. split; [done|]. by intros f ?%not_elem_of_nil. Qed.

Lemma polite_same a a' :
  s_memo a' = s_memo a → caller a' = caller a → s_audio_running a' = s_audio_running a →
  audio_log a' = audio_log a → turn_polite a a'.
Proof.
  intros H1 H2 H3 H4. split; [done|done|by rewrite H3|]. exists []. rewrite app_nil_r.
  split; [done|]. by intros f ?%not_elem_of_nil.
Qed.

Lemma polite_stop a : turn_polite a (set_running false a).
Proof. split; try done. exists []. simpl. rewrite app_nil_r. split; [done|]. by intros f ?%not_elem_of_nil. Qed.

Lemma polite_event e a a' :
  s_memo a' = s_memo a → caller a' = caller a → s_audio_running a' = s_audio_running a →
  audio_log a' = audio_log a ++ [e] →
  (∀ f, e = Endfunc f → s_play_endfunc (s_memo a) = Some f ∨ s_record_endfunc (s_memo a) = Some f) →
  turn_polite a a'.
Proof.
  intros H1 H2 H3 H4 He. split; [done|done|by rewrite H3|]. exists [e]. split; [done|].
  intros f Hf%list_elem_of_singleton. by apply He.
Qed.

Lemma deref_some {B} (o : option B) b : deref o = Ok b → o = Some b.
Proof. by destruct o; intros [= ->]. Qed.

Lemma thread_turn_polite env t a : ends (thread_turn sx env t) a (λ _ a', turn_polite a a').
Proof.
  destruct t; cbn [thread_turn]; unfold usba_to_hosta_setup, usba_to_hosta_turn, usba_to_hosta_end, hosta_to_usba_setup,
    hosta_to_usba_turn, hosta_to_usba_end, file_to_usba_setup, file_setup_record, file_to_usba_turn, file_to_usba_end,
    file_to_usba_exit, usba_to_file_setup, usba_to_file_turn, usba_to_file_end, usba_to_file_exit, setup_record,
    setup_track, close_usb; ends; simplify_eq; try (by apply polite_same); try apply polite_stop.
  all: try (by eapply polite_event; [reflexivity..|done]).
  all: eapply polite_event; [reflexivity..|intros f [= ->]].
  - left. by apply deref_some.
  - right. by apply deref_some.
Qed.

Lemma perform_turn_polite i env a : ends (perform sx (Turn i env)) a (λ _ a', turn_polite a a').
Proof.
  unfold perform. apply ends_bind, ends_get.
  assert (ends (turn sx i env) a (λ _ a', turn_polite a a')) as H; [|by destruct (caller a)].
  unfold turn. apply ends_bind, ends_get, ends_bind, ends_lift. intros t _. apply ends_bind.
  intros t' a1 [H1 H2 H3 H4]%thread_turn_polite. by apply ends_modify.
Qed.

(** ** Calls while the threads run *)

(** The function that ends the playing of a file is called while
    [s_audio_running] is still set.  When the caller's request to record
    comes before the thread's last turn it is ignored, though the result is
    0, and then nothing runs; when it comes after, the recording starts. *)
Theorem record_request_lost a ret i env name s f timeout :
  caller a = Returned ret → s_audio_running a = true → threads a !! i = Some Clearing →
  (∀ j t, threads a !! j = Some t → j ≠ i → t = Exited) → cstr name = Ok s → len s < 2048 → ∃ a1 a2,
  perform_all sx [Call_record name f timeout 0; Turn i env] a = Ok (tt, a1) ∧
  caller a1 = Returned 0 ∧ s_audio_running a1 = false ∧ Forall (λ t, t = Exited) (threads a1) ∧
  perform_all sx [Turn i env; Call_record name f timeout 0] a = Ok (tt, a2) ∧
  caller a2 = Returned 0 ∧ s_audio_running a2 = true ∧ threads a2 = threads a1 ++ [Record_start].
Proof.
  intros Hc Hr Hi Hj Hn Hl. cbn [perform_all].
  assert (∀ a, threads a !! i = Some Clearing → turn sx i env a =
    Ok (tt, set_threads (<[i := Exited]> (threads a)) (set_running false a))) as Ht.
  { intros b Hb. unfold turn. by rewrite bind_get, Hb. }
  set (a0 := set_caller (Returned 0) a).
  set (a1 := set_threads (<[i := Exited]> (threads a)) (set_running false a0)).
  set (b0 := set_threads (<[i := Exited]> (threads a)) (set_running false a)).
  assert (perform sx (Call_record name f timeout 0) a = Ok (tt, a0)) as E0.
  { unfold perform, upil_audio_record_file. by rewrite bind_get, Hc, bind_get, Hr. }
  assert (perform sx (Turn i env) a0 = Ok (tt, a1)) as E1 by (unfold perform; rewrite bind_get; exact (Ht a0 Hi)).
  assert (perform sx (Turn i env) a = Ok (tt, b0)) as E2 by (unfold perform; rewrite bind_get, Hc; exact (Ht a Hi)).
  set (b1 := set_caller (Returned 0) (set_tids (Tids (s_tid_audio_in (s_tids a)) (s_tid_audio_out (s_tids a))
    (s_tid_audio_play (s_tids a)) (Some (length (threads b0)))) (set_threads (threads b0 ++ [Record_start])
    (set_memo (Memo (s_play_endfunc (s_memo a)) (s_play_filename (s_memo a)) f s timeout) (set_running true b0))))).
  assert (perform sx (Call_record name f timeout 0) b0 = Ok (tt, b1)) as E3.
  { unfold perform, upil_audio_record_file. rewrite bind_get. change (caller b0) with (caller a). rewrite Hc, bind_get.
    change (s_audio_running b0) with false. cbv iota. rewrite bind_modify, bind_lift with (a := s); [reflexivity|].
    unfold keep_filename. rewrite Hn. cbn [mbind res_bind]. by rewrite (proj2 (Z.ltb_lt _ _) Hl). }
  exists a1, b1. rewrite (bind_ok _ _ _ _ _ E0), (bind_ok _ _ _ _ _ E1), (bind_ok _ _ _ _ _ E2), (bind_ok _ _ _ _ _ E3).
  do 3 (split; [done|]). split; [|by split_and!].
  apply Forall_lookup. intros j t. simpl.
  intros [(<- & <- & _)|[Hne Hjt]]%list_lookup_insert_Some; [done|]. by eapply Hj.
Qed.

Lemma stop_waits n ret a :
  all_exited a = false → caller a = Stopping n ret →
  perform_all sx (replicate (S n) (Wake 0)) a =
  Ok (tt, set_caller (Returned ret) (set_tids (Tids None None None None) a)).
Proof.
  revert a. induction n as [|n IH]; intros a Ha Hc; rewrite replicate_S; cbn [perform_all].
  - rewrite bind_ok with (a := tt) (s' := set_caller (Returned ret) (set_tids (Tids None None None None) a)); [done|].
    unfold perform. rewrite bind_get, Hc. done.
  - rewrite bind_ok with (a := tt) (s' := set_caller (Stopping n ret) a); [by rewrite IH|].
    unfold perform, stop_turn. by rewrite bind_get, Hc, bind_get, Ha.
Qed.

Lemma perform_all_app xs ys a a' : perform_all sx xs a = Ok (tt, a') →
  perform_all sx (xs ++ ys) a = perform_all sx ys a'.
Proof.
  revert a. induction xs as [|x xs IH]; intros a; [by intros [= <-]|]. cbn [perform_all app].
  intros ([] & a1 & E1 & E2)%bind_inv. rewrite (bind_ok _ _ _ _ _ E1). by apply IH.
Qed.

(** [upil_audio_stop] that runs out of time returns 0 like one that does
    not, and forgets the threads; the next start sets [s_audio_running] for
    them too, so that they go on beside the new ones. *)
Theorem stop_timeout_revives a ret :
  caller a = Returned ret → all_exited a = false → ∃ a1 a2,
  perform_all sx (Call_stop :: replicate 31 (Wake 0)) a = Ok (tt, a1) ∧
  caller a1 = Returned 0 ∧ threads a1 = threads a ∧ all_exited a1 = true ∧
  perform_all sx (Call_stop :: replicate 31 (Wake 0) ++ [Call_start 0]) a = Ok (tt, a2) ∧
  s_audio_running a2 = true ∧ threads a2 = threads a ++ [In_start].
Proof.
  intros Hc Ha. set (a0 := set_caller (Stopping 30 0) (set_running false a)).
  set (a1 := set_caller (Returned 0) (set_tids (Tids None None None None) a0)).
  assert (perform_all sx (Call_stop :: replicate 31 (Wake 0)) a = Ok (tt, a1)) as E.
  { cbn [perform_all]. rewrite bind_ok with (a := tt) (s' := a0); [by apply stop_waits|].
    unfold perform. by rewrite bind_get, Hc. }
  exists a1. eexists. split; [done|]. do 3 (split; [done|]).
  change (Call_stop :: replicate 31 (Wake 0) ++ [Call_start 0]) with ((Call_stop :: replicate 31 (Wake 0)) ++ [@Call_start 0]).
  rewrite (perform_all_app _ _ _ _ E). cbn [perform_all].
  split; [|split]; [reflexivity|done|done].
Qed.

(** A thread that cannot set up its card leaves [s_audio_running] set, so
    that every later start returns 0 and starts nothing. *)
Theorem failed_setup_blocks_start t env a a' ret rc :
  t = In_start ∨ t = Out_start ∨ t = Play_start ∨ t = Record_start →
  thread_turn sx env t a = Ok (Exited, a') → s_audio_running a = true → caller a' = Returned ret →
  s_audio_running a' = true ∧ perform sx (Call_start rc) a' = Ok (tt, set_caller (Returned 0) a').
Proof.
  intros Ht E Hr Hc. assert (s_audio_running a' = true) as Hr'.
  { rewrite <-Hr. destruct Ht as [->|[->|[->| ->]]]; revert E; cbn [thread_turn].
    all: match goal with |- ?m _ = _ → _ => assert (leaves s_audio_running m) as H; [|apply H] end.
    - unfold usba_to_hosta_setup, setup_record. leaves.
    - unfold hosta_to_usba_setup, setup_track. leaves.
    - unfold file_to_usba_setup, file_setup_record, setup_track. leaves.
    - unfold usba_to_file_setup, setup_record. leaves. }
  split; [done|]. unfold perform, upil_audio_start. by rewrite bind_get, Hc, bind_get, Hr'.
Qed.
End threads.

(** ** A file is played *)

(** A thread alone, with what each of its turns finds outside. *)
Fixpoint run_thread {Sp} (sx : speex Sp) (envs : list turn_env) (t : @thread Sp) : M (@audio Sp) (@thread Sp) :=
  match envs with
  | [] => mret t
  | env :: envs => t ← thread_turn sx env t; run_thread sx envs t
  end.

Lemma run_thread_app {Sp} (sx : speex Sp) envs1 envs2 t a t' a' :
  run_thread sx envs1 t a = Ok (t', a') → run_thread sx (envs1 ++ envs2) t a = run_thread sx envs2 t' a'.
Proof.
  revert t a. induction envs1 as [|env envs1 IH]; intros t a; [by intros [= <- <-]|]. cbn [run_thread app].
  intros (t1 & a1 & E1 & E2)%bind_inv. rewrite (bind_ok _ _ _ _ _ E1). by apply IH.
Qed.

#[local] Opaque no_buffer.

(** A turn that finds nothing outside. *)
Definition no_env : turn_env :=
  TurnEnv (WavSystem demo_system (λ _, -1) demo_mixer) slow_track 1 (λ _, None) false 0 (Timeval 0 0).

Section play.
Context {Sp : Type} (sx : speex Sp) (size : Z) (Hsize : 0 < size ≤ MAX_BUF_SIZE).

(** The card takes the pieces, one write for each: a piece is the beginning
    of the array that is written. *)
Inductive writes (u : usb_audio_pcm Sp) : list (list Z) → usb_audio_pcm Sp → Prop :=
  | writes_nil : writes u [] u
  | writes_cons piece tail r u1 pieces u2 :
      0 < len piece ≤ size → len (piece ++ tail) = MAX_BUF_SIZE →
      usb_audio_write sx (piece ++ tail) (len piece) u = Ok (r, u1) → 0 ≤ r →
      writes u1 pieces u2 → writes u (piece :: pieces) u2.

Lemma writes_closable u pieces u' : writes u pieces u' → closable u → closable u'.
Proof using. induction 1 as [|u piece tail r u1 pieces u2 _ _ E _ _ IH]; [done|]. intros Hu. by eapply IH, write_closable. Qed.

(** The array with the next piece of the file in it. *)
Definition next_piece (rest : list Z) : list Z := take (Z.to_nat size) rest.
Definition next_array (rest buffer : list Z) : list Z := next_piece rest ++ drop (length (next_piece rest)) buffer.

Lemma next_piece_len rest : rest ≠ [] → 0 < len (next_piece rest) ≤ size.
Proof using Hsize.
  intros Hr. unfold next_piece. rewrite len_take. destruct rest as [|x rest]; [done|].
  rewrite len_cons. pose proof (len_nonneg rest). lia.
Qed.

Lemma next_array_len rest buffer : len buffer = MAX_BUF_SIZE → len (next_array rest buffer) = MAX_BUF_SIZE.
Proof using Hsize.
  intros Hb. unfold next_array, next_piece. unfold len in *. rewrite length_app, length_drop, length_take. lia.
Qed.

Lemma play_turn env a u buffer rest :
  s_audio_running a = true → len buffer = MAX_BUF_SIZE →
  file_to_usba_turn sx env u buffer size rest a =
    if bool_decide (rest = []) then file_to_usba_end u a else
    match usb_audio_write sx (next_array rest buffer) (len (next_piece rest)) u with
    | Err e => Err e
    | Ok (r, u') =>
        if r <? 0 then file_to_usba_end u' a
        else Ok (Play_loop u' (next_array rest buffer) size (drop (Z.to_nat size) rest), a)
    end.
Proof using Hsize.
  intros Hr Hb. unfold file_to_usba_turn. rewrite bind_get, Hr. cbn [negb]. fold (next_piece rest).
  assert (0 ≤ len (next_piece rest) ≤ len buffer) as Hl.
  { unfold next_piece. rewrite len_take. pose proof (len_nonneg rest). lia. }
  pose proof (blit_prefix [] (next_piece rest) buffer ltac:(lia)) as Eb. simpl in Eb. change (len []) with 0 in Eb.
  rewrite (bind_lift _ _ _ _ Eb). case_bool_decide as Hd.
  - subst. unfold next_piece. rewrite take_nil. done.
  - apply next_piece_len in Hd. destruct (Z.eqb_spec (len (next_piece rest)) 0); [lia|].
    change (next_piece rest ++ drop (length (next_piece rest)) buffer) with (next_array rest buffer).
    destruct (usb_audio_write _ _ _ _) as [[r u']|e]; [|done]. rewrite bind_lift with (a := (r, u')) by done.
    by destruct (r <? 0).
Qed.

(** From the end of the loop on. *)
Definition played_out (f : Z) (a : @audio Sp) : @audio Sp :=
  set_running false (add_event (Endfunc f) (add_open 0 (-1) (add_open (-1) 0 a))).

Lemma play_end_run t env1 env2 env3 a u f :
  s_audio_running a = true → s_play_endfunc (s_memo a) = Some f → closable u →
  thread_turn sx env1 t a = file_to_usba_end u a →
  run_thread sx [env1; env2; env3] t a = Ok (Exited, played_out f a).
Proof using.
  intros Hr Hf Hu E. set (a1 := add_open 0 (-1) (add_open (-1) 0 a)). cbn [run_thread].
  rewrite bind_ok with (a := Play_closed) (s' := a1).
  - rewrite bind_ok with (a := Clearing) (s' := add_event (Endfunc f) a1); [done|].
    cbn [thread_turn]. unfold file_to_usba_exit. rewrite bind_get, bind_when.
    change (s_audio_running a1) with (s_audio_running a). rewrite Hr.
    erewrite bind_ok; [reflexivity|]. rewrite bind_lift with (a := f); [reflexivity|]. simpl. by rewrite Hf.
  - rewrite E. unfold file_to_usba_end. by rewrite (bind_ok _ _ _ _ _ (close_usb_ok u a Hu)), bind_modify.
Qed.

(** C23: the thread that plays a file, with any card that can be closed, a
    buffer size that its array has room for, a function to call at the end, and
    while nobody stops it, gives the card the bytes of the file in order and once, in pieces
    that are the beginnings of the arrays it writes, up to the end of the
    file or to the first write that the card refuses; three turns later it
    has closed the card and the file, has called the function it was given
    once, at a refused write too, and has ended with [s_audio_running]
    cleared.  The only other end is a fault in the write itself. *)
Theorem file_to_usba_plays a u buffer rest f :
  s_audio_running a = true → s_play_endfunc (s_memo a) = Some f →
  closable u → len buffer = MAX_BUF_SIZE → ∃ pieces rest' u' buffer',
  rest = concat pieces ++ rest' ∧ writes u pieces u' ∧
  (∀ envs, length envs = length pieces →
    run_thread sx envs (Play_loop u buffer size rest) a = Ok (Play_loop u' buffer' size rest', a)) ∧
  let write := usb_audio_write sx (next_array rest' buffer') (len (next_piece rest')) u' in
  ((rest' = [] ∨ rest' ≠ [] ∧ ∃ r u'', write = Ok (r, u'') ∧ r < 0) ∧
     ∀ env1 env2 env3, run_thread sx [env1; env2; env3] (Play_loop u' buffer' size rest') a =
       Ok (Exited, played_out f a)) ∨
  (rest' ≠ [] ∧ ∃ e, write = Err e ∧
     ∀ env, run_thread sx [env] (Play_loop u' buffer' size rest') a = Err e).
Proof using Hsize.
  intros Hr Hf Hu Hb. remember (length rest) as n eqn:Hn. revert u buffer rest Hu Hb Hn.
  induction n as [n IH] using lt_wf_ind. intros u buffer rest Hu Hb ->.
  destruct (decide (rest = [])) as [->|Hne].
  { exists [], [], u, buffer. split; [done|]. split; [constructor|]. split; [by intros []|]. left. split; [by left|].
    intros env1 env2 env3. apply (play_end_run _ env1 env2 env3 a u f Hr Hf Hu).
    cbn [thread_turn]. by rewrite play_turn. }
  assert (∀ env, thread_turn sx env (Play_loop u buffer size rest) a = _) as Ht by (intros env; by apply play_turn).
  rewrite bool_decide_false in Ht by done.
  destruct (usb_audio_write sx (next_array rest buffer) (len (next_piece rest)) u) as [[r u1]|e] eqn:E.
  2:{ exists [], rest, u, buffer. split; [done|]. split; [constructor|]. split; [by intros []|]. right.
      split; [done|]. exists e. split; [done|]. intros env. cbn [run_thread]. unfold mbind, M_bind. by rewrite Ht. }
  assert (closable u1) as Hu1 by (by eapply write_closable).
  destruct (Z.ltb_spec r 0) as [Hneg|Hpos].
  { exists [], rest, u, buffer. split; [done|]. split; [constructor|]. split; [by intros []|]. left.
    split; [right; split; [done|]; by exists r, u1|]. intros env1 env2 env3.
    by apply (play_end_run _ env1 env2 env3 a u1 f). }
  pose proof (next_piece_len rest Hne) as Hp.
  destruct (IH (length (drop (Z.to_nat size) rest))) with (u := u1) (buffer := next_array rest buffer)
    (rest := drop (Z.to_nat size) rest) as (ps & rest' & u' & b' & Ec & Hw & Hrun & Hend);
    [destruct rest; [done|]; rewrite length_drop; simpl; lia|done|by apply next_array_len|done|].
  exists (next_piece rest :: ps), rest', u', b'. split; [|split; [|split; [|exact Hend]]].
  - cbn [concat]. rewrite <-app_assoc, <-Ec. unfold next_piece. by rewrite take_drop.
  - eapply writes_cons; [done|by apply (next_array_len rest buffer)|exact E|done|done].
  - intros [|env envs] Hl; [done|]. cbn [run_thread]. rewrite (bind_ok _ _ _ _ _ (Ht env)).
    apply Hrun. by injection Hl.
Qed.
End play.

(** ** A call is recorded *)

Section record.
Context {Sp : Type} (sx : speex Sp).

(** What one read gets from the card, whether the file has room or not. *)
Definition gets_piece (env : turn_env) (u : usb_audio_pcm Sp) (buffer piece : list Z) (u' : usb_audio_pcm Sp)
    (buffer' : list Z) : Prop :=
  ∃ n, usb_audio_read sx (env_fuel env) buffer MAX_BUF_SIZE 1024 u = Ok ((n, buffer'), u') ∧
    0 ≤ n ∧ slice buffer' 0 n = Ok piece.

(** What the turns read from the card, one after the other, and store. *)
Inductive captures : list turn_env → usb_audio_pcm Sp → list Z → list Z → usb_audio_pcm Sp → list Z → Prop :=
  | captures_nil u buffer : captures [] u buffer [] u buffer
  | captures_cons env envs u buffer piece u1 buffer1 data u2 buffer2 :
      gets_piece env u buffer piece u1 buffer1 → len piece ≤ env_room env →
      captures envs u1 buffer1 data u2 buffer2 → captures (env :: envs) u buffer (piece ++ data) u2 buffer2.

(** The turn is [d] after the start. *)
Definition timed (start : timeval) (env : turn_env) (P : Z → Prop) : Prop :=
  ∃ d, tim_subtract start (env_now env) = Some d ∧ P (tv_sec d).

(** How a recording ends by itself: what the last turn counts, what it stores,
    and whether the time was up. *)
Inductive last_turn (timeout : Z) (start : timeval) (env : turn_env) (u : usb_audio_pcm Sp) (buffer : list Z) :
    list Z → list Z → bool → Prop :=
  | time_is_up piece u' buffer' :
      gets_piece env u buffer piece u' buffer' → len piece ≤ env_room env →
      timed start env (λ s, timeout ≤ s) → last_turn timeout start env u buffer piece piece true
  | read_failed n buffer' u' :
      usb_audio_read sx (env_fuel env) buffer MAX_BUF_SIZE 1024 u = Ok ((n, buffer'), u') → n < 0 →
      last_turn timeout start env u buffer [] [] false
  | disk_is_full piece u' buffer' :
      gets_piece env u buffer piece u' buffer' → 0 ≤ env_room env < len piece →
      last_turn timeout start env u buffer [] (take (Z.to_nat (env_room env)) piece) false.

Lemma gets_piece_closable env u buffer piece u' buffer' :
  gets_piece env u buffer piece u' buffer' → closable u → closable u'.
Proof. intros (n & E & _). by eapply read_closable. Qed.
Lemma captures_closable envs u buffer data u' buffer' : captures envs u buffer data u' buffer' → closable u → closable u'.
Proof. induction 1 as [|env envs u buffer piece u1 buffer1 data u2 buffer2 H _ _ IH]; [done|]. intros Hu. by eapply IH, gets_piece_closable. Qed.

(** A turn that reads [piece] and has room for it. *)
Lemma record_turn env a u buffer data start diff piece u' buffer' d :
  s_audio_running a = true → 0 < s_record_timeout (s_memo a) →
  gets_piece env u buffer piece u' buffer' → len piece ≤ env_room env → tim_subtract start (env_now env) = Some d →
  usba_to_file_turn sx env u buffer data (u32 (len data)) start diff a =
    if s_record_timeout (s_memo a) <=? tv_sec d
    then usba_to_file_end u' (data ++ piece) (u32 (len (data ++ piece))) (Some d) a
    else Ok (Record_loop u' buffer' (data ++ piece) (u32 (len (data ++ piece))) start (Some d), a).
Proof.
  intros Hr Ht (n & E & Hn & Hp) Hroom Hd. apply slice_len in Hp as Hl.
  unfold usba_to_file_turn. rewrite bind_get, Hr. cbn [negb]. rewrite (bind_lift _ _ _ _ E).
  destruct (Z.ltb_spec n 0); [lia|]. rewrite (bind_lift _ _ _ _ Hp).
  assert (take (Z.to_nat (env_room env)) piece = piece) as -> by (apply take_ge; unfold len in *; lia).
  rewrite Hl, Z.eqb_refl. cbn [negb]. rewrite (proj2 (Z.ltb_lt _ _) Ht), Hd, bind_lift with (a := d) by done.
  assert (u32 (u32 (len data) + n) = u32 (len (data ++ piece))) as ->.
  { rewrite len_app, Hl. unfold wrapU. by rewrite Zplus_mod_idemp_l. }
  by destruct (_ <=? _).
Qed.

Lemma record_turns envs u buffer more u' buffer' : captures envs u buffer more u' buffer' → ∀ a data start diff,
  s_audio_running a = true → 0 < s_record_timeout (s_memo a) →
  Forall (λ env, timed start env (λ s, s < s_record_timeout (s_memo a))) envs → ∃ diff',
  run_thread sx envs (Record_loop u buffer data (u32 (len data)) start diff) a =
    Ok (Record_loop u' buffer' (data ++ more) (u32 (len (data ++ more))) start diff', a) ∧
  (envs ≠ [] → ∃ d, diff' = Some d ∧ tv_sec d < s_record_timeout (s_memo a)).
Proof.
  induction 1 as [u buffer|env envs u buffer piece u1 b1 more u2 b2 Hp Hroom _ IH]; intros a data start diff Hr Ht Hall.
  { exists diff. by rewrite app_nil_r. }
  apply Forall_cons in Hall as [(d & Hd & Hlt) Hall].
  destruct (IH a (data ++ piece) start (Some d) Hr Ht Hall) as (diff' & E & Hdiff).
  exists diff'. rewrite app_assoc. cbn [run_thread thread_turn].
  rewrite bind_ok with (a := Record_loop u1 b1 (data ++ piece) (u32 (len (data ++ piece))) start (Some d)) (s' := a).
  2:{ rewrite (record_turn env a u buffer data start diff piece u1 b1 d Hr Ht Hp Hroom Hd).
      by rewrite (proj2 (Z.leb_gt _ _) Hlt). }
  split; [exact E|]. intros _. destruct envs as [|env' envs]; [|by apply Hdiff].
  injection E as _ _ _ _ <-. by exists d.
Qed.

(** The turn after which the loop has ended: what is stored and counted. *)
Lemma record_last env a u buffer data start diff counted stored up :
  s_audio_running a = true → 0 < s_record_timeout (s_memo a) → closable u →
  last_turn (s_record_timeout (s_memo a)) start env u buffer counted stored up → ∃ u' diff',
  usba_to_file_turn sx env u buffer data (u32 (len data)) start diff a =
    usba_to_file_end u' (data ++ stored) (u32 (len (data ++ counted))) diff' a ∧ closable u' ∧
  if up then ∃ d, diff' = Some d ∧ s_record_timeout (s_memo a) ≤ tv_sec d else diff' = diff.
Proof.
  intros Hr Ht Hu [piece u' b' Hp Hroom (d & Hd & Hle)|n b' u' E Hn|piece u' b' Hp Hroom].
  - exists u', (Some d). rewrite (record_turn env a u buffer data start diff piece u' b' d Hr Ht Hp Hroom Hd).
    rewrite (proj2 (Z.leb_le _ _) Hle). split; [done|]. split; [by eapply gets_piece_closable|by exists d].
  - exists u', diff. unfold usba_to_file_turn. rewrite bind_get, Hr. cbn [negb]. rewrite (bind_lift _ _ _ _ E).
    rewrite (proj2 (Z.ltb_lt _ _) Hn), !app_nil_r. split; [done|]. split; [by eapply read_closable|done].
  - exists u', diff. pose proof Hp as (n & E & Hn & Hs). apply slice_len in Hs as Hl.
    unfold usba_to_file_turn. rewrite bind_get, Hr. cbn [negb]. rewrite (bind_lift _ _ _ _ E).
    destruct (Z.ltb_spec n 0); [lia|]. rewrite (bind_lift _ _ _ _ Hs), len_take, app_nil_r.
    destruct (Z.eqb_spec (Z.min (Z.of_nat (Z.to_nat (env_room env))) (len piece)) n); [lia|].
    split; [done|]. split; [by eapply gets_piece_closable|done].
Qed.

Lemma track_header_ok n : header_ok (track_header 44100 2 (u32 n)).
Proof.
  split; cbn -[wrapU]; split_and!; try done; try (apply (wrapU_bounds 16); lia); try (apply (wrapU_bounds 32); lia);
    unfold is32, is16, ID_RIFF, ID_WAVE, ID_FMT, ID_DATA, FORMAT_PCM; lia.
Qed.

(** From the end of the loop on: the card and the file are closed, and the
    caller's function is called when the time was up. *)
Lemma record_end_run env1 env2 env3 t a u data n diff d f up :
  s_record_endfunc (s_memo a) = Some f → closable u →
  thread_turn sx env1 t a = usba_to_file_end u data n diff a → diff = Some d →
  (if up : bool then s_record_timeout (s_memo a) ≤ tv_sec d else tv_sec d < s_record_timeout (s_memo a)) →
  let h := track_header 44100 2 (u32 (n / 4 * 4)) in ∃ a',
  run_thread sx [env1; env2; env3] t a = Ok (Exited, a') ∧
  audio_log a' = audio_log a ++ Saved (s_record_filename (s_memo a)) (header_bytes h ++ data) ::
    (if up then [Endfunc f] else []) ∧
  s_audio_running a' = false ∧ streams a' = streams a - 1 ∧ files a' = files a - 1.
Proof.
  intros Hf Hu E -> Hd h. set (a0 := add_open 0 (-1) (add_event (Saved (s_record_filename (s_memo a)) (header_bytes h ++ data))
    (add_open (-1) 0 a))). set (a1 := set_running false a0).
  assert (thread_turn sx env1 t a = Ok (Record_closed (Some d), a0)) as E1.
  { rewrite E. unfold usba_to_file_end. by rewrite (bind_ok _ _ _ _ _ (close_usb_ok u a Hu)), bind_get. }
  exists (if up then add_event (Endfunc f) a1 else a1). cbn [run_thread]. rewrite (bind_ok _ _ _ _ _ E1).
  rewrite bind_ok with (a := Record_end (Some d)) (s' := a1) by done.
  rewrite bind_ok with (a := Exited) (s' := if up then add_event (Endfunc f) a1 else a1).
  - split; [done|]. destruct up; simpl; rewrite <-?app_assoc; split_and!; try done; lia.
  - cbn [thread_turn]. unfold usba_to_file_exit. rewrite bind_get, bind_lift with (a := d) by done. rewrite bind_when.
    change (s_memo a1) with (s_memo a). destruct up.
    + rewrite (proj2 (Z.leb_le _ _) Hd). erewrite bind_ok; [reflexivity|].
      rewrite bind_lift with (a := f); [reflexivity|]. by rewrite Hf.
    + by rewrite (proj2 (Z.leb_gt _ _) Hd).
Qed.

(** C22: the thread that records, with any card that can be closed, a time
    limit, a function to call, less than 4 GB of sound, and while nobody
    stops it, ends by itself when the time is up, when a read fails, or
    when the file is full.  The file then is a header and all that was read
    from the card and found room, in order; it can be played, and its header
    has the size of the whole frames of what was stored by turns that stored
    all they had read.  The card and the file are closed and
    [s_audio_running] is cleared.  The caller's function is called, once, when
    the time was up, and not after an error; an error has to come after a turn
    that was timed, or else the thread looks at a time that was never set. *)
Theorem usba_to_file_records a u buffer start f envs env1 env2 env3 data u1 buffer1 counted stored (up : bool) :
  s_audio_running a = true → 0 < s_record_timeout (s_memo a) → s_record_endfunc (s_memo a) = Some f → closable u →
  captures envs u buffer data u1 buffer1 →
  Forall (λ env, timed start env (λ s, s < s_record_timeout (s_memo a))) envs →
  last_turn (s_record_timeout (s_memo a)) start env1 u1 buffer1 counted stored up →
  up = true ∨ envs ≠ [] → len (data ++ counted) < 4294967296 → ∃ file h a',
  run_thread sx (envs ++ [env1; env2; env3]) (Record_loop u buffer [] 0 start None) a = Ok (Exited, a') ∧
  audio_log a' = audio_log a ++ Saved (s_record_filename (s_memo a)) file :: (if up then [Endfunc f] else []) ∧
  s_audio_running a' = false ∧ streams a' = streams a - 1 ∧ files a' = files a - 1 ∧
  read_header file = Some (h, data ++ stored) ∧ playable h = true ∧ data_sz h = len (data ++ counted) / 4 * 4.
Proof.
  intros Hr Ht Hf Hu Hcap Hall Hlast Hup Hlen. set (n := len (data ++ counted)) in *.
  destruct (record_turns envs u buffer data u1 buffer1 Hcap a [] start None Hr Ht Hall) as (diff & E & Hdiff).
  destruct (record_last env1 a u1 buffer1 data start diff counted stored up Hr Ht) as (u2 & diff2 & E2 & Hu2 & Hd2);
    [by eapply captures_closable|done|].
  assert (∃ d, diff2 = Some d ∧ if up then s_record_timeout (s_memo a) ≤ tv_sec d else tv_sec d < s_record_timeout (s_memo a))
    as (d & Hd & Hdt). { destruct up; [done|]. subst diff2. destruct Hup as [|Hne]; [done|]. by apply Hdiff. }
  assert (0 ≤ n < 4294967296) as Hn by (pose proof (len_nonneg (data ++ counted)); lia).
  destruct (record_end_run env1 env2 env3 (Record_loop u1 buffer1 data (u32 (len data)) start diff) a u2
    (data ++ stored) (u32 n) diff2 d f up Hf Hu2 E2 Hd Hdt) as (a' & Erun & Hlog & Hends).
  pose proof (Z.mul_div_le n 4 ltac:(lia)). pose proof (Z.div_pos n 4 ltac:(lia) ltac:(lia)).
  rewrite (u32_small n) in Hlog by lia. set (h := track_header 44100 2 (u32 (n / 4 * 4))) in *.
  exists (header_bytes h ++ data ++ stored), h, a'. rewrite (run_thread_app _ _ _ _ _ _ _ E). split; [exact Erun|].
  split; [exact Hlog|]. destruct Hends as (? & ? & ?). split_and!; try done.
  - apply read_header_bytes, track_header_ok.
  - simpl. by rewrite u32_small by lia.
Qed.

(** A recording that is stopped before its first check of the time reads a
    time that was never set. *)
Theorem record_stopped_early a u buffer start env1 env2 env3 :
  closable u → s_audio_running a = false →
  run_thread sx [env1; env2; env3] (Record_loop u buffer [] 0 start None) a = Err Uninit.
Proof.
  intros Hu Hr. cbn [run_thread thread_turn]. unfold usba_to_file_turn, usba_to_file_end.
  erewrite bind_ok; [|rewrite bind_get, Hr; cbn [negb];
    rewrite (bind_ok _ _ _ _ _ (close_usb_ok u a Hu)), bind_get; reflexivity]. done.
Qed.
End record.

(** ** Examples *)

Definition demo_memo : memo := Memo (Some 1) (lit "/data/welcome.wav") (Some 2) (lit "/data/record.wav") 30.
Definition demo_audio (running : bool) (ts : list (@thread (list Z))) (t : tids) : @audio (list Z) :=
  Audio running false demo_memo t pcm_config_ua_in pcm_config_ua_out no_host ts (Returned 0) [] 1 1.
Definition demo_threads : list (@thread (list Z)) := [Play_loop plain_usb [] 4 []; Clearing].
Definition no_tids : tids := Tids None None None None.

Definition schedule3 : list (nat * turn_env) :=
  (λ i, (i, no_env)) <$> [0%nat; 1%nat; 1%nat; 0%nat; 0%nat; 1%nat].

Lemma stop_ends_threads_witness : ∃ a' a'',
  (perform copy_speex Call_stop;; run_schedule copy_speex schedule3)
    (demo_audio true demo_threads no_tids) = Ok (tt, a') ∧ Forall (λ t, t = Exited) (threads a') ∧
  streams a' = 1 - 1 ∧ files a' = 1 - 1 ∧
  perform copy_speex (Wake 0) a' = Ok (tt, a'') ∧ caller a'' = Returned 0 ∧ s_tids a'' = no_tids.
Proof.
  apply (stop_ends_threads copy_speex (demo_audio true demo_threads no_tids) 0
    schedule3 0).
  - done.
  - by repeat constructor.
  - intros [|[|i]] Hi; [unfold chosen; simpl; lia..|]. simpl in Hi. lia.
Defined.

Lemma audio_run_accounts_witness : ∃ a : @audio (list Z),
  threads a = [In_start] ∧ Forall can_close (threads a) ∧ total stream_of (threads a) ≤ streams a ∧
  total file_of (threads a) ≤ files a ∧ tids_ok (length (threads a)) (s_tids a).
Proof.
  eexists. split; [|apply (audio_run_accounts copy_speex);
    apply (audio_step copy_speex (Call_start 0) no_audio); [apply audio_begin|done|reflexivity]]. done.
Defined.

Lemma record_request_lost_witness :
  let a := demo_audio true [Exited; Clearing] no_tids in ∃ a1 a2,
  perform_all copy_speex [Call_record (lit "/data/record.wav" ++ [0]) (Some 2) 30 0; Turn 1 no_env] a = Ok (tt, a1) ∧
  caller a1 = Returned 0 ∧ s_audio_running a1 = false ∧ Forall (λ t, t = Exited) (threads a1) ∧
  perform_all copy_speex [Turn 1 no_env; Call_record (lit "/data/record.wav" ++ [0]) (Some 2) 30 0] a = Ok (tt, a2) ∧
  caller a2 = Returned 0 ∧ s_audio_running a2 = true ∧ threads a2 = threads a1 ++ [Record_start].
Proof.
  intros a. apply (record_request_lost copy_speex a 0 1 no_env _ (lit "/data/record.wav")).
  - done.
  - done.
  - done.
  - intros [|[|j]] t Hj Hne; [by injection Hj|done|done].
  - by vm_compute.
  - by vm_compute.
Defined.

Lemma stop_timeout_revives_witness :
  let a := demo_audio true [In_start] (Tids (Some 0%nat) None None None) in ∃ a1 a2,
  perform_all copy_speex (Call_stop :: replicate 31 (Wake 0)) a = Ok (tt, a1) ∧
  caller a1 = Returned 0 ∧ threads a1 = threads a ∧ all_exited a1 = true ∧
  perform_all copy_speex (Call_stop :: replicate 31 (Wake 0) ++ [Call_start 0]) a = Ok (tt, a2) ∧
  s_audio_running a2 = true ∧ threads a2 = threads a ++ [In_start].
Proof. intros a. by apply (stop_timeout_revives copy_speex a 0). Defined.

(** A card whose driver takes and gives everything, with a capture of the
    same samples in each read, and a mixer that opens. *)
Definition sound_system (d : list Z) : wav_system :=
  WavSystem (PcmSystem true (λ _, 5) (λ n, Some (replicate (Z.to_nat n) 0)) true true true
    (λ _, PcmAnswer 0 0 demo_params d 0 PCM_STATE_RUNNING (0, 0) 0)) (λ _, 3) demo_mixer.

(** The card that a setup gives. *)
Definition card_of (r : res (option (usb_audio_pcm (list Z) * Z) * pcm_config)) : usb_audio_pcm (list Z) :=
  match r with Ok (Some (u, _), _) => u | _ => plain_usb end.
Lemma card_of_ok r : match r with Ok (Some _, _) => true | _ => false end = true → ∃ n k, r = Ok (Some (card_of r, n), k).
Proof. destruct r as [[[[u n]|] k]|]; [|done..]. by exists n, k. Qed.

(** The cards of a file with two channels and another rate than the card's,
    and of a recording. *)
Definition track_setup := usba_setup_track copy_speex (sound_system []) pcm_config_ua_out 44100 2.
Definition record_setup := usba_setup_record copy_speex (sound_system (replicate 1024 5)) pcm_config_ua_in.

Lemma demo_mixer_sane d : env_sane (sound_system d).
Proof. apply demo_card_sane. Qed.
Lemma track_closes u n k : track_setup = Ok (Some (u, n), k) → closable u.
Proof. unfold track_setup. apply setup_track_closable, demo_mixer_sane. Qed.
Lemma track_closable : closable (card_of track_setup).
Proof.
  destruct (card_of_ok track_setup) as (n & k & E); [by vm_compute|]. exact (track_closes _ n k E).
Qed.
Lemma record_closes u n k : record_setup = Ok (Some (u, n), k) → closable u.
Proof. unfold record_setup. apply setup_record_closable, demo_mixer_sane. Qed.
Lemma record_closable : closable (card_of record_setup).
Proof.
  destruct (card_of_ok record_setup) as (n & k & E); [by vm_compute|]. exact (record_closes _ n k E).
Qed.

(** Both convert: the file has another rate, the recording another number of
    channels too. *)
Example demo_cards_convert :
  need_resample (card_of track_setup) = true ∧ need_resample (card_of record_setup) = true ∧
  source_channels (card_of record_setup) = 1 ∧ target_channels (card_of record_setup) = 2.
Proof. split_and!; vm_compute; reflexivity. Qed.

Definition demo_file : list Z := [1; 2; 3; 4; 5; 6; 7; 8; 9; 10; 11; 12].

Lemma file_to_usba_plays_witness :
  let a := demo_audio true [] no_tids in ∃ pieces rest' u' buffer',
  demo_file = concat pieces ++ rest' ∧ writes copy_speex 8 (card_of track_setup) pieces u' ∧
  (∀ envs, length envs = length pieces →
    run_thread copy_speex envs (Play_loop (card_of track_setup) no_buffer 8 demo_file) a =
      Ok (Play_loop u' buffer' 8 rest', a)) ∧
  let write := usb_audio_write copy_speex (next_array 8 rest' buffer') (len (next_piece 8 rest')) u' in
  ((rest' = [] ∨ rest' ≠ [] ∧ ∃ r u'', write = Ok (r, u'') ∧ r < 0) ∧
     ∀ env1 env2 env3, run_thread copy_speex [env1; env2; env3] (Play_loop u' buffer' 8 rest') a =
       Ok (Exited, played_out 1 a)) ∨
  (rest' ≠ [] ∧ ∃ e, write = Err e ∧
     ∀ env, run_thread copy_speex [env] (Play_loop u' buffer' 8 rest') a = Err e).
Proof.
  intros a. apply (file_to_usba_plays copy_speex 8 ltac:(unfold MAX_BUF_SIZE; lia) a (card_of track_setup) no_buffer demo_file 1).
  - done.
  - done.
  - exact track_closable.
  - by vm_compute.
Defined.

(** What one run of the thread with this card gives the driver. *)
Definition played (t : @thread (list Z)) : list Z := match t with Play_loop u _ _ _ => bytes_written u | _ => [] end.
Example demo_file_played :
  let a := demo_audio true [] no_tids in
  match run_thread copy_speex [no_env; no_env] (Play_loop (card_of track_setup) no_buffer 8 demo_file) a with
  | Ok (t, _) => played t
  | Err _ => []
  end = demo_file ∧
  match run_thread copy_speex (replicate 5 no_env) (Play_loop (card_of track_setup) no_buffer 8 demo_file) a with
  | Ok (Exited, a') => Some (audio_log a', s_audio_running a')
  | _ => None
  end = Some ([Endfunc 1], false).
Proof. split; vm_compute; reflexivity. Qed.

(** A turn [s] seconds after the start, with room in the file. *)
Definition env_at (s room : Z) : turn_env := TurnEnv (sound_system []) slow_track 1 (λ _, None) true room (Timeval (100 + s) 0).

(** The results of a read. *)
Definition read_card env (u : usb_audio_pcm (list Z)) buffer : usb_audio_pcm (list Z) :=
  match usb_audio_read copy_speex (env_fuel env) buffer MAX_BUF_SIZE 1024 u with Ok (_, u') => u' | Err _ => u end.
Definition read_array env (u : usb_audio_pcm (list Z)) buffer : list Z :=
  match usb_audio_read copy_speex (env_fuel env) buffer MAX_BUF_SIZE 1024 u with Ok ((_, b), _) => b | Err _ => buffer end.
Definition read_piece env (u : usb_audio_pcm (list Z)) buffer : list Z :=
  match usb_audio_read copy_speex (env_fuel env) buffer MAX_BUF_SIZE 1024 u with
  | Ok ((n, b), _) => take (Z.to_nat n) b
  | Err _ => []
  end.
Lemma gets_read env u buffer :
  match usb_audio_read copy_speex (env_fuel env) buffer MAX_BUF_SIZE 1024 u with
  | Ok ((n, b), _) => (0 <=? n) && (n <=? len b)
  | Err _ => false
  end = true → gets_piece copy_speex env u buffer (read_piece env u buffer) (read_card env u buffer) (read_array env u buffer).
Proof.
  unfold gets_piece, read_piece, read_card, read_array.
  destruct (usb_audio_read _ _ _ _ _ _) as [[[n b] u']|]; [|done]. intros [Hn Hb]%andb_true_iff.
  apply Z.leb_le in Hn, Hb. exists n. split; [done|]. split; [done|]. by rewrite slice_ok by lia.
Qed.

Definition demo_record := card_of record_setup.
Definition record1 := read_card (env_at 0 4096) demo_record no_buffer.
Definition array1 := read_array (env_at 0 4096) demo_record no_buffer.
Definition record2 := read_card (env_at 29 4096) record1 array1.
Definition array2 := read_array (env_at 29 4096) record1 array1.
Definition piece1 := read_piece (env_at 0 4096) demo_record no_buffer.
Definition piece2 := read_piece (env_at 29 4096) record1 array1.
Definition piece3 := read_piece (env_at 30 4096) record2 array2.

Definition record3 := read_card (env_at 30 4096) record2 array2.
Definition array3 := read_array (env_at 30 4096) record2 array2.

Lemma gets_piece1 : gets_piece copy_speex (env_at 0 4096) demo_record no_buffer piece1 record1 array1.
Proof. apply gets_read. by vm_compute. Qed.
Lemma gets_piece2 : gets_piece copy_speex (env_at 29 4096) record1 array1 piece2 record2 array2.
Proof. apply gets_read. by vm_compute. Qed.
Lemma gets_piece3 : gets_piece copy_speex (env_at 30 4096) record2 array2 piece3 record3 array3.
Proof. apply gets_read. by vm_compute. Qed.
Lemma pieces_fit : (len piece1 <=? 4096) && (len piece2 <=? 4096) && (len piece3 <=? 4096) &&
  (len ((piece1 ++ piece2 ++ []) ++ piece3) <? 4294967296) = true.
Proof. by vm_compute. Qed.

Lemma demo_captures : captures copy_speex [env_at 0 4096; env_at 29 4096] demo_record no_buffer (piece1 ++ piece2 ++ []) record2 array2.
Proof.
  destruct (andb_prop _ _ pieces_fit) as [[[H1 H2]%andb_prop _]%andb_prop _]. apply Z.leb_le in H1, H2.
  exact (captures_cons _ _ _ _ _ _ _ _ _ _ _ gets_piece1 H1
    (captures_cons _ _ _ _ _ _ _ _ _ _ _ gets_piece2 H2 (captures_nil _ _ _))).
Qed.

Lemma demo_last : last_turn copy_speex 30 (Timeval 100 0) (env_at 30 4096) record2 array2 piece3 piece3 true.
Proof.
  destruct (andb_prop _ _ pieces_fit) as [[_ H3]%andb_prop _]. apply Z.leb_le in H3.
  apply (time_is_up _ _ _ _ _ _ _ _ _ gets_piece3 H3). exists (Timeval 30 0). done.
Qed.

Lemma usba_to_file_records_witness :
  let a := demo_audio true [] no_tids in ∃ file h a',
  run_thread copy_speex ([env_at 0 4096; env_at 29 4096] ++ [env_at 30 4096; env_at 31 0; env_at 31 0])
    (Record_loop demo_record no_buffer [] 0 (Timeval 100 0) None) a = Ok (Exited, a') ∧
  audio_log a' = [] ++ [Saved (lit "/data/record.wav") file; Endfunc 2] ∧
  s_audio_running a' = false ∧ streams a' = 1 - 1 ∧ files a' = 1 - 1 ∧
  read_header file = Some (h, (piece1 ++ piece2 ++ []) ++ piece3) ∧ playable h = true ∧
  data_sz h = len ((piece1 ++ piece2 ++ []) ++ piece3) / 4 * 4.
Proof.
  intros a.
  apply (usba_to_file_records copy_speex a demo_record no_buffer (Timeval 100 0) 2 [env_at 0 4096; env_at 29 4096]
    (env_at 30 4096) (env_at 31 0) (env_at 31 0) (piece1 ++ piece2 ++ []) record2 array2 piece3 piece3 true).
  - done.
  - done.
  - done.
  - exact record_closable.
  - exact demo_captures.
  - repeat (constructor; [eexists; split; [reflexivity|done]|]). constructor.
  - exact demo_last.
  - by left.
  - apply Z.ltb_lt. exact (proj2 (andb_prop _ _ pieces_fit)).
Defined.

(** The sound of the recording: the samples of the card, twice. *)
Example demo_recorded : len piece1 = 2048 ∧ take 8 piece1 = [5; 5; 5; 5; 5; 5; 5; 5].
Proof. split; vm_compute; reflexivity. Qed.

(** In the code the two streams of a call convert in the same arrays. *)
Definition with_arrays (from to : usb_audio_pcm (list Z)) : usb_audio_pcm (list Z) :=
  set_buffers (buffer_resample from) (buffer_channels from) (buffer_read from) to.

(** What is captured replaces what is about to be played, when the thread that
    captures converts between the conversion of the other and its write. *)
Example streams_share_arrays :
  match convert_rate copy_speex [1; 2; 3; 4] 4 (card_of track_setup) with
  | Ok ((converted, n), track) =>
      match convert_rate copy_speex [9; 9] 2 (with_arrays track (card_of record_setup)) with
      | Ok (_, record) =>
          Some (take (Z.to_nat n) converted, take (Z.to_nat n) (buffer_resample (with_arrays record track)))
      | Err _ => None
      end
  | Err _ => None
  end = Some ([1; 2; 3; 4], [9; 9; 3; 4]).
Proof. vm_compute. reflexivity. Qed.
