(* ===== verification/HostPrograms.v ===== *)
(** * Playing and recording from the command line: src/upil_audio/aplay.cpp, acap.cpp

    The two test programs of the classes of Android: aplay copies from the
    telephone to the host, acap from the host to the telephone.  A turn of
    their loop has an answer of the host; at the end of the list [capturing]
    was cleared by a signal. *)

From stdpp Require Import strings.
From S2P Require Import Prelude CString Pcm PcmIo Mixer Resampler UsbAudio Wav HostAudio HostAudioProofs.

Section programs.
Context {Sp : Type} (sx : speex Sp).
Abbreviation U := (usb_audio_pcm Sp).

(** ** aplay *)

Fixpoint sound_in_loop (envs : list (nat * host_env)) (u : U) (buffer : list Z) (size : Z) : M host U :=
  match envs with
  | [] => mret u
  | (fuel, env) :: envs =>
      r ← lift (usb_audio_read sx fuel buffer MAX_BUF_SIZE size u);
      let '((r_bytes, buffer), u) := r in
      if r_bytes <? 0 then mret u else
      w ← send_track_data env buffer r_bytes;
      if w <? 0 then mret u else sound_in_loop envs u buffer size
  end.

(** The track is a new one; it is stopped even when it was not started. *)
Definition sound_in (sys : wav_system) (env : host_env) (envs : list (nat * host_env)) : M host Z :=
  let start_err (u : option U) : M host Z :=
    match u with Some u => lift (usb_audio_close u);; skip | None => skip end;;
    host_call_add Track_stop;; mret 0 in
  o ← lift (open_usb sys PCM_IN pcm_config_ua_in);
  match o.1 with
  | None => start_err None
  | Some u =>
      r ← lift (usb_audio_set_resample sx 44100 2 5 u);
      let '(ret, u) := r in
      if negb (ret =? 0) then start_err (Some u) else
      match min_frames env with
      | None => start_err (Some u)
      | Some size_out =>
          if negb (bool_decide (set_status env = NO_ERROR)) then start_err (Some u) else
          let size_in := usb_audio_get_buffer_size u in
          let size := if size_out <? size_in then size_out else size_in in
          host_call_add Track_start;;
          u ← sound_in_loop envs u (replicate (Z.to_nat MAX_BUF_SIZE) 0) size;
          start_err (Some u)
      end
  end.

(** ** acap *)

(** [n] times a buffer of zeros; the result of the loop is not looked at. *)
Fixpoint play_silence (n : nat) (envs : nat → host_env) (frame_size : Z) (buffer : list Z) : M host unit :=
  match n with
  | O => skip
  | S k =>
      frames ← lift (divide (len buffer) frame_size);
      write_chances (envs k) 99 0 buffer (s32 frames) (s32 frames);;
      play_silence k envs frame_size buffer
  end.

(** A track of its own is played for a moment; [envs] answers in its five
    turns. *)
Definition prepare_record (env : host_env) (envs : nat → host_env) (allocated : bool) : M host Z :=
  match min_frames env with
  | None => mret 0
  | Some frame_count =>
      if negb (bool_decide (set_status env = NO_ERROR)) then mret 0 else
      let size := u32 (frame_count * frameSize env) in
      if negb allocated then fail NullDeref else
      host_call_add Track_start;;
      play_silence 5 envs (frameSize env) (replicate (Z.to_nat size) 0);;
      host_call_add Track_stop;;
      mret 0
  end.

Fixpoint sound_out_loop (envs : list host_env) (u : U) (buffer : list Z) (size : Z) : M host U :=
  match envs with
  | [] => mret u
  | env :: envs =>
      r ← lift (recv_record_data env buffer size);
      let '(r, buffer) := r in
      if r <? 0 then mret u else
      w ← lift (usb_audio_write sx buffer size u);
      let '(w, u) := w in
      if w <? 0 then mret u else sound_out_loop envs u buffer size
  end.

Definition sound_out (sys : wav_system) (env track_env : host_env) (track_envs : nat → host_env)
    (allocated : bool) (envs : list host_env) : M host Z :=
  match hosta_setup_record env with
  | None => mret 0
  | Some size_in =>
      let start_err (u : option U) : M host Z :=
        match u with Some u => lift (usb_audio_close u);; skip | None => skip end;;
        host_call_add Record_stop;; mret 0 in
      o ← lift (open_usb sys PCM_OUT pcm_config_ua_out);
      match o.1 with
      | None => start_err None
      | Some u =>
          r ← lift (usb_audio_set_resample sx 44100 2 5 u);
          let '(ret, u) := r in
          if negb (ret =? 0) then start_err (Some u) else
          r ← lift (usb_audio_set_volume 12 u);
          let u := r.2 in
          let size_out := usb_audio_get_buffer_size u in
          let size := if size_out <? size_in then size_out else size_in in
          prepare_record track_env track_envs allocated;;
          host_call_add Record_start;;
          u ← sound_out_loop envs u (replicate (Z.to_nat MAX_BUF_SIZE) 0) size;
          start_err (Some u)
      end
  end.
End programs.

(** ** Properties *)

Lemma frames_zero env n a b : ∀ x, x ∈ frames_of env (replicate n 0) a b → x = 0.
Proof.
  intros x Hx. unfold frames_of in Hx. apply elem_of_take in Hx as (i & Hx & _).
  rewrite lookup_drop in Hx. by apply lookup_replicate in Hx as [-> _].
Qed.

Definition silent (k : host_call) : Prop := ∃ bytes, k = Track_data bytes ∧ Forall (λ x, x = 0) bytes.

Lemma play_silence_ok n envs F m h :
  0 < F → (∀ k, host_grants (envs k) ∧ frameSize (envs k) = F) → Z.of_nat m ≤ INT_MAX → ∃ h' calls,
  play_silence n envs F (replicate m 0) h = Ok (tt, h') ∧
  host_calls h' = host_calls h ++ calls ∧ Forall silent calls.
Proof.
  intros HF He Hm. unfold INT_MAX in Hm. revert h. induction n as [|n IH]; intros h.
  { exists h, []. by rewrite app_nil_r. }
  cbn [play_silence]. destruct (He n) as [Hg Hs]. unfold divide. destruct (Z.eqb_spec F 0); [lia|].
  rewrite bind_lift with (a := Z.of_nat m / F) by (by rewrite len_replicate).
  pose proof (Z.mul_div_le (Z.of_nat m) F HF). pose proof (Z.div_pos (Z.of_nat m) F ltac:(lia) HF).
  rewrite s32_small by (unfold INT_MIN, INT_MAX; nia). set (q := Z.of_nat m / F) in *.
  destruct (write_chances_ok (envs n) Hg 99 0 (replicate m 0) q 0 h) as (r & h1 & b & E & Hb & [_ (chunks & Hc & Hcat)] & _).
  { lia. } { rewrite Hs, len_replicate. lia. } { rewrite len_replicate. unfold INT_MAX. lia. }
  rewrite Z.sub_0_r in E. rewrite (bind_ok _ _ _ _ _ E).
  destruct (IH h1) as (h' & calls & E2 & Hc2 & Hall). exists h', ((Track_data <$> chunks) ++ calls).
  split; [exact E2|]. split; [by rewrite Hc2, Hc, <-app_assoc|]. apply Forall_app. split; [|done].
  apply Forall_fmap, Forall_forall. intros l Hl. exists l. split; [done|]. apply Forall_forall. intros x Hx.
  apply (frames_zero (envs n) m 0 b). rewrite <-Hcat. apply list_elem_of_In, in_concat. exists l. by rewrite <-!list_elem_of_In.
Qed.

(** Before it records, acap starts a track, plays nothing but zeros on it and
    stops it. *)
Theorem prepare_record_silence env envs frames h :
  min_frames env = Some frames → set_status env = NO_ERROR → 0 < frameSize env →
  frames * frameSize env ≤ INT_MAX →
  (∀ k, host_grants (envs k) ∧ frameSize (envs k) = frameSize env) → ∃ h' calls,
  prepare_record env envs true h = Ok (0, h') ∧
  host_calls h' = host_calls h ++ [Track_start] ++ calls ++ [Track_stop] ∧ Forall silent calls.
Proof.
  intros Hf Hs HF Hm He. unfold prepare_record. rewrite Hf, Hs. cbn [negb bool_decide].
  rewrite bool_decide_eq_true_2 by done. cbn [negb].
  assert (0 < frames) as Hpos.
  { unfold min_frames in Hf. destruct (getMinFrameCount env) as [s n].
    destruct (Z.leb_spec n 0); [by rewrite orb_true_r in Hf|]. destruct (negb _); simplify_eq/=. lia. }
  unfold host_call_add. rewrite bind_modify. unfold INT_MAX in *.
  edestruct (play_silence_ok 5 envs (frameSize env) (Z.to_nat (u32 (frames * frameSize env)))) as (h' & calls & E & Hc & Hall);
    [done|done|rewrite u32_small by nia; unfold INT_MAX; lia|].
  rewrite (bind_ok _ _ _ _ _ E), bind_modify. eexists _, calls. split; [reflexivity|]. split; [|done].
  simpl. rewrite Hc. simpl. by rewrite <-!app_assoc.
Qed.

Lemma prepare_record_silence_witness : ∃ h' calls,
  prepare_record slow_track (λ _, slow_track) true no_host = Ok (0, h') ∧
  host_calls h' = [] ++ [Track_start] ++ calls ++ [Track_stop] ∧ Forall silent calls.
Proof.
  apply (prepare_record_silence slow_track (λ _, slow_track) 99 no_host); try done.
  intros _. split; [apply slow_track_grants|done].
Defined.
