(* ===== verification/HostTools.v ===== *)
(** * Tools for the sound of the host: src/upil_tools/host_audio/hplay.cpp, hcap.cpp

    hplay plays a wav file by the class AudioTrack of Android, hcap records
    one by AudioRecord, with the arguments and the header of Wav and the loops
    over [obtainBuffer] of HostAudio.  A turn of the loop has the answers of
    the host; the recording ends with them, when a signal clears [capturing]. *)

From stdpp Require Import strings.
From S2P Require Import Prelude CString Pcm PcmIo Mixer Resampler UsbAudio Wav HostAudio HostAudioProofs.

(** ** hplay *)

(** The file in pieces of [size] bytes; a piece is given to the track as far
    as it takes it, and the result of that is not looked at.  Every piece
    takes a byte at least, so that one turn more than the file has bytes is
    enough. *)
Fixpoint hplay_loop (fuel : nat) (envs : nat → host_env) (i : nat) (frame_size size : Z) (file : list Z)
    : MHost unit :=
  match fuel with
  | O => fail OutOfFuel
  | S f =>
      let piece := take (Z.to_nat size) file in
      n ← lift (divide (len piece) frame_size);
      let frame_count := s32 n in
      if frame_count <=? 0 then skip else
      write_chances (envs i) 99 0 piece frame_count frame_count;;
      if 0 <? len piece then hplay_loop f envs (S i) frame_size size (drop (Z.to_nat size) file) else skip
  end.

Definition hplay_sample (env : host_env) (envs : nat → host_env) (file : list Z) : MHost unit :=
  match min_frames env with
  | None => skip
  | Some frame_count =>
      if negb (bool_decide (set_status env = NO_ERROR)) then skip else
      let size := s32 (u32 (frame_count * frameSize env)) in
      host_call_add Track_start;;
      hplay_loop (S (length file)) envs 0 (frameSize env) size file;;
      host_call_add Track_stop
  end.

(** The exit status. *)
Definition hplay_main (env : host_env) (envs : nat → host_env) (file : option (list Z)) (argv : list (list Z))
    : MHost Z :=
  match argv, file with
  | [], _ | [_], _ | _, None => mret 1
  | _ :: _ :: argv, Some file =>
      lift (play_args argv 0);;
      match read_header file with
      | None => fail Uninit
      | Some (h, data) =>
          if negb (playable h) then mret 1 else hplay_sample env envs data;; mret 0
      end
  end.

(** ** hcap *)

Definition T_BUFFER_SIZE : Z := 16384.

(** Five times [t_buffer], which the program never sets, to a muted track. *)
Fixpoint muted_track (n : nat) (envs : nat → host_env) (frame_size : Z) (t_buffer : list Z) : MHost unit :=
  match n with
  | O => skip
  | S k =>
      frames ← lift (divide T_BUFFER_SIZE frame_size);
      write_chances (envs k) 99 0 t_buffer (s32 frames) (s32 frames);;
      muted_track k envs frame_size t_buffer
  end.

Definition open_muted (env : host_env) (envs : nat → host_env) (t_buffer : list Z) : MHost bool :=
  match min_frames env with
  | None => mret false
  | Some _ =>
      if negb (bool_decide (set_status env = NO_ERROR)) then mret false else
      host_call_add Track_start;;
      muted_track 5 envs (frameSize env) t_buffer;;
      mret true
  end.

(** The whole buffer goes to the file after each turn, whatever the record
    has given.  [room]: how many bytes still fit; the results are the bytes
    that were counted and the file. *)
Fixpoint hcap_loop (envs : list host_env) (frame_count : Z) (buffer : list Z) (room bytes : Z) (file : list Z)
    : res (Z * list Z) :=
  match envs with
  | [] => Ok (bytes, file)
  | env :: envs =>
      '(_, buffer) ← read_chances env 99 0 buffer frame_count frame_count;
      let stored := take (Z.to_nat room) buffer in
      if negb (len stored =? len buffer) then Ok (bytes, file ++ stored) else
      hcap_loop envs frame_count buffer (room - len buffer) (u32 (bytes + len buffer)) (file ++ stored)
  end.

(** [buffer]: what malloc gives. *)
Definition hcap_sample (track_env env : host_env) (track_envs : nat → host_env) (t_buffer : list Z)
    (malloc : Z → list Z) (envs : list host_env) (room channels bits : Z) : MHost (Z * list Z) :=
  muted ← open_muted track_env track_envs t_buffer;
  if negb (muted : bool) then mret (0, []) else
  match min_frames env with
  | None => mret (0, [])
  | Some frame_count =>
      if negb (bool_decide (set_status env = NO_ERROR)) then mret (0, []) else
      let size := frame_count * frameSize env in
      host_call_add Record_start;;
      '(bytes, file) ← lift (hcap_loop envs frame_count (malloc size) room 0 []);
      host_call_add Record_stop;;
      frames ← lift (divide bytes (u32 (bits / 8 * channels)));
      mret (frames, file)
  end.

Definition hcap_main (track_env env : host_env) (track_envs : nat → host_env) (t_buffer : list Z)
    (malloc : Z → list Z) (envs : list host_env) (created : bool) (room : Z) (argv : list (list Z))
    : MHost (Z * option (list Z)) :=
  match argv with
  | [] | [_] => mret (1, None)
  | _ :: _ :: argv =>
      if negb created then mret (1, None) else
      a ← lift (cap_args argv (WavArgs 0 2 44100 16));
      let h := cap_header a 0 in
      '(frames, data) ← hcap_sample track_env env track_envs t_buffer malloc envs room
                          (num_channels h) (bits_per_sample h);
      mret (0, Some (header_bytes (cap_header a frames) ++ data))
  end.

(** ** What is played *)

(** A track that is ready in every call, and gives [g] frames at least, or all
    that are left. *)
Record track_ready (env : host_env) (F g : Z) : Prop := {
  tr_grants : host_grants env;
  tr_size : frameSize env = F;
  tr_ok : ∀ j m, 0 < m → ob_status (obtain env j m) = NO_ERROR;
  tr_least : ∀ j m, 0 < m → g ≤ ob_frames (obtain env j m) ∨ ob_frames (obtain env j m) = m;
}.

(** Such a track takes 98 times [g] frames in the 99 calls. *)
Lemma write_chances_all env F g c : track_ready env F g → ∀ i data n a h,
  0 ≤ a ≤ n → n * F ≤ len data → len data ≤ INT_MAX → n - a ≤ Z.of_nat c * g → ∃ h',
  write_chances env (S c) i data n (n - a) h = Ok (0, h') ∧ written env h h' data a n.
Proof.
  intros [Hg HF Hok Hleast]. subst F. pose proof (grants_size _ Hg) as HF. unfold INT_MAX.
  induction c as [|c IH]; intros i data n a h Ha Hn Hd Hc; cbn [write_chances].
  { rewrite (proj2 (Z.leb_le _ _)) by lia. exists h. split; [done|]. replace a with n by lia. apply written_nil. }
  destruct (Z.leb_spec (n - a) 0) as [|Hr].
  { exists h. split; [done|]. replace a with n by lia. apply written_nil. }
  pose proof (Hok i (n - a) Hr) as Es. destruct (grants_some _ Hg i (n - a) Hr Es) as [Hb Hl].
  pose proof (Hleast i (n - a) Hr) as Hlb. set (b := obtain env i (n - a)) in *. rewrite Es.
  rewrite (s32_small ((n - (n - a)) * frameSize env)) by (unfold INT_MIN, INT_MAX; nia).
  rewrite bind_lift with (a := frames_of env data a (a + ob_frames b)).
  2:{ rewrite Hl. replace (n - (n - a)) with a by lia.
      replace (ob_frames b * frameSize env) with ((a + ob_frames b - a) * frameSize env) by lia.
      apply slice_frames; [done|lia|nia]. }
  unfold host_call_add. rewrite bind_modify, s32_small by (unfold INT_MIN, INT_MAX; nia).
  replace (n - a - ob_frames b) with (n - (a + ob_frames b)) by lia.
  edestruct (IH (S i) data n (a + ob_frames b)) as (h' & E & Hw); [lia|lia|lia|nia|].
  exists h'. split; [exact E|]. eapply written_cons, Hw; [done|lia|lia].
Qed.

(** The bytes that a track was given. *)
Definition tracked (calls : list host_call) : list Z :=
  concat (omap (λ k, match k with Track_data b => Some b | _ => None end) calls).

Lemma tracked_data (chunks : list (list Z)) : tracked (Track_data <$> chunks) = concat chunks.
Proof. unfold tracked. f_equal. induction chunks as [|c l IH]; [done|]. simpl. f_equal. exact IH. Qed.
Lemma tracked_app a b : tracked (a ++ b) = tracked a ++ tracked b.
Proof. unfold tracked. by rewrite omap_app, concat_app. Qed.

Section plays.
Context (envs : nat → host_env) (F g : Z) (HF : 0 < F) (Hg : 0 ≤ g) (He : ∀ i, track_ready (envs i) F g).

(** A piece of whole frames is delivered whole. *)
Lemma piece_plays i piece h :
  len piece / F ≤ 98 * g → len piece ≤ INT_MAX → len piece mod F = 0 → ∃ h' calls,
  write_chances (envs i) 99 0 piece (len piece / F) (len piece / F) h = Ok (0, h') ∧
  host_calls h' = host_calls h ++ calls ∧ tracked calls = piece.
Proof using He HF.
  intros Hn Hl Hm. pose proof (len_nonneg piece). pose proof (Z.div_mod (len piece) F ltac:(lia)) as Hdm.
  pose proof (Z.div_pos (len piece) F ltac:(lia) HF).
  destruct (write_chances_all (envs i) F g 98 (He i) 0 piece (len piece / F) 0 h) as (h' & E & [_ (chunks & Hc & Hcat)]);
    [lia|lia|done|lia|].
  rewrite Z.sub_0_r in E. exists h', (Track_data <$> chunks). split; [exact E|]. split; [done|].
  rewrite tracked_data, Hcat. unfold frames_of. rewrite (tr_size _ _ _ (He i)), Z.mul_0_l, Z.sub_0_r, drop_0.
  apply take_ge. unfold len in *. lia.
Qed.

Lemma piece_len k (file : list Z) :
  0 < k → len file mod F = 0 → let piece := take (Z.to_nat (k * F)) file in
  len piece = Z.min (k * F) (len file) ∧ len piece mod F = 0 ∧ 0 ≤ len piece / F ≤ k.
Proof using HF.
  intros Hk Hm piece. pose proof (len_nonneg file).
  assert (len piece = Z.min (k * F) (len file)) as Hl by (unfold piece, len in *; rewrite length_take; lia).
  split; [done|]. rewrite Hl. split.
  - destruct (Z.min_spec (k * F) (len file)) as [[_ ->]|[_ ->]]; [by rewrite Z_mod_mult|done].
  - split; [apply Z.div_pos; nia|]. apply Z.div_le_upper_bound; nia.
Qed.

(** A file of whole frames is played from its beginning to its end. *)
Lemma hplay_loop_ok k fuel : ∀ file i h,
  0 < k ≤ 98 * g → k * F ≤ INT_MAX → (length file < fuel)%nat → len file mod F = 0 → ∃ h' calls,
  hplay_loop fuel envs i F (k * F) file h = Ok (tt, h') ∧ host_calls h' = host_calls h ++ calls ∧ tracked calls = file.
Proof using He HF.
  induction fuel as [|fuel IH]; intros file i h Hk Hmax Hf Hm; [lia|]. cbn [hplay_loop].
  destruct (piece_len k file ltac:(lia) Hm) as (Hlen & Hpm & Hn). set (piece := take (Z.to_nat (k * F)) file) in *.
  pose proof (len_nonneg file). pose proof (Z.div_mod (len piece) F ltac:(lia)) as Hdm.
  unfold divide. destruct (Z.eqb_spec F 0); [lia|]. rewrite bind_lift with (a := len piece / F) by done.
  unfold INT_MAX in *. rewrite s32_small by (unfold INT_MIN, INT_MAX; nia).
  destruct (Z.leb_spec (len piece / F) 0) as [Hz|Hz].
  { exists h, []. rewrite app_nil_r. split; [done|]. split; [done|].
    assert (len file = 0) as Hfz by nia. destruct file; [done|]. rewrite len_cons in Hfz. pose proof (len_nonneg file). lia. }
  destruct (piece_plays i piece h) as (h1 & calls1 & E & Hc & Ht); [lia|unfold INT_MAX; lia|done|].
  rewrite (bind_ok _ _ _ _ _ E). rewrite (proj2 (Z.ltb_lt 0 (len piece))) by nia.
  assert (len (drop (Z.to_nat (k * F)) file) = len file - len piece) as Hrest by (unfold len in *; rewrite length_drop; lia).
  destruct (IH (drop (Z.to_nat (k * F)) file) (S i) h1) as (h2 & calls & E2 & Hc2 & Ht2); [done|done| | |].
  { unfold len in *. nia. }
  { rewrite Hrest, Zminus_mod, Hm, Hpm. done. }
  exists h2, (calls1 ++ calls). split; [done|]. split; [by rewrite Hc2, Hc, app_assoc|].
  rewrite tracked_app, Ht, Ht2. apply take_drop.
Qed.
End plays.

(** hplay plays the whole file: on a track that keeps taking a 98th of its
    buffer the track is started, gets the bytes of the file in their order,
    and is stopped. *)
Theorem hplay_plays env envs g k file h :
  min_frames env = Some k → set_status env = NO_ERROR → (∀ i, track_ready (envs i) (frameSize env) g) →
  k ≤ 98 * g → k * frameSize env ≤ INT_MAX → len file mod frameSize env = 0 → ∃ h' calls,
  hplay_sample env envs file h = Ok (tt, h') ∧
  host_calls h' = host_calls h ++ [Track_start] ++ calls ++ [Track_stop] ∧ tracked calls = file.
Proof.
  intros Hk Hs He Hkg Hmax Hm. unfold hplay_sample. rewrite Hk, Hs. rewrite bool_decide_eq_true_2 by done. cbn [negb].
  assert (0 < k) as Hpos.
  { unfold min_frames in Hk. destruct (getMinFrameCount env) as [st n].
    destruct (Z.leb_spec n 0); [by rewrite orb_true_r in Hk|]. destruct (negb _); simplify_eq/=. lia. }
  assert (0 < frameSize env) as HF by (rewrite <-(tr_size _ _ _ (He 0%nat)); apply (grants_size _ (tr_grants _ _ _ (He 0%nat)))).
  unfold INT_MAX in Hmax. rewrite (u32_small (k * frameSize env)) by nia.
  rewrite s32_small by (unfold INT_MIN, INT_MAX; nia).
  unfold host_call_add. rewrite bind_modify.
  edestruct (hplay_loop_ok envs (frameSize env) g HF He k (S (length file)) file 0) as (h1 & calls & E & Hc & Ht);
    [lia|unfold INT_MAX; lia|lia|done|].
  rewrite (bind_ok _ _ _ _ _ E). eexists _, calls. split; [reflexivity|]. split; [|done].
  simpl. rewrite Hc. simpl. by rewrite <-!app_assoc.
Qed.

(** ** Examples *)

(** A track of two bytes a frame that takes what it is given. *)
Definition quick_track : host_env :=
  HostEnv (NO_ERROR, 8) NO_ERROR 2 (λ _ n, Obtained NO_ERROR n (replicate (Z.to_nat (n * 2)) 0)).

Lemma quick_track_ready g : track_ready quick_track 2 g.
Proof.
  split; [|done|done|by right]. split; [done|]. intros i n Hn _. cbn [quick_track obtain ob_frames ob_i8 frameSize].
  rewrite len_replicate. lia.
Qed.

Lemma hplay_plays_witness : ∃ h' calls,
  hplay_sample quick_track (λ _, quick_track) (replicate 40 7) no_host = Ok (tt, h') ∧
  host_calls h' = [] ++ [Track_start] ++ calls ++ [Track_stop] ∧ tracked calls = replicate 40 7.
Proof.
  apply (hplay_plays quick_track (λ _, quick_track) 1 8 (replicate 40 7) no_host);
    [done|done|intros _; apply quick_track_ready|lia|done|done].
Defined.
