(* ===== verification/TinyTools.v ===== *)
(** * Programs for tinyalsa: src/upil_tools/host_audio/tinycap.c, tinyplay.c, mycap.c, myplay.c

    Four programs that record and play a wav file on the streams of
    libtinyalsa, which is not in the repository: its functions are the
    argument [tinyalsa], on streams of a type [T].  mycap and myplay use the
    resampler of Resampler.  An interrupt is the end of the [turns] of a
    recording.  Arrays on the stack and memory from malloc are cells. *)

From stdpp Require Import strings.
From S2P Require Import Prelude CString Pcm PcmIo Mixer Resampler UsbAudio Wav.

(** The functions of <tinyalsa/asoundlib.h>: [ta_read] gives the result, the
    bytes it stored, and the stream. *)
Record tinyalsa (T : Type) := Tinyalsa {
  ta_open : Z → Z → Z → pcm_config → option T;
  ta_is_ready : T → bool;
  ta_get_buffer_size : T → Z;
  ta_read : T → Z → Z * list Z * T;
  ta_write : T → list Z → Z * T;
}.
Arguments ta_open {T}.
Arguments ta_is_ready {T}.
Arguments ta_get_buffer_size {T}.
Arguments ta_read {T}.
Arguments ta_write {T}.

Definition fresh_bytes (n : Z) : cells := replicate (Z.to_nat n) None.
Definition stack_bytes : Z := 131072.

Section programs.
Context {T : Type} (ta : tinyalsa T).

(** A stream that is open and ready. *)
Definition open_stream (card device flags : Z) (c : pcm_config) : option T :=
  match ta_open ta card device flags c with
  | Some t => if ta_is_ready ta t then Some t else None
  | None => None
  end.

(** ** tinycap *)

(** The format is only set for these numbers of bits. *)
Definition tiny_format (bits : Z) : res Z :=
  if bits =? 32 then Ok PCM_FORMAT_S32_LE else if bits =? 16 then Ok PCM_FORMAT_S16_LE else Err Uninit.

(** The bytes that were counted, the file, and the stream.  [room]: how many
    bytes still fit. *)
Fixpoint tinycap_loop (turns : nat) (buffer : cells) (size room bytes : Z) (file : list Z) (t : T)
    : res (Z * list Z * T) :=
  match turns with
  | O => Ok (bytes, file, t)
  | S n =>
      let '(ret, stored, t) := ta_read ta t size in
      if negb (ret =? 0) then Ok (bytes, file, t) else
      buffer ← blit buffer 0 (Some <$> stored);
      data ← slice buffer 0 size;
      data ← defined data;
      let written := take (Z.to_nat room) data in
      if negb (len written =? size) then Ok (bytes, file ++ written, t) else
      tinycap_loop n buffer size (room - size) (u32 (bytes + size)) (file ++ written) t
  end.

Definition tinycap_sample (turns : nat) (allocated : bool) (room device chans rate bits : Z) : res (Z * list Z) :=
  f ← tiny_format bits;
  match open_stream 1 device PCM_IN (PcmConfig chans rate 1024 4 f 0 0 0 0) with
  | None => Ok (0, [])
  | Some t =>
      let size := ta_get_buffer_size ta t in
      if negb allocated then Ok (0, []) else
      '(bytes, file, _) ← tinycap_loop turns (fresh_bytes size) size room 0 [] t;
      frames ← divide bytes (u32 (bits / 8 * chans));
      Ok (frames, file)
  end.

(** The exit status and the file; [None] when it could not be created. *)
Definition tinycap_main (turns : nat) (allocated created : bool) (room : Z) (argv : list (list Z))
    : res (Z * option (list Z)) :=
  match argv with
  | [] | [_] => Ok (1, None)
  | _ :: _ :: argv =>
      if negb created then Ok (1, None) else
      a ← cap_args argv (WavArgs 0 1 8000 16);
      let h := cap_header a 0 in
      '(frames, data) ← tinycap_sample turns allocated room (arg_device a) (num_channels h) (sample_rate h) (bits_per_sample h);
      Ok (0, Some (header_bytes (cap_header a frames) ++ data))
  end.

(** ** tinyplay *)

(** The file in pieces of [size] bytes; the pieces that were played. *)
Fixpoint tinyplay_loop (fuel : nat) (size : Z) (file : list Z) (t : T) : res T :=
  match fuel with
  | O => Err OutOfFuel
  | S f =>
      let piece := take (Z.to_nat size) file in
      if len piece =? 0 then Ok t else
      let '(ret, t) := ta_write ta t piece in
      if negb (ret =? 0) then Ok t else tinyplay_loop f size (drop (Z.to_nat size) file) t
  end.

(** [malloc] of a negative number of bytes fails.  The result is the stream,
    if one was opened. *)
Definition tinyplay_sample (allocated : bool) (file : list Z) (device bits : Z) : res (option T) :=
  f ← tiny_format bits;
  match open_stream 1 device PCM_OUT (PcmConfig 2 48000 1024 4 f 0 0 0 0) with
  | None => Ok None
  | Some t =>
      let size := s32 (ta_get_buffer_size ta t) in
      if (size <? 0) || negb allocated then Ok (Some t) else
      t ← tinyplay_loop (S (length file)) size file t;
      Ok (Some t)
  end.

Definition tiny_playable (h : wav_header) : bool :=
  (riff_id h =? ID_RIFF) && (riff_fmt h =? ID_WAVE) && (fmt_id h =? ID_FMT) &&
  (audio_format h =? FORMAT_PCM) && (fmt_sz h =? 16).

Definition tinyplay_main (allocated : bool) (file : option (list Z)) (argv : list (list Z)) : res (Z * option T) :=
  match argv, file with
  | [], _ | [_], _ | _, None => Ok (1, None)
  | _ :: _ :: argv, Some file =>
      device ← play_args argv 0;
      match read_header file with
      | None => Err Uninit
      | Some (h, data) =>
          if negb (tiny_playable h) then Ok (1, None) else
          t ← tinyplay_sample allocated data device (bits_per_sample h);
          Ok (0, t)
      end
  end.

(** ** Samples in memory *)

Definition cell_samples (buf : cells) (n : Z) : res (list Z) :=
  b ← slice buf 0 (2 * n); b ← defined b; Ok (samples_of b).
Definition store_samples (buf : cells) (l : list Z) : res cells := blit buf 0 (Some <$> sample_bytes l).

(** Both give the other buffer and the number of its samples. *)
Definition to_mono (in_buffer : cells) (in_count : Z) (out_buffer : cells) : res (cells * Z) :=
  s ← cell_samples in_buffer in_count;
  out ← store_samples out_buffer (stereo_to_mono s);
  Ok (out, len (stereo_to_mono s)).

Definition to_stereo (in_buffer : cells) (in_count : Z) (out_buffer : cells) : res (cells * Z) :=
  s ← cell_samples in_buffer in_count;
  out ← store_samples out_buffer (mono_to_stereo s);
  Ok (out, len (mono_to_stereo s)).

Context {Sp : Type} (sx : speex Sp).

Definition RESAMPLER_QUALITY_DEFAULT : Z := 4.

(** The samples of [in_buf] through the resampler into [out_buffer]; the
    bytes the programs take for its contents. *)
Definition resampled (r : resampler Sp) (in_buf out_buffer : cells) (in_size frame_size : Z)
    : res (cells * Z * resampler Sp) :=
  in_frames ← divide in_size frame_size;
  out_frames ← divide stack_bytes frame_size;
  s ← cell_samples in_buf (in_frames * channel_count r);
  '(_, _, n, o, r) ← resampler_resample_from_input sx r (Some (Some <$> s)) in_frames out_frames;
  out ← store_samples out_buffer o;
  Ok (out, n * frame_size, r).

(** ** mycap *)

(** A piece on its way to the file, with the two arrays of the stack. *)
Definition mycap_piece (r : option (resampler Sp)) (buffer out_buffer buffer_mono : cells) (size frame_size chans : Z)
    : res (cells * Z * (option (resampler Sp) * cells * cells)) :=
  '(in_buf, in_size, r, out_buffer) ←
    match r with
    | Some q => '(o, n, q) ← resampled q buffer out_buffer size frame_size; Ok (o, n, Some q, o)
    | None => Ok (buffer, size, None, out_buffer)
    end;
  if chans =? 1 then
    '(m, n) ← to_mono in_buf (in_size / 2) buffer_mono;
    Ok (m, n * 2, (r, out_buffer, m))
  else Ok (in_buf, in_size, (r, out_buffer, buffer_mono)).

Fixpoint mycap_loop (turns : nat) (r : option (resampler Sp)) (buffer out_buffer buffer_mono : cells)
    (size frame_size chans room bytes : Z) (file : list Z) (t : T) : res (Z * list Z * T) :=
  match turns with
  | O => Ok (bytes, file, t)
  | S n =>
      let '(ret, stored, t) := ta_read ta t size in
      if negb (ret =? 0) then Ok (bytes, file, t) else
      buffer ← blit buffer 0 (Some <$> stored);
      '(in_buf, in_size, (r, out_buffer, buffer_mono)) ←
        mycap_piece r buffer out_buffer buffer_mono size frame_size chans;
      data ← slice in_buf 0 in_size;
      data ← defined data;
      let written := take (Z.to_nat room) data in
      if negb (len written =? in_size) then Ok (bytes, file ++ written, t) else
      mycap_loop n r buffer out_buffer buffer_mono size frame_size chans (room - in_size) (u32 (bytes + in_size))
        (file ++ written) t
  end.

Definition mycap_config : pcm_config := PcmConfig 1 8000 160 2 PCM_FORMAT_S16_LE 0 0 0 0.

Definition mycap_sample (turns : nat) (allocated : bool) (room card device chans rate bits : Z) : res (Z * list Z) :=
  '(ret, r) ← (if negb (rate =? 8000)
               then create_resampler sx 8000 rate 1 RESAMPLER_QUALITY_DEFAULT false else Ok (0, None));
  if negb (ret =? 0) then Ok (0, []) else
  let frame_size := bits / 8 * 1 in
  match open_stream card device PCM_IN mycap_config with
  | None => Ok (0, [])
  | Some t =>
      let size := u32 (ta_get_buffer_size ta t * frame_size) in
      if negb allocated then Ok (0, []) else
      '(bytes, file, _) ← mycap_loop turns r (fresh_bytes size) (fresh_bytes stack_bytes) (fresh_bytes stack_bytes)
                            size frame_size chans room 0 [] t;
      frames ← divide bytes (u32 (bits / 8 * chans));
      Ok (frames, file)
  end.

Definition mycap_main (turns : nat) (allocated created : bool) (room : Z) (argv : list (list Z))
    : res (Z * option (list Z)) :=
  match argv with
  | [] | [_] => Ok (1, None)
  | _ :: _ :: argv =>
      if negb created then Ok (1, None) else
      a ← cap_args argv (WavArgs 0 1 8000 16);
      let h := cap_header a 0 in
      '(frames, data) ← mycap_sample turns allocated room 0 (arg_device a) (num_channels h) (sample_rate h) (bits_per_sample h);
      Ok (0, Some (header_bytes (cap_header a frames) ++ data))
  end.

(** ** myplay *)

Definition myplay_piece (r : option (resampler Sp)) (piece out_buffer buffer_stereo : cells) (frame_size chans : Z)
    : res (cells * Z * (option (resampler Sp) * cells * cells)) :=
  '(in_buf, in_size, buffer_stereo) ←
    (if chans =? 1 then
       '(b, n) ← to_stereo piece (len piece / 2) buffer_stereo; Ok (b, n * 2, b)
     else Ok (piece, len piece, buffer_stereo));
  match r with
  | Some q =>
      '(o, n, q) ← resampled q in_buf out_buffer in_size frame_size;
      Ok (o, n, (Some q, o, buffer_stereo))
  | None => Ok (in_buf, in_size, (None, out_buffer, buffer_stereo))
  end.

Fixpoint myplay_loop (fuel : nat) (r : option (resampler Sp)) (out_buffer buffer_stereo : cells)
    (size frame_size chans : Z) (file : list Z) (t : T) : res T :=
  match fuel with
  | O => Err OutOfFuel
  | S f =>
      let piece := take (Z.to_nat size) file in
      if len piece =? 0 then Ok t else
      '(in_buf, in_size, (r, out_buffer, buffer_stereo)) ←
        myplay_piece r (Some <$> piece) out_buffer buffer_stereo frame_size chans;
      data ← slice in_buf 0 in_size;
      data ← defined data;
      let '(ret, t) := ta_write ta t data in
      if negb (ret =? 0) then Ok t else
      myplay_loop f r out_buffer buffer_stereo size frame_size chans (drop (Z.to_nat size) file) t
  end.

Definition myplay_config : pcm_config := PcmConfig 2 48000 1024 4 PCM_FORMAT_S16_LE 0 0 0 0.

Definition myplay_sample (allocated : bool) (file : list Z) (card device chans rate bits : Z) : res (option T) :=
  '(ret, r) ← (if negb (rate =? 48000)
               then create_resampler sx rate 48000 2 RESAMPLER_QUALITY_DEFAULT false else Ok (0, None));
  if negb (ret =? 0) then Ok None else
  let frame_size := bits / 8 * 2 in
  match open_stream card device PCM_OUT myplay_config with
  | None => Ok None
  | Some t =>
      let size := s32 (ta_get_buffer_size ta t) in
      if (size <? 0) || negb allocated then Ok (Some t) else
      t ← myplay_loop (S (length file)) r (fresh_bytes stack_bytes) (fresh_bytes stack_bytes) size frame_size chans file t;
      Ok (Some t)
  end.

Definition myplay_main (allocated : bool) (file : option (list Z)) (argv : list (list Z)) : res (Z * option T) :=
  match argv, file with
  | [], _ | [_], _ | _, None => Ok (1, None)
  | _ :: _ :: argv, Some file =>
      device ← play_args argv 0;
      match read_header file with
      | None => Err Uninit
      | Some (h, data) =>
          if negb (playable h) then Ok (1, None) else
          t ← myplay_sample allocated data 0 device (num_channels h) (sample_rate h) (bits_per_sample h);
          Ok (0, t)
      end
  end.
End programs.
