(* ===== verification/TinyToolsProofs.v ===== *)
(** * Properties of the programs for tinyalsa

    What a stream has given is in the file, and what is in a file is given to
    a stream; and what mycap does to a recording of one channel. *)

From stdpp Require Import strings.
From S2P Require Import Prelude CString Pcm PcmIo Mixer MixerProofs Resampler ResamplerProofs UsbAudio UsbAudioProofs Wav WavProofs TinyTools.

Section streams.
Context {T : Type} (ta : tinyalsa T).

(** ** Recording *)

(** What the stream gives in [n] turns. *)
Fixpoint chunks (n : nat) (size : Z) (t : T) : list (list Z) :=
  match n with
  | O => []
  | S n => let '(ret, b, t) := ta_read ta t size in if ret =? 0 then b :: chunks n size t else []
  end.

(** A buffer after a whole read. *)
Lemma whole_read (buffer : cells) stored size : len buffer = size → len stored = size →
  blit buffer 0 (Some <$> stored) = Ok (Some <$> stored).
Proof.
  intros Hb Hs. pose proof (len_nonneg stored). rewrite blit_ok by (rewrite ?len_fmap; lia). rewrite take_0.
  rewrite drop_ge, app_nil_r; [done|]. rewrite len_fmap. unfold len in *. lia.
Qed.

Lemma cells_defined (l : list Z) : (b ← slice (Some <$> l) 0 (len l); defined b) = Ok l.
Proof. rewrite <-(len_fmap Some l), slice_all. apply defined_some. Qed.

(** With room for all, the file has what the stream gave. *)
Lemma tinycap_loop_ok turns size : ∀ buffer room bytes file t,
  len buffer = size → Forall (λ b, len b = size) (chunks turns size t) →
  len (concat (chunks turns size t)) ≤ room → 0 ≤ bytes → bytes + len (concat (chunks turns size t)) < 4294967296 → ∃ t',
  tinycap_loop ta turns buffer size room bytes file t =
    Ok (bytes + len (concat (chunks turns size t)), file ++ concat (chunks turns size t), t').
Proof.
  induction turns as [|n IH]; intros buffer room bytes file t Hb Hall Hroom H0 Hmax.
  { exists t. simpl. by rewrite app_nil_r, Z.add_0_r. }
  cbn [tinycap_loop chunks] in *. destruct (ta_read ta t size) as [[ret b] t1]. destruct (ret =? 0); cbn [negb].
  2:{ exists t1. simpl. by rewrite app_nil_r, Z.add_0_r. }
  apply Forall_cons in Hall as [Hl Hall]. simpl concat in *. rewrite len_app in *. pose proof (len_nonneg (concat (chunks n size t1))).
  pose proof (len_nonneg b).
  rewrite (whole_read _ b size) by done. cbn [mbind res_bind].
  assert (slice (Some <$> b) 0 size = Ok (Some <$> b)) as -> by (rewrite <-Hl, <-(len_fmap Some b); apply slice_all).
  cbn [mbind res_bind]. rewrite defined_some. cbn [mbind res_bind].
  rewrite take_ge by (unfold len in *; lia). rewrite Hl, Z.eqb_refl. cbn [negb]. rewrite u32_small by lia.
  destruct (IH (Some <$> b) (room - size) (bytes + size) (file ++ b) t1) as [t' E]; [by rewrite len_fmap|done|lia|lia|lia|].
  exists t'. rewrite E. by rewrite <-app_assoc, Z.add_assoc.
Qed.

(** The bytes of a recording. *)
Definition recorded (turns : nat) (size : Z) (t : T) : list Z := concat (chunks turns size t).

(** ** Playing *)

Section play.
Context (played : T → list Z) (good : T → Prop).
(** The stream takes what it is given. *)
Context (Htakes : ∀ t piece, good t → ∃ t', ta_write ta t piece = (0, t') ∧ good t' ∧ played t' = played t ++ piece).

Lemma tinyplay_loop_ok size fuel : ∀ file t, 0 < size → good t → (length file < fuel)%nat → ∃ t',
  tinyplay_loop ta fuel size file t = Ok t' ∧ good t' ∧ played t' = played t ++ file.
Proof using Htakes.
  induction fuel as [|f IH]; intros file t Hs Hg Hf; [lia|]. cbn [tinyplay_loop].
  pose proof (len_take (Z.to_nat size) file) as Hl. set (piece := take (Z.to_nat size) file) in *.
  destruct (Z.eqb_spec (len piece) 0) as [E|E].
  { exists t. split; [done|]. split; [done|]. destruct file; [by rewrite app_nil_r|]. unfold len in *. simpl length in *. lia. }
  destruct (Htakes t piece Hg) as (t1 & E1 & Hg1 & Hp). rewrite E1. cbn [Z.eqb negb].
  destruct (IH (drop (Z.to_nat size) file) t1 Hs Hg1) as (t' & E2 & Hg' & Hp'); [rewrite length_drop; unfold len in *; lia|].
  exists t'. split; [done|]. split; [done|]. rewrite Hp', Hp, <-app_assoc. unfold piece. by rewrite take_drop.
Qed.

(** What tinycap records, tinyplay plays: the bytes the one stream gave are
    the bytes the other gets, in the same order.  (The channels and the rate
    of the recording are not looked at.) *)
Theorem tinycap_tinyplay turns room t0 t1 a name name' opts :
  let size := ta_get_buffer_size ta t0 in
  cap_args opts (WavArgs 0 1 8000 16) = Ok a → is32 (arg_rate a) → wrapU 16 (arg_bits a) = 16 →
  0 < u32 (2 * wrapU 16 (arg_channels a)) →
  open_stream ta 1 (arg_device a) PCM_IN (PcmConfig (wrapU 16 (arg_channels a)) (arg_rate a) 1024 4 PCM_FORMAT_S16_LE 0 0 0 0) = Some t0 →
  open_stream ta 1 0 PCM_OUT (PcmConfig 2 48000 1024 4 PCM_FORMAT_S16_LE 0 0 0 0) = Some t1 →
  good t1 → 0 < s32 (ta_get_buffer_size ta t1) →
  0 ≤ size → Forall (λ b, len b = size) (chunks turns size t0) →
  len (recorded turns size t0) ≤ room → len (recorded turns size t0) < 4294967296 → ∃ file t',
  tinycap_main ta turns true true room (name :: name' :: opts) = Ok (0, Some file) ∧
  tinyplay_main ta true (Some file) [name; name'] = Ok (0, Some t') ∧
  played t' = played t1 ++ recorded turns size t0.
Proof using Htakes.
  intros size Ha Hr Hb Hc Ho0 Ho1 Hg Hs1 Hs0 Hall Hroom Hmax.
  destruct (tinycap_loop_ok turns size (fresh_bytes size) room 0 [] t0) as [tc Ec];
    [unfold fresh_bytes; rewrite len_replicate; lia|done|done|lia|done|].
  set (data := recorded turns size t0) in *. simpl app in Ec. rewrite Z.add_0_l in Ec.
  assert (∃ frames, tinycap_sample ta turns true room (arg_device a) (wrapU 16 (arg_channels a)) (arg_rate a) 16 =
    Ok (frames, data)) as [frames Es].
  { unfold tinycap_sample, tiny_format. cbn [Z.eqb Pos.eqb mbind res_bind]. rewrite Ho0. cbn [negb]. fold size. rewrite Ec.
    cbn [mbind res_bind]. change (16 / 8) with 2. unfold divide. destruct (Z.eqb_spec (u32 (2 * wrapU 16 (arg_channels a))) 0); [lia|].
    by eexists. }
  destruct (recording_is_playable a frames data Hr Hb) as (h & Eh & Hp & _ & _ & Hbits & _).
  destruct (tinyplay_loop_ok (s32 (ta_get_buffer_size ta t1)) (S (length data)) data t1) as (t' & Ep & _ & Hpl); [done|done|lia|].
  exists (header_bytes (cap_header a frames) ++ data), t'. split; [|split; [|exact Hpl]].
  - unfold tinycap_main. cbn [negb]. rewrite Ha. cbn [mbind res_bind cap_header num_channels sample_rate bits_per_sample].
    rewrite Hb, Es. done.
  - unfold tinyplay_main. cbn [play_args mbind res_bind]. rewrite Eh.
    assert (tiny_playable h = true) as ->.
    { unfold playable in Hp. apply andb_true_iff in Hp as [Hp _]. exact Hp. }
    cbn [negb]. unfold tinyplay_sample, tiny_format. rewrite Hbits. cbn [Z.eqb Pos.eqb mbind res_bind]. rewrite Ho1.
    rewrite (proj2 (Z.ltb_ge _ _)) by lia. cbn [orb negb]. by rewrite Ep.
Qed.
End play.

(** ** mycap and myplay *)

Lemma store_samples_ok (buf : cells) l : 2 * len l ≤ len buf → ∃ out, store_samples buf l = Ok out ∧ len out = len buf ∧
  slice out 0 (len l * 2) = Ok (Some <$> sample_bytes l).
Proof.
  intros Hl. unfold store_samples.
  assert (len (Some <$> sample_bytes l) = len l * 2) as Hb by (rewrite len_fmap, sample_bytes_len; lia).
  pose proof (len_nonneg l). destruct (blit buf 0 (Some <$> sample_bytes l)) as [out|] eqn:E.
  2:{ rewrite blit_ok in E by lia. done. }
  exists out. split; [done|]. split; [by eapply blit_len|]. rewrite blit_ok in E by lia. injection E as <-.
  rewrite <-Hb. apply slice_prefix.
Qed.

Lemma cell_samples_ok (l : list Z) n : len l = 2 * n → cell_samples (Some <$> l) n = Ok (samples_of l).
Proof.
  intros Hn. unfold cell_samples. rewrite <-Hn. rewrite <-(len_fmap Some l), slice_all. cbn [mbind res_bind].
  by rewrite defined_some.
Qed.

Lemma samples_of_len n : ∀ l, len l = 2 * Z.of_nat n → len (samples_of l) = Z.of_nat n.
Proof.
  induction n as [|n IH]; intros [|a [|b l]] Hl; rewrite ?len_cons, ?len_nil in Hl; try (exfalso; lia); [done| |].
  { exfalso. pose proof (len_nonneg l). lia. }
  cbn [samples_of]. rewrite len_cons, IH by lia. lia.
Qed.

(** A piece of one channel, without another rate: every second sample. *)
Definition halved (b : list Z) : list Z := sample_bytes (stereo_to_mono (samples_of b)).

Lemma stereo_to_mono_len : ∀ n l, (length l ≤ n)%nat → 2 * len (stereo_to_mono l) ≤ len l + 1.
Proof.
  induction n as [|n IH]; intros [|a [|b l]] Hn; simpl in Hn; try (exfalso; lia);
    cbn [stereo_to_mono]; rewrite ?len_cons, ?len_nil; [unfold len; simpl; lia..|].
  specialize (IH l ltac:(lia)). lia.
Qed.

Section halves.
Context {Sp : Type} (sx : speex Sp).

Lemma mycap_piece_mono b out mono frame_size n :
  len b = 2 * n → n + 1 ≤ stack_bytes → len mono = stack_bytes → ∃ m,
  mycap_piece sx None (Some <$> b) out mono (2 * n) frame_size 1 =
    Ok (m, len (halved b), (None, out, m)) ∧ len m = stack_bytes ∧ slice m 0 (len (halved b)) = Ok (Some <$> halved b).
Proof.
  intros Hb Hn Hm. unfold mycap_piece. cbn [mbind res_bind Z.eqb Pos.eqb]. unfold to_mono.
  replace (2 * n / 2) with n by (rewrite Z.mul_comm, Z.div_mul by lia; done). rewrite cell_samples_ok by done. cbn [mbind res_bind].
  pose proof (len_nonneg b).
  assert (len (samples_of b) = n) as Hs.
  { replace n with (Z.of_nat (Z.to_nat n)) by lia. apply samples_of_len. lia. }
  pose proof (stereo_to_mono_len _ (samples_of b) (le_n _)) as Hl.
  destruct (store_samples_ok mono (stereo_to_mono (samples_of b))) as (m & E & Hlen & Hsl); [lia|].
  rewrite E. cbn [mbind res_bind]. exists m. unfold halved. rewrite sample_bytes_len.
  replace (2 * len (stereo_to_mono (samples_of b))) with (len (stereo_to_mono (samples_of b)) * 2) by lia.
  split; [done|]. split; [congruence|done].
Qed.

(** mycap asks for one channel and takes the stream for two: a recording of
    one channel has every second sample of what the stream gave. *)
Theorem mycap_halves turns n : ∀ buffer out mono room bytes file t,
  n + 1 ≤ stack_bytes → len buffer = 2 * n → len mono = stack_bytes →
  Forall (λ b, len b = 2 * n) (chunks turns (2 * n) t) →
  len (concat (halved <$> chunks turns (2 * n) t)) ≤ room → 0 ≤ bytes →
  bytes + len (concat (halved <$> chunks turns (2 * n) t)) < 4294967296 → ∃ t',
  mycap_loop ta sx turns None buffer out mono (2 * n) 2 1 room bytes file t =
    Ok (bytes + len (concat (halved <$> chunks turns (2 * n) t)), file ++ concat (halved <$> chunks turns (2 * n) t), t').
Proof.
  induction turns as [|k IH]; intros buffer out mono room bytes file t Hn Hb Hm Hall Hroom H0 Hmax.
  { exists t. simpl. by rewrite app_nil_r, Z.add_0_r. }
  cbn [mycap_loop chunks] in *. destruct (ta_read ta t (2 * n)) as [[ret b] t1]. destruct (ret =? 0); cbn [negb].
  2:{ exists t1. simpl. by rewrite app_nil_r, Z.add_0_r. }
  apply Forall_cons in Hall as [Hl Hall]. rewrite fmap_cons in *. cbn [concat] in *. rewrite len_app in *.
  pose proof (len_nonneg (concat (halved <$> chunks k (2 * n) t1))). pose proof (len_nonneg (halved b)).
  rewrite (whole_read _ b (2 * n)) by done. cbn [mbind res_bind].
  destruct (mycap_piece_mono b out mono 2 n Hl Hn Hm) as (m & E & Hlm & Hsl). rewrite E. cbn [mbind res_bind].
  rewrite Hsl. cbn [mbind res_bind]. rewrite defined_some. cbn [mbind res_bind].
  rewrite take_ge by (unfold len in *; lia). rewrite Z.eqb_refl. cbn [negb]. rewrite u32_small by lia.
  destruct (IH (Some <$> b) out m (room - len (halved b)) (bytes + len (halved b)) (file ++ halved b) t1) as [t' E'];
    [done|by rewrite len_fmap|done|done|lia|lia|lia|].
  exists t'. rewrite E'. by rewrite <-app_assoc, Z.add_assoc.
Qed.

(** ** myplay *)

Definition doubled (b : list Z) : list Z := sample_bytes (mono_to_stereo (samples_of b)).

Lemma myplay_piece_mono b out stereo frame_size n :
  len b = 2 * n → 4 * n ≤ stack_bytes → len stereo = stack_bytes → ∃ m,
  myplay_piece sx None (Some <$> b) out stereo frame_size 1 =
    Ok (m, len (doubled b), (None, out, m)) ∧ len m = stack_bytes ∧ slice m 0 (len (doubled b)) = Ok (Some <$> doubled b).
Proof.
  intros Hb Hn Hm. unfold myplay_piece. cbn [Z.eqb Pos.eqb]. unfold to_stereo. rewrite len_fmap, Hb.
  replace (2 * n / 2) with n by (rewrite Z.mul_comm, Z.div_mul by lia; done). rewrite cell_samples_ok by done. cbn [mbind res_bind].
  pose proof (len_nonneg b).
  assert (len (samples_of b) = n) as Hs.
  { replace n with (Z.of_nat (Z.to_nat n)) by lia. apply samples_of_len. lia. }
  destruct (store_samples_ok stereo (mono_to_stereo (samples_of b))) as (m & E & Hlen & Hsl); [rewrite mono_to_stereo_len; lia|].
  rewrite E. cbn [mbind res_bind]. exists m. unfold doubled. rewrite sample_bytes_len.
  replace (2 * len (mono_to_stereo (samples_of b))) with (len (mono_to_stereo (samples_of b)) * 2) by lia.
  split; [done|]. split; [congruence|done].
Qed.

Lemma samples_of_app n : ∀ a b, len a = 2 * Z.of_nat n → samples_of (a ++ b) = samples_of a ++ samples_of b.
Proof.
  induction n as [|n IH]; intros [|x [|y a]] b Ha; rewrite ?len_cons, ?len_nil in Ha; try (exfalso; lia); [done| |].
  { exfalso. pose proof (len_nonneg a). lia. }
  simpl. by rewrite IH by lia.
Qed.
Lemma mono_to_stereo_app a b : mono_to_stereo (a ++ b) = mono_to_stereo a ++ mono_to_stereo b.
Proof. induction a as [|x a IH]; [done|]. simpl. by rewrite IH. Qed.
Lemma doubled_app n a b : 0 ≤ n → len a = 2 * n → doubled (a ++ b) = doubled a ++ doubled b.
Proof.
  intros Hn Ha. unfold doubled, sample_bytes. rewrite (samples_of_app (Z.to_nat n)) by lia.
  by rewrite mono_to_stereo_app, fmap_app, concat_app.
Qed.

(** A file of one channel with whole samples is played on both channels. *)
Theorem myplay_doubles (played : T → list Z) (good : T → Prop) k fuel :
  (∀ t piece, good t → ∃ t', ta_write ta t piece = (0, t') ∧ good t' ∧ played t' = played t ++ piece) →
  0 < k → 4 * k ≤ stack_bytes → ∀ file n out stereo t,
  good t → len stereo = stack_bytes → len file = 2 * n → (length file < fuel)%nat → ∃ t',
  myplay_loop ta sx fuel None out stereo (2 * k) 4 1 file t = Ok t' ∧ good t' ∧ played t' = played t ++ doubled file.
Proof.
  intros Htakes Hk Hmax. induction fuel as [|f IH]; intros file n out stereo t Hg Hst Hf Hfuel; [lia|]. cbn [myplay_loop].
  pose proof (len_take (Z.to_nat (2 * k)) file) as Hl. pose proof (len_nonneg file).
  assert (len (drop (Z.to_nat (2 * k)) file) = len file - len (take (Z.to_nat (2 * k)) file)) as Hd
    by (unfold len in *; rewrite length_drop; lia).
  assert (file = take (Z.to_nat (2 * k)) file ++ drop (Z.to_nat (2 * k)) file) as Hcat by (by rewrite take_drop).
  set (piece := take (Z.to_nat (2 * k)) file) in *. set (rest := drop (Z.to_nat (2 * k)) file) in *.
  destruct (Z.eqb_spec (len piece) 0) as [E|E].
  { exists t. split; [done|]. split; [done|]. destruct file; [by rewrite app_nil_r|]. unfold len in *. simpl length in *. lia. }
  destruct (myplay_piece_mono piece out stereo 4 (Z.min k n)) as (m & Em & Hlm & Hsl); [lia|lia|done|].
  rewrite Em. cbn [mbind res_bind]. rewrite Hsl. cbn [mbind res_bind]. rewrite defined_some. cbn [mbind res_bind].
  destruct (Htakes t (doubled piece) Hg) as (t1 & E1 & Hg1 & Hp). rewrite E1. cbn [Z.eqb negb].
  destruct (IH rest (n - Z.min k n) out m t1) as (t' & E2 & Hg' & Hp'); [done|done|lia|unfold len in *; lia|].
  exists t'. split; [done|]. split; [done|]. rewrite Hp', Hp, <-app_assoc. f_equal.
  transitivity (doubled (piece ++ rest)); [symmetry; apply (doubled_app (Z.min k n)); lia|by rewrite <-Hcat].
Qed.
End halves.
End streams.

(** ** Examples *)

(** A stream that gives the bytes it has, and keeps those it is given. *)
Definition tape : tinyalsa (list Z * list Z) := {|
  ta_open := λ _ _ flags _, Some (if flags =? PCM_IN then [1; 2; 3; 4; 5; 6; 7; 8] else [], []);
  ta_is_ready := λ _, true;
  ta_get_buffer_size := λ _, 4;
  ta_read := λ t n, if len t.1 <? n then (-1, [], t) else (0, take (Z.to_nat n) t.1, (drop (Z.to_nat n) t.1, t.2));
  ta_write := λ t l, (0, (t.1, t.2 ++ l));
|}.

Lemma tape_takes (t : list Z * list Z) piece : True → ∃ t', ta_write tape t piece = (0, t') ∧ True ∧ t'.2 = t.2 ++ piece.
Proof. intros _. eexists. split; [reflexivity|]. by split. Qed.

Lemma tinycap_tinyplay_witness : ∃ file t',
  tinycap_main tape 5 true true 100 [lit "tinycap"; lit "a.wav"] = Ok (0, Some file) ∧
  tinyplay_main tape true (Some file) [lit "tinycap"; lit "a.wav"] = Ok (0, Some t') ∧
  t'.2 = [] ++ [1; 2; 3; 4; 5; 6; 7; 8].
Proof.
  apply (tinycap_tinyplay tape snd (λ _, True) tape_takes 5 100 ([1; 2; 3; 4; 5; 6; 7; 8], []) ([], []) (WavArgs 0 1 8000 16)
    (lit "tinycap") (lit "a.wav") []); try done. by repeat (constructor; [done|]).
Defined.

Lemma mycap_halves_witness : ∃ t',
  mycap_loop tape copy_speex 3 None (fresh_bytes 4) (fresh_bytes stack_bytes) (fresh_bytes stack_bytes) (2 * 2) 2 1 100 0 []
    ([1; 2; 3; 4; 5; 6; 7; 8], []) = Ok (0 + 4, [] ++ [1; 2; 5; 6], t').
Proof.
  apply (mycap_halves tape copy_speex 3 2); try done.
  by repeat (constructor; [done|]).
Defined.

Lemma myplay_doubles_witness : ∃ t',
  myplay_loop tape copy_speex 9 None (fresh_bytes stack_bytes) (fresh_bytes stack_bytes) (2 * 2) 4 1 [1; 0; 2; 0; 3; 0] ([], []) =
    Ok t' ∧ True ∧ t'.2 = [] ++ [1; 0; 1; 0; 2; 0; 2; 0; 3; 0; 3; 0].
Proof.
  apply (myplay_doubles tape copy_speex snd (λ _, True) 2 9 tape_takes ltac:(lia) ltac:(unfold stack_bytes; lia)
    [1; 0; 2; 0; 3; 0] 3); try done. simpl. lia.
Defined.
