(* ===== verification/CallAudio.v ===== *)
(** * The telephone machine and the sound of its calls

    The machine of src/upil_sm.c calls the functions of
    src/upil_audio/upil_audio.cpp, and waits for them; the threads of the
    sound call [begin_record] and [end_record], which send messages to the
    machine.  A [call] is the state of both, with the calls of the sound that
    the machine's handler has come to and that have not begun.

    A handler changes the machine in one step, and its calls of the sound
    follow, before the machine takes its next message: no handler reads what
    such a call returns. *)

From stdpp Require Import strings.
From S2P Require Import Prelude CString Dll EventLoop EventLoopProofs Handler HandlerProofs Messages TpProtocol StateMachine.
From S2P Require Import SendProofs Contract MachineProofs World UpilApi Ril Monitor UpilSm UpilSmProofs Daemon RunProofs.
From S2P Require Import Pcm PcmIo Mixer MixerProofs Resampler UsbAudio Wav HostAudio AudioThreads AudioThreadsProofs.

(** The addresses of the two functions. *)
Definition begin_record_fn : Z := 1.
Definition end_record_fn : Z := 2.

Definition call_back (f : Z) : MW unit :=
  if f =? begin_record_fn then begin_record
  else if f =? end_record_fn then end_record
  else fail NullDeref.

(** The calls back among what a turn of a thread has done. *)
Fixpoint call_backs (es : list audio_event) : MW unit :=
  match es with
  | [] => skip
  | Endfunc f :: es => call_back f;; call_backs es
  | Saved _ _ :: es => call_backs es
  end.

(** What a call of the machine is for the sound; [rc] is the result of
    [pthread_create]. *)
Definition sound_call (o : output) (rc : Z) : option action :=
  match o with
  | AudioStart => Some (Call_start rc)
  | AudioStop => Some Call_stop
  | AudioPlay path => Some (Call_play (path ++ [0]) (Some begin_record_fn) rc)
  | AudioRecord path sec => Some (Call_record (path ++ [0]) (Some end_record_fn) sec rc)
  | Sent _ _ | Closed _ => None
  end.

Definition is_sound (o : output) : Prop := is_Some (sound_call o 0).
#[export] Instance is_sound_dec o : Decision (is_sound o).
Proof. unfold is_sound. apply _. Defined.

(** The calls of the sound in the output, in their order. *)
Definition sounds (w : world) : list output := filter is_sound (out w).

(** The first pending event, when it is a message. *)
Definition next_message (w : world) : option loc :=
  m ← first_pending w;
  if decide (is_Some (msgs (handler (fsm w)) !! m)) then Some m else None.

Section call.
Context {Sp : Type} (sx : speex Sp).
Abbreviation A := (@audio Sp).

Record call := Call {
  machine : world;
  sound : A;
  waiting : list output;
}.

#[export] Instance call_machine : Lens call world := {|
  lget := machine;
  lset w c := Call w (sound c) (waiting c);
|}.
#[export] Instance call_sound : Lens call A := {|
  lget := sound;
  lset a c := Call (machine c) a (waiting c);
|}.
Definition set_waiting (l : list output) (c : call) : call := Call (machine c) (sound c) l.

Abbreviation MC := (M call).

(** The machine takes its first pending message, when its handler of the
    message before has returned. *)
Definition machine_turn : MC unit :=
  c ← get;
  match caller (sound c), waiting c, next_message (machine c) with
  | Returned _, [], Some m =>
      zoom (deliver m);;
      modify (λ c', set_waiting (drop (length (sounds (machine c))) (sounds (machine c'))) c')
  | _, _, _ => fail Blocked
  end.

(** The next call of the handler begins. *)
Definition next_call (rc : Z) : MC unit :=
  c ← get;
  match waiting c with
  | o :: rest =>
      x ← lift (match sound_call o rc with Some x => Ok x | None => Err Blocked end);
      match caller (sound c) with
      | Returned _ => zoom (perform sx x);; modify (set_waiting rest)
      | _ => fail Blocked
      end
  | [] => fail Blocked
  end.

(** The caller wakes up in a loop of [upil_audio_start] or
    [upil_audio_stop]. *)
Definition wake (rc : Z) : MC unit := zoom (perform sx (Wake rc)).

(** A thread has its turn, and calls the machine back. *)
Definition sound_turn (i : nat) (env : turn_env) : MC unit :=
  a ← gets sound;
  zoom (perform sx (Turn i env));;
  a' ← gets sound;
  zoom (call_backs (drop (length (audio_log a)) (audio_log a'))).

(** ** Runs *)

Inductive call_step (c c' : call) : Prop :=
  | step_outer w : outer_step (machine c) w → c' = lset w c → call_step c c'
  | step_machine : machine_turn c = Ok (tt, c') → call_step c c'
  | step_call rc : next_call rc c = Ok (tt, c') → call_step c c'
  | step_wake rc : wake rc c = Ok (tt, c') → call_step c c'
  | step_turn i env : env_sane (env_sys env) → sound_turn i env c = Ok (tt, c') → call_step c c'.

Inductive call_run : call → Prop :=
  | call_begin w : started w → call_run (Call w no_audio [])
  | call_next c c' : call_run c → call_step c c' → call_run c'.
End call.
