(* ===== verification/CallAudioProofs.v ===== *)
(** * Properties of the machine together with the sound

    Which calls of the sound each message makes; that the runs of both
    together are runs of each; what is heard in which state. *)

From stdpp Require Import strings.
From S2P Require Import Prelude CString Dll EventLoop EventLoopProofs Handler HandlerProofs Messages TpProtocol TpProofs StateMachine.
From S2P Require Import SendProofs Contract MachineProofs World UpilApi Ril Monitor UpilSm UpilSmProofs Daemon RunProofs EffectProofs.
From S2P Require Import Pcm PcmIo PcmProofs Mixer MixerProofs Resampler ResamplerProofs UsbAudio UsbAudioProofs.
From S2P Require Import Wav WavProofs HostAudio HostAudioProofs AudioThreads AudioThreadsProofs CallAudio.

(** ** The calls a handler makes *)

(** The calls [l] of the sound are made. *)
Definition heard (l : list output) (w w' : world) : Prop := sounds w' = sounds w ++ l.

#[export] Instance heard_effect : Effect heard.
Proof.
  split; unfold heard.
  - intros w. by rewrite app_nil_r.
  - intros l k w1 w2 w3 E1 E2. by rewrite E2, E1, app_assoc.
  - intros f w. by rewrite app_nil_r.
Qed.

Lemma makes_leaves {A} (op : MW A) : leaves sounds op → does heard [] op.
Proof. intros H w a w' E. unfold heard. rewrite app_nil_r. by eapply H. Qed.

Lemma makes_sound o : is_sound o → does heard [o] (emit o).
Proof.
  intros Ho w a w' [= _ <-]. unfold heard, sounds. cbn [out]. rewrite filter_app. f_equal.
  rewrite filter_cons. by case_decide.
Qed.

Lemma leaves_emit o : ¬ is_sound o → leaves sounds (emit o).
Proof.
  intros Ho w a w' [= _ <-]. unfold sounds. cbn [out]. rewrite filter_app, filter_cons.
  case_decide; [done|]. by rewrite app_nil_r.
Qed.

Lemma sent_silent fd l : ¬ is_sound (Sent fd l).
Proof. by intros [x Hx]. Qed.
#[local] Hint Resolve leaves_emit sent_silent : leaves.

Lemma leaves_unsolicited msg : leaves sounds (upil_ril_unsolicited msg).
Proof. unfold upil_ril_unsolicited, process_reply. leaves. Qed.
Lemma makes_monitor msg data : does heard [] (sendto_monitor msg data).
Proof. apply makes_leaves. unfold sendto_monitor. pose proof leaves_unsolicited. leaves. Qed.
Lemma makes_device {A} (op : M device A) : does heard [] (zoom op).
Proof. apply makes_leaves. leaves. Qed.
Lemma makes_cmd req : does heard [] (send_cmd_noparam req).
Proof. apply does_drop; [apply _|apply makes_device]. Qed.
Lemma makes_ring f : (∀ w, sounds (f w) = sounds w) → does heard [] (modify f).
Proof. intros Hf. by apply makes_leaves, leaves_modify. Qed.
#[local] Hint Resolve makes_monitor makes_device makes_cmd : effect.
#[local] Hint Extern 1 (does heard [] (modify _)) => (by apply makes_ring) : effect.
#[local] Hint Extern 1 (does heard [_] (emit _)) => (apply makes_sound; by eexists) : effect.

Lemma makes_default m : does heard [] (default_process m).
Proof. unfold default_process. does_steps. Qed.
#[local] Hint Resolve makes_default : effect.

(** The calls on the entry of a state. *)
Definition enter_sound (i : nat) : list output :=
  match i with
  | 2 => [AudioStop]
  | 3 | 5 => [AudioStart]
  | _ => []
  end%nat.

Lemma enter_makes i st f :
  read_at my_state_table (Z.of_nat i) = Ok st → enter_func st = Some f → does heard (enter_sound i) f.
Proof.
  revert i st. apply (table_states (λ i st, enter_func st = Some f → does heard (enter_sound i) f)).
  intros i st Hi Est Ef. destruct i as [|[|[|[|[|[|[|i]]]]]]]; [..|lia].
  all: injection Est as <-; injection Ef as <-; cbn [enter_sound].
  - unfold offline_enter. does_steps. - unfold syncing_enter. does_steps. - unfold idle_enter. does_steps.
  - unfold dialing_enter. does_steps. - unfold incoming_enter. does_steps. - unfold conversation_enter. does_steps.
  - unfold memo_enter. does_steps.
Qed.

(** The calls of a message that asks for no state. *)
Definition memo_sound (what : Z) : list output :=
  if (what =? UPIL_EVT_HAND_HOOK_ON) || (what =? UPIL_EVT_HFREE_HOOK_ON) || (what =? UPIL_EVT_PARALL_HOOK_ON)
  then [AudioPlay (lit "/data/welcome.wav")]
  else if (what =? UPIL_CTL_HANDFREE_ON) || (what =? UPIL_CTL_HANDFREE_OFF) ||
          (what =? UPIL_EVT_HFREE_HOOK_OFF) || (what =? UPIL_EVT_HAND_HOOK_OFF) then [AudioStop]
  else if what =? UPIL_CTL_RECORD_START then [AudioRecord (lit "/data/record.wav") 30]
  else [].

Definition process_sound (i : nat) (x : MSG) : list output :=
  if decide (i = 6%nat) then memo_sound (what x) else [].

(** The calls of the message [x] in the state [i]. *)
Definition message_sound (i : nat) (x : MSG) : list output :=
  message_effect enter_sound process_sound i x.

Lemma process_makes i st f m x w a w' :
  read_at my_state_table (Z.of_nat i) = Ok st → process_func st = Some f →
  cur_state (fsm w) = Some i → msgs (handler (fsm w)) !! m = Some x → f m w = Ok (a, w') →
  heard (process_sound i x) w w'.
Proof.
  intros Est Ef _ Hx. revert i st Est Ef.
  apply (table_states (λ i st, process_func st = Some f → f m w = Ok (a, w') → heard (process_sound i x) w w')).
  intros i st Hi Est Ef.
  destruct i as [|[|[|[|[|[|[|i]]]]]]]; [..|lia].
  all: injection Est as <-; injection Ef as <-; unfold process_sound; cbn [decide].
  1-6: apply (handle_does heard m x [] _ w a w' Hx); does_steps.
  apply (handle_does heard m x _ _ w a w' Hx). unfold memo_sound, stop_memo_flow. rewrite decide_True by done.
  generalize (what x). intros n. split_what; does_steps.
Qed.

(** From its removal from the queue to its release. *)
Lemma deliver_makes i w qs ts ps m x ret w' :
  at_rest i w qs ts (m :: ps) → msgs (handler (fsm w)) !! m = Some x →
  deliver m w = Ok (ret, w') → sounds w' = sounds w ++ message_sound i x.
Proof. exact (deliver_does heard _ _ enter_makes process_makes i w qs ts ps m x ret w'). Qed.

(** ** Both together *)

Section call.
Context {Sp : Type} (sx : speex Sp).
Abbreviation C := (@call Sp).

(** The functions the audio library can call back are those of the machine. *)
Definition fns_ok (m : memo) : Prop :=
  (∀ f, s_play_endfunc m = Some f → f = begin_record_fn) ∧
  (∀ f, s_record_endfunc m = Some f → f = end_record_fn).

Lemma send_outer w what :
  plain what = true → run w → ∃ ret w', on_fsm_handler (sm_send_message what None 0) w = Ok (ret, w') ∧ outer_step w w'.
Proof.
  intros Hp (i & qs & ts & ps & [Hi Hlen Hm Hms H4 H5 H6 _] & Hq)%run_at_rest.
  destruct (sm_send_any _ _ _ _ _ _ Hi what None 0 0 Hm) as (r & h' & E & _); [intros ?; lia|by vm_compute|].
  assert (on_fsm_handler (sm_send_message what None 0) w = Ok (r, lset (A := FSM) (lset h' (fsm w)) w)) as E2
    by (by apply (zoom_ok _ w), (zoom_ok _ (fsm w))).
  eexists _, _. split; [exact E2|].
  eapply (outer_send _ _ _ what None 0 0); [by apply plain_message|intros ?; lia|by vm_compute|exact E2].
Qed.

(** A call back succeeds, and is a step between two messages. *)
Lemma call_back_ok f w :
  run w → f = begin_record_fn ∨ f = end_record_fn → ∃ w', call_back f w = Ok (tt, w') ∧ outer_step w w'.
Proof.
  intros Hr [->| ->]; unfold call_back; cbn [Z.eqb begin_record_fn end_record_fn Pos.eqb]; cbv iota.
  - destruct (send_outer w UPIL_CTL_RECORD_START) as (r & w' & E & Hs); [by vm_compute|done|].
    exists w'. split; [|done]. unfold begin_record. by rewrite (bind_ok _ _ _ _ _ E).
  - destruct (send_outer w UPIL_EVT_RECORD_END) as (r & w' & E & Hs); [by vm_compute|done|].
    exists w'. split; [|done]. unfold end_record. by rewrite (bind_ok _ _ _ _ _ E).
Qed.

Lemma call_backs_ok es w :
  run w → (∀ f, Endfunc f ∈ es → f = begin_record_fn ∨ f = end_record_fn) → ∃ w',
  call_backs es w = Ok (tt, w') ∧ run w' ∧ rtc outer_step w w'.
Proof.
  revert w. induction es as [|[f|name b] es IH]; intros w Hr Hf; [by exists w|..]; cbn [call_backs].
  - destruct (call_back_ok f w Hr) as (w1 & E1 & H1); [apply Hf; by left|].
    assert (run w1) as Hr1 by (by eapply run_outer).
    destruct (IH w1 Hr1) as (w2 & E2 & H2 & H3); [intros g Hg; apply Hf; by right|].
    exists w2. rewrite (bind_ok _ _ _ _ _ E1). split; [done|]. split; [done|]. by eapply rtc_l.
  - apply IH; [done|]. intros g Hg. apply Hf. by right.
Qed.

(** Steps between two messages leave the state of the machine. *)
Lemma outer_state w w' : run w → outer_step w w' → cur_state (fsm w') = cur_state (fsm w).
Proof.
  intros (i & qs & ts & ps & Hr)%run_at_rest Hs. destruct (outer_rest _ _ _ _ _ _ Hs Hr) as (?&?&?& Hr').
  transitivity (Some i); [|symmetry]; by eapply rest_state.
Qed.

Lemma outers_state w w' : run w → rtc outer_step w w' → cur_state (fsm w') = cur_state (fsm w).
Proof.
  intros Hr Hs. induction Hs as [|w w1 w2 H1 _ IH]; [done|].
  rewrite IH by (by eapply run_outer). by apply outer_state.
Qed.

(** What holds of both in every run. *)
Record call_inv (c : C) : Prop := {
  call_of_run : run (machine c);
  call_of_audio : audio_run sx (sound c);
  call_fns : fns_ok (s_memo (sound c));
}.

Lemma next_message_some w m :
  next_message w = Some m ↔ first_pending w = Some m ∧ is_Some (msgs (handler (fsm w)) !! m).
Proof.
  unfold next_message. destruct (first_pending w) as [n|]; simpl; [|naive_solver].
  case_decide; naive_solver.
Qed.

Lemma machine_turn_inv (c c' : C) :
  machine_turn c = Ok (tt, c') → ∃ ret m x r w',
  caller (sound c) = Returned ret ∧ waiting c = [] ∧ first_pending (machine c) = Some m ∧
  msgs (handler (fsm (machine c))) !! m = Some x ∧
  deliver m (machine c) = Ok (r, w') ∧
  c' = Call w' (sound c) (drop (length (sounds (machine c))) (sounds w')).
Proof.
  unfold machine_turn. rewrite bind_get. destruct (caller (sound c)) as [ret| |] eqn:Ec; [|done..].
  destruct (waiting c) eqn:Ew; [|done]. destruct (next_message (machine c)) as [m|] eqn:Ef; [|done].
  apply next_message_some in Ef as [Ef [x Hx]]. intros (r & c1 & E & [= <-])%bind_inv. unfold zoom in E. simpl in E.
  destruct (deliver m (machine c)) as [[r' w']|] eqn:Ed; [|done]. injection E as <- <-.
  by exists ret, m, x, r', w'.
Qed.

Lemma next_call_inv rc (c c' : C) :
  next_call sx rc c = Ok (tt, c') → ∃ o rest x ret a',
  waiting c = o :: rest ∧ sound_call o rc = Some x ∧ caller (sound c) = Returned ret ∧
  perform sx x (sound c) = Ok (tt, a') ∧ c' = Call (machine c) a' rest.
Proof.
  unfold next_call. rewrite bind_get. destruct (waiting c) as [|o rest]; [done|].
  intros (x & c1 & E & E2)%bind_inv. destruct (sound_call o rc) as [y|] eqn:Es; [|done].
  injection E as -> ->. destruct (caller (sound c1)) as [ret| |] eqn:Ec; [|done..].
  apply bind_inv in E2 as ([] & c2 & E & [= <-]). unfold zoom in E. simpl in E.
  destruct (perform sx x (sound c1)) as [[[] a']|] eqn:Ep; [|done]. injection E as <-.
  by exists o, rest, x, ret, a'.
Qed.

Lemma wake_inv rc (c c' : C) :
  wake sx rc c = Ok (tt, c') → ∃ a', perform sx (Wake rc) (sound c) = Ok (tt, a') ∧ c' = lset a' c.
Proof.
  unfold wake, zoom. simpl. destruct (perform sx (Wake rc) (sound c)) as [[[] a']|]; [|done].
  intros [= <-]. by exists a'.
Qed.

(** A turn that the thread can have, it has in the whole too: its calls back
    succeed. *)
Lemma sound_turn_ok i env (c : C) a' :
  call_inv c → perform sx (Turn i env) (sound c) = Ok (tt, a') → ∃ w',
  sound_turn sx i env c = Ok (tt, Call w' a' (waiting c)) ∧ run w' ∧ rtc outer_step (machine c) w'.
Proof.
  intros [Hr _ [Hf1 Hf2]] E.
  destruct (perform_turn_polite sx i env (sound c) tt a' E) as [Hm Hc Hrun (es & Hl & Hes)].
  destruct (call_backs_ok es (machine c) Hr) as (w' & E' & Hr' & Hs).
  { intros f Hf. destruct (Hes f Hf) as [?|?]; [left|right]; auto. }
  exists w'. split; [|done]. unfold sound_turn. rewrite bind_gets.
  rewrite bind_ok with (a := tt) (s' := Call (machine c) a' (waiting c)) by (unfold zoom; simpl; by rewrite E).
  rewrite bind_gets. cbn [sound]. rewrite Hl, drop_app_length. unfold zoom. cbn [lget call_machine machine].
  by rewrite E'.
Qed.

Lemma sound_turn_inv i env (c c' : C) :
  call_inv c → sound_turn sx i env c = Ok (tt, c') → ∃ a' w',
  perform sx (Turn i env) (sound c) = Ok (tt, a') ∧ c' = Call w' a' (waiting c) ∧ run w' ∧
  rtc outer_step (machine c) w'.
Proof.
  intros Hi E. destruct (perform sx (Turn i env) (sound c)) as [[[] a']|e] eqn:Ep.
  - destruct (sound_turn_ok i env c a' Hi Ep) as (w' & E' & Hr & Hs). rewrite E in E'. injection E' as ->.
    by exists a', w'.
  - exfalso. revert E. unfold sound_turn. rewrite bind_gets.
    erewrite bind_err; [done|]. unfold zoom. simpl. by rewrite Ep.
Qed.

(** A call keeps the functions of the machine. *)
Lemma play_fns m name : fns_ok m → fns_ok (Memo (Some begin_record_fn) name (s_record_endfunc m) (s_record_filename m) (s_record_timeout m)).
Proof. intros [_ H]. split; [by intros f [= <-]|done]. Qed.
Lemma record_fns m name sec : fns_ok m → fns_ok (Memo (s_play_endfunc m) (s_play_filename m) (Some end_record_fn) name sec).
Proof. intros [H _]. split; [done|by intros f [= <-]]. Qed.

Lemma sound_call_fns o rc x (a : audio (Sp := Sp)) :
  sound_call o rc = Some x → fns_ok (s_memo a) → ends (perform sx x) a (λ _ a', fns_ok (s_memo a')).
Proof.
  intros Hx Hf. unfold perform. apply ends_bind, ends_get.
  destruct o; try done; injection Hx as <-; destruct (caller a); try apply ends_fail.
  - unfold upil_audio_start, return_, start_sound_in_thread, create. by ends.
  - unfold upil_audio_stop, audio_stop. by ends.
  - unfold upil_audio_play_file, return_, start_play_thread, create. ends; try done; by apply play_fns.
  - unfold upil_audio_record_file, return_, start_record_thread, create. ends; try done; by apply record_fns.
Qed.

Lemma wake_fns rc (a : audio (Sp := Sp)) : fns_ok (s_memo a) → ends (perform sx (Wake rc)) a (λ _ a', fns_ok (s_memo a')).
Proof.
  intros Hf. unfold perform. apply ends_bind, ends_get. destruct (caller a); try apply ends_fail.
  - unfold start_turn, return_, audio_stop, start_sound_out_thread, create. by ends.
  - unfold stop_turn, return_. by ends.
Qed.

Lemma call_step_inv (c c' : C) : call_inv c → call_step sx c c' → call_inv c'.
Proof.
  intros Hi [w Hs ->|E|rc E|rc E|i env Henv E]; pose proof Hi as [Hr Ha Hfn].
  - split; [by eapply run_outer|done|done].
  - apply machine_turn_inv in E as (ret & m & x & r & w' & _ & _ & Hf & Hx & E & ->).
    split; [by eapply run_message; eauto|done|done].
  - apply next_call_inv in E as (o & rest & x & ret & a' & _ & Hx & _ & E & ->).
    split; [done| |by eapply sound_call_fns; eauto].
    eapply audio_step; [done| |done]. intros i env ->. by destruct o.
  - apply wake_inv in E as (a' & E & ->). split; [done| |by eapply wake_fns; eauto].
    by eapply audio_step; [exact Ha| |exact E].
  - destruct (sound_turn_inv i env c c' Hi E) as (a' & w' & Ep & -> & Hr' & _).
    split; [done| |cbn [sound]; by rewrite (polite_memo _ _ (perform_turn_polite sx _ _ _ _ _ Ep))].
    eapply audio_step; [done| |done]. by intros ? ? [= <- <-].
Qed.

Lemma call_run_inv (c : C) : call_run sx c → call_inv c.
Proof.
  induction 1 as [w Hw|c c' _ IH Hs]; [|by eapply call_step_inv].
  split; [by apply run_start|apply audio_begin|done].
Qed.

(** The machine and the sound do not get in each other's way: what both
    do together is a run of each, so that the invariants of both hold; a turn
    of a thread is possible whenever it is for the sound alone. *)
Theorem call_run_refines (c : C) :
  call_run sx c → run (machine c) ∧ audio_run sx (sound c) ∧
  ∀ i env a', env_sane (env_sys env) → perform sx (Turn i env) (sound c) = Ok (tt, a') → ∃ c',
    sound_turn sx i env c = Ok (tt, c') ∧ call_run sx c' ∧ sound c' = a'.
Proof.
  intros Hc. pose proof (call_run_inv c Hc) as Hi. split; [apply Hi|]. split; [apply Hi|].
  intros i env a' Henv E. destruct (sound_turn_ok i env c a' Hi E) as (w' & E' & _).
  eexists. split; [exact E'|]. split; [|done]. eapply call_next; [done|]. by eapply step_turn.
Qed.

(** C7: The calls of the sound that a message makes depend on the message and
    on the state of the machine alone. *)
Theorem message_calls w m x w' i :
  run w → first_pending w = Some m → msgs (handler (fsm w)) !! m = Some x → deliver m w = Ok (0, w') →
  cur_state (fsm w) = Some i → sounds w' = sounds w ++ message_sound i x.
Proof. exact (message_does heard _ _ enter_makes process_makes w m x w' i). Qed.

(** *** Silence *)

(** In the state of waiting, the call that ends the sound is to come, or has
    come. *)
Definition silent (c : C) : Prop :=
  cur_state (fsm (machine c)) = Some 2%nat →
  (waiting c = [AudioStop] ∧ ∃ ret, caller (sound c) = Returned ret) ∨
  (waiting c = [] ∧ s_audio_running (sound c) = false ∧
    ((∃ ret, caller (sound c) = Returned ret) ∨ ∃ n ret, caller (sound c) = Stopping n ret)).

Lemma machine_turn_silent (c c' : C) :
  call_inv c → silent c → machine_turn c = Ok (tt, c') → silent c'.
Proof.
  intros [Hr _ _] Hs (ret & m & x & r & w' & Hc & Hw & Hf & Hx & E & ->)%machine_turn_inv. destruct (run_at_rest _ Hr) as (i & qs & ts & ps & Hrest).
  destruct (first_pending_head _ _ _ _ _ _ Hrest Hf) as [ps' ->]; [by eexists|].
  rewrite (deliver_makes _ _ _ _ _ _ _ _ _ Hrest Hx E), drop_app_length.
  destruct (message_rest _ _ _ _ _ _ _ _ _ Hrest Hf Hx E) as (?&?&?& Hrest').
  intros Hi. cbn [machine sound waiting] in *.
  pose proof (rest_state _ _ _ _ _ _ Hrest' : cur_state (fsm w') = _) as Hn.
  rewrite Hn in Hi. injection Hi as Hi.
  unfold message_sound, message_effect. rewrite Hi. unfold next_state in Hi. destruct (what x =? UPIL_EVT_SM_TRANSITION).
  - case_decide as Hd; [|left; by eauto]. subst i. destruct Hs as [[Hw2 _]|(_ & Hrun & H)].
    + by eapply rest_state. + congruence. + by right.
  - subst i. destruct Hs as [[Hw2 _]|(_ & Hrun & H)]; [by eapply rest_state|congruence|by right].
Qed.

Lemma stop_call rc (a : audio (Sp := Sp)) ret :
  caller a = Returned ret → perform sx Call_stop a = Ok (tt, set_caller (Stopping 30 0) (set_running false a)) ∧
  sound_call AudioStop rc = Some (Call_stop).
Proof. intros Hc. split; [|done]. unfold perform. by rewrite bind_get, Hc. Qed.

Lemma wake_silent rc (a : audio (Sp := Sp)) n ret :
  caller a = Stopping n ret → s_audio_running a = false →
  ends (perform sx (Wake rc)) a (λ _ a', s_audio_running a' = false ∧
    ((∃ r, caller a' = Returned r) ∨ ∃ n r, caller a' = Stopping n r)).
Proof.
  intros Hc Hr. unfold perform. apply ends_bind, ends_get. rewrite Hc. unfold stop_turn, return_.
  ends; (split; [done|]); simpl; eauto.
Qed.

Lemma call_step_silent (c c' : C) : call_inv c → silent c → call_step sx c c' → silent c'.
Proof.
  intros Hi Hs Hstep. pose proof Hi as [Hr Ha Hfn]. destruct Hstep as [w Ho ->|E|rc E|rc E|i env Henv E].
  - unfold silent. cbn [machine sound waiting lset call_machine]. by rewrite (outer_state _ _ Hr Ho).
  - by eapply machine_turn_silent.
  - apply next_call_inv in E as (o & rest & x & ret & a' & Hw & Hx & Hc & E & ->). intros H2.
    destruct (Hs H2) as [[Hw' _]|(Hw' & _)]; [|congruence]. rewrite Hw in Hw'. injection Hw' as -> ->.
    injection Hx as <-. rewrite (proj1 (stop_call rc _ ret Hc)) in E. injection E as <-.
    right. split; [done|]. split; [done|]. right. by eexists _, _.
  - apply wake_inv in E as (a' & E & ->). intros H2. right. cbn [machine sound waiting lset call_sound].
    assert (∀ r, caller (sound c) = Returned r → False) as Hret.
    { intros r Hc. unfold perform in E. by rewrite bind_get, Hc in E. }
    destruct (Hs H2) as [[_ [ret Hc]]|(Hw & Hrun & [[ret Hc]|(n & ret & Hc)])]; [by destruct (Hret _ Hc)..|].
    destruct (wake_silent rc _ n ret Hc Hrun tt a' E) as [? ?]. done.
  - destruct (sound_turn_inv i env c c' Hi E) as (a' & w' & Ep & -> & Hr' & Ho).
    unfold silent. cbn [machine sound waiting]. rewrite (outers_state _ _ Hr Ho).
    destruct (perform_turn_polite sx i env (sound c) tt a' Ep) as [Hm Hc Hrun _]. rewrite Hc.
    intros H2. destruct (Hs H2) as [H|(Hw & Hf & H)]; [by left|right]. split; [done|]. split; [|done].
    destruct (s_audio_running a'); [|done]. by rewrite Hrun in Hf.
Qed.

Lemma call_run_silent (c : C) : call_run sx c → silent c.
Proof.
  induction 1 as [w Hw|c c' Hc IH Hs]; [|by eapply call_step_silent; [apply call_run_inv| |]].
  intros H2. apply started_rest in Hw as (qs & ts & ps & Hr). apply rest_state in Hr.
  by assert (Some 0%nat = Some 2%nat) by (by rewrite <-Hr, <-H2).
Qed.

(** C8: When the machine waits for calls and the calls of its handlers are done,
    [s_audio_running] is not set: no thread copies sound after its next
    turn. *)
Theorem idle_is_silent (c : C) w :
  call_run sx c → waiting c = [] →
  upil_sm_get_current_state (machine c) = Ok (UPIL_SM_val UPIL_SM_IDLE, w) →
  s_audio_running (sound c) = false.
Proof.
  intros Hc Hw Hs. pose proof (call_run_inv c Hc) as [(i & qs & ts & ps & [Ht _])%run_at_rest _ _].
  pose proof (mo_state _ _ _ _ _ _ Ht) as [Hi Hlt]. cbn [states telephone lget world_fsm] in *.
  destruct (call_run_silent c Hc) as [[Hw' _]|(_ & H & _)]; [|congruence|done].
  revert Hs. unfold upil_sm_get_current_state. rewrite bind_gets, Hi. cbv iota beta. unfold lift.
  revert Hlt. clear. intros Hlt. do 7 (destruct i as [|i]; [by simpl; intros [= ?]|]). lia.
Qed.

(** *** The end of a call *)

(** As [run_schedule], with the calls back. *)
Fixpoint sound_schedule (xs : list (nat * turn_env)) : M C unit :=
  match xs with
  | [] => skip
  | (i, env) :: xs =>
      a ← gets sound;
      (match threads a !! i with Some Exited | None => skip | Some _ => sound_turn sx i env end);;
      sound_schedule xs
  end.

Lemma perform_turn i env (a : audio (Sp := Sp)) : perform sx (Turn i env) a = turn sx i env a.
Proof. unfold perform. rewrite bind_get. by destruct (caller a). Qed.

(** What the threads do alone they do in the whole. *)
Lemma sound_schedule_ok xs (c : C) a' :
  call_run sx c → Forall (λ x, env_sane (env_sys x.2)) xs → run_schedule sx xs (sound c) = Ok (tt, a') → ∃ w',
  sound_schedule xs c = Ok (tt, Call w' a' (waiting c)) ∧ call_run sx (Call w' a' (waiting c)) ∧
  rtc outer_step (machine c) w'.
Proof.
  revert c. induction xs as [|[i env] xs IH]; intros c Hc Hx.
  { intros [= <-]. exists (machine c). split; [by destruct c|]. split; [by destruct c|done]. }
  apply Forall_cons in Hx as [Henv Hx]. cbn [run_schedule sound_schedule snd] in *.
  rewrite bind_get, bind_gets. intros ([] & a1 & E1 & E2)%bind_inv.
  assert (∃ w1, (match threads (sound c) !! i with Some Exited | None => skip | Some _ => sound_turn sx i env end) c =
    Ok (tt, Call w1 a1 (waiting c)) ∧ call_run sx (Call w1 a1 (waiting c)) ∧ rtc outer_step (machine c) w1)
    as (w1 & E & Hc1 & Ho1).
  { assert (turn sx i env (sound c) = Ok (tt, a1) → ∃ w1, sound_turn sx i env c = Ok (tt, Call w1 a1 (waiting c)) ∧
      call_run sx (Call w1 a1 (waiting c)) ∧ rtc outer_step (machine c) w1) as Hturn.
    { rewrite <-perform_turn. intros (w1 & E & _ & Ho)%sound_turn_ok; [|by apply call_run_inv].
      exists w1. split; [done|]. split; [|done]. eapply call_next; [done|]. by eapply step_turn. }
    assert (Ok (tt, sound c) = Ok (tt, a1) → ∃ w1, skip c = Ok (tt, Call w1 a1 (waiting c)) ∧
      call_run sx (Call w1 a1 (waiting c)) ∧ rtc outer_step (machine c) w1) as Hskip.
    { intros [= <-]. exists (machine c). by destruct c. }
    destruct (threads (sound c) !! i) as [[]|]; auto. }
  destruct (IH _ Hc1 Hx E2) as (w2 & E3 & Hc2 & Ho2). exists w2. rewrite (bind_ok _ _ _ _ _ E).
  split; [done|]. split; [done|]. by etrans.
Qed.

(** C9: The machine that comes to wait for calls ends the sound, when each
    thread is past its start, and a recording has had its time checked at least
    once and has a function to call or its time is not up: when the machine's
    call of [upil_audio_stop] has begun and each thread has had three turns, in
    any order and with whatever it calls back, all threads have exited, and
    the caller's next look lets the machine go on, in the same state. *)
Theorem idle_ends_sound (c : C) xs rc ret :
  call_run sx c → waiting c = [AudioStop] → caller (sound c) = Returned ret →
  Forall (can_end (s_memo (sound c))) (threads (sound c)) → Forall (λ x, env_sane (env_sys x.2)) xs →
  (∀ i, (i < length (threads (sound c)))%nat → (3 ≤ chosen i xs)%nat) → ∃ c' c'',
  (next_call sx rc;; sound_schedule xs) c = Ok (tt, c') ∧ call_run sx c' ∧
  Forall (λ t, t = Exited) (threads (sound c')) ∧ cur_state (fsm (machine c')) = cur_state (fsm (machine c)) ∧
  wake sx rc c' = Ok (tt, c'') ∧ call_run sx c'' ∧ caller (sound c'') = Returned 0 ∧ waiting c'' = [].
Proof.
  intros Hc Hw Hret Hend Hsane Hx.
  destruct (stop_ends_threads sx (sound c) ret xs rc Hret Hend Hx) as (a' & a'' & E & Hex & _ & _ & Ew & Hr0 & _).
  apply bind_inv in E as ([] & a0 & E0 & E1).
  set (c0 := Call (machine c) a0 []).
  assert (next_call sx rc c = Ok (tt, c0)) as En.
  { unfold next_call. rewrite bind_get, Hw, bind_lift with (a := Call_stop) by done. rewrite Hret.
    rewrite bind_ok with (a := tt) (s' := Call (machine c) a0 [AudioStop]); [done|].
    unfold zoom. simpl. rewrite E0. by rewrite Hw. }
  assert (call_run sx c0) as Hc0 by (eapply call_next; [exact Hc|by eapply step_call]).
  destruct (sound_schedule_ok xs c0 a' Hc0 Hsane E1) as (w' & E & Hc' & Ho).
  exists (Call w' a' []), (Call w' a'' []). rewrite (bind_ok _ _ _ _ _ En).
  assert (wake sx rc (Call w' a' []) = Ok (tt, Call w' a'' [])) as Ek by (unfold wake, zoom; simpl; by rewrite Ew).
  split_and!; [done|done|done| |done| |done|done].
  - cbn [machine]. exact (outers_state (machine c) w' (call_of_run _ (call_run_inv c Hc)) Ho).
  - eapply call_next; [exact Hc'|by eapply step_wake].
Qed.
End call.
