(* ===== verification/Scenario.v ===== *)
(** * The daemon at work on concrete inputs

    The whole daemon, from its start: the loop of the machine runs at given
    times, the device and the sockets deliver given bytes.  The theorems are
    evaluations of the definitions; the reachable states they go through are
    the witnesses of RunProofs. *)

From stdpp Require Import strings.
From S2P Require Import Prelude CString Dll EventLoop EventLoopProofs Handler HandlerProofs.
From S2P Require Import Messages TpProtocol TpProofs StateMachine SendProofs Contract MachineProofs World UpilApi.
From S2P Require Import Receive ReceiveProofs Ril Monitor UpilSm UpilSmProofs Commands Daemon.
From S2P Require Import RunProofs EffectProofs DeviceProofs Ctrl CtrlProofs AtTok AtChannel RilTelephone ClccProofs.

(** ** The daemon before its start *)

Definition static_loop (l : list positive) : uew_context :=
  UewContext (UpileContext ∅ 0 (replicate MAX_FD_EVENTS None)
    (list_to_map ((λ p, (p, Links None None)) <$> l)) (list_to_map ((λ p, (p, zero_event)) <$> l))
    (Timeval 100 0)) 0 0 0 false.

Definition pool_fsm : FSM :=
  mkFSM [] false 0 None
    (mkHANDLER ∅ ∅ 16 no_callback 0 (static_loop [wakeupfd_event]) (λ n, n <? 65536)) [] [].

(** Writes to the device succeed; the local time is 2012-01-03, 03:02. *)
Definition quiet_device : device := Device zero_pdu 0 0 [] (λ _, 8) (λ _, true) (mkTm 112 0 1 2 3 4).

Definition resting_world : world :=
  World pool_fsm quiet_device
    (static_loop [wakeupfd_event; s_device_event; cmd_listen_event; cmd_commands_event;
                  mon_listen_event; mon_monitor_event; ril_listen_event; ril_commands_event])
    0 (CommandState [] false) (MonitorState 50 false) (RilState 60 0 0 [] false) 0 [].

Definition calm_system : system :=
  System [true] 20 (λ _, 21) (λ _, 22) (λ _, None) ([], 0) 0 (Some (30, 31)).

(** ** What happens *)

Definition wait_until (sec : Z) : MW unit := on_fsm_loop (modify (set_now (Timeval sec 0))).

(** The loop of the machine runs at [sec] until nothing is pending. *)
Definition run_at (sec : Z) : MW unit :=
  wait_until sec;;
  fsm_turn calm_system (λ _ _ _, (Timeval sec 0, Selected 0 ∅));;
  fsm_turn calm_system (λ _ _ _, (Timeval (sec + 1) 0, Selected 0 ∅));; skip.

(** A report of the device of one line, without parameters. *)
Definition report (cmd : TPEvent) : MW unit :=
  tpp_recv_event_cb ([HID_FLAG; 3; TP_FLAG; 1; TPEvent_val cmd; 5; 6; 7] ++ replicate 504 0) 8;; skip.

Definition boot : MW unit := upil_main calm_system [pool_fsm];; skip.

(** The daemon after [op], when that succeeds. *)
Definition after {A} (op : MW A) (w : world) : world :=
  match op w with Ok (_, w') => w' | Err _ => w end.

(** The states after each step, and the daemon at the end. *)
Fixpoint states_of (ops : list (MW unit)) (w : world) : res (list Z * world) :=
  match ops with
  | [] => Ok ([], w)
  | op :: ops' =>
      '(_, w) ← op w;
      '(s, _) ← upil_sm_get_current_state w;
      '(l, w) ← states_of ops' w;
      Ok (s :: l, w)
  end.

Definition trace (ops : list (MW unit)) : res (list Z) :=
  '(l, _) ← states_of ops resting_world; Ok l.

(** With what the monitor socket (50) got. *)
Definition monitored (ops : list (MW unit)) : res (list Z * list (list Z)) :=
  '(l, w) ← states_of ops resting_world;
  Ok (l, omap (λ o, match o with Sent 50 b => Some b | _ => None end) (out w)).

Definition to_idle : list (MW unit) := [boot; run_at 101; run_at 106; run_at 108].
Definition to_dialing : list (MW unit) :=
  to_idle ++ [upil_sm_start_dail (Some (lit "123"));; run_at 110; report TPP_EVT_HOOK_ON;; run_at 112].
Definition to_incoming : list (MW unit) :=
  to_idle ++ [report TPP_EVT_RING;; report TPP_EVT_RING;; run_at 110].

(** ** Calls *)

(** An outgoing call goes through the states it should: from the start
    of the daemon with its device to idle; the call is dialled once the line
    is off the hook, is a conversation six seconds later, and ends in idle
    when the line is on the hook again.  The monitor is told each state. *)
Theorem outgoing_call :
  monitored (to_dialing ++ [run_at 115; run_at 123; run_at 125; report TPP_EVT_HOOK_OFF;; run_at 128])
  = Ok ([0; 1; 2; 2; 2; 3; 3; 5; 5; 2],
        [lit "STATE OFFLINE"; lit "STATE SYNCING"; lit "STATE IDLE"; lit "STATE DIALING";
         lit "STATE CONVERSATION"; lit "STATE IDLE"]).
Proof. vm_compute. reflexivity. Qed.

Definition ring_at (sec : Z) : MW unit := wait_until sec;; report TPP_EVT_RING;; run_at (sec + 1).

(** A call that rings is announced, each further ring is reported, and
    the machine is idle again when it has not rung for eight seconds; when the
    telephone rings for 24 seconds the answering machine takes the call. *)
Theorem incoming_call_not_taken :
  monitored (to_incoming ++ [ring_at 115; run_at 121; run_at 126; run_at 128])
  = Ok ([0; 1; 2; 2; 4; 4; 4; 2; 2],
        [lit "STATE OFFLINE"; lit "STATE SYNCING"; lit "STATE IDLE"; lit "STATE INCOMING";
         lit "RING"; lit "STATE IDLE"]) ∧
  monitored (to_incoming ++ [ring_at 115; ring_at 120; ring_at 125; ring_at 130; run_at 137])
  = Ok ([0; 1; 2; 2; 4; 4; 4; 4; 4; 6],
        [lit "STATE OFFLINE"; lit "STATE SYNCING"; lit "STATE IDLE"; lit "STATE INCOMING";
         lit "RING"; lit "RING"; lit "RING"; lit "RING"; lit "STATE MEMO"]).
Proof. split; vm_compute; reflexivity. Qed.

(** A call that ends while it is dialled leaves the machine in a
    conversation that is not there: the report that the line is on the hook is
    dropped in the state of dialling, the check of the end of the dialling
    comes later, and nothing takes the machine back to idle. *)
Theorem hangup_while_dialing_lost :
  trace (to_dialing ++ [run_at 115; upil_sm_hangup;; run_at 116;
    report TPP_EVT_HOOK_OFF;; run_at 118; run_at 124; run_at 130; run_at 1000])
  = Ok [0; 1; 2; 2; 2; 3; 3; 3; 3; 5; 5; 5].
Proof. vm_compute. reflexivity. Qed.

(** The loop of the machine uses a message after its release, when the
    handler of a pending message cancels the next one: a ring and the end of
    the wait for it, in one turn. *)
Theorem ring_uses_released_message :
  monitored (to_incoming ++ [wait_until 117;; report TPP_EVT_RING;; run_at 125]) = Err Dangling.
Proof. vm_compute. reflexivity. Qed.

(** ** Reports *)

(** The number 5550, as the network sends it. *)
Definition caller_id : list Z :=
  [TP_FLAG; 10; TPEvent_val TPP_EVT_FSK_RX; 0; 0; 1; 3; 2; 1; 0x55; 0x50; 0xFF].

Lemma recv_report_witness :
  tpp_recv_event_cb (concat (hid_lines 64 caller_id) ++ replicate 496 0) 16 resting_world =
    (upil_sm_send_msg UPIL_EVT_CALL_ID (Some [53; 53; 53; 48]) 4;; mret 0) resting_world.
Proof.
  apply (recv_report_sends_event resting_world 10 [TPEvent_val TPP_EVT_FSK_RX; 0; 0; 1; 3; 2; 1; 0x55; 0x50; 0xFF]
    (replicate 496 0) (TPPReq UPIL_EVT_CALL_ID 4 [53; 53; 53; 48]));
    [reflexivity|reflexivity|lia|reflexivity].
Defined.

(** The acknowledgement of a command, in a line of its own, is accepted
    as the first line of a read; as the second line it overruns the buffer of
    the report, because its flag is cleared in the first line and 131 bytes
    of it are copied. *)
Theorem late_ack_overruns :
  let ack := [HID_FLAG; 0x83; TP_FLAG; 1; TPEvent_val TPP_EVT_RING; 5; 6; 7] in
  let line := hid_line [TP_FLAG; 1; TPEvent_val TPP_EVT_RING] in
  is_ok (tpp_recv_event_cb (ack ++ line ++ replicate 496 0) 16 (after boot resting_world)) = true ∧
  tpp_recv_event_cb (line ++ ack ++ replicate 496 0) 16 (after boot resting_world) = Err Overrun.
Proof. split; vm_compute; reflexivity. Qed.

(** ** Reachable states for RunProofs *)

(** The machine is started, the device is there, and its message is due. *)
Definition demo_start : world :=
  after (upil_sm_start (lit "MainSM") 0 (Some (30, 31)) [pool_fsm]) resting_world.
Definition demo_attach : world :=
  after (on_fsm_handler (sm_send_message_delay UPIL_EVT_USB_ATTACH None 0 0)) demo_start.
Definition demo_late : world := after (on_fsm_loop (modify (set_now (Timeval 101 0)))) demo_attach.
Definition demo_due : world := after (on_fsm_loop processTimeouts) demo_late.

Lemma after_ok {A} (op : MW A) w a : match op w with Ok (b, _) => Some b | Err _ => None end = Some a →
  op w = Ok (a, after op w).
Proof. unfold after. destruct (op w) as [[b w']|]; [by intros [= ->]|done]. Qed.

Lemma pool_startable : startable pool_fsm.
Proof.
  split; [|split; [reflexivity|split; [by vm_compute|constructor]]].
  assert (∀ {A} (x : A) p, is_Some ((list_to_map [(wakeupfd_event, x)] : gmap positive A) !! p) ↔
    p = wakeupfd_event) as Hs.
  { intros A x p. simpl. destruct (decide (p = wakeupfd_event)) as [->|].
    - rewrite lookup_insert_eq. split; eauto.
    - rewrite lookup_insert_ne, lookup_empty by done. split; [intros []; done|done]. }
  split; [reflexivity|reflexivity|exact (Hs _ _)|exact (Hs _ _)|by vm_compute].
Qed.

(** A step to a state that is the result of evaluating it. *)
Ltac step_to := match goal with
  | |- _ = Ok (_, ?w) => unfold w; apply after_ok; vm_compute; reflexivity
  end.

Lemma run_started : run demo_start.
Proof.
  apply run_start. eapply (started_from _ (lit "MainSM") 30 31 [pool_fsm] 0 pool_fsm resting_world);
    [reflexivity|reflexivity|apply pool_startable|by vm_compute|by vm_compute|step_to].
Qed.

Lemma run_attached : run demo_attach.
Proof.
  apply (run_outer _ _ _ demo_start demo_attach run_started).
  eapply (outer_send _ _ _ UPIL_EVT_USB_ATTACH None 0 0 0);
    [apply plain_message; by vm_compute|intros ?; lia|by vm_compute|step_to].
Qed.

Lemma run_demo : run demo_due.
Proof.
  assert (run demo_late) as H3.
  { apply (run_outer _ _ _ demo_attach demo_late run_attached).
    eapply (outer_clock _ _ _ (Timeval 101 0)); step_to. }
  apply (run_outer _ _ _ demo_late demo_due H3). eapply outer_timeouts; step_to.
Qed.

Lemma machine_invariant_witness : ∃ s : UPIL_SM,
  upil_sm_get_current_state demo_due = Ok (UPIL_SM_val s, demo_due).
Proof.
  destruct (machine_invariant demo_due run_demo) as (s & qs & ts & ps & H & _). exists s. exact H.
Defined.

Lemma machine_processes_message_witness : ∃ w',
  deliver 16 demo_due = Ok (0, w') ∧ msgs (handler (fsm w')) !! 16%positive = None.
Proof.
  destruct (machine_processes_message demo_due 16 (mkMSG UPIL_EVT_USB_ATTACH 0 None) run_demo) as [H _];
    [by vm_compute|by vm_compute|].
  destruct H as [(w' & i & E & _ & Hm & _)|[_ Hn]]; [discriminate..| |].
  - exists w'. exact (conj E Hm).
  - exfalso. apply Hn. intros l. reflexivity.
Defined.

Definition demo_done : world := after (deliver 16) demo_due.

(** The request for the next state is the one of the diagram. *)
Lemma machine_follows_diagram_witness : requests 0 UPIL_EVT_USB_ATTACH 1 = true.
Proof.
  apply (machine_follows_diagram demo_due 16 (mkMSG UPIL_EVT_USB_ATTACH 0 None) demo_done 0 17
    (mkMSG UPIL_EVT_SM_TRANSITION 4 (Some [1; 0; 0; 0; 0; 0])) [1; 0; 0; 0; 0; 0] 1 run_demo);
    first [step_to | by vm_compute].
Defined.

(** The device that is attached gets the commands of the start. *)
Definition demo_asked : world :=
  after (on_fsm_loop (modify (set_now (Timeval 102 0)));; on_fsm_loop processTimeouts) demo_done.
Definition demo_synced : world := after (deliver 17) demo_asked.

Lemma run_asked : run demo_asked.
Proof.
  assert (run demo_done) as H1.
  { apply (run_message _ _ _ demo_due demo_done 16 0 run_demo);
      [by vm_compute|eexists; vm_compute; reflexivity|step_to]. }
  set (late := after (on_fsm_loop (modify (set_now (Timeval 102 0)))) demo_done).
  assert (run late) as H2 by (apply (run_outer _ _ _ demo_done late H1); eapply (outer_clock _ _ _ (Timeval 102 0)); step_to).
  apply (run_outer _ _ _ late demo_asked H2). eapply outer_timeouts. unfold demo_asked. vm_compute. reflexivity.
Qed.

Lemma message_runs_commands_witness :
  run_commands (enter_commands 1) (dev demo_asked) = Ok (tt, dev demo_synced).
Proof.
  apply (message_runs_commands demo_asked 17 (mkMSG UPIL_EVT_SM_TRANSITION 4 (Some [1; 0; 0; 0; 0; 0]))
    demo_synced 0 run_asked); first [step_to | by vm_compute].
Defined.

(** A device that confirms no line: the machine waits after the first line of
    the first command, with the message in its hands. *)
Definition deafen (d : device) : device :=
  Device (s_pdu_buf d) (s_pdu_offset d) (broadcasts d) (dev_out d) (dev_write d) (λ _, false) (dev_time d).
Definition demo_deaf : world := lset (deafen (dev demo_asked)) demo_asked.

Lemma deaf_machine (w : world) d : (lget (lset (d : device) w) : FSM) = lget w.
Proof. by destruct w. Qed.

Lemma run_deaf : run demo_deaf.
Proof. exact (run_outer _ _ _ _ _ run_asked (outer_main _ _ _ (deaf_machine demo_asked _))). Qed.

Theorem unconfirmed_command_blocks :
  run demo_deaf ∧ first_pending demo_deaf = Some 17%positive ∧ deliver 17 demo_deaf = Err Blocked.
Proof. split; [exact run_deaf|split; [by vm_compute|vm_compute; reflexivity]]. Qed.

(** A turn of the loop serves the message, that is due since the second 100. *)
Definition at_101 : select_call := λ _ _ _, (Timeval 101 0, Selected 0 ∅).

Lemma turn_serves_due_witness : ∃ w',
  fsm_turn calm_system at_101 demo_attach = Ok (None, w') ∧
  first_pending w' = Some pending_list ∧ msgs (handler (fsm w')) !! 16%positive = None.
Proof.
  destruct (turn_serves_due calm_system at_101 demo_attach run_attached) as (tv & _ & H); [by vm_compute|].
  destruct (H (Timeval 101 0) 0 ∅ eq_refl) as [(w' & E & _ & _ & Hp & Hd)|(e & w1 & E & _)].
  - exists w'. split; [exact E|]. split; [exact Hp|].
    apply (Hd 16%positive (mkMSG UPIL_EVT_USB_ATTACH 0 None)). split; [by vm_compute|].
    exists (Timeval 100 0). split; [|left; by vm_compute]. eexists. split; [by vm_compute|reflexivity].
  - exfalso. assert (is_ok (fsm_turn calm_system at_101 demo_attach) = true) as Ho by by vm_compute.
    rewrite E in Ho. discriminate.
Defined.

(** ** The client and the started daemon *)

Lemma client_gets_state_witness :
  upil_ctrl_get_state (daemon_sys demo_due 50) demo_client =
    Ok ((0, Some (UPIL_SM_val UPIL_SM_OFFLINE)), sent UPIL_CTRL_GET_STATE demo_client).
Proof. apply (client_gets_state demo_due 50 demo_client UPIL_SM_OFFLINE). reflexivity. Defined.

Definition demo_dialled : world := after (upil_sm_start_dail (Some (lit "123"))) demo_due.

Lemma client_dial_witness :
  upil_ctrl_dial (daemon_sys demo_due 50) (Some (lit "123")) demo_client =
    Ok (0, sent (UPIL_CTRL_DIAL ++ lit "123") demo_client).
Proof.
  destruct (client_dial_reaches_machine demo_due 50 demo_client (lit "123") 0 demo_dialled)
    as (w2 & _ & _ & H); [discriminate|by apply (bool_decide_unpack _)|by vm_compute|step_to|].
  exact H.
Defined.

Lemma dialled_number_witness :
  processCommandBuffer 60 (dial_command [49; 50]) resting_world = dial_and_answer 60 [49] resting_world.
Proof. apply (dialled_number 60 [49; 50] resting_world); discriminate. Defined.
