(* ===== verification/CallScenario.v ===== *)
(** * The daemon and its sound on concrete inputs *)

From stdpp Require Import strings.
From S2P Require Import Prelude CString Dll EventLoop EventLoopProofs Handler HandlerProofs Messages TpProtocol TpProofs StateMachine.
From S2P Require Import SendProofs Contract MachineProofs World UpilApi Ril Monitor UpilSm UpilSmProofs Daemon RunProofs.
From S2P Require Import Pcm PcmIo PcmProofs Mixer MixerProofs Resampler ResamplerProofs UsbAudio UsbAudioProofs.
From S2P Require Import Wav WavProofs HostAudio HostAudioProofs AudioThreads AudioThreadsProofs CallAudio CallAudioProofs Scenario.

Definition welcome : list Z := header_bytes (track_header 48000 2 8) ++ [1; 2; 3; 4; 5; 6; 7; 8].

(** A card that opens and plays, and the file. *)
Definition play_env : turn_env :=
  TurnEnv (WavSystem demo_system (λ _, 3) demo_mixer) slow_track 1
    (λ _, Some welcome) false 0 (Timeval 0 0).

Abbreviation C := (@call (list Z)).

(** The calls of the sound, and the messages, until there are none. *)
Fixpoint settle (fuel : nat) : M C unit :=
  match fuel with
  | O => skip
  | S n =>
      c ← get;
      match caller (sound c), waiting c, next_message (machine c) with
      | Starting _, _, _ | Stopping _ _, _, _ => wake copy_speex 0;; settle n
      | Returned _, _ :: _, _ => next_call copy_speex 0;; settle n
      | Returned _, [], Some _ => machine_turn;; settle n
      | Returned _, [], None => skip
      end
  end.

(** At [sec], after [op], and one second later. *)
Definition at_time (sec : Z) (op : MW unit) : M C unit :=
  zoom (wait_until sec;; op;; on_fsm_loop processTimeouts);; settle 99;;
  zoom (wait_until (sec + 1);; on_fsm_loop processTimeouts);; settle 99.

Definition begin_call (op : MW unit) : res C :=
  '(_, w) ← op resting_world; Ok (Call w no_audio []).

(** The telephone rings for 24 seconds and the answering machine is on. *)
Definition to_memo : M C unit :=
  at_time 101 skip;; at_time 105 skip;;
  at_time 108 (report TPP_EVT_RING;; report TPP_EVT_RING);; at_time 110 skip;;
  at_time 115 (report TPP_EVT_RING);; at_time 121 (report TPP_EVT_RING);; at_time 127 (report TPP_EVT_RING);;
  at_time 132 (report TPP_EVT_RING);; at_time 135 skip.

Definition play_welcome : M C unit :=
  at_time 138 (report TPP_EVT_HOOK_ON);;
  sound_turn copy_speex 0 play_env;; sound_turn copy_speex 0 play_env;; sound_turn copy_speex 0 play_env;;
  sound_turn copy_speex 0 play_env;; sound_turn copy_speex 0 play_env.

Definition result {A} (op : M C A) (c : res C) : res C :=
  c ← c; '(_, c) ← op c; Ok c.

(** The state of the machine, the threads there are, what was called back. *)
Definition seen (c : res C) : res (option nat * nat * list audio_event * bool) :=
  c ← c; Ok (cur_state (fsm (machine c)), length (threads (sound c)), audio_log (sound c), s_audio_running (sound c)).

(** The answering machine takes a call, and plays the welcome to its end;
    its report that the recording can start has a number without a name, and
    the look-up of the name is outside of the table: the machine does not come
    to the recording. *)
Theorem answering_machine_overruns :
  seen (result to_memo (begin_call boot)) = Ok (Some 6%nat, 0%nat, [], false) ∧
  seen (result (to_memo;; play_welcome) (begin_call boot)) = Ok (Some 6%nat, 1%nat, [Endfunc begin_record_fn], true) ∧
  seen (result (to_memo;; play_welcome;; at_time 140 skip) (begin_call boot)) = Err Overrun.
Proof. split_and!; vm_compute; reflexivity. Qed.

(** ** Reachable states *)

Inductive move :=
  | Post (what : Z) (dat : option (list Z)) (size : Z)
  | Until (sec : Z)
  | Due
  | Process
  | Begin (rc : Z)
  | Look (rc : Z)
  | Thread (i : nat) (env : turn_env).

Definition make_move (x : move) : M C unit :=
  match x with
  | Post what dat size => zoom (on_fsm_handler (sm_send_message_delay what dat size 0));; skip
  | Until sec => zoom (wait_until sec)
  | Due => zoom (on_fsm_loop processTimeouts)
  | Process => machine_turn
  | Begin rc => next_call copy_speex rc
  | Look rc => wake copy_speex rc
  | Thread i env => sound_turn copy_speex i env
  end.

Definition move_ok (x : move) : Prop :=
  match x with
  | Post what dat size => msg_ok (new_MSG what dat size) ∧ data_ok dat size
  | Thread i env => env_sane (env_sys env)
  | _ => True
  end.

Fixpoint moves (xs : list move) : M C unit :=
  match xs with [] => skip | x :: xs => make_move x;; moves xs end.

Lemma zoom_machine {A} (op : MW A) (c c' : C) a :
  zoom op c = Ok (a, c') → ∃ w, op (machine c) = Ok (a, w) ∧ c' = lset w c.
Proof.
  unfold zoom. cbn [lget call_machine]. destruct (op (machine c)) as [[b w]|]; [|done]. intros [= <- <-]. by exists w.
Qed.

Lemma move_run x (c c' : C) : call_run copy_speex c → move_ok x → make_move x c = Ok (tt, c') → call_run copy_speex c'.
Proof.
  intros Hc Hx E. eapply call_next; [exact Hc|].
  destruct x; cbn [make_move move_ok] in *; [|apply zoom_machine in E as (w & E & ->)..| | | |].
  - apply bind_inv in E as (r & c1 & E & [= <-]). apply zoom_machine in E as (w & E & ->). destruct Hx.
    eapply step_outer; [|done]. eapply outer_send; [done..| |exact E]. by vm_compute.
  - eapply step_outer; [|done]. by eapply outer_clock.
  - eapply step_outer; [|done]. by eapply outer_timeouts.
  - by eapply step_machine.
  - by eapply step_call.
  - by eapply step_wake.
  - by eapply step_turn.
Qed.

Lemma moves_run xs (c c' : C) :
  call_run copy_speex c → Forall move_ok xs → moves xs c = Ok (tt, c') → call_run copy_speex c'.
Proof.
  revert c. induction xs as [|x xs IH]; intros c Hc Hxs; [by intros [= <-]|].
  apply Forall_cons in Hxs as [Hx Hxs]. cbn [moves]. intros ([] & c1 & E1 & E2)%bind_inv.
  eapply IH; [|done|exact E2]. by eapply move_run.
Qed.

(** To the state of dialling and back: the threads find no card. *)
Definition goes_to (id : UPIL_SM) : move := Post UPIL_EVT_SM_TRANSITION (Some (int_bytes id)) 4.
Definition dial_moves : list move :=
  [goes_to UPIL_SM_DIALING; Until 101; Due; Process; Begin 0; Thread 0 no_env] ++ replicate 21 (Look 0) ++
  [Thread 1 no_env; goes_to UPIL_SM_IDLE; Until 102; Due].

Definition from_start (xs : list move) : C :=
  match moves xs (Call demo_start no_audio []) with Ok (_, c) => c | Err _ => Call demo_start no_audio [] end.

Lemma goes_to_ok id : move_ok (goes_to id).
Proof.
  split; [|by intros _; exists (int_bytes id)]. exists (int_bytes id ++ [0; 0]), id.
  split; [done|]. rewrite bytes_int_ok; destruct id; by vm_compute.
Qed.

Lemma dial_moves_ok : Forall move_ok dial_moves.
Proof.
  unfold dial_moves. rewrite !Forall_app, !Forall_cons, !Forall_nil. split_and!; try done; try apply goes_to_ok.
  - apply demo_card_sane.
  - by apply Forall_replicate.
  - apply demo_card_sane.
Qed.

Lemma demo_started : started demo_start.
Proof.
  eapply (started_from _ (lit "MainSM") 30 31 [pool_fsm] 0 pool_fsm resting_world);
    [reflexivity|reflexivity|apply pool_startable|by vm_compute|by vm_compute|step_to].
Qed.

Lemma from_start_run xs : is_ok (moves xs (Call demo_start no_audio [])) = true → Forall move_ok xs →
  call_run copy_speex (from_start xs).
Proof.
  unfold from_start. intros Hok Hxs. destruct (moves xs _) as [[[] c]|] eqn:E; [|done].
  eapply moves_run; [apply call_begin, demo_started|done|exact E].
Qed.

Definition dialled : C := from_start dial_moves.
Definition hung_up : C := from_start (dial_moves ++ [Process]).

Lemma run_dialled : call_run copy_speex dialled.
Proof. apply from_start_run; [by vm_compute|apply dial_moves_ok]. Qed.
Lemma run_hung_up : call_run copy_speex hung_up.
Proof.
  apply from_start_run; [by vm_compute|]. apply Forall_app. split; [apply dial_moves_ok|by constructor].
Qed.

(** The same with the first thread before its start. *)
Definition starting : C := from_start (take 5 dial_moves).

Lemma call_run_refines_witness : ∃ c' a',
  perform copy_speex (Turn 0 no_env) (sound starting) = Ok (tt, a') ∧
  sound_turn copy_speex 0 no_env starting = Ok (tt, c') ∧ sound c' = a'.
Proof.
  assert (∃ a', perform copy_speex (Turn 0 no_env) (sound starting) = Ok (tt, a')) as [a' E]
    by (eexists; vm_compute; reflexivity).
  destruct (call_run_refines copy_speex starting) as (_ & _ & H).
  { apply from_start_run; [by vm_compute|]. apply Forall_take, dial_moves_ok. }
  destruct (H 0%nat no_env a' demo_card_sane E) as (c' & E' & _ & Ha). exists c', a'. exact (conj E (conj E' Ha)).
Defined.

Lemma message_calls_witness :
  sounds (machine hung_up) = sounds (machine dialled) ++ [AudioStop].
Proof.
  apply (message_calls (machine dialled) 17 (mkMSG UPIL_EVT_SM_TRANSITION 4 (Some [2; 0; 0; 0; 0; 0]))
    (machine hung_up) 3).
  - exact (proj1 (call_run_refines copy_speex dialled run_dialled)).
  - by vm_compute.
  - by vm_compute.
  - vm_compute. reflexivity.
  - by vm_compute.
Defined.

Definition stop_schedule : list (nat * turn_env) := (λ i, (i, no_env)) <$> [0%nat; 1%nat; 1%nat; 0%nat; 0%nat; 1%nat].

Lemma idle_ends_sound_witness : ∃ c' c'',
  (next_call copy_speex 0;; sound_schedule copy_speex stop_schedule) hung_up = Ok (tt, c') ∧ call_run copy_speex c' ∧
  Forall (λ t, t = Exited) (threads (sound c')) ∧
  cur_state (fsm (machine c')) = cur_state (fsm (machine hung_up)) ∧
  wake copy_speex 0 c' = Ok (tt, c'') ∧ call_run copy_speex c'' ∧ caller (sound c'') = Returned 0 ∧ waiting c'' = [].
Proof.
  apply (idle_ends_sound copy_speex hung_up stop_schedule 0 0 run_hung_up).
  - by vm_compute.
  - by vm_compute.
  - assert (threads (sound hung_up) = [Exited; Exited]) as -> by (by vm_compute). by repeat constructor.
  - repeat (constructor; [apply demo_card_sane|]). constructor.
  - assert (threads (sound hung_up) = [Exited; Exited]) as -> by (by vm_compute).
    intros [|[|i]] Hi; [unfold chosen; simpl; lia..|]. simpl in Hi. lia.
Defined.

(** The call of [upil_audio_stop] has been made, and has returned. *)
Definition silent_again : C := from_start (dial_moves ++ [Process; Begin 0; Look 0]).

Lemma idle_is_silent_witness : s_audio_running (sound dialled) = true ∧ s_audio_running (sound silent_again) = false.
Proof.
  split; [by vm_compute|].
  apply (idle_is_silent copy_speex silent_again (machine silent_again)).
  - apply from_start_run; [by vm_compute|]. apply Forall_app. split; [apply dial_moves_ok|by repeat constructor].
  - by vm_compute.
  - vm_compute. reflexivity.
Defined.
