(* ===== verification/TestScenario.v ===== *)
(** * The test programs at work on concrete inputs

    The programs of src/upil_test from their start: their loops run at given
    times.  The theorems are evaluations of the definitions. *)

From stdpp Require Import strings.
From S2P Require Import Prelude CString Dll EventLoop EventLoopProofs Handler HandlerProofs Messages.
From S2P Require Import StateMachine SendProofs Contract MachineProofs TurnProofs Scenario SmTest SmTestProofs HandlerTest.

(** [select] returns at [sec] and [usec]. *)
Definition woken_at (sec usec : Z) : select_call := λ _ _ _, (Timeval sec usec, Selected 0 ∅).

(** ** The machine *)

Definition test_clock (sec : Z) : MT unit := on_loop (modify (set_now (Timeval sec 0))).

Definition current_test_state : MT Z :=
  s ← gets (λ t, cur_state (machine t)); i ← lift (deref s); mret (Z.of_nat i).

(** [n] turns of the loop of [main], one each second from the second 100 on;
    the loop of the messages wakes up [usec] after each. *)
Fixpoint test_seconds (usec : Z) (n : nat) (states : list Z) : MT (list Z) :=
  match n with
  | O => mret (reverse states)
  | S n =>
      sec ← gets (λ t, 100 + count t);
      test_clock sec;;
      sm_test_turn;;
      sm_test_loop_turn (woken_at sec usec);;
      s ← current_test_state;
      test_seconds usec n (s :: states)
  end.

Definition test_program (usec : Z) (n : nat) : res (list Z) :=
  '(l, _) ← (sm_test_start skip 0 (Some (30, 31)) [pool_fsm];; test_seconds usec n [])
    (mkSmTest pool_fsm false 0);
  Ok l.

(** The states of the machine after each second. *)
Theorem test_states :
  test_program 0 24 = Ok [0; 0; 0; 0; 2; 2; 0; 0; 0; 0; 2; 0; 0; 0; 0; 0; 0; 0; 1; 1; 0; 0; 0; 0].
Proof. vm_compute. reflexivity. Qed.

(** The entry of state 0 cancels the message 1 that was the next one: after
    25 seconds, when the loop wakes up half a second late each time, it uses
    the message after its release. *)
Theorem test_uses_released_message :
  is_ok (test_program 500000 25) = true ∧ test_program 500000 26 = Err Dangling.
Proof. split; vm_compute; reflexivity. Qed.

(** ** A run *)

Definition demo_test : sm_test :=
  match sm_test_start skip 0 (Some (30, 31)) [pool_fsm] (mkSmTest pool_fsm false 0) with
  | Ok (_, t) => t
  | Err _ => mkSmTest pool_fsm false 0
  end.

Lemma demo_test_run : machine_run test_table test_machine (test_started skip) demo_test.
Proof.
  apply run_start. apply (test_started_from _ _ 30 31 [pool_fsm] 0 pool_fsm (mkSmTest pool_fsm false 0));
    [reflexivity|reflexivity| |by vm_compute|by vm_compute].
  split; [apply pool_startable|by vm_compute].
Qed.

Lemma test_program_runs_witness :
  (∃ t', sm_test_turn demo_test = Ok (tt, t') ∧ count t' = 1 ∧
     sent_to (handler (machine demo_test)) (handler (machine t')) 0 0) ∧
  (∃ t', sm_test_loop_turn (woken_at 102 0) demo_test = Ok (None, t') ∧
     msgs (handler (machine t')) !! 16%positive = None).
Proof.
  destruct (test_program_runs skip quiet_skip demo_test demo_test_run) as [H1 H2]. split.
  - destruct H1 as (t' & E & _ & _ & Hc & Hs); [by vm_compute|by vm_compute|].
    exists t'. split; [exact E|]. split; [rewrite Hc; by vm_compute|exact Hs].
  - destruct (H2 ltac:(by vm_compute) (Timeval 102 0) 0 ∅) as [(t' & E & _ & _ & Hd)|[E _]].
    + exists t'. split; [exact E|].
      apply (Hd 16%positive (mkMSG 0 0 None)). split; [by vm_compute|].
      exists (Timeval 101 0). split; [|left; by vm_compute]. eexists. split; [by vm_compute|reflexivity].
    + exfalso. assert (is_ok (sm_test_loop_turn (woken_at 102 0) demo_test) = true) as Ho by by vm_compute.
      unfold woken_at in Ho. rewrite E in Ho. discriminate.
Defined.

(** The older test ends with its first message: its handler returns 0, which
    the framework takes for a failure, and the loop of the messages ends.  The
    state it asks for is never entered. *)
Theorem upil_test_ends :
  let program := main_t 0 (Some (30, 31)) [pool_fsm];;
    test_clock 103;; r ← upil_test_loop_turn (woken_at 103 500000);
    s ← current_test_state; mret (r, s) in
  match program (mkSmTest pool_fsm false 0) with Ok (l, _) => Some l | Err _ => None end
  = Some (Some (-1), 0).
Proof. vm_compute. reflexivity. Qed.

(** ** The handler *)

(** The messages that are left after the turns at the given seconds. *)
Fixpoint handler_seconds (secs : list Z) : MH (list (list positive)) :=
  match secs with
  | [] => mret []
  | sec :: secs =>
      handler_test_turn (woken_at sec 0);;
      h ← get;
      l ← handler_seconds secs;
      mret (map fst (map_to_list (msgs h)) :: l)
  end.

(** [sleep(3)] ends at the second 103: the two messages are released in the
    turns after the seconds 107 and 108. *)
Theorem handler_test_releases :
  let program := handler_test_start 0 (Some (30, 31));;
    zoom (A := uew_context) (zoom (A := upile_context) (modify (set_now (Timeval 103 0))));;
    handler_test_send;; handler_seconds [104; 107; 108; 109; 110] in
  match program (handler pool_fsm) with Ok (l, _) => Some l | Err _ => None end
  = Some [[17; 16]; [17; 16]; [17]; []; []]%positive.
Proof. vm_compute. reflexivity. Qed.
